(** * BGPView: binary view codec, view-sender and archiver consumers, and
      the start-up and shutdown of the Kafka client

    A shallow embedding of the parts of BGPView that the specification's
    testable claims are about, and of the code around them:

    - [bgpview_io_file.c]: the magic-framed binary writer and reader
      ([check_magic], [write_ip], [read_ip], [write_peers], [write_paths],
      [write_pfxs], [read_peers], [read_paths], [read_pfxs],
      [bgpview_io_file_write], [bgpview_io_file_read]);
    - [bvc_viewsender.c]: [graphite_safe], [filter_ff] and the sync/diff
      decision of [bvc_viewsender_process_view];
    - [bvc_archiver.c]: [generate_file_name], [complete_file] and the
      rotation of the output file in [bvc_archiver_process_view];
    - [bgpview_io_kafka.c]: the outbound-queue drain loop of
      [bgpview_io_kafka_destroy], the retry loop of
      [bgpview_io_kafka_start], [kafka_topic_connect] and
      [bgpview_io_kafka_single_topic_connect].

    Integers are [Z] with the C truncations written out, bytes are
    [Init.Byte.byte], the khash maps of the view are [gmap]s, and the code
    that reads, writes and mutates is written in a small state-and-error
    monad. *)

From Stdlib Require Import ZArith List Lia Bool.
From coqutil Require Import Byte Word.LittleEndianList.
From stdpp Require Import base option list gmap fin_maps.

Local Open Scope Z_scope.

(* ===================================================================== *)
(** * Part I: definitions *)
(* ===================================================================== *)

(** ** Integer limits and the magic numbers of the file format *)

Definition UINT8_MAX : Z := 255.
Definition UINT16_MAX : Z := 65535.
Definition UINT32_MAX : Z := 4294967295.
Definition INT_MAX : Z := 2147483647.

Definition VIEW_MAGIC : Z := 0x42475056.          (* BGPV *)
Definition VIEW_START_MAGIC : Z := 0x53545254.    (* STRT *)
Definition VIEW_END_MAGIC : Z := 0x56454E44.      (* VEND *)
Definition VIEW_PEER_END_MAGIC : Z := 0x50454E44. (* PEND *)
Definition VIEW_PATH_END_MAGIC : Z := 0x50415448. (* PATH *)
Definition VIEW_PFX_END_MAGIC : Z := 0x58454E44.  (* XEND *)

Definition BUFFER_LEN : Z := 1024.

(** ** Bytes and byte order *)

#[global] Instance byte_eq_dec : EqDecision byte.
Proof.
  intros a b. destruct (Z.eq_dec (byte.unsigned a) (byte.unsigned b)) as [e|n].
  - left. apply byte.unsigned_inj, e.
  - right. intros ->. apply n. reflexivity.
Defined.

#[global] Instance byte_countable : Countable byte :=
  inj_countable' byte.unsigned byte.of_Z byte.of_Z_unsigned.

(** The byte order of the machine the code runs on. *)
Inductive byte_order := LittleEndian | BigEndian.

(** The [n] low bytes of [v], most significant first. *)
Definition be_bytes (n : nat) (v : Z) : list byte := rev (le_split n v).
Definition be_value (bs : list byte) : Z := le_combine (rev bs).

(** The in-memory representation of an [n]-byte unsigned integer. *)
Definition host_bytes (h : byte_order) (n : nat) (v : Z) : list byte :=
  match h with
  | LittleEndian => le_split n v
  | BigEndian => be_bytes n v
  end.

Definition host_value (h : byte_order) (bs : list byte) : Z :=
  match h with
  | LittleEndian => le_combine bs
  | BigEndian => be_value bs
  end.

(** [htons]/[htonl]: the value whose in-memory bytes are the big-endian
    bytes of the argument; [ntohs]/[ntohl]/[ntohll] are the converse. *)
Definition htons (h : byte_order) (v : Z) : Z := host_value h (be_bytes 2 v).
Definition htonl (h : byte_order) (v : Z) : Z := host_value h (be_bytes 4 v).
Definition ntohs (h : byte_order) (v : Z) : Z := be_value (host_bytes h 2 v).
Definition ntohl (h : byte_order) (v : Z) : Z := be_value (host_bytes h 4 v).
Definition ntohll (h : byte_order) (v : Z) : Z := be_value (host_bytes h 8 v).

(** ** A state-and-error monad for the imperative code

    [Val a s] is normal completion, [Err s] is the [goto err]/[return -1]
    path (the state reached so far stays visible to the caller), [Abort]
    is a tripped [assert], and [Undef] is behaviour the C standard leaves
    undefined (an out-of-bounds or uninitialised read, a NULL
    dereference). *)

Inductive res (S A : Type) : Type :=
| Val (a : A) (s : S)
| Err (s : S)
| Abort
| Undef.
Arguments Val {S A} a s.
Arguments Err {S A} s.
Arguments Abort {S A}.
Arguments Undef {S A}.

Definition M (S A : Type) : Type := S -> res S A.

Definition ret {S A} (a : A) : M S A := fun s => Val a s.
Definition bind {S A B} (m : M S A) (k : A -> M S B) : M S B :=
  fun s => match m s with
           | Val a s' => k a s'
           | Err s' => Err s'
           | Abort => Abort
           | Undef => Undef
           end.
Definition fail {S A} : M S A := fun s => Err s.
Definition abort {S A} : M S A := fun _ => Abort.
Definition undef {S A} : M S A := fun _ => Undef.
Definition get {S} : M S S := fun s => Val s s.
Definition put {S} (s : S) : M S unit := fun _ => Val tt s.
Definition assert {S} (b : bool) : M S unit := if b then ret tt else abort.

Notation "x <- c ;; k" := (bind c (fun x => k))
  (at level 100, c at next level, right associativity).
Notation "c ;;; k" := (bind c (fun _ => k))
  (at level 100, right associativity).

(** Loops. A body either continues with the next loop state or breaks. *)
Inductive ctl (A : Type) : Type :=
| Continue (a : A)
| Break (a : A).
Arguments Continue {A} a.
Arguments Break {A} a.

(** [for (i = 0; i < n; i++) body], the counter left implicit: the loop
    stops after [n] rounds or at the first [Break]. The result says which
    of the two it was. *)
Fixpoint loop_nat {S A} (n : nat) (body : A -> M S (ctl A)) (a : A)
  : M S (ctl A) :=
  match n with
  | O => ret (Continue a)
  | Datatypes.S n' =>
      c <- body a ;;
      match c with
      | Continue a' => loop_nat n' body a'
      | Break a' => ret (Break a')
      end
  end.

(** The same loop with the bound in binary, so that a bound such as
    [UINT32_MAX] can be run. *)
Fixpoint loop_pos {S A} (p : positive) (body : A -> M S (ctl A)) (a : A)
  : M S (ctl A) :=
  match p with
  | xH => body a
  | xO p' =>
      c <- loop_pos p' body a ;;
      match c with
      | Continue a' => loop_pos p' body a'
      | Break a' => ret (Break a')
      end
  | xI p' =>
      c <- body a ;;
      match c with
      | Continue a' =>
          c' <- loop_pos p' body a' ;;
          match c' with
          | Continue a'' => loop_pos p' body a''
          | Break a'' => ret (Break a'')
          end
      | Break a' => ret (Break a')
      end
  end.

Definition ctl_val {A} (c : ctl A) : A :=
  match c with Continue a => a | Break a => a end.

Definition for_loop {S A} (bound : Z) (body : A -> M S (ctl A)) (a : A)
  : M S A :=
  match bound with
  | Zpos p => c <- loop_pos p body a ;; ret (ctl_val c)
  | _ => ret a
  end.

(** ** The view data model (specification section 3)

    The view, its iterator and the two interning stores live in files that
    are not part of the sources at hand ([bgpview.c] and the stores of the
    BGPStream library). The definitions of this section are therefore
    modelled from the specification's data model and component design
    (sections 3, 4.1 to 4.4); each says which paragraph it follows. *)

(** An address: [version] and the raw address, kept here as the number whose
    big-endian bytes are the address bytes in memory. *)
Inductive ip_addr :=
| IPv4 (a : Z)
| IPv6 (a : Z)
| IPUnknown.

Record pfx := { address : ip_addr; mask_len : Z }.

Record peer_sig := {
  collector_str : list byte;
  peer_ip_addr : ip_addr;
  peer_asnumber : Z
}.

Record store_path := { sp_is_core : bool; sp_data : list byte }.

Record path_id := { store_index : Z; pid_is_core : bool }.

Record pfx_peer_info := { pp_path_id : path_id; pp_active : bool }.

#[global] Instance ip_addr_eq_dec : EqDecision ip_addr.
Proof. solve_decision. Defined.
#[global] Instance pfx_eq_dec : EqDecision pfx.
Proof. solve_decision. Defined.
#[global] Instance peer_sig_eq_dec : EqDecision peer_sig.
Proof. solve_decision. Defined.
#[global] Instance store_path_eq_dec : EqDecision store_path.
Proof. solve_decision. Defined.
#[global] Instance path_id_eq_dec : EqDecision path_id.
Proof. solve_decision. Defined.

Definition ip_addr_to_sum (i : ip_addr) : Z + (Z + unit) :=
  match i with
  | IPv4 a => inl a
  | IPv6 a => inr (inl a)
  | IPUnknown => inr (inr tt)
  end.
Definition ip_addr_of_sum (s : Z + (Z + unit)) : ip_addr :=
  match s with
  | inl a => IPv4 a
  | inr (inl a) => IPv6 a
  | inr (inr _) => IPUnknown
  end.
#[global] Instance ip_addr_countable : Countable ip_addr.
Proof.
  refine (inj_countable' ip_addr_to_sum ip_addr_of_sum _).
  intros []; reflexivity.
Defined.
#[global] Instance pfx_countable : Countable pfx.
Proof.
  refine (inj_countable' (fun q => (address q, mask_len q))
            (fun p => {| address := fst p; mask_len := snd p |}) _).
  intros []; reflexivity.
Defined.

(** Modelled from the spec: the view of section 3, [View = {time, peers,
    pfxs, path_store, sig_store}]. The signature store interns signatures
    to the IDs 1, 2, ... (position in the list plus one; ID 0 is reserved);
    the path store gives every stored path its position as index. A
    [PeerInfo] keeps the active flag; the prefix counts per family and the
    active flag of a prefix are derived from the pfx-peers (invariants 1
    and 3 of section 4.3). *)
Record bgpview := {
  view_time : Z;
  sig_store : list peer_sig;
  path_store : list store_path;
  peers : gmap Z bool;
  pfxs : gmap pfx (gmap Z pfx_peer_info)
}.

(** Modelled from the spec: the cursor of section 4.4, with its three
    sub-cursors. *)
Record bgpview_iter := {
  it_view : bgpview;
  it_peer : option Z;
  it_pfx : option pfx;
  it_pfx_peer : option Z
}.

Definition bgpview_iter_create (v : bgpview) : bgpview_iter :=
  {| it_view := v; it_peer := None; it_pfx := None; it_pfx_peer := None |}.

Definition bgpview_create : bgpview :=
  {| view_time := 0; sig_store := []; path_store := []; peers := ∅;
     pfxs := ∅ |}.

Definition bgpview_get_time (v : bgpview) : Z := view_time v.

Definition bgpview_set_time (v : bgpview) (t : Z) : bgpview :=
  {| view_time := t; sig_store := sig_store v; path_store := path_store v;
     peers := peers v; pfxs := pfxs v |}.

Definition set_peers (v : bgpview) (p : gmap Z bool) : bgpview :=
  {| view_time := view_time v; sig_store := sig_store v;
     path_store := path_store v; peers := p; pfxs := pfxs v |}.

Definition set_pfxs (v : bgpview) (q : gmap pfx (gmap Z pfx_peer_info))
  : bgpview :=
  {| view_time := view_time v; sig_store := sig_store v;
     path_store := path_store v; peers := peers v; pfxs := q |}.

Definition set_sig_store (v : bgpview) (s : list peer_sig) : bgpview :=
  {| view_time := view_time v; sig_store := s;
     path_store := path_store v; peers := peers v; pfxs := pfxs v |}.

Definition set_path_store (v : bgpview) (s : list store_path) : bgpview :=
  {| view_time := view_time v; sig_store := sig_store v;
     path_store := s; peers := peers v; pfxs := pfxs v |}.

Definition iter_set_view (it : bgpview_iter) (v : bgpview) : bgpview_iter :=
  {| it_view := v; it_peer := it_peer it; it_pfx := it_pfx it;
     it_pfx_peer := it_pfx_peer it |}.

(** Position of the first element equal to [x]. *)
Fixpoint index_of {A} `{EqDecision A} (x : A) (l : list A) : option nat :=
  match l with
  | [] => None
  | y :: l' => if decide (x = y) then Some O
               else option_map Datatypes.S (index_of x l')
  end.

(** Modelled from the spec: section 4.1, [lookup(PeerID)]. *)
Definition sig_lookup (store : list peer_sig) (id : Z) : option peer_sig :=
  if id <=? 0 then None else store !! Z.to_nat (id - 1).

(** Modelled from the spec: section 4.1, [intern]: idempotent, IDs are 16
    bit and the 65 535th interned signature fails with [Capacity] (the
    result 0, the reserved ID). *)
Definition sig_intern (store : list peer_sig) (s : peer_sig)
  : Z * list peer_sig :=
  match index_of s store with
  | Some i => (Z.of_nat i + 1, store)
  | None =>
      if Z.of_nat (length store) + 1 <? UINT16_MAX
      then (Z.of_nat (length store) + 1, store ++ [s])
      else (0, store)
  end.

(** Modelled from the spec: section 4.2, [get(PathID)]. *)
Definition bgpstream_as_path_store_get_store_path
  (store : list store_path) (id : path_id) : option store_path :=
  if store_index id <? 0 then None
  else match store !! Z.to_nat (store_index id) with
       | Some sp => if bool_decide (sp_is_core sp = pid_is_core id)
                    then Some sp else None
       | None => None
       end.

(** Modelled from the spec: section 4.2, [insert(encoding, is_core)],
    idempotent per [(encoding, is_core)]. *)
Definition bgpstream_as_path_store_insert_path
  (store : list store_path) (data : list byte) (is_core : bool)
  : path_id * list store_path :=
  let sp := {| sp_is_core := is_core; sp_data := data |} in
  match index_of sp store with
  | Some i => ({| store_index := Z.of_nat i; pid_is_core := is_core |}, store)
  | None => ({| store_index := Z.of_nat (length store);
                pid_is_core := is_core |}, store ++ [sp])
  end.

Definition bgpstream_as_path_store_path_get_idx (i : nat) : Z := Z.of_nat i.

(** Modelled from the spec: section 4.3, "InvalidArg for malformed
    prefixes". *)
Definition pfx_valid (q : pfx) : bool :=
  match address q with
  | IPv4 _ => (0 <=? mask_len q) && (mask_len q <=? 32)
  | IPv6 _ => (0 <=? mask_len q) && (mask_len q <=? 128)
  | IPUnknown => false
  end.

(** Modelled from the spec: section 4.3, [add_peer]: interns the signature
    and creates an inactive [PeerInfo] if the peer is new; the cursor is
    left on the peer. The result is the peer ID, 0 on failure. *)
Definition bgpview_iter_add_peer (it : bgpview_iter) (collector : list byte)
  (ip : ip_addr) (asn : Z) : Z * bgpview_iter :=
  let v := it_view it in
  let s := {| collector_str := collector; peer_ip_addr := ip;
              peer_asnumber := asn |} in
  let '(id, store') := sig_intern (sig_store v) s in
  if id =? 0 then (0, it)
  else
    let v1 := set_sig_store v store' in
    let v2 := match peers v !! id with
              | Some _ => v1
              | None => set_peers v1 (<[id := false]> (peers v))
              end in
    (id, {| it_view := v2; it_peer := Some id; it_pfx := it_pfx it;
            it_pfx_peer := it_pfx_peer it |}).

(** Modelled from the spec: section 4.3, [activate_peer]: the result says
    whether the state changed (-1 when the cursor is on no peer). *)
Definition bgpview_iter_activate_peer (it : bgpview_iter)
  : Z * bgpview_iter :=
  let v := it_view it in
  match it_peer it with
  | None => (-1, it)
  | Some id =>
      match peers v !! id with
      | None => (-1, it)
      | Some true => (0, it)
      | Some false => (1, iter_set_view it (set_peers v (<[id := true]> (peers v))))
      end
  end.

(** Modelled from the spec: section 4.3, [add_pfx_peer]: "inserts or
    updates; leaves state inactive". The peer has to be in the view and the
    prefix well formed; the cursors are left on the pfx-peer. *)
Definition bgpview_iter_add_pfx_peer_by_id (it : bgpview_iter) (q : pfx)
  (peer_id : Z) (pid : path_id) : Z * bgpview_iter :=
  let v := it_view it in
  match peers v !! peer_id with
  | None => (-1, it)
  | Some _ =>
      if pfx_valid q then
        let pm := default ∅ (pfxs v !! q) in
        let pm' := <[peer_id := {| pp_path_id := pid; pp_active := false |}]> pm in
        (0, {| it_view := set_pfxs v (<[q := pm']> (pfxs v));
               it_peer := Some peer_id; it_pfx := Some q;
               it_pfx_peer := Some peer_id |})
      else (-1, it)
  end.

(** Modelled from the spec: the same insertion at the prefix the pfx cursor
    is on. *)
Definition bgpview_iter_pfx_add_peer_by_id (it : bgpview_iter)
  (peer_id : Z) (pid : path_id) : Z * bgpview_iter :=
  match it_pfx it with
  | None => (-1, it)
  | Some q => bgpview_iter_add_pfx_peer_by_id it q peer_id pid
  end.

(** Modelled from the spec: section 4.3, [activate_pfx_peer]: "flips and
    propagates invariants 1-3"; the peer of an active pfx-peer is active.
    The result says whether the state changed, -1 without a pfx-peer under
    the cursor. *)
Definition bgpview_iter_pfx_activate_peer (it : bgpview_iter)
  : Z * bgpview_iter :=
  let v := it_view it in
  match it_pfx it, it_pfx_peer it with
  | Some q, Some id =>
      match pfxs v !! q with
      | None => (-1, it)
      | Some pm =>
          match pm !! id with
          | None => (-1, it)
          | Some info =>
              if pp_active info then (0, it)
              else
                let pm' := <[id := {| pp_path_id := pp_path_id info;
                                      pp_active := true |}]> pm in
                let v1 := set_pfxs v (<[q := pm']> (pfxs v)) in
                let v2 := set_peers v1 (<[id := true]> (peers v)) in
                (1, iter_set_view it v2)
          end
      end
  | _, _ => (-1, it)
  end.

(** Modelled from the spec: section 4.4, the sub-cursors restricted to the
    [ACTIVE] field: the active peers, the active pfx-peers of a prefix and
    the active prefixes (those with an active pfx-peer, invariant 1). The
    order is that of the underlying map. *)
Definition active_peers (v : bgpview) : list Z :=
  map fst (filter (fun e => snd e = true) (map_to_list (peers v))).

Definition active_pfx_peers (pm : gmap Z pfx_peer_info)
  : list (Z * pfx_peer_info) :=
  filter (fun e => pp_active (snd e) = true) (map_to_list pm).

Definition active_pfxs (v : bgpview) : list (pfx * gmap Z pfx_peer_info) :=
  filter (fun e => active_pfx_peers (snd e) <> []) (map_to_list (pfxs v)).

Definition is_ipv4 (q : pfx) : bool :=
  match address q with IPv4 _ => true | _ => false end.
Definition is_ipv6 (q : pfx) : bool :=
  match address q with IPv6 _ => true | _ => false end.

(** Modelled from the spec: invariant 3 of section 4.3 (property P2), the
    number of active pfx-peers of a peer, by address family. *)
Definition pfx_peer_is_active (pm : gmap Z pfx_peer_info) (id : Z) : bool :=
  match pm !! id with
  | Some info => pp_active info
  | None => false
  end.

Definition peer_pfx_cnt (v : bgpview) (fam : pfx -> bool) (id : Z) : Z :=
  Z.of_nat (length (filter
    (fun e => fam (fst e) && pfx_peer_is_active (snd e) id = true)
    (map_to_list (pfxs v)))).

(** ** File I/O primitives ([wandio]) *)

(** The output file: the bytes written so far. Writes do not fail. *)
Definition iow_t := list byte.

Definition wandio_wwrite (bs : list byte) : M iow_t Z :=
  fun out => Val (Z.of_nat (length bs)) (out ++ bs).

(** The input file: the bytes not yet consumed. When a [READ_VAL] gets
    fewer bytes than the variable has, the rest of the variable keeps what
    it held before; [stale] supplies those bytes (zero when it runs out). *)
Record io_t := { avail : list byte; stale : list byte }.

(** The reader's state: the input file and the iterator on the caller's
    view ([None] when the caller passed no view). *)
Record rstate := { infile : io_t; r_iter : option bgpview_iter }.

Definition wandio_read (n : nat) : M rstate (list byte) :=
  fun s =>
    let io := infile s in
    Val (firstn n (avail io))
        {| infile := {| avail := skipn n (avail io); stale := stale io |};
           r_iter := r_iter s |}.

Definition wandio_peek (n : nat) : M rstate (list byte) :=
  fun s => Val (firstn n (avail (infile s))) s.

Definition zero_byte : byte := byte.of_Z 0.

(** [p == NULL] *)
Definition is_NULL {A} (p : option A) : bool :=
  match p with None => true | Some _ => false end.

(** The bytes of an [n]-byte variable after a read into it. *)
Definition fill_stale (n : nat) (got : list byte) (junk : list byte)
  : list byte :=
  got ++ firstn (n - length got) (junk ++ repeat zero_byte n).

(** The C string held by a character buffer: the bytes before the first
    NUL. *)
Fixpoint c_string (bs : list byte) : list byte :=
  match bs with
  | [] => []
  | b :: bs' => if decide (b = zero_byte) then [] else b :: c_string bs'
  end.

Section Codec.

(** The byte order of the machine; writer and reader run on the same. *)
Variable host : byte_order.

(* ---------- UTILITIES ---------- *)

Definition WRITE_VAL (n : nat) (from : Z) : M iow_t unit :=
  _ <- wandio_wwrite (host_bytes host n from) ;; ret tt.

Definition WRITE_MAGIC (magic : Z) : M iow_t unit :=
  WRITE_VAL 4 (htonl host VIEW_MAGIC) ;;;
  WRITE_VAL 4 (htonl host magic).

Definition READ_VAL (n : nat) : M rstate Z :=
  fun s =>
    let io := infile s in
    let got := firstn n (avail io) in
    Val (host_value host (fill_stale n got (stale io)))
        {| infile := {| avail := skipn n (avail io);
                        stale := skipn (n - length got) (stale io) |};
           r_iter := r_iter s |}.

(** Checks if the given magic number is present in the file. If it is, the
    magic is consumed, otherwise the stream is left untouched. *)
Definition check_magic (magic : Z) : M rstate Z :=
  bs <- wandio_peek 8 ;;
  if negb (length bs =? 8)%nat then ret 0
  else
    let buf := ntohll host (host_value host bs) in
    (* check the generic magic *)
    let mgc := Z.shiftr buf 32 mod 2 ^ 32 in
    if negb (mgc =? VIEW_MAGIC) then ret 0
    else
      (* now, check the specific magic *)
      let mgc := Z.land buf 0xffffffff in
      if negb (mgc =? magic) then ret 0
      else
        (* now consume the magic! *)
        rd <- wandio_read 8 ;;
        assert (length rd =? 8)%nat ;;;
        ret 1.

Definition write_ip (ip : ip_addr) : M iow_t Z :=
  match ip with
  | IPv4 a =>
      WRITE_VAL 1 4 ;;;
      n <- wandio_wwrite (be_bytes 4 a) ;;
      if n =? 4 then ret 0 else ret (-1)
  | IPv6 a =>
      WRITE_VAL 1 16 ;;;
      n <- wandio_wwrite (be_bytes 16 a) ;;
      if n =? 16 then ret 0 else ret (-1)
  | IPUnknown => ret (-1)
  end.

Definition read_ip : M rstate ip_addr :=
  len <- READ_VAL 1 ;;
  (* 4 bytes means ipv4, 16 means ipv6 *)
  if len =? 4 then
    bs <- wandio_read 4 ;;
    if negb (length bs =? 4)%nat then fail else ret (IPv4 (be_value bs))
  else if len =? 16 then
    bs <- wandio_read 16 ;;
    if negb (length bs =? 16)%nat then fail else ret (IPv6 (be_value bs))
  else
    (* invalid ip address *)
    fail.

(** What the caller's filter is asked about. *)
Inductive bgpview_io_filter_type_t :=
| BGPVIEW_IO_FILTER_PEER
| BGPVIEW_IO_FILTER_PFX
| BGPVIEW_IO_FILTER_PFX_PEER.

#[global] Instance bgpview_io_filter_type_eq_dec
  : EqDecision bgpview_io_filter_type_t.
Proof. solve_decision. Defined.

Definition bgpview_io_filter_cb_t : Type :=
  bgpview_iter -> bgpview_io_filter_type_t -> Z.

(** [if (cb != NULL) { if ((filter = cb(..)) < 0) goto err;
    if (filter == 0) continue; }]: the result says whether the element is
    wanted. *)
Definition ask_filter {S X} (cb : option (X -> Z)) (x : X) : M S bool :=
  match cb with
  | None => ret true
  | Some f => if f x <? 0 then fail else ret (negb (f x =? 0))
  end.

(** [for (first; has_more; next)] over the elements of a container. *)
Fixpoint foreach {S A B} (l : list B) (body : B -> A -> M S A) (a : A)
  : M S A :=
  match l with
  | [] => ret a
  | x :: l' => a' <- body x a ;; foreach l' body a'
  end.

Definition iter_seek_peer (it : bgpview_iter) (id : Z) : bgpview_iter :=
  {| it_view := it_view it; it_peer := Some id; it_pfx := it_pfx it;
     it_pfx_peer := it_pfx_peer it |}.

Definition iter_seek_pfx (it : bgpview_iter) (q : pfx) : bgpview_iter :=
  {| it_view := it_view it; it_peer := it_peer it; it_pfx := Some q;
     it_pfx_peer := None |}.

Definition iter_seek_pfx_peer (it : bgpview_iter) (id : Z) : bgpview_iter :=
  {| it_view := it_view it; it_peer := Some id; it_pfx := it_pfx it;
     it_pfx_peer := Some id |}.

Definition bgpview_iter_peer_get_sig (it : bgpview_iter) : option peer_sig :=
  match it_peer it with
  | Some id => sig_lookup (sig_store (it_view it)) id
  | None => None
  end.

(* ---------- WRITER ---------- *)

Definition write_peers (it : bgpview_iter)
  (cb : option bgpview_io_filter_cb_t) : M iow_t Z :=
  (* foreach peer, send peerid, collector string, peer ip (version,
     address), peer asn *)
  peers_tx <-
    foreach (active_peers (it_view it)) (fun id peers_tx =>
      let it := iter_seek_peer it id in
      (* ask the caller if they want this peer *)
      want <- ask_filter (option_map (fun f it => f it BGPVIEW_IO_FILTER_PEER) cb) it ;;
      if negb want then ret peers_tx
      else
        (* past here means this peer is being sent *)
        let peers_tx := peers_tx + 1 in
        (* peer id *)
        WRITE_VAL 2 (htons host id) ;;;
        match bgpview_iter_peer_get_sig it with
        | None => abort
        | Some ps =>
            let siglen := Z.of_nat (length (c_string (collector_str ps))) in
            assert (siglen <=? UINT8_MAX) ;;;
            WRITE_VAL 1 siglen ;;;
            n <- wandio_wwrite (firstn (Z.to_nat siglen) (collector_str ps)) ;;
            if negb (n =? siglen) then fail
            else
              (* peer IP address *)
              r <- write_ip (peer_ip_addr ps) ;;
              if negb (r =? 0) then fail
              else
                (* peer AS number *)
                WRITE_VAL 4 (htonl host (peer_asnumber ps)) ;;;
                ret peers_tx
        end) 0 ;;
  (* write end-of-peers magic number *)
  WRITE_MAGIC VIEW_PEER_END_MAGIC ;;;
  (* now send the number of peers for cross validation *)
  assert (peers_tx <=? UINT16_MAX) ;;;
  WRITE_VAL 2 (htons host peers_tx) ;;;
  ret 0.

Definition write_paths (it : bgpview_iter) : M iow_t Z :=
  (* foreach path, send pathid and path *)
  paths_tx <-
    foreach (imap (fun i sp => (i, sp)) (path_store (it_view it)))
      (fun e paths_tx =>
        let paths_tx := (paths_tx + 1) mod 2 ^ 32 in
        let idx := bgpstream_as_path_store_path_get_idx (fst e) in
        let is_core := if sp_is_core (snd e) then 1 else 0 in
        let path_data := sp_data (snd e) in
        let path_len := Z.of_nat (length path_data) in
        (* add the path index *)
        WRITE_VAL 4 idx ;;;
        (* is this a core path? *)
        WRITE_VAL 1 is_core ;;;
        (* add the path len *)
        WRITE_VAL 2 path_len ;;;
        n <- wandio_wwrite path_data ;;
        if negb (n =? path_len) then fail else ret paths_tx) 0 ;;
  (* write end-of-paths magic number *)
  WRITE_MAGIC VIEW_PATH_END_MAGIC ;;;
  (* now send the number of paths for cross validation *)
  assert (paths_tx <=? UINT32_MAX) ;;;
  WRITE_VAL 4 (htonl host paths_tx) ;;;
  ret 0.

(** The result is [*peers_cnt]. *)
Definition write_pfx_peers (it : bgpview_iter) (pm : gmap Z pfx_peer_info)
  (cb : option bgpview_io_filter_cb_t) : M iow_t Z :=
  foreach (active_pfx_peers pm) (fun e peers_cnt =>
    let it := iter_seek_pfx_peer it (fst e) in
    (* ask the caller if they want this peer *)
    want <- ask_filter (option_map (fun f it => f it BGPVIEW_IO_FILTER_PFX_PEER) cb) it ;;
    if negb want then ret peers_cnt
    else
      let peerid := fst e in
      (* peer id *)
      assert (peerid >? 0) ;;;
      WRITE_VAL 2 (htons host peerid) ;;;
      (* AS Path Index *)
      match bgpstream_as_path_store_get_store_path
              (path_store (it_view it)) (pp_path_id (snd e)) with
      | None => undef
      | Some _ =>
          let idx := store_index (pp_path_id (snd e)) in
          WRITE_VAL 4 idx ;;;
          ret (peers_cnt + 1)
      end) 0.

Definition write_pfxs (it : bgpview_iter)
  (cb : option bgpview_io_filter_cb_t) : M iow_t Z :=
  pfx_cnt <-
    foreach (active_pfxs (it_view it)) (fun e pfx_cnt =>
      let it := iter_seek_pfx it (fst e) in
      (* ask the caller if they want this pfx *)
      want <- ask_filter (option_map (fun f it => f it BGPVIEW_IO_FILTER_PFX) cb) it ;;
      if negb want then ret pfx_cnt
      else
        let q := fst e in
        (* pfx address *)
        r <- write_ip (address q) ;;
        if negb (r =? 0) then fail
        else
          (* pfx len *)
          WRITE_VAL 1 (mask_len q) ;;;
          (* send the peers *)
          peers_cnt <- write_pfx_peers it (snd e) cb ;;
          (* for a pfx to be sent it must have active peers *)
          if peers_cnt =? 0 then ret pfx_cnt
          else
            (* write end-of-peers magic *)
            WRITE_MAGIC VIEW_PEER_END_MAGIC ;;;
            (* peer cnt for cross validation *)
            assert (peers_cnt >? 0) ;;;
            WRITE_VAL 2 (htons host peers_cnt) ;;;
            ret (pfx_cnt + 1)) 0 ;;
  (* write end-of-pfxs magic *)
  WRITE_MAGIC VIEW_PFX_END_MAGIC ;;;
  (* send pfx cnt for cross-validation *)
  WRITE_VAL 4 (htonl host pfx_cnt) ;;;
  ret 0.

(** The result 0 is [Val 0], the result -1 is [Err]. *)
Definition bgpview_io_file_write (view : option bgpview)
  (cb : option bgpview_io_filter_cb_t) : M iow_t Z :=
  match view with
  | None => ret 0 (* no-op *)
  | Some view =>
      let it := bgpview_iter_create view in
      (* start magic *)
      WRITE_MAGIC VIEW_START_MAGIC ;;;
      (* time *)
      WRITE_VAL 4 (htonl host (bgpview_get_time view)) ;;;
      write_peers it cb ;;;
      write_paths it ;;;
      write_pfxs it cb ;;;
      (* write end-of-view magic number *)
      WRITE_MAGIC VIEW_END_MAGIC ;;;
      ret 0
  end.

(* ---------- READER ---------- *)

Definition bgpview_io_filter_peer_cb_t : Type := peer_sig -> Z.
Definition bgpview_io_filter_pfx_cb_t : Type := pfx -> Z.
Definition bgpview_io_filter_pfx_peer_cb_t : Type := store_path -> Z.

(** [iter == NULL] *)
Definition iter_is_null : M rstate bool :=
  fun s => Val (is_NULL (r_iter s)) s.

(** A call of a view function through the iterator. *)
Definition with_iter {A} (f : bgpview_iter -> A * bgpview_iter)
  : M rstate A :=
  fun s =>
    match r_iter s with
    | None => Undef
    | Some it =>
        Val (fst (f it)) {| infile := infile s; r_iter := Some (snd (f it)) |}
    end.

(** The peer ID map: an array indexed by the writer's peer ID, with
    [idmap_cnt] its length. The result of [read_peers] is the array; the
    C function returns its length and stores the array through
    [peerid_mapping]. *)

(** One round of the loop of [read_peers], on [idmap] and [peers_rx]. *)
Definition read_peers_body (peer_cb : option bgpview_io_filter_peer_cb_t)
  (st : list Z * Z) : M rstate (ctl (list Z * Z)) :=
  let '(idmap, peers_rx) := st in
  (* peerid (or end-of-peers) *)
  m <- check_magic VIEW_PEER_END_MAGIC ;;
  if negb (m =? 0) then ret (Break (idmap, peers_rx))
  else
    peerid_orig <- READ_VAL 2 ;;
    let peerid_orig := ntohs host peerid_orig in
    (* by here we have a valid peer to receive *)
    let peers_rx := peers_rx + 1 in
    (* collector name *)
    len <- READ_VAL 1 ;;
    col <- wandio_read (Z.to_nat len) ;;
    if negb (Z.of_nat (length col) =? len) then fail
    else
      let collector := c_string col in
      (* peer ip *)
      ip <- read_ip ;;
      (* peer asn *)
      asn <- READ_VAL 4 ;;
      let asn := ntohl host asn in
      null <- iter_is_null ;;
      if null then ret (Continue (idmap, peers_rx))
      else
        (* all code below here has a valid view *)
        (* ask the caller if they want this peer *)
        want <- ask_filter peer_cb
                  {| collector_str := collector; peer_ip_addr := ip;
                     peer_asnumber := asn |} ;;
        if negb want then ret (Continue (idmap, peers_rx))
        else
          (* ensure we have enough space in the id map; now set all
             ids to 0 (reserved) *)
          let idmap_cnt := Z.of_nat (length idmap) in
          let idmap :=
            if peerid_orig + 1 >? idmap_cnt
            then idmap ++ repeat 0 (Z.to_nat (peerid_orig + 1 - idmap_cnt))
            else idmap in
          (* now ask the view to add this peer *)
          peerid_new <- with_iter (fun it =>
                          bgpview_iter_add_peer it collector ip asn) ;;
          assert (negb (peerid_new =? 0)) ;;;
          let idmap := <[Z.to_nat peerid_orig := peerid_new]> idmap in
          _ <- with_iter bgpview_iter_activate_peer ;;
          ret (Continue (idmap, peers_rx)).

Definition read_peers (peer_cb : option bgpview_io_filter_peer_cb_t)
  : M rstate (list Z) :=
  (* foreach peer, read peerid, collector string, peer ip (version,
     address), peer asn *)
  st <- for_loop UINT16_MAX (read_peers_body peer_cb) ([], 0) ;;
  let '(idmap, peers_rx) := st in
  (* receive the number of peers *)
  pc <- READ_VAL 2 ;;
  let pc := ntohs host pc in
  assert (pc =? peers_rx) ;;;
  ret idmap.

(** The path ID map: an array indexed by the writer's path index, of
    [pm_cnt] elements. [realloc] leaves new elements uninitialised, so
    only the indices in [pm_ids] hold a value. *)
Record path_idmap := { pm_cnt : Z; pm_ids : gmap Z path_id }.

(** [(int)u] for a 32-bit unsigned [u]. *)
Definition to_int (u : Z) : Z := if u <? 2 ^ 31 then u else u - 2 ^ 32.

(** [pathid_map[pathidx]] as an rvalue. *)
Definition pathid_map_get {S} (m : path_idmap) (pathidx : Z) : M S path_id :=
  if pathidx <? pm_cnt m then
    match pm_ids m !! pathidx with
    | Some id => ret id
    | None => undef
    end
  else undef.

Definition view_insert_path (data : list byte) (is_core : Z)
  (it : bgpview_iter) : path_id * bgpview_iter :=
  let v := it_view it in
  let r := bgpstream_as_path_store_insert_path (path_store v) data
             (negb (is_core =? 0)) in
  (fst r, iter_set_view it (set_path_store v (snd r))).

(** One round of the loop of [read_paths], on [idmap] and [paths_rx]. *)
Definition read_paths_body (st : path_idmap * Z)
  : M rstate (ctl (path_idmap * Z)) :=
  let '(idmap, paths_rx) := st in
  (* pathid (or end-of-paths) *)
  m <- check_magic VIEW_PATH_END_MAGIC ;;
  if negb (m =? 0) then ret (Break (idmap, paths_rx))
  else
    (* by here we have a valid path to receive *)
    let paths_rx := paths_rx + 1 in
    (* path idx *)
    pathidx <- READ_VAL 4 ;;
    (* is core *)
    is_core <- READ_VAL 1 ;;
    (* path len *)
    pathlen <- READ_VAL 2 ;;
    (* path data *)
    assert (pathlen <=? BUFFER_LEN) ;;;
    pathdata <- wandio_read (Z.to_nat pathlen) ;;
    if negb (Z.of_nat (length pathdata) =? pathlen) then fail
    else
      null <- iter_is_null ;;
      if null then ret (Continue (idmap, paths_rx))
      else
        (* ensure we have enough space in the id map *)
        idmap_cnt <-
          (if (pathidx + 1) mod 2 ^ 32 >? pm_cnt idmap then
             let cnt := if pathidx =? 0 then 1
                        else to_int ((pathidx * 2) mod 2 ^ 32) in
             (* realloc of a negative number of elements fails; what it
                does for no elements is left to the C library: it may
                give a pointer, and the write to [idmap[pathidx]] below
                is then out of bounds *)
             if cnt <? 0 then fail
             else if cnt =? 0 then undef
             else ret cnt
           else ret (pm_cnt idmap)) ;;
        (* now add this path to the store *)
        id <- with_iter (view_insert_path pathdata is_core) ;;
        if pathidx <? idmap_cnt then
          ret (Continue ({| pm_cnt := idmap_cnt;
                            pm_ids := <[pathidx := id]> (pm_ids idmap) |},
                         paths_rx))
        else undef.

Definition read_paths : M rstate path_idmap :=
  (* loop until we find the path end magic number *)
  st <- for_loop UINT32_MAX read_paths_body
          ({| pm_cnt := 0; pm_ids := ∅ |}, 0) ;;
  let '(idmap, paths_rx) := st in
  (* receive the number of paths *)
  pc <- READ_VAL 4 ;;
  let pc := ntohl host pc in
  assert (pc =? paths_rx) ;;;
  ret idmap.

Definition get_path_store : M rstate (list store_path) :=
  fun s => match r_iter s with
           | None => Undef
           | Some it => Val (path_store (it_view it)) s
           end.

(** One round of the inner loop of [read_pfxs], over the pfx-peers of the
    prefix [q], on [pfx_peers_added] and [pfx_peer_rx]. *)
Definition read_pfx_peers_body
  (pfx_peer_cb : option bgpview_io_filter_pfx_peer_cb_t)
  (peerid_map : list Z) (pathid_map : path_idmap) (q : pfx)
  (skip_pfx : bool) (st : Z * Z) : M rstate (ctl (Z * Z)) :=
  let peerid_map_cnt := Z.of_nat (length peerid_map) in
  let '(pfx_peers_added, pfx_peer_rx) := st in
  m <- check_magic VIEW_PEER_END_MAGIC ;;
  if negb (m =? 0) then ret (Break (pfx_peers_added, pfx_peer_rx))
  else
    (* peer id *)
    peerid <- READ_VAL 2 ;;
    let peerid := ntohs host peerid in
    let pfx_peer_rx := pfx_peer_rx + 1 in
    (* AS Path Index *)
    pathidx <- READ_VAL 4 ;;
    null <- iter_is_null ;;
    if null || skip_pfx
    then ret (Continue (pfx_peers_added, pfx_peer_rx))
    else
      (* all code below here has a valid iter *)
      assert (peerid <? peerid_map_cnt) ;;;
      want <-
        match pfx_peer_cb with
        | None => ret true
        | Some _ =>
            (* get the store path using the id *)
            pid <- pathid_map_get pathid_map pathidx ;;
            store <- get_path_store ;;
            match bgpstream_as_path_store_get_store_path store pid with
            | None => undef
            | Some store_path =>
                (* ask the caller if they want this pfx-peer *)
                ask_filter pfx_peer_cb store_path
            end
        end ;;
      if negb want then ret (Continue (pfx_peers_added, pfx_peer_rx))
      else
        pid <- pathid_map_get pathid_map pathidx ;;
        let local_peer := nth (Z.to_nat peerid) peerid_map 0 in
        r <- (if pfx_peers_added =? 0 then
                (* we have to use add_pfx_peer *)
                with_iter (fun it =>
                  bgpview_iter_add_pfx_peer_by_id it q local_peer pid)
              else
                (* we can use pfx_add_peer for efficiency *)
                with_iter (fun it =>
                  bgpview_iter_pfx_add_peer_by_id it local_peer pid)) ;;
        if negb (r =? 0) then fail
        else
          let pfx_peers_added := pfx_peers_added + 1 in
          (* now we have to activate it *)
          a <- with_iter bgpview_iter_pfx_activate_peer ;;
          if a <? 0 then fail
          else ret (Continue (pfx_peers_added, pfx_peer_rx)).

(** One round of the outer loop of [read_pfxs], on [pfx_rx]. *)
Definition read_pfxs_body (pfx_cb : option bgpview_io_filter_pfx_cb_t)
  (pfx_peer_cb : option bgpview_io_filter_pfx_peer_cb_t)
  (peerid_map : list Z) (pathid_map : path_idmap) (pfx_rx : Z)
  : M rstate (ctl Z) :=
  m <- check_magic VIEW_PFX_END_MAGIC ;;
  if negb (m =? 0) then ret (Break pfx_rx)
  else
    let pfx_rx := pfx_rx + 1 in
    (* pfx_ip *)
    ip <- read_ip ;;
    (* pfx len *)
    mask <- READ_VAL 1 ;;
    let q := {| address := ip; mask_len := mask |} in
    (* ask the caller if they want this pfx *)
    want <- ask_filter pfx_cb q ;;
    let skip_pfx := negb want in
    st <- for_loop UINT16_MAX
            (read_pfx_peers_body pfx_peer_cb peerid_map pathid_map q skip_pfx)
            (0, 0) ;;
    let '(_, pfx_peer_rx) := st in
    (* peer cnt *)
    peer_cnt <- READ_VAL 2 ;;
    let peer_cnt := ntohs host peer_cnt in
    assert (peer_cnt =? pfx_peer_rx) ;;;
    ret (Continue pfx_rx).

Definition read_pfxs (pfx_cb : option bgpview_io_filter_pfx_cb_t)
  (pfx_peer_cb : option bgpview_io_filter_pfx_peer_cb_t)
  (peerid_map : list Z) (pathid_map : path_idmap) : M rstate Z :=
  (* foreach pfx, read pfx.ip, pfx.len, [peers_cnt, peer_info] *)
  pfx_rx <- for_loop UINT32_MAX
              (read_pfxs_body pfx_cb pfx_peer_cb peerid_map pathid_map) 0 ;;
  (* pfx cnt *)
  pfx_cnt <- READ_VAL 4 ;;
  let pfx_cnt := ntohl host pfx_cnt in
  assert (pfx_rx =? pfx_cnt) ;;;
  ret 0.

Definition view_set_time (t : Z) : M rstate unit :=
  fun s =>
    Val tt {| infile := infile s;
              r_iter := option_map (fun it =>
                          iter_set_view it (bgpview_set_time (it_view it) t))
                          (r_iter s) |}.

(** The result 1 (a valid view) is [Val 1], the result 0 (end of file) is
    [Val 0] and the result -1 is [Err]. The iterator of the state is the
    one created on the caller's view. *)
Definition bgpview_io_file_read
  (peer_cb : option bgpview_io_filter_peer_cb_t)
  (pfx_cb : option bgpview_io_filter_pfx_cb_t)
  (pfx_peer_cb : option bgpview_io_filter_pfx_peer_cb_t) : M rstate Z :=
  (* check for eof *)
  bs <- wandio_peek 4 ;;
  if (length bs =? 0)%nat then ret 0
  else
    m <- check_magic VIEW_START_MAGIC ;;
    if m =? 0 then fail (* Missing view-start magic number *)
    else
      (* time *)
      u32 <- READ_VAL 4 ;;
      view_set_time (ntohl host u32) ;;;
      peerid_map <- read_peers peer_cb ;;
      pathid_map <- read_paths ;;
      (* pfxs *)
      read_pfxs pfx_cb pfx_peer_cb peerid_map pathid_map ;;;
      (* a missing end-of-view magic number is reported on stderr only *)
      _ <- check_magic VIEW_END_MAGIC ;;
      (* valid view *)
      ret 1.

End Codec.

(** The writer run on an empty file: the bytes written when it returns 0. *)
Definition encode (host : byte_order) (view : bgpview)
  (cb : option bgpview_io_filter_cb_t) : res iow_t Z :=
  bgpview_io_file_write host (Some view) cb [].

(** The reader run on a file holding [bytes], with the caller's view. *)
Definition decode (host : byte_order) (bytes : list byte) (junk : list byte)
  (view : option bgpview)
  (peer_cb : option bgpview_io_filter_peer_cb_t)
  (pfx_cb : option bgpview_io_filter_pfx_cb_t)
  (pfx_peer_cb : option bgpview_io_filter_pfx_peer_cb_t) : res rstate Z :=
  bgpview_io_file_read host peer_cb pfx_cb pfx_peer_cb
    {| infile := {| avail := bytes; stale := junk |};
       r_iter := option_map bgpview_iter_create view |}.

(** The caller's view after the reader has run. *)
Definition view_of (s : rstate) : option bgpview :=
  option_map it_view (r_iter s).

(** ** [graphite_safe] ([bvc_viewsender.c], [bvc_perfmonitor.c] and
    [bvc_archiver.c] each carry the same copy)

    The argument is the character buffer [p] points into, [None] for a
    NULL pointer; the result is the buffer after the call, which the
    function returns the address of. A buffer without NUL is scanned to
    its end. *)
Definition char_dot : byte := Byte.x2e.        (* '.' *)
Definition char_underscore : byte := Byte.x5f. (* '_' *)
Definition char_star : byte := Byte.x2a.       (* '*' *)
Definition char_dash : byte := Byte.x2d.       (* '-' *)

Definition graphite_safe_char (c : byte) : byte :=
  let c := if decide (c = char_dot) then char_underscore else c in
  let c := if decide (c = char_star) then char_dash else c in
  c.

Fixpoint graphite_safe_loop (p : list byte) : list byte :=
  match p with
  | [] => []
  | c :: p' =>
      if decide (c = zero_byte) then c :: p'
      else graphite_safe_char c :: graphite_safe_loop p'
  end.

Definition graphite_safe (p : option (list byte)) : option (list byte) :=
  match p with
  | None => None
  | Some buf => Some (graphite_safe_loop buf)
  end.

(** ** The view-sender consumer ([bvc_viewsender.c]) *)

Definition SECONDS_BETWEEN_SYNC : Z := 3600.
Definition FILTER_FF_V4CNT_DEFAULT : Z := 400000.
Definition FILTER_FF_V6CNT_DEFAULT : Z := 10000.

(** A call of [bgpview_io_kafka_send_view] or
    [bgpview_io_zmq_client_send_view]: the view and, for Kafka, the parent
    it is encoded against ([None] for a sync frame). *)
Inductive sent_frame :=
| KafkaFrame (view : bgpview) (pvp : option bgpview)
| ZmqFrame (view : bgpview).

Record bvc_viewsender_state := {
  kafka_client : bool;  (* kafka_client != NULL *)
  zmq_client : bool;    (* zmq_client != NULL *)
  filter_ff_v4cnt : Z;
  filter_ff_v6cnt : Z;
  sync_interval : Z;
  parent_view : option bgpview;
  sent : list sent_frame (* the frames handed to the IO module so far *)
}.

(** The state [bvc_viewsender_init] sets up before the arguments are
    parsed. *)
Definition bvc_viewsender_init_state (kafka zmq : bool)
  : bvc_viewsender_state :=
  {| kafka_client := kafka; zmq_client := zmq;
     filter_ff_v4cnt := FILTER_FF_V4CNT_DEFAULT;
     filter_ff_v6cnt := FILTER_FF_V6CNT_DEFAULT;
     sync_interval := SECONDS_BETWEEN_SYNC;
     parent_view := None; sent := [] |}.

(** Modelled from the spec: [bgpview_iter_peer_get_pfx_cnt] for the
    [ACTIVE] field, the [pfx_count_v4]/[pfx_count_v6] of the peer under
    the cursor (0 without one). *)
Definition bgpview_iter_peer_get_pfx_cnt (it : bgpview_iter)
  (fam : pfx -> bool) : Z :=
  match it_peer it with
  | Some id => peer_pfx_cnt (it_view it) fam id
  | None => 0
  end.

Definition filter_ff (st : bvc_viewsender_state) (it : bgpview_iter)
  (type : bgpview_io_filter_type_t) : Z :=
  if bool_decide (type = BGPVIEW_IO_FILTER_PFX)
     || ((bgpview_iter_peer_get_pfx_cnt it is_ipv4 >=? filter_ff_v4cnt st)
         || (bgpview_iter_peer_get_pfx_cnt it is_ipv6 >=? filter_ff_v6cnt st))
  then 1 else 0.

Definition vs_log (st : bvc_viewsender_state) (f : sent_frame)
  (parent : option bgpview) : bvc_viewsender_state :=
  {| kafka_client := kafka_client st; zmq_client := zmq_client st;
     filter_ff_v4cnt := filter_ff_v4cnt st;
     filter_ff_v6cnt := filter_ff_v6cnt st;
     sync_interval := sync_interval st;
     parent_view := parent; sent := sent st ++ [f] |}.

Section ViewSender.

(** The result of the IO module's send function, which is not part of the
    sources at hand. *)
Variable send_view : bgpview -> option bgpview -> Z.

(** The result 0 is [Val 0], the result -1 is [Err]; a division by zero
    is [Undef]. The timing metrics are left out. *)
Definition bvc_viewsender_process_view (view : bgpview)
  : M bvc_viewsender_state Z :=
  fun state =>
    if kafka_client state then
      let view_time := bgpview_get_time view in
      (* the int sync_interval is converted to unsigned *)
      let interval := sync_interval state mod 2 ^ 32 in
      if interval =? 0 then Undef
      else
        let sync_time := ((view_time / interval) * interval) mod 2 ^ 32 in
        (* are we sending a sync frame or a diff frame? *)
        if is_NULL (parent_view state) || (view_time =? sync_time)
        then
          (* we need to send a sync frame, but if we have started out of
             step, then we'll avoid publishing anything until we line up *)
          if negb (view_time =? sync_time) then
            if is_NULL (parent_view state) then Val 0 state
            else Abort
          else
            (* send the view *)
            let state' := vs_log state (KafkaFrame view None) (parent_view state) in
            if negb (send_view view None =? 0) then Err state'
            else
              (* do the create/copy *)
              Val 0 (vs_log state (KafkaFrame view None) (Some view))
        else
          let pvp := parent_view state in
          let state' := vs_log state (KafkaFrame view pvp) (parent_view state) in
          if negb (send_view view pvp =? 0) then Err state'
          else Val 0 (vs_log state (KafkaFrame view pvp) (Some view))
    else if zmq_client state then
      let state' := vs_log state (ZmqFrame view) (parent_view state) in
      if negb (send_view view None =? 0) then Err state'
      else Val 0 state'
    else Abort.

End ViewSender.

(** ** Shutdown of the Kafka client ([bgpview_io_kafka.c]) *)

Section KafkaDestroy.

(** The [librdkafka] handle, the length of its outbound queue and what a
    poll with a timeout in milliseconds does to it. *)
Variable rd_kafka_t : Type.
Variable rd_kafka_outq_len : rd_kafka_t -> Z.
Variable rd_kafka_poll : rd_kafka_t -> Z -> rd_kafka_t.

(** [while (rd_kafka_outq_len(conn) > 0 && drain_wait_cnt > 0)]. The
    second component is the list of the timeouts polled with, in order. *)
Fixpoint drain_loop (drain_wait_cnt : nat) (conn : rd_kafka_t)
  (polls : list Z) : rd_kafka_t * list Z :=
  match drain_wait_cnt with
  | O => (conn, polls)
  | Datatypes.S cnt =>
      if rd_kafka_outq_len conn >? 0
      then drain_loop cnt (rd_kafka_poll conn 5000) (polls ++ [5000])
      else (conn, polls)
  end.

Record bgpview_io_kafka_t := {
  rdk_conn : option rd_kafka_t
}.

(** The part of [bgpview_io_kafka_destroy] that waits for the queue: the
    connection when it is done and the timeouts polled with. *)
Definition bgpview_io_kafka_destroy_drain (client : bgpview_io_kafka_t)
  : option rd_kafka_t * list Z :=
  match rdk_conn client with
  | None => (None, [])
  | Some conn =>
      let drain_wait_cnt := 12%nat in
      let r := drain_loop drain_wait_cnt conn [] in
      (Some (fst r), snd r)
  end.

End KafkaDestroy.

(** ** Example views

    The single-peer, single-prefix view of the specification's first
    scenario and variations of it. *)

Definition collector_rrc00 : list byte :=
  [Byte.x72; Byte.x72; Byte.x63; Byte.x30; Byte.x30].

Definition sig_rrc00 : peer_sig :=
  {| collector_str := collector_rrc00;
     peer_ip_addr := IPv4 0x0a000001;      (* 10.0.0.1 *)
     peer_asnumber := 65001 |}.

Definition sig_rrc00_b : peer_sig :=
  {| collector_str := collector_rrc00;
     peer_ip_addr := IPv4 0x0a000002;      (* 10.0.0.2 *)
     peer_asnumber := 65002 |}.

Definition pfx_10_1 : pfx :=
  {| address := IPv4 0x0a010000; mask_len := 16 |}. (* 10.1.0.0/16 *)

Definition path_a : store_path :=
  {| sp_is_core := true; sp_data := [Byte.x02; Byte.x01; Byte.xe9; Byte.xfd; Byte.x00; Byte.x00] |}.
Definition path_b : store_path :=
  {| sp_is_core := true; sp_data := [Byte.x02; Byte.x01; Byte.xea; Byte.xfd; Byte.x00; Byte.x00] |}.

Definition pfx_peer_on (idx : Z) (active : bool) : pfx_peer_info :=
  {| pp_path_id := {| store_index := idx; pid_is_core := true |};
     pp_active := active |}.

(** One active peer with one active prefix whose path has index 1. *)
Definition view_one : bgpview :=
  {| view_time := 3600;
     sig_store := [sig_rrc00];
     path_store := [path_a; path_b];
     peers := {[ 1 := true ]};
     pfxs := {[ pfx_10_1 := {[ 1 := pfx_peer_on 1 true ]} ]} |}.

(** [view_one] with a second peer that is known but inactive. *)
Definition view_inactive_peer : bgpview :=
  {| view_time := 3600;
     sig_store := [sig_rrc00; sig_rrc00_b];
     path_store := [path_a; path_b];
     peers := {[ 1 := true; 2 := false ]};
     pfxs := {[ pfx_10_1 := {[ 1 := pfx_peer_on 1 true ]} ]} |}.

(** One active peer announcing 10000 IPv6 prefixes and no IPv4 prefix. *)
Definition view_v6_full_feed : bgpview :=
  {| view_time := 3600;
     sig_store := [sig_rrc00];
     path_store := [path_a];
     peers := {[ 1 := true ]};
     pfxs := list_to_map
               (map (fun i => ({| address := IPv6 (Z.of_nat i); mask_len := 128 |},
                               {[ 1 := pfx_peer_on 0 true ]}))
                    (seq 0 (Z.to_nat 10000))) |}.

(** ** The wire format (specification section 4.5)

    The frame layout in the specification's words, each multi-byte integer
    big-endian; [ord] is the byte order of the three fields the
    specification gives without one: the path index of a path record, its
    length, and the path index of a pfx-peer record. *)

Definition magic_bytes (sub : Z) : list byte :=
  be_bytes 4 VIEW_MAGIC ++ be_bytes 4 sub.

Definition u8 (v : Z) : list byte := [byte.of_Z v].

Definition wire_ip (ip : ip_addr) : list byte :=
  match ip with
  | IPv4 a => u8 4 ++ be_bytes 4 a
  | IPv6 a => u8 16 ++ be_bytes 16 a
  | IPUnknown => []
  end.

Definition wire_peer_sig (id : Z) (ps : peer_sig) : list byte :=
  be_bytes 2 id
  ++ u8 (Z.of_nat (length (c_string (collector_str ps))))
  ++ c_string (collector_str ps)
  ++ wire_ip (peer_ip_addr ps)
  ++ be_bytes 4 (peer_asnumber ps).

Definition wire_peer (v : bgpview) (id : Z) : list byte :=
  match sig_lookup (sig_store v) id with
  | Some ps => wire_peer_sig id ps
  | None => []
  end.

Definition wire_path (ord : nat -> Z -> list byte) (e : nat * store_path)
  : list byte :=
  ord 4%nat (Z.of_nat (fst e))
  ++ u8 (if sp_is_core (snd e) then 1 else 0)
  ++ ord 2%nat (Z.of_nat (length (sp_data (snd e))))
  ++ sp_data (snd e).

Definition wire_pfx_peer (ord : nat -> Z -> list byte)
  (e : Z * pfx_peer_info) : list byte :=
  be_bytes 2 (fst e) ++ ord 4%nat (store_index (pp_path_id (snd e))).

Definition wire_pfx (ord : nat -> Z -> list byte)
  (e : pfx * gmap Z pfx_peer_info) : list byte :=
  wire_ip (address (fst e)) ++ u8 (mask_len (fst e))
  ++ flat_map (wire_pfx_peer ord) (active_pfx_peers (snd e))
  ++ magic_bytes VIEW_PEER_END_MAGIC
  ++ be_bytes 2 (Z.of_nat (length (active_pfx_peers (snd e)))).

Definition wire_peer_section (v : bgpview) : list byte :=
  flat_map (wire_peer v) (active_peers v)
  ++ magic_bytes VIEW_PEER_END_MAGIC
  ++ be_bytes 2 (Z.of_nat (length (active_peers v))).

Definition wire_path_section (ord : nat -> Z -> list byte) (v : bgpview)
  : list byte :=
  flat_map (wire_path ord) (imap (fun i sp => (i, sp)) (path_store v))
  ++ magic_bytes VIEW_PATH_END_MAGIC
  ++ be_bytes 4 (Z.of_nat (length (path_store v))).

Definition wire_pfx_section (ord : nat -> Z -> list byte) (v : bgpview)
  : list byte :=
  flat_map (wire_pfx ord) (active_pfxs v)
  ++ magic_bytes VIEW_PFX_END_MAGIC
  ++ be_bytes 4 (Z.of_nat (length (active_pfxs v))).

(** Everything up to the end-of-view magic. *)
Definition wire_view_body (ord : nat -> Z -> list byte) (v : bgpview)
  : list byte :=
  magic_bytes VIEW_START_MAGIC
  ++ be_bytes 4 (view_time v)
  ++ wire_peer_section v
  ++ wire_path_section ord v
  ++ wire_pfx_section ord v.

Definition wire_view (ord : nat -> Z -> list byte) (v : bgpview)
  : list byte :=
  wire_view_body ord v ++ magic_bytes VIEW_END_MAGIC.

(** A corrupt frame: the frame of [v] up to its last prefix record,
    followed, where the end-of-prefixes magic should be, by the start of a
    prefix record with the address length 7. *)
Definition wire_view_bad_pfx (ord : nat -> Z -> list byte) (v : bgpview)
  : list byte :=
  magic_bytes VIEW_START_MAGIC
  ++ be_bytes 4 (view_time v)
  ++ wire_peer_section v
  ++ wire_path_section ord v
  ++ flat_map (wire_pfx ord) (active_pfxs v)
  ++ [Byte.x07].

(** ** Equivalence of views (property P5 of the specification)

    Two views are equivalent when they have the same time, the same peers
    by signature, the same prefixes and the same pfx-peers by prefix, peer
    signature and stored path; peer IDs and path IDs may differ. *)

Definition has_peer (v : bgpview) (s : peer_sig) : Prop :=
  exists id b, peers v !! id = Some b /\ sig_lookup (sig_store v) id = Some s.

Definition has_pfx (v : bgpview) (q : pfx) : Prop :=
  exists pm, pfxs v !! q = Some pm.

Definition has_pfx_peer (v : bgpview) (q : pfx) (s : peer_sig)
  (sp : store_path) : Prop :=
  exists pm id info,
    pfxs v !! q = Some pm /\ pm !! id = Some info /\
    sig_lookup (sig_store v) id = Some s /\
    bgpstream_as_path_store_get_store_path (path_store v) (pp_path_id info)
      = Some sp.

Definition view_equiv (v v' : bgpview) : Prop :=
  view_time v = view_time v' /\
  (forall s, has_peer v s <-> has_peer v' s) /\
  (forall q, has_pfx v q <-> has_pfx v' q) /\
  (forall q s sp, has_pfx_peer v q s sp <-> has_pfx_peer v' q s sp).

(** The active part of a view: its active peers, their active pfx-peers
    and the prefixes that have one. *)
Definition active_part (v : bgpview) : bgpview :=
  {| view_time := view_time v;
     sig_store := sig_store v;
     path_store := path_store v;
     peers := filter (fun e => snd e = true) (peers v);
     pfxs := filter (fun e => active_pfx_peers (snd e) <> [])
               (filter (fun e => pp_active (snd e) = true) <$> pfxs v) |}.

(** Every peer and every pfx-peer of the view is active. *)
Definition all_active (v : bgpview) : Prop :=
  (forall id b, peers v !! id = Some b -> b = true) /\
  (forall q pm id info, pfxs v !! q = Some pm -> pm !! id = Some info ->
     pp_active info = true).

(** ** Example streams *)

(** A view header and one peer record whose address length is 7. *)
Definition stream_bad_peer_ip : list byte :=
  magic_bytes VIEW_START_MAGIC ++ be_bytes 4 5
  ++ be_bytes 2 1 ++ u8 0 ++ u8 7.

(** The encoding of [view_one], cut between the path-section magic and
    the path count. *)
Definition stream_cut_after_path_magic (ord : nat -> Z -> list byte)
  : list byte :=
  magic_bytes VIEW_START_MAGIC
  ++ be_bytes 4 (view_time view_one)
  ++ wire_peer_section view_one
  ++ flat_map (wire_path ord) (imap (fun i sp => (i, sp)) (path_store view_one))
  ++ magic_bytes VIEW_PATH_END_MAGIC.

(** The encoding of [view_one] with the peer count 2 instead of 1. *)
Definition stream_wrong_peer_count (ord : nat -> Z -> list byte)
  : list byte :=
  magic_bytes VIEW_START_MAGIC
  ++ be_bytes 4 (view_time view_one)
  ++ flat_map (wire_peer view_one) (active_peers view_one)
  ++ magic_bytes VIEW_PEER_END_MAGIC
  ++ be_bytes 2 2
  ++ wire_path_section ord view_one
  ++ wire_pfx_section ord view_one
  ++ magic_bytes VIEW_END_MAGIC.

(** A filter that keeps peers and prefixes and drops every pfx-peer. *)
Definition filter_no_pfx_peer : bgpview_io_filter_cb_t :=
  fun _ type =>
    match type with
    | BGPVIEW_IO_FILTER_PFX_PEER => 0
    | _ => 1
    end.

(** ** Conditions on runs of the monad

    [post r Q E]: the run [r] ends in a value and a state that satisfy
    [Q], or on the error path in a state that satisfies [E], or it does not
    return at all. *)

Definition post {S A} (r : res S A) (Q : A -> S -> Prop) (E : S -> Prop)
  : Prop :=
  match r with
  | Val a s => Q a s
  | Err s => E s
  | Abort => True
  | Undef => True
  end.

(** The operations on the input file leave the iterator alone. *)
Definition stable {A} (m : M rstate A) : Prop :=
  forall s, post (m s) (fun _ s' => r_iter s' = r_iter s)
                       (fun s' => r_iter s' = r_iter s).

(** [ipost]: [post] for conditions on the iterator only. *)
Definition ipost {A} (r : res rstate A)
  (Q : A -> option bgpview_iter -> Prop) (E : option bgpview_iter -> Prop)
  : Prop :=
  post r (fun a s => Q a (r_iter s)) (fun s => E (r_iter s)).

(** A condition on the caller's view, seen through the reader's
    iterator. *)
Definition iter_holds (P : bgpview -> Prop) (o : option bgpview_iter)
  : Prop :=
  exists it, o = Some it /\ P (it_view it).

(** ** What a decode leaves in the caller's view

    [view_extends v0 v]: every peer signature, path, peer and pfx-peer of
    [v0] is still in [v]. [added_active v0 v]: a peer or pfx-peer of [v]
    is active, or it is in [v0] exactly as it is in [v]. *)
Definition view_extends (v0 v : bgpview) : Prop :=
  sig_store v0 `prefix_of` sig_store v /\
  path_store v0 `prefix_of` path_store v /\
  (forall id, is_Some (peers v0 !! id) -> is_Some (peers v !! id)) /\
  (forall q pm0 id, pfxs v0 !! q = Some pm0 -> is_Some (pm0 !! id) ->
     exists pm, pfxs v !! q = Some pm /\ is_Some (pm !! id)).

Definition added_active (v0 v : bgpview) : Prop :=
  (forall id b, peers v !! id = Some b ->
     b = true \/ peers v0 !! id = Some b) /\
  (forall q pm id info, pfxs v !! q = Some pm -> pm !! id = Some info ->
     pp_active info = true \/
     exists pm0, pfxs v0 !! q = Some pm0 /\ pm0 !! id = Some info).

Definition decoded_onto (v0 : bgpview) (t : Z) (v : bgpview) : Prop :=
  view_time v = t /\ view_extends v0 v /\ added_active v0 v.

(** The test of [check_magic] on the eight bytes peeked at. *)
Definition magic_test (magic : Z) (bs : list byte) : bool :=
  (Z.shiftr (be_value bs) 32 mod 2 ^ 32 =? VIEW_MAGIC)
  && (Z.land (be_value bs) 0xffffffff =? magic).

(** The time field of the view that starts the input file: the four bytes
    behind the view-start magic (what is missing of them, on a short file,
    is what the variable held before). *)
Definition stream_time (host : byte_order) (io : io_t) : Z :=
  ntohl host (host_value host
    (fill_stale 4 (firstn 4 (skipn 8 (avail io))) (stale io))).

(** ** Views the writer can write

    The conditions under which the writer, without a filter, neither
    fails nor trips an [assert]: every active peer has a signature with a
    known address family and a collector name of at most 255 bytes, there
    are at most 65535 active peers, every active prefix has a known
    address family, and every active pfx-peer has a positive peer ID and a
    path that is in the store. *)
Definition ip_known (ip : ip_addr) : bool :=
  match ip with
  | IPUnknown => false
  | _ => true
  end.

Definition peer_writable (v : bgpview) (id : Z) : bool :=
  match sig_lookup (sig_store v) id with
  | Some ps =>
      (Z.of_nat (length (c_string (collector_str ps))) <=? UINT8_MAX)
      && ip_known (peer_ip_addr ps)
  | None => false
  end.

Definition pfx_peer_writable (v : bgpview) (e : Z * pfx_peer_info) : bool :=
  (fst e >? 0)
  && negb (is_NULL (bgpstream_as_path_store_get_store_path (path_store v)
                      (pp_path_id (snd e)))).

Definition pfx_writable (v : bgpview) (e : pfx * gmap Z pfx_peer_info)
  : bool :=
  ip_known (address (fst e))
  && forallb (pfx_peer_writable v) (active_pfx_peers (snd e)).

Definition writable (v : bgpview) : bool :=
  forallb (peer_writable v) (active_peers v)
  && (Z.of_nat (length (active_peers v)) <=? UINT16_MAX)
  && forallb (pfx_writable v) (active_pfxs v).

(** The reader's state with the given bytes left in its file. *)
Definition rstate_at (bytes junk : list byte) (o : option bgpview_iter)
  : rstate :=
  {| infile := {| avail := bytes; stale := junk |}; r_iter := o |}.

(** ** Views the reader decodes back

    The conditions, on top of [writable], under which the stream written
    for a view is read back: the signature store holds no signature twice
    and fewer than 65535 of them; no active peer has the ID 0x4247, whose
    bytes are the first two of a magic number; the fields of the
    signatures, of the prefixes and the time fit their width and the
    collector names hold no NUL; the path store has at most 2^30 paths of at
    most [BUFFER_LEN] bytes each; there are fewer than [UINT32_MAX] active
    prefixes, all of them well formed; and the peer of an active pfx-peer
    is an active peer of the view. *)
Definition ip_in_range (ip : ip_addr) : bool :=
  match ip with
  | IPv4 a => (0 <=? a) && (a <? 2 ^ 32)
  | IPv6 a => (0 <=? a) && (a <? 2 ^ 128)
  | IPUnknown => false
  end.

Definition sig_decodable (ps : peer_sig) : bool :=
  bool_decide (c_string (collector_str ps) = collector_str ps)
  && (Z.of_nat (length (collector_str ps)) <=? UINT8_MAX)
  && ip_in_range (peer_ip_addr ps)
  && (0 <=? peer_asnumber ps) && (peer_asnumber ps <? 2 ^ 32).

Definition peer_decodable (v : bgpview) (id : Z) : bool :=
  negb (id =? 0x4247)
  && match sig_lookup (sig_store v) id with
     | Some ps => sig_decodable ps
     | None => false
     end.

Definition path_decodable (sp : store_path) : bool :=
  Z.of_nat (length (sp_data sp)) <=? BUFFER_LEN.

Definition pfx_peer_decodable (v : bgpview) (e : Z * pfx_peer_info) : bool :=
  pfx_peer_writable v e && bool_decide (peers v !! fst e = Some true).

Definition pfx_decodable (v : bgpview) (e : pfx * gmap Z pfx_peer_info)
  : bool :=
  pfx_valid (fst e) && ip_in_range (address (fst e))
  && forallb (pfx_peer_decodable v) (active_pfx_peers (snd e)).

Definition decodable (v : bgpview) : bool :=
  writable v
  && bool_decide (NoDup (sig_store v))
  && (Z.of_nat (length (sig_store v)) <? UINT16_MAX)
  && forallb (peer_decodable v) (active_peers v)
  && (Z.of_nat (length (path_store v)) <=? 2 ^ 30)
  && forallb path_decodable (path_store v)
  && (0 <=? view_time v) && (view_time v <? 2 ^ 32)
  && (Z.of_nat (length (active_pfxs v)) <? UINT32_MAX)
  && forallb (pfx_decodable v) (active_pfxs v).

(** [idmap] after the [realloc] that makes room for the index [id]. *)
Definition idmap_grow (idmap : list Z) (id : Z) : list Z :=
  if id + 1 >? Z.of_nat (length idmap)
  then idmap ++ repeat 0 (Z.to_nat (id + 1 - Z.of_nat (length idmap)))
  else idmap.

(** The decoder's view and peer ID map after the peer records of the
    peers [done] of [v] have been read into an empty view with time [t]:
    the [k]-th of them has the ID [k] and is active. *)
Definition rx_peers_inv (v : bgpview) (t : Z) (done : list Z) (w : bgpview)
  (idmap : list Z) : Prop :=
  view_time w = t /\ path_store w = [] /\ pfxs w = ∅ /\
  Forall2 (fun id ps => sig_lookup (sig_store v) id = Some ps)
    done (sig_store w) /\
  (forall l, peers w !! l
             = if bool_decide (1 <= l <= Z.of_nat (length done))
               then Some true else None) /\
  (forall k id, done !! k = Some id ->
     idmap !! Z.to_nat id = Some (Z.of_nat k + 1)).

(** [idmap_cnt] after the [realloc] of the path ID map that makes room for
    the index [idx]. *)
Definition path_idmap_grow (cnt idx : Z) : Z :=
  if idx + 1 >? cnt then (if idx =? 0 then 1 else idx * 2) else cnt.

(** The path records of the paths [l], the first with index [k]. *)
Fixpoint wire_paths_from (ord : nat -> Z -> list byte) (k : nat)
  (l : list store_path) : list byte :=
  match l with
  | [] => []
  | sp :: l' => wire_path ord (k, sp) ++ wire_paths_from ord (Datatypes.S k) l'
  end.

(** The decoder's view and path ID map after the path records of the
    paths [done] have been read: the map sends the index of each to a
    path ID of the decoder's store that holds the same path; the rest of
    the view is as in [w1]. *)
Definition rx_paths_inv (w1 : bgpview) (done : list store_path)
  (w : bgpview) (m : path_idmap) : Prop :=
  view_time w = view_time w1 /\ sig_store w = sig_store w1 /\
  peers w = peers w1 /\ pfxs w = pfxs w1 /\
  Z.of_nat (length done) <= pm_cnt m /\
  (forall i sp, done !! i = Some sp ->
     exists pid, pm_ids m !! Z.of_nat i = Some pid /\
       bgpstream_as_path_store_get_store_path (path_store w) pid = Some sp).

(** What the translation tables of the decoder have to provide for the
    pfx-peers of [v]: every active peer of [v] is mapped to an active peer
    of the decoder's view [w] with the same signature, different peers to
    different ones, and [w] has no other peer; every path of [v] is mapped
    to a path ID of [w] that holds the same path. *)
Definition peer_map_ok (v w : bgpview) (lid : list Z) : Prop :=
  (forall id, peers v !! id = Some true ->
     0 < id /\
     exists l, lid !! Z.to_nat id = Some l /\ peers w !! l = Some true /\
       sig_lookup (sig_store w) l = sig_lookup (sig_store v) id) /\
  (forall id1 id2 l, peers v !! id1 = Some true -> peers v !! id2 = Some true ->
     lid !! Z.to_nat id1 = Some l -> lid !! Z.to_nat id2 = Some l ->
     id1 = id2) /\
  (forall l b, peers w !! l = Some b ->
     b = true /\
     exists id, peers v !! id = Some true /\ lid !! Z.to_nat id = Some l).

Definition path_map_ok (v w : bgpview) (pmap : path_idmap) : Prop :=
  forall pid sp,
    bgpstream_as_path_store_get_store_path (path_store v) pid = Some sp ->
    store_index pid < pm_cnt pmap /\
    exists pid', pm_ids pmap !! store_index pid = Some pid' /\
      bgpstream_as_path_store_get_store_path (path_store w) pid' = Some sp.

(** The pfx-peers [pm'] the decoder has built from the pfx-peer records
    [l]: one active pfx-peer per record, under the translated peer ID and
    with the translated path ID. *)
Definition pm_rel (lid : list Z) (pmap : path_idmap)
  (l : list (Z * pfx_peer_info)) (pm' : gmap Z pfx_peer_info) : Prop :=
  forall l' info',
    pm' !! l' = Some info' <->
    exists id info,
      (id, info) ∈ l /\ lid !! Z.to_nat id = Some l' /\
      pm_ids pmap !! store_index (pp_path_id info) = Some (pp_path_id info') /\
      pp_active info' = true.

(** The decoder's iterator while the pfx-peer records of the prefix [q]
    are read, [done] of them so far; [w2] is the view before the first. *)
Definition rx_pfx_peers_inv (w2 : bgpview) (lid : list Z)
  (pmap : path_idmap) (q : pfx) (done : list (Z * pfx_peer_info))
  (it : bgpview_iter) : Prop :=
  view_time (it_view it) = view_time w2 /\
  sig_store (it_view it) = sig_store w2 /\
  path_store (it_view it) = path_store w2 /\
  peers (it_view it) = peers w2 /\
  (forall q', q' <> q -> pfxs (it_view it) !! q' = pfxs w2 !! q') /\
  (done <> [] -> it_pfx it = Some q /\ is_Some (pfxs (it_view it) !! q)) /\
  (done = [] -> pfxs (it_view it) !! q = None) /\
  pm_rel lid pmap done (default ∅ (pfxs (it_view it) !! q)).

(** The decoder's view after the prefix records [done] have been read;
    [w2] is the view before the first. *)
Definition rx_pfxs_inv (w2 : bgpview) (lid : list Z) (pmap : path_idmap)
  (done : list (pfx * gmap Z pfx_peer_info)) (w : bgpview) : Prop :=
  view_time w = view_time w2 /\ sig_store w = sig_store w2 /\
  path_store w = path_store w2 /\ peers w = peers w2 /\
  (forall q, q ∉ map fst done -> pfxs w !! q = None) /\
  (forall q pm, (q, pm) ∈ done ->
     exists pm', pfxs w !! q = Some pm' /\
       pm_rel lid pmap (active_pfx_peers pm) pm').

(** ** A run of the view-sender over the views of a stream

    [frame_view]: the view a frame carries. [frames_from i parent views]:
    the frames a Kafka view-sender with sync interval [i] and parent view
    [parent] hands to the IO module for [views], when every send
    succeeds. *)
Definition frame_view (f : sent_frame) : bgpview :=
  match f with
  | KafkaFrame v _ => v
  | ZmqFrame v => v
  end.

Fixpoint frames_from (i : Z) (parent : option bgpview)
  (views : list bgpview) : list sent_frame :=
  match views with
  | [] => []
  | v :: vs =>
      if view_time v mod i =? 0
      then KafkaFrame v None :: frames_from i (Some v) vs
      else match parent with
           | None => frames_from i None vs
           | Some p => KafkaFrame v (Some p) :: frames_from i (Some v) vs
           end
  end.

(** ** The archiver consumer ([bvc_archiver.c])

    Strings are the characters of a C string, without the terminator. *)

Definition char_percent : byte := Byte.x25.   (* '%' *)
Definition char_s : byte := Byte.x73.         (* 's' *)
Definition char_newline : byte := Byte.x0a.   (* '\n' *)

(** [snprintf(secs, sizeof(secs), "%" PRIu32, time)]: the decimal digits
    of a 32-bit unsigned, at most ten, which fit [secs]. *)
Definition digit_char (d : Z) : byte := byte.of_Z (0x30 + d).

Fixpoint decimal_digits (fuel : nat) (n : Z) (acc : list byte)
  : list byte :=
  match fuel with
  | O => acc
  | Datatypes.S fuel' =>
      let acc := digit_char (n mod 10) :: acc in
      if n / 10 =? 0 then acc else decimal_digits fuel' (n / 10) acc
  end.

Definition snprintf_u32 (time : Z) : list byte :=
  decimal_digits 10 (time mod 2 ^ 32) [].

(** [stradd(str, bufp, buflim)]: [buf] is what the buffer holds before
    [bufp], [buflim] the size of the buffer. *)
Fixpoint stradd (str : list byte) (buf : list byte) (buflim : nat)
  : list byte :=
  match str with
  | [] => buf
  | c :: str' =>
      if (length buf <? buflim)%nat then stradd str' (buf ++ [c]) buflim
      else buf
  end.

(** The loop of [generate_file_name] over the template [tmpl], with
    [buf] what the 1024-byte buffer holds before [bufp]: the buffer when
    the loop is left. *)
Fixpoint generate_file_name_loop (time : Z) (tmpl : list byte)
  (buf : list byte) : list byte :=
  match tmpl with
  | [] => buf
  | c :: rest =>
      if decide (c = char_percent) then
        match rest with
        | c' :: rest' =>
            if decide (c' = char_s) then
              (* unix timestamp *)
              generate_file_name_loop time rest'
                (stradd (snprintf_u32 time) buf 1024)
            else
              (* we want to be generous and leave non-recognized formats
                 intact - especially for strftime to use *)
              if (length buf =? 1024)%nat then buf
              else generate_file_name_loop time rest (buf ++ [c])
        | [] =>
            if (length buf =? 1024)%nat then buf
            else generate_file_name_loop time rest (buf ++ [c])
        end
      else
        if (length buf =? 1024)%nat then buf
        else generate_file_name_loop time rest (buf ++ [c])
  end.

Inductive format := BINARY | ASCII.

(** An output file: the name it was created under and the bytes written
    to it so far. *)
Record iow_file := { iow_name : list byte; iow_bytes : iow_t }.

(** The state of the consumer, with [closed] the files it has closed, in
    order. *)
Record bvc_archiver_state := {
  outfile_pattern : option (list byte);
  outfile_name : option (list byte);
  outfile : option iow_file;
  output_format : format;
  latest_filename : option (list byte);
  rotation_interval : Z;
  rotate_noalign : Z;
  next_rotate_time : Z;
  closed : list iow_file
}.

Definition SHOULD_ROTATE (state : bvc_archiver_state) (time : Z) : bool :=
  (rotation_interval state >? 0) && (time >=? next_rotate_time state).

(** Assignments to the fields of the state. *)
Definition set_outfile (state : bvc_archiver_state) (f : option iow_file)
  : bvc_archiver_state :=
  {| outfile_pattern := outfile_pattern state;
     outfile_name := outfile_name state;
     outfile := f;
     output_format := output_format state;
     latest_filename := latest_filename state;
     rotation_interval := rotation_interval state;
     rotate_noalign := rotate_noalign state;
     next_rotate_time := next_rotate_time state;
     closed := closed state |}.

Definition set_outfile_name (state : bvc_archiver_state)
  (name : option (list byte)) : bvc_archiver_state :=
  {| outfile_pattern := outfile_pattern state;
     outfile_name := name;
     outfile := outfile state;
     output_format := output_format state;
     latest_filename := latest_filename state;
     rotation_interval := rotation_interval state;
     rotate_noalign := rotate_noalign state;
     next_rotate_time := next_rotate_time state;
     closed := closed state |}.

Definition set_next_rotate_time (state : bvc_archiver_state) (t : Z)
  : bvc_archiver_state :=
  {| outfile_pattern := outfile_pattern state;
     outfile_name := outfile_name state;
     outfile := outfile state;
     output_format := output_format state;
     latest_filename := latest_filename state;
     rotation_interval := rotation_interval state;
     rotate_noalign := rotate_noalign state;
     next_rotate_time := t;
     closed := closed state |}.

(** [wandio_wdestroy] of a file: it joins the closed files. *)
Definition wandio_wdestroy (state : bvc_archiver_state) (f : iow_file)
  : bvc_archiver_state :=
  {| outfile_pattern := outfile_pattern state;
     outfile_name := outfile_name state;
     outfile := outfile state;
     output_format := output_format state;
     latest_filename := latest_filename state;
     rotation_interval := rotation_interval state;
     rotate_noalign := rotate_noalign state;
     next_rotate_time := next_rotate_time state;
     closed := closed state ++ [f] |}.

Section Archiver.

Variable host : byte_order.

(** The C library's [strftime] on the expanded template and the time;
    [wandio_wcreate], which succeeds or not (the compression it applies
    is left out: the bytes of a file are those written to its handle); and
    [bgpview_io_file_print], the text it writes for a view. *)
Variable strftime : list byte -> Z -> list byte.
Variable wandio_wcreate_ok : list byte -> bool.
Variable bgpview_io_file_print : bgpview -> list byte.

(** [None] when the terminator is written past the end of [buf]. *)
Definition generate_file_name (template : list byte) (time : Z)
  : option (list byte) :=
  let buf := generate_file_name_loop time template [] in
  if (length buf =? 1024)%nat then None
  else
    (* now let strftime have a go *)
    Some (strftime buf time).

(** The result is the function's. *)
Definition complete_file : M bvc_archiver_state Z :=
  fun state =>
    (* first, close the current output file *)
    match outfile state with
    | None => Val 0 state
    | Some f =>
        let state := set_outfile (wandio_wdestroy state f) None in
        (* now write the name of that file to the latest file *)
        match latest_filename state with
        | None => Val 0 state
        | Some latest =>
            (* force no compression, ignore the extension *)
            if negb (wandio_wcreate_ok latest) then
              (* Could not create latest file *)
              Val (-1) state
            else
              match outfile_name state with
              | None => Undef (* "%s" of a NULL pointer *)
              | Some name =>
                  let state :=
                    wandio_wdestroy state
                      {| iow_name := latest;
                         iow_bytes := name ++ [char_newline] |} in
                  Val 0 (set_outfile_name state None)
              end
        end
    end.

(** A write to the current output file. *)
Definition on_outfile (w : M iow_t Z) : M bvc_archiver_state Z :=
  fun state =>
    match outfile state with
    | None => Undef
    | Some f =>
        let upd := fun out =>
          set_outfile state
            (Some {| iow_name := iow_name f; iow_bytes := out |}) in
        match w (iow_bytes f) with
        | Val r out => Val r (upd out)
        | Err out => Err (upd out)
        | Abort => Abort
        | Undef => Undef
        end
    end.

(** The result 0 is [Val 0], the result -1 is [Err]. The timing metric is
    left out. *)
Definition bvc_archiver_process_view (view : bgpview)
  : M bvc_archiver_state Z :=
  state <- get ;;
  let view_time := bgpview_get_time view in
  let file_time := view_time in
  (if is_NULL (outfile state) || SHOULD_ROTATE state view_time then
     file_time <-
       (if rotation_interval state >? 0 then
          r <- (if negb (is_NULL (outfile state)) then complete_file
                else ret 0) ;;
          if negb (r =? 0) then fail (* Failed to rotate output file *)
          else
            (* align the time to a multiple of the interval *)
            let file_time :=
              if rotate_noalign state =? 0
              then ((view_time / rotation_interval state)
                    * rotation_interval state) mod 2 ^ 32
              else file_time in
            state1 <- get ;;
            put (set_next_rotate_time state1
                   ((file_time + rotation_interval state) mod 2 ^ 32)) ;;;
            ret file_time
        else ret file_time) ;;
     (* compute the output filename *)
     match outfile_pattern state with
     | None => undef
     | Some pattern =>
         match generate_file_name pattern file_time with
         | None => undef
         | Some name =>
             state2 <- get ;;
             put (set_outfile_name state2 (Some name)) ;;;
             state3 <- get ;;
             if wandio_wcreate_ok name
             then put (set_outfile state3
                         (Some {| iow_name := name; iow_bytes := [] |}))
             else (* Could not open the file for writing *)
               put (set_outfile state3 None) ;;; fail
         end
     end
   else ret tt) ;;;
  r <- match output_format state with
       | ASCII =>
           on_outfile (wandio_wwrite (bgpview_io_file_print view) ;;; ret 0)
       | BINARY =>
           (* simply ask the IO library to dump the view to a file *)
           on_outfile (bgpview_io_file_write host (Some view) None)
       end ;;
  if negb (r =? 0) then fail (* Failed to write view to file *)
  else ret 0.

(** The part of [bvc_archiver_destroy] that closes the files. *)
Definition bvc_archiver_destroy : M bvc_archiver_state unit :=
  (* frees outfile and outfile_name *)
  _ <- complete_file ;;
  ret tt.

End Archiver.

(** The template with every ["%s"] replaced by the decimal digits of the
    time, scanning from the left; everything else, a ['%'] before another
    character or at the end included, stays as it is. *)
Fixpoint expand_template (time : Z) (tmpl : list byte) : list byte :=
  match tmpl with
  | [] => []
  | c :: rest =>
      match rest with
      | c' :: rest' =>
          if decide (c = char_percent /\ c' = char_s)
          then snprintf_u32 time ++ expand_template time rest'
          else c :: expand_template time rest
      | [] => [c]
      end
  end.

(** ** Example archiver states

    An archiver in binary mode that rotates its files every hour, with the
    file name pattern [v.%s] and the latest file [l]: before its first
    view, and with a file open whose rotation is due at time 3600. *)
Definition pattern_v : list byte := [Byte.x76; Byte.x2e; Byte.x25; Byte.x73].
Definition name_v_0 : list byte := [Byte.x76; Byte.x2e; Byte.x30].
Definition name_v_3600 : list byte :=
  [Byte.x76; Byte.x2e; Byte.x33; Byte.x36; Byte.x30; Byte.x30].
Definition name_latest : list byte := [Byte.x6c].

Definition archiver_hourly : bvc_archiver_state :=
  {| outfile_pattern := Some pattern_v;
     outfile_name := None;
     outfile := None;
     output_format := BINARY;
     latest_filename := Some name_latest;
     rotation_interval := 3600;
     rotate_noalign := 0;
     next_rotate_time := 0;
     closed := [] |}.

Definition archiver_hourly_open : bvc_archiver_state :=
  {| outfile_pattern := Some pattern_v;
     outfile_name := Some name_v_0;
     outfile := Some {| iow_name := name_v_0; iow_bytes := [] |};
     output_format := BINARY;
     latest_filename := Some name_latest;
     rotation_interval := 3600;
     rotate_noalign := 0;
     next_rotate_time := 3600;
     closed := [] |}.

(** A [strftime] that finds no conversion in the template, and a
    [wandio_wcreate] that succeeds. *)
Definition strftime_plain (buf : list byte) (time : Z) : list byte := buf.
Definition wcreate_always (name : list byte) : bool := true.
Definition print_nothing (v : bgpview) : list byte := [].

(** ** Start-up of the Kafka client ([bgpview_io_kafka.c])

    The modes and the topic IDs are enumerations of
    [bgpview_io_kafka_int.h]; their order is the one the arrays
    [kafka_connect_funcs] and [names] of the source are indexed in. *)

Inductive bgpview_io_kafka_mode_t :=
| BGPVIEW_IO_KAFKA_MODE_DIRECT_CONSUMER
| BGPVIEW_IO_KAFKA_MODE_GLOBAL_CONSUMER
| BGPVIEW_IO_KAFKA_MODE_AUTO_CONSUMER
| BGPVIEW_IO_KAFKA_MODE_PRODUCER.

Inductive bgpview_io_kafka_topic_id_t :=
| BGPVIEW_IO_KAFKA_TOPIC_ID_PFXS
| BGPVIEW_IO_KAFKA_TOPIC_ID_PEERS
| BGPVIEW_IO_KAFKA_TOPIC_ID_META
| BGPVIEW_IO_KAFKA_TOPIC_ID_MEMBERS
| BGPVIEW_IO_KAFKA_TOPIC_ID_GLOBALMETA.

#[global] Instance bgpview_io_kafka_mode_eq_dec
  : EqDecision bgpview_io_kafka_mode_t.
Proof. solve_decision. Defined.

#[global] Instance bgpview_io_kafka_topic_id_eq_dec
  : EqDecision bgpview_io_kafka_topic_id_t.
Proof. solve_decision. Defined.

(** [for (id = 0; id < BGPVIEW_IO_KAFKA_TOPIC_ID_CNT; id++)] *)
Definition topic_ids : list bgpview_io_kafka_topic_id_t :=
  [BGPVIEW_IO_KAFKA_TOPIC_ID_PFXS; BGPVIEW_IO_KAFKA_TOPIC_ID_PEERS;
   BGPVIEW_IO_KAFKA_TOPIC_ID_META; BGPVIEW_IO_KAFKA_TOPIC_ID_MEMBERS;
   BGPVIEW_IO_KAFKA_TOPIC_ID_GLOBALMETA].

Definition char_p : byte := Byte.x70.
Definition char_f : byte := Byte.x66.
Definition char_x : byte := Byte.x78.
Definition char_e : byte := Byte.x65.
Definition char_r : byte := Byte.x72.
Definition char_m : byte := Byte.x6d.
Definition char_t : byte := Byte.x74.
Definition char_a : byte := Byte.x61.
Definition char_b : byte := Byte.x62.
Definition char_g : byte := Byte.x67.
Definition char_l : byte := Byte.x6c.
Definition char_o : byte := Byte.x6f.

(** [names[id]] *)
Definition names (id : bgpview_io_kafka_topic_id_t) : list byte :=
  match id with
  | BGPVIEW_IO_KAFKA_TOPIC_ID_PFXS => [char_p; char_f; char_x; char_s]
  | BGPVIEW_IO_KAFKA_TOPIC_ID_PEERS =>
      [char_p; char_e; char_e; char_r; char_s]
  | BGPVIEW_IO_KAFKA_TOPIC_ID_META => [char_m; char_e; char_t; char_a]
  | BGPVIEW_IO_KAFKA_TOPIC_ID_MEMBERS =>
      [char_m; char_e; char_m; char_b; char_e; char_r; char_s]
  | BGPVIEW_IO_KAFKA_TOPIC_ID_GLOBALMETA =>
      [char_g; char_l; char_o; char_b; char_a; char_l; char_m; char_e;
       char_t; char_a]
  end.

(** A topic: its name and whether its [rkt] handle is set. *)
Record bgpview_io_kafka_topic_t := {
  topic_name : list byte;
  rkt : bool
}.

(** The fields of the client that the start-up uses. [topics id] is
    [TOPIC(id)]. *)
Record kafka_client_t := {
  mode : bgpview_io_kafka_mode_t;
  namespace : option (list byte);
  identity : option (list byte);
  channel : option (list byte);
  connected : Z;
  topics : bgpview_io_kafka_topic_id_t -> bgpview_io_kafka_topic_t
}.

(** What the start-up does to the world outside of the client. *)
Inductive kafka_event :=
| EvConnect                       (* a call of the connect function *)
| EvSleep (seconds : Z)           (* [sleep(wait)] *)
| EvTopicConnect (name : list byte)
| EvMembersUpdate (time : Z).

Record kafka_run := {
  kr_client : kafka_client_t;
  kr_log : list kafka_event
}.

Definition kafka_log (e : kafka_event) : M kafka_run unit :=
  fun w => Val tt {| kr_client := kr_client w; kr_log := kr_log w ++ [e] |}.

Definition kafka_set_client (c : kafka_client_t) : M kafka_run unit :=
  fun w => Val tt {| kr_client := c; kr_log := kr_log w |}.

Definition set_topic (c : kafka_client_t) (id : bgpview_io_kafka_topic_id_t)
  (t : bgpview_io_kafka_topic_t) : kafka_client_t :=
  {| mode := mode c; namespace := namespace c; identity := identity c;
     channel := channel c; connected := connected c;
     topics := fun id' => if decide (id' = id) then t else topics c id' |}.

(** ["%s.%s"] and ["%s.%s.%s"] *)
Definition dotted (parts : list (list byte)) : list byte :=
  match parts with
  | [] => []
  | p :: ps => p ++ flat_map (fun q => char_dot :: q) ps
  end.

Section KafkaStart.

(** Constants of the header, and the functions of the producer and the
    consumer: the connect functions, which return a result and leave the
    client in some state; the topic connect functions, which get the
    client, the topic whose handle [&topic->rkt] they are given and the
    name of the topic, and likewise return a result and leave the client in
    some state; and the time of day. *)
Variable IDENTITY_MAX_LEN : Z.
Variable BGPVIEW_IO_KAFKA_CONNECT_MAX_RETRIES : Z.
Variable bgpview_io_kafka_consumer_connect
  : kafka_client_t -> Z * kafka_client_t.
Variable bgpview_io_kafka_producer_connect
  : kafka_client_t -> Z * kafka_client_t.
Variable bgpview_io_kafka_consumer_topic_connect
  : kafka_client_t -> bgpview_io_kafka_topic_id_t -> list byte ->
    Z * kafka_client_t.
Variable bgpview_io_kafka_producer_topic_connect
  : kafka_client_t -> bgpview_io_kafka_topic_id_t -> list byte ->
    Z * kafka_client_t.
Variable gettimeofday : Z.

(** [snprintf(topic->name, IDENTITY_MAX_LEN, ...) >= IDENTITY_MAX_LEN]:
    the name is cut to the size of the buffer and the call fails when it
    did not fit. The result is the function's. *)
Definition bgpview_io_kafka_single_topic_connect
  (ident : option (list byte)) (id : bgpview_io_kafka_topic_id_t)
  : M kafka_run Z :=
  w <- get ;;
  let client := kr_client w in
  let topic := topics client id in
  match namespace client with
  | None => undef
  | Some ns =>
      (* build the name *)
      full <-
        (if bool_decide (id = BGPVIEW_IO_KAFKA_TOPIC_ID_MEMBERS)
            || bool_decide (id = BGPVIEW_IO_KAFKA_TOPIC_ID_META)
            || (bool_decide (id = BGPVIEW_IO_KAFKA_TOPIC_ID_GLOBALMETA)
                && is_NULL (channel client))
         then
           (* format: <namespace>.<name> *)
           ret (dotted [ns; names id])
         else if bool_decide (id = BGPVIEW_IO_KAFKA_TOPIC_ID_GLOBALMETA)
         then
           (* format: <namespace>.<name>.<channel> *)
           match channel client with
           | None => abort
           | Some ch => ret (dotted [ns; names id; ch])
           end
         else
           (* format: <namespace>.<identity>.<name> *)
           match ident with
           | None => abort
           | Some idt => ret (dotted [ns; idt; names id])
           end) ;;
      let name := firstn (Z.to_nat (IDENTITY_MAX_LEN - 1)) full in
      kafka_set_client
        (set_topic client id {| topic_name := name; rkt := rkt topic |}) ;;;
      if Z.of_nat (length full) >=? IDENTITY_MAX_LEN then ret (-1)
      else
        (* connect to kafka *)
        if negb (rkt topic) then
          w <- get ;;
          let client := kr_client w in
          match mode client with
          | BGPVIEW_IO_KAFKA_MODE_AUTO_CONSUMER => undef
          | m =>
              kafka_log (EvTopicConnect name) ;;;
              let r := match m with
                       | BGPVIEW_IO_KAFKA_MODE_PRODUCER =>
                           bgpview_io_kafka_producer_topic_connect
                             client id name
                       | _ =>
                           bgpview_io_kafka_consumer_topic_connect
                             client id name
                       end in
              kafka_set_client (snd r) ;;;
              if negb (fst r =? 0) then ret (-1)
              else ret 0
          end
        else ret 0
  end.

(** Whether the loop of [kafka_topic_connect] skips the topic. *)
Definition topic_skipped (m : bgpview_io_kafka_mode_t)
  (id : bgpview_io_kafka_topic_id_t) : bool :=
  (bool_decide (m = BGPVIEW_IO_KAFKA_MODE_PRODUCER)
   && bool_decide (id = BGPVIEW_IO_KAFKA_TOPIC_ID_GLOBALMETA))
  || (bool_decide (m = BGPVIEW_IO_KAFKA_MODE_DIRECT_CONSUMER)
      && (bool_decide (id = BGPVIEW_IO_KAFKA_TOPIC_ID_MEMBERS)
          || bool_decide (id = BGPVIEW_IO_KAFKA_TOPIC_ID_GLOBALMETA)))
  || (bool_decide (m = BGPVIEW_IO_KAFKA_MODE_GLOBAL_CONSUMER)
      && negb (bool_decide (id = BGPVIEW_IO_KAFKA_TOPIC_ID_GLOBALMETA))).

(** The result is the function's. *)
Fixpoint kafka_topic_connect_loop (ids : list bgpview_io_kafka_topic_id_t)
  : M kafka_run Z :=
  match ids with
  | [] => ret 0
  | id :: ids' =>
      w <- get ;;
      let client := kr_client w in
      if topic_skipped (mode client) id then kafka_topic_connect_loop ids'
      else
        assert (negb (is_NULL (namespace client))) ;;;
        r <- bgpview_io_kafka_single_topic_connect (identity client) id ;;
        if negb (r =? 0) then ret (-1)
        else kafka_topic_connect_loop ids'
  end.

Definition kafka_topic_connect : M kafka_run Z :=
  kafka_topic_connect_loop topic_ids.

(** [kafka_connect_funcs[client->mode](client)] *)
Definition kafka_connect : M kafka_run Z :=
  w <- get ;;
  let client := kr_client w in
  match mode client with
  | BGPVIEW_IO_KAFKA_MODE_AUTO_CONSUMER => undef
  | m =>
      kafka_log EvConnect ;;;
      let r := match m with
               | BGPVIEW_IO_KAFKA_MODE_PRODUCER =>
                   bgpview_io_kafka_producer_connect client
               | _ => bgpview_io_kafka_consumer_connect client
               end in
      kafka_set_client (snd r) ;;;
      ret (fst r)
  end.

(** [while (client->connected == 0 && connect_retries > 0)], with
    [connect_retries] the number of rounds left. *)
Fixpoint kafka_start_loop (connect_retries : nat) (wait : Z)
  : M kafka_run unit :=
  match connect_retries with
  | O => ret tt
  | Datatypes.S retries =>
      w <- get ;;
      if negb (connected (kr_client w) =? 0) then ret tt
      else
        r <- kafka_connect ;;
        if negb (r =? 0) then fail
        else
          w <- get ;;
          if (connected (kr_client w) =? 0) && (Z.of_nat retries >? 0)
          then
            (* Failed to connect to Kafka. Retrying in wait seconds *)
            kafka_log (EvSleep wait) ;;;
            let wait := wait * 2 in
            let wait := if wait >? 180 then 180 else wait in
            kafka_start_loop retries wait
          else kafka_start_loop retries wait
  end.

(** The result 0 is [Val 0], the result -1 is [Err]. *)
Definition bgpview_io_kafka_start : M kafka_run Z :=
  let wait := 10 in
  let connect_retries := BGPVIEW_IO_KAFKA_CONNECT_MAX_RETRIES in
  kafka_start_loop (Z.to_nat connect_retries) wait ;;;
  w <- get ;;
  if connected (kr_client w) =? 0 then
    (* Failed to connect to Kafka after the retries. Giving up *)
    fail
  else
    (* connect to topics (esp for members topic) *)
    r <- kafka_topic_connect ;;
    if negb (r =? 0) then fail
    else
      w <- get ;;
      (if bool_decide (mode (kr_client w) = BGPVIEW_IO_KAFKA_MODE_PRODUCER)
       then kafka_log (EvMembersUpdate gettimeofday)
       else ret tt) ;;;
      ret 0.

End KafkaStart.

(** The waits of the start-up: 10 seconds, doubled each time, at most
    180. *)
Fixpoint backoff_waits (n : nat) (wait : Z) : list Z :=
  match n with
  | O => []
  | Datatypes.S n' =>
      wait :: backoff_waits n' (if wait * 2 >? 180 then 180 else wait * 2)
  end.

Definition is_connect (e : kafka_event) : bool :=
  match e with EvConnect => true | _ => false end.

Definition sleep_of (e : kafka_event) : option Z :=
  match e with EvSleep n => Some n | _ => None end.

(** The connection attempts of the start-up loop and the sleeps between
    them, for [k] attempts with the first wait [wait]. *)
Fixpoint attempts_log (k : nat) (wait : Z) : list kafka_event :=
  match k with
  | O => []
  | Datatypes.S k' =>
      match k' with
      | O => [EvConnect]
      | Datatypes.S _ =>
          EvConnect :: EvSleep wait
          :: attempts_log k' (if wait * 2 >? 180 then 180 else wait * 2)
      end
  end.

(** The name of a topic, as [bgpview_io_kafka_single_topic_connect] builds
    it when the strings it needs are there. *)
Definition topic_full_name (ns : list byte) (ident chan : option (list byte))
  (id : bgpview_io_kafka_topic_id_t) : list byte :=
  match id with
  | BGPVIEW_IO_KAFKA_TOPIC_ID_MEMBERS | BGPVIEW_IO_KAFKA_TOPIC_ID_META =>
      dotted [ns; names id]
  | BGPVIEW_IO_KAFKA_TOPIC_ID_GLOBALMETA =>
      match chan with
      | None => dotted [ns; names id]
      | Some ch => dotted [ns; names id; ch]
      end
  | _ =>
      match ident with
      | None => []
      | Some idt => dotted [ns; idt; names id]
      end
  end.

(** An event that is neither a connection attempt nor a sleep. *)
Definition quiet_event (e : kafka_event) : Prop :=
  is_connect e = false /\ sleep_of e = None.

(** A topic connect function that succeeds and sets the handle it is
    given, leaving the rest of the client as it is. *)
Definition sets_handle
  (f : kafka_client_t -> bgpview_io_kafka_topic_id_t -> list byte ->
       Z * kafka_client_t) : Prop :=
  forall c id name,
    f c id name =
    (0, set_topic c id
          {| topic_name := topic_name (topics c id); rkt := true |}).

(** A connect function that succeeds without the connection coming up. *)
Definition never_connects
  (f : kafka_client_t -> Z * kafka_client_t) : Prop :=
  forall c,
    fst (f c) = 0 /\ connected (snd (f c)) = 0 /\
    mode (snd (f c)) = mode c.

(** The topic connect function of a mode. *)
Definition topic_connect_of (m : bgpview_io_kafka_mode_t)
  (consumer producer : kafka_client_t -> bgpview_io_kafka_topic_id_t ->
                       list byte -> Z * kafka_client_t) :=
  match m with
  | BGPVIEW_IO_KAFKA_MODE_PRODUCER => producer
  | _ => consumer
  end.

(** The connect function of a mode. *)
Definition connect_of (m : bgpview_io_kafka_mode_t)
  (consumer producer : kafka_client_t -> Z * kafka_client_t) :=
  match m with
  | BGPVIEW_IO_KAFKA_MODE_PRODUCER => producer
  | _ => consumer
  end.

(** A connect function that succeeds with the connection up, and leaves
    the rest of the client as it is. *)
Definition connects_at_once
  (f : kafka_client_t -> Z * kafka_client_t) : Prop :=
  forall c,
    fst (f c) = 0 /\ connected (snd (f c)) <> 0 /\
    mode (snd (f c)) = mode c /\ namespace (snd (f c)) = namespace c /\
    identity (snd (f c)) = identity c /\ channel (snd (f c)) = channel c /\
    forall id, topics (snd (f c)) id = topics c id.

(** Example clients and functions: a fresh producer client of the
    namespace [bgpview] and the identity [a]. *)
Definition kafka_producer_fresh : kafka_client_t :=
  {| mode := BGPVIEW_IO_KAFKA_MODE_PRODUCER;
     namespace := Some [char_b; char_g; char_p];
     identity := Some [char_a];
     channel := None;
     connected := 0;
     topics := fun _ => {| topic_name := []; rkt := false |} |}.

Definition kafka_producer_up : kafka_client_t :=
  {| mode := BGPVIEW_IO_KAFKA_MODE_PRODUCER;
     namespace := Some [char_b; char_g; char_p];
     identity := Some [char_a];
     channel := None;
     connected := 1;
     topics := fun _ => {| topic_name := []; rkt := false |} |}.

(** The same client with its pfxs topic connected already. *)
Definition kafka_producer_pfxs_connected : kafka_client_t :=
  set_topic kafka_producer_up BGPVIEW_IO_KAFKA_TOPIC_ID_PFXS
    {| topic_name := dotted [[char_b; char_g; char_p]; [char_a];
                             names BGPVIEW_IO_KAFKA_TOPIC_ID_PFXS];
       rkt := true |}.

Definition connect_stays_down (c : kafka_client_t) : Z * kafka_client_t :=
  (0, {| mode := mode c; namespace := namespace c; identity := identity c;
         channel := channel c; connected := 0; topics := topics c |}).

Definition connect_comes_up (c : kafka_client_t) : Z * kafka_client_t :=
  (0, {| mode := mode c; namespace := namespace c; identity := identity c;
         channel := channel c; connected := 1; topics := topics c |}).

Definition topic_connect_sets_handle (c : kafka_client_t)
  (id : bgpview_io_kafka_topic_id_t) (name : list byte)
  : Z * kafka_client_t :=
  (0, set_topic c id
        {| topic_name := topic_name (topics c id); rkt := true |}).


(* ===================================================================== *)
(** * Part II: theorems *)
(* ===================================================================== *)

(** ** [graphite_safe] *)

Lemma graphite_safe_char_id (c : byte) :
  c <> char_dot -> c <> char_star -> graphite_safe_char c = c.
Proof.
  intros Hd Hs. unfold graphite_safe_char.
  destruct (decide (c = char_dot)) as [e|_]; [contradiction|].
  destruct (decide (c = char_star)) as [e|_]; [contradiction|reflexivity].
Qed.

Lemma graphite_safe_char_dot : graphite_safe_char char_dot = char_underscore.
Proof. reflexivity. Qed.

Lemma graphite_safe_char_star : graphite_safe_char char_star = char_dash.
Proof. reflexivity. Qed.

Lemma graphite_safe_loop_terminated (s tail : list byte) :
  zero_byte ∉ s ->
  graphite_safe_loop (s ++ zero_byte :: tail)
  = map graphite_safe_char s ++ zero_byte :: tail.
Proof.
  induction s as [|c s IH]; intros Hnul; simpl.
  - destruct (decide (zero_byte = zero_byte)); [reflexivity|contradiction].
  - apply not_elem_of_cons in Hnul as [Hc Hs].
    destruct (decide (c = zero_byte)) as [->|_]; [contradiction|].
    rewrite IH by assumption. reflexivity.
Qed.

Lemma map_graphite_safe_char_id (s : list byte) :
  char_dot ∉ s -> char_star ∉ s -> map graphite_safe_char s = s.
Proof.
  induction s as [|c s IH]; intros Hd Hs; simpl; [reflexivity|].
  apply not_elem_of_cons in Hd as [Hd1 Hd2].
  apply not_elem_of_cons in Hs as [Hs1 Hs2].
  rewrite graphite_safe_char_id, IH by auto. reflexivity.
Qed.

(** C8. For a NUL-terminated string [s] held in a buffer,
    [graphite_safe] returns that buffer with each '.' of [s] replaced by
    '_' and each '*' by '-': the length and every other character of the
    string, the terminator and the bytes behind it are unchanged, and a
    string without '.' and '*' is left as it is. *)
Theorem graphite_safe_correct (s tail : list byte) :
  zero_byte ∉ s ->
  exists out,
    graphite_safe (Some (s ++ zero_byte :: tail))
      = Some (out ++ zero_byte :: tail) /\
    length out = length s /\
    (forall i c, s !! i = Some c ->
       out !! i = Some (if decide (c = char_dot) then char_underscore
                        else if decide (c = char_star) then char_dash
                        else c)) /\
    (char_dot ∉ s -> char_star ∉ s -> out = s).
Proof.
  intros Hnul. exists (map graphite_safe_char s).
  split; [|split; [|split]].
  - simpl. rewrite graphite_safe_loop_terminated by assumption. reflexivity.
  - apply length_map.
  - intros i c Hi. rewrite list_lookup_fmap, Hi. simpl. f_equal.
    unfold graphite_safe_char.
    destruct (decide (c = char_dot)) as [->|Hd]; [reflexivity|].
    destruct (decide (c = char_star)); reflexivity.
  - apply map_graphite_safe_char_id.
Qed.

Lemma graphite_safe_correct_witness :
  (zero_byte ∉ [Byte.x72; char_dot; Byte.x30; char_star]) /\
  exists out,
    graphite_safe (Some ([Byte.x72; char_dot; Byte.x30; char_star]
                         ++ zero_byte :: [Byte.xff]))
      = Some (out ++ zero_byte :: [Byte.xff]) /\
    length out = 4%nat /\
    (forall i c, [Byte.x72; char_dot; Byte.x30; char_star] !! i = Some c ->
       out !! i = Some (if decide (c = char_dot) then char_underscore
                        else if decide (c = char_star) then char_dash
                        else c)) /\
    (char_dot ∉ [Byte.x72; char_dot; Byte.x30; char_star] ->
     char_star ∉ [Byte.x72; char_dot; Byte.x30; char_star] ->
     out = [Byte.x72; char_dot; Byte.x30; char_star]).
Proof.
  assert (Hnul : zero_byte ∉ [Byte.x72; char_dot; Byte.x30; char_star]).
  { intros H. repeat (apply elem_of_cons in H as [H|H]; [discriminate H|]).
    inversion H. }
  split; [exact Hnul|].
  exact (graphite_safe_correct [Byte.x72; char_dot; Byte.x30; char_star]
           [Byte.xff] Hnul).
Defined.

(** ** The drain loop of [bgpview_io_kafka_destroy] *)

Section KafkaDestroyFacts.

Variable rd_kafka_t : Type.
Variable rd_kafka_outq_len : rd_kafka_t -> Z.
Variable rd_kafka_poll : rd_kafka_t -> Z -> rd_kafka_t.

Lemma drain_loop_polls (cnt : nat) :
  forall (conn : rd_kafka_t) (polls : list Z),
  exists more,
    snd (drain_loop rd_kafka_t rd_kafka_outq_len rd_kafka_poll cnt conn polls)
      = polls ++ more /\
    (length more <= cnt)%nat /\
    Forall (fun t => t = 5000) more.
Proof.
  induction cnt as [|cnt IH]; intros conn polls; simpl.
  - exists []. rewrite app_nil_r. repeat split; [simpl; lia|constructor].
  - destruct (rd_kafka_outq_len conn >? 0).
    + destruct (IH (rd_kafka_poll conn 5000) (polls ++ [5000]))
        as (more & Heq & Hlen & Hall).
      exists (5000 :: more). rewrite Heq, <- app_assoc. simpl.
      repeat split; [lia|]. constructor; [reflexivity|assumption].
    + exists []. rewrite app_nil_r. repeat split; [simpl; lia|constructor].
Qed.

Lemma sum_polls_bound (l : list Z) :
  Forall (fun t => t = 5000) l -> fold_right Z.add 0 l = 5000 * Z.of_nat (length l).
Proof.
  induction 1 as [|t l Ht _ IH]; simpl; [reflexivity|].
  rewrite IH, Ht. lia.
Qed.

(** C9. With a live connection, the drain loop of
    [bgpview_io_kafka_destroy] polls at most 12 times, every poll with a
    timeout of 5000 ms, whatever the queue does: the timeouts add up to at
    most 12 x 5 seconds. *)
Theorem kafka_destroy_drain_bounded (conn : rd_kafka_t) :
  let polls :=
    snd (bgpview_io_kafka_destroy_drain rd_kafka_t rd_kafka_outq_len
           rd_kafka_poll {| rdk_conn := Some conn |}) in
  (length polls <= 12)%nat /\
  Forall (fun t => t = 5000) polls /\
  fold_right Z.add 0 polls <= 12 * 5000.
Proof.
  unfold bgpview_io_kafka_destroy_drain. cbn [rdk_conn snd].
  destruct (drain_loop_polls 12 conn []) as (more & Heq & Hlen & Hall).
  rewrite Heq. simpl. repeat split; [assumption|assumption|].
  rewrite sum_polls_bound by assumption. lia.
Qed.

End KafkaDestroyFacts.

(** ** The view-sender: sync or diff frame *)

Lemma sync_time_aligned (t i : Z) :
  0 <= t < 2 ^ 32 -> 0 < i <= INT_MAX ->
  (t =? ((t / (i mod 2 ^ 32)) * (i mod 2 ^ 32)) mod 2 ^ 32) = (t mod i =? 0).
Proof.
  intros Ht Hi. unfold INT_MAX in Hi.
  rewrite (Z.mod_small i) by lia.
  assert (Hq : 0 <= t / i * i <= t).
  { pose proof (Z.mul_div_le t i ltac:(lia)).
    pose proof (Z.div_pos t i ltac:(lia) ltac:(lia)). nia. }
  rewrite (Z.mod_small (t / i * i)) by lia.
  pose proof (Z.div_mod t i ltac:(lia)) as Hdm.
  destruct (Z.eqb_spec (t mod i) 0) as [e|n].
  - apply Z.eqb_eq. lia.
  - apply Z.eqb_neq. lia.
Qed.


(** ** The full-feed filter *)

(** C7 (as amended). [filter_ff] drops (returns 0) exactly the peers and
    pfx-peers whose peer has fewer active IPv4 prefixes than
    [filter_ff_v4cnt] and also fewer active IPv6 prefixes than
    [filter_ff_v6cnt]; a prefix query is never dropped. *)
Theorem filter_ff_drops_iff (st : bvc_viewsender_state) (it : bgpview_iter)
  (type : bgpview_io_filter_type_t) :
  filter_ff st it type = 0 <->
  type <> BGPVIEW_IO_FILTER_PFX /\
  bgpview_iter_peer_get_pfx_cnt it is_ipv4 < filter_ff_v4cnt st /\
  bgpview_iter_peer_get_pfx_cnt it is_ipv6 < filter_ff_v6cnt st.
Proof.
  unfold filter_ff.
  destruct (bool_decide_reflect (type = BGPVIEW_IO_FILTER_PFX)) as [e|n]; simpl.
  - split; [discriminate|]. intros [H _]. contradiction.
  - destruct (Z.geb_spec (bgpview_iter_peer_get_pfx_cnt it is_ipv4)
                (filter_ff_v4cnt st)); simpl.
    + split; [discriminate|]. lia.
    + destruct (Z.geb_spec (bgpview_iter_peer_get_pfx_cnt it is_ipv6)
                  (filter_ff_v6cnt st)); simpl.
      * split; [discriminate|]. lia.
      * split; [|reflexivity]. intros _. repeat split; [assumption|lia|lia].
Qed.

Lemma filter_ff_keeps_v6_full_feed_peer :
  ~ (forall (st : bvc_viewsender_state) (it : bgpview_iter),
       bgpview_iter_peer_get_pfx_cnt it is_ipv4 < filter_ff_v4cnt st ->
       filter_ff st it BGPVIEW_IO_FILTER_PEER = 0).
Proof.
  intros H.
  specialize (H (bvc_viewsender_init_state true false)
                (iter_seek_peer (bgpview_iter_create view_v6_full_feed) 1)).
  assert (Hlt : bgpview_iter_peer_get_pfx_cnt
                  (iter_seek_peer (bgpview_iter_create view_v6_full_feed) 1)
                  is_ipv4
                < filter_ff_v4cnt (bvc_viewsender_init_state true false))
    by (vm_compute; reflexivity).
  specialize (H Hlt).
  assert (Hkept : filter_ff (bvc_viewsender_init_state true false)
                    (iter_seek_peer (bgpview_iter_create view_v6_full_feed) 1)
                    BGPVIEW_IO_FILTER_PEER = 1)
    by (vm_compute; reflexivity).
  rewrite H in Hkept. discriminate Hkept.
Qed.



(** ** The codec on the example views and streams *)

(** C4 (the code at the failing input). With a filter that keeps the peer
    and the prefix of [view_one] and drops its only pfx-peer,
    [write_pfxs] has already written the address and the mask length of
    the prefix (6 bytes) when it finds that no pfx-peer was sent: the
    prefix section holds these bytes, followed by the end-of-pfxs magic
    and the count 0. *)
Theorem write_pfxs_filtered_pfx_leaves_bytes (host : byte_order) :
  write_pfxs host (bgpview_iter_create view_one) (Some filter_no_pfx_peer) []
  = Val 0 (wire_ip (address pfx_10_1) ++ u8 (mask_len pfx_10_1)
           ++ magic_bytes VIEW_PFX_END_MAGIC ++ be_bytes 4 0).
Proof. destruct host; vm_compute; reflexivity. Qed.

(** The view-sender's own filter gives the same stream for this view: its
    peer is not a full-feed peer. *)
Lemma write_pfxs_filter_ff_leaves_bytes (host : byte_order) :
  write_pfxs host (bgpview_iter_create view_one)
    (Some (filter_ff (bvc_viewsender_init_state true false))) []
  = Val 0 (wire_ip (address pfx_10_1) ++ u8 (mask_len pfx_10_1)
           ++ magic_bytes VIEW_PFX_END_MAGIC ++ be_bytes 4 0).
Proof. destruct host; vm_compute; reflexivity. Qed.

(** C3 (the code at the failing input). The encoding of [view_one]
    without its end-of-view magic is read to the end of the file and
    reported as a valid view: the result is 1. *)
Theorem read_missing_end_magic_is_valid (host : byte_order) :
  exists s,
    decode host (wire_view_body (host_bytes host) view_one) []
      (Some bgpview_create) None None None = Val 1 s /\
    avail (infile s) = [].
Proof. destruct host; vm_compute; eexists; split; reflexivity. Qed.

(** A cross-check count that does not match trips the [assert]: the
    reader does not return. *)
Lemma read_wrong_peer_count_aborts (host : byte_order) :
  decode host (stream_wrong_peer_count (host_bytes host)) []
    (Some bgpview_create) None None None = Abort.
Proof. destruct host; vm_compute; reflexivity. Qed.

(** The specification's sixth scenario, a stream cut between the path
    magic and the path count: the count variable keeps what it held
    before. When that differs from the number of paths read the [assert]
    trips; when it happens to be equal the reader fails, with the view's
    time, peers and paths already changed. *)
Lemma read_cut_after_path_magic_aborts (host : byte_order) :
  decode host (stream_cut_after_path_magic (host_bytes host)) []
    (Some bgpview_create) None None None = Abort.
Proof. destruct host; vm_compute; reflexivity. Qed.

Lemma read_cut_after_path_magic_fails (host : byte_order) :
  exists s v,
    decode host (stream_cut_after_path_magic (host_bytes host)) (be_bytes 4 2)
      (Some bgpview_create) None None None = Err s /\
    view_of s = Some v /\
    view_time v = 3600 /\ sig_store v = [sig_rrc00] /\
    path_store v = [path_a; path_b].
Proof. destruct host; vm_compute; do 2 eexists; repeat split; reflexivity. Qed.

Lemma read_failure_changes_view :
  ~ (forall (host : byte_order) (bytes junk : list byte) (v : bgpview)
            (peer_cb : option bgpview_io_filter_peer_cb_t)
            (pfx_cb : option bgpview_io_filter_pfx_cb_t)
            (pfx_peer_cb : option bgpview_io_filter_pfx_peer_cb_t)
            (s : rstate),
       decode host bytes junk (Some v) peer_cb pfx_cb pfx_peer_cb = Err s ->
       view_of s = Some v).
Proof.
  intros H.
  assert (E : exists s,
    decode LittleEndian stream_bad_peer_ip [] (Some bgpview_create)
      None None None = Err s /\
    option_map view_time (view_of s) = Some 5).
  { vm_compute. eexists. split; reflexivity. }
  destruct E as (s & Hs & Ht).
  apply H in Hs. rewrite Hs in Ht. discriminate Ht.
Qed.

Lemma write_path_idx_in_host_order :
  ~ (forall (host : byte_order) (v : bgpview),
       encode host v None = Val 0 (wire_view be_bytes v)).
Proof.
  intros H. specialize (H LittleEndian view_one).
  assert (Hne : encode LittleEndian view_one None
                <> Val 0 (wire_view be_bytes view_one))
    by (vm_compute; discriminate).
  contradiction.
Qed.

Lemma sig_lookup_singleton (s s' : peer_sig) (id : Z) :
  sig_lookup [s] id = Some s' -> s' = s.
Proof.
  unfold sig_lookup. destruct (id <=? 0); [discriminate|].
  destruct (Z.to_nat (id - 1)) as [|n]; simpl; [congruence|].
  destruct n; discriminate.
Qed.

Lemma roundtrip_loses_inactive_peer :
  ~ (forall (host : byte_order) (v : bgpview),
       exists bytes s v',
         encode host v None = Val 0 bytes /\
         decode host bytes [] (Some bgpview_create) None None None = Val 1 s /\
         view_of s = Some v' /\
         view_equiv v v').
Proof.
  intros H.
  destruct (H LittleEndian view_inactive_peer)
    as (bytes & s & v' & Henc & Hdec & Hv & Heq).
  assert (E : exists bytes0 s0,
    encode LittleEndian view_inactive_peer None = Val 0 bytes0 /\
    decode LittleEndian bytes0 [] (Some bgpview_create) None None None
      = Val 1 s0 /\
    option_map sig_store (view_of s0) = Some [sig_rrc00]).
  { do 2 eexists. split; [vm_compute; reflexivity|].
    split; vm_compute; reflexivity. }
  destruct E as (bytes0 & s0 & Henc0 & Hdec0 & Hsig).
  rewrite Henc in Henc0. injection Henc0 as <-.
  rewrite Hdec in Hdec0. injection Hdec0 as <-.
  rewrite Hv in Hsig. simpl in Hsig. injection Hsig as Hsig.
  destruct Heq as (_ & Hpeers & _).
  assert (Hin : has_peer view_inactive_peer sig_rrc00_b).
  { exists 2, false. split; reflexivity. }
  apply Hpeers in Hin. destruct Hin as (id & b & _ & Hl).
  rewrite Hsig in Hl. apply sig_lookup_singleton in Hl. discriminate Hl.
Qed.


(** ** Reasoning about the monad *)

Lemma post_bind {S A B} (m : M S A) (k : A -> M S B) (s : S)
  (Q : B -> S -> Prop) (E : S -> Prop) :
  post (m s) (fun a s' => post (k a s') Q E) E ->
  post (bind m k s) Q E.
Proof. unfold bind. destruct (m s); simpl; auto. Qed.

Lemma post_mono {S A} (r : res S A) (Q Q' : A -> S -> Prop)
  (E E' : S -> Prop) :
  post r Q E ->
  (forall a s, Q a s -> Q' a s) -> (forall s, E s -> E' s) ->
  post r Q' E'.
Proof. destruct r; simpl; auto. Qed.

Lemma post_loop_pos {S A} (body : A -> M S (ctl A))
  (I : A -> S -> Prop) (E : S -> Prop) :
  (forall a s, I a s -> post (body a s) (fun c s' => I (ctl_val c) s') E) ->
  forall p a s, I a s ->
    post (loop_pos p body a s) (fun c s' => I (ctl_val c) s') E.
Proof.
  intros Hbody. induction p as [p IH|p IH|]; intros a s Ha; simpl.
  - apply post_bind. eapply post_mono; [apply Hbody, Ha| |auto].
    intros [a'|a'] s' Hc; simpl in *; [|exact Hc].
    apply post_bind. eapply post_mono; [apply IH, Hc| |auto].
    intros [a''|a''] s'' Hc'; simpl in *; [|exact Hc'].
    apply IH, Hc'.
  - apply post_bind. eapply post_mono; [apply IH, Ha| |auto].
    intros [a'|a'] s' Hc; simpl in *; [|exact Hc].
    apply IH, Hc.
  - apply Hbody, Ha.
Qed.

Lemma post_for_loop {S A} (bound : Z) (body : A -> M S (ctl A))
  (I : A -> S -> Prop) (E : S -> Prop) :
  (forall a s, I a s -> post (body a s) (fun c s' => I (ctl_val c) s') E) ->
  forall a s, I a s -> post (for_loop bound body a s) I E.
Proof.
  intros Hbody a s Ha. unfold for_loop.
  destruct bound as [|p|p]; simpl; try exact Ha.
  apply post_bind. eapply post_mono; [apply (post_loop_pos body I E Hbody), Ha| |auto].
  intros c s' Hc. exact Hc.
Qed.


Lemma stable_ret {A} (a : A) : stable (ret a).
Proof. intros s. reflexivity. Qed.

Lemma stable_fail {A} : stable (@fail rstate A).
Proof. intros s. reflexivity. Qed.

Lemma stable_bind {A B} (m : M rstate A) (k : A -> M rstate B) :
  stable m -> (forall a, stable (k a)) -> stable (bind m k).
Proof.
  intros Hm Hk s. apply post_bind.
  eapply post_mono; [apply Hm| |auto].
  intros a s' Hs'. simpl in Hs'.
  eapply post_mono; [apply Hk| |]; simpl; intros; congruence.
Qed.

Lemma stable_assert (b : bool) : stable (assert b).
Proof. intros s. destruct b; simpl; reflexivity. Qed.

Lemma stable_wandio_read (n : nat) : stable (wandio_read n).
Proof. intros s. reflexivity. Qed.

Lemma stable_wandio_peek (n : nat) : stable (wandio_peek n).
Proof. intros s. reflexivity. Qed.

Lemma stable_READ_VAL (host : byte_order) (n : nat) : stable (READ_VAL host n).
Proof. intros s. reflexivity. Qed.

Lemma stable_iter_is_null : stable iter_is_null.
Proof. intros s. reflexivity. Qed.

Lemma stable_ask_filter {X} (cb : option (X -> Z)) (x : X) :
  stable (ask_filter cb x).
Proof.
  intros s. unfold ask_filter. destruct cb as [f|]; [|reflexivity].
  destruct (f x <? 0); reflexivity.
Qed.

Lemma stable_check_magic (host : byte_order) (magic : Z) :
  stable (check_magic host magic).
Proof.
  unfold check_magic. apply stable_bind; [apply stable_wandio_peek|].
  intros bs. destruct (negb _); [apply stable_ret|].
  destruct (negb _); [apply stable_ret|].
  destruct (negb _); [apply stable_ret|].
  apply stable_bind; [apply stable_wandio_read|]. intros rd.
  apply stable_bind; [apply stable_assert|]. intros _. apply stable_ret.
Qed.

Lemma stable_read_ip (host : byte_order) : stable (read_ip host).
Proof.
  unfold read_ip. apply stable_bind; [apply stable_READ_VAL|]. intros len.
  destruct (len =? 4).
  { apply stable_bind; [apply stable_wandio_read|]. intros bs.
    destruct (negb _); [apply stable_fail|apply stable_ret]. }
  destruct (len =? 16); [|apply stable_fail].
  apply stable_bind; [apply stable_wandio_read|]. intros bs.
  destruct (negb _); [apply stable_fail|apply stable_ret].
Qed.

Lemma stable_pathid_map_get (m : path_idmap) (i : Z) :
  stable (pathid_map_get m i).
Proof.
  intros s. unfold pathid_map_get. destruct (i <? pm_cnt m); [|exact I].
  destruct (pm_ids m !! i); [reflexivity|exact I].
Qed.

Lemma stable_get_path_store : stable get_path_store.
Proof.
  intros s. unfold get_path_store.
  destruct (r_iter s) eqn:E; simpl; [congruence|exact I].
Qed.


Lemma ipost_bind_stable {A B} (m : M rstate A) (k : A -> M rstate B)
  (s : rstate) (Q : B -> option bgpview_iter -> Prop)
  (E : option bgpview_iter -> Prop) :
  stable m ->
  E (r_iter s) ->
  (forall a s', r_iter s' = r_iter s -> ipost (k a s') Q E) ->
  ipost (bind m k s) Q E.
Proof.
  intros Hm HE Hk. unfold ipost. apply post_bind.
  eapply post_mono; [apply Hm| |]; simpl.
  - intros a s' Hs'. apply Hk, Hs'.
  - intros s' Hs'. rewrite Hs'. exact HE.
Qed.

Lemma ipost_bind_with_iter {A B} (f : bgpview_iter -> A * bgpview_iter)
  (k : A -> M rstate B) (s : rstate)
  (Q : B -> option bgpview_iter -> Prop) (E : option bgpview_iter -> Prop) :
  (forall it s', r_iter s = Some it -> r_iter s' = Some (snd (f it)) ->
     ipost (k (fst (f it)) s') Q E) ->
  ipost (bind (with_iter f) k s) Q E.
Proof.
  intros Hk. unfold ipost, bind, with_iter.
  destruct (r_iter s) as [it|] eqn:Hit; [|exact I].
  apply (Hk it); reflexivity.
Qed.

Lemma ipost_ret {A} (a : A) (s : rstate)
  (Q : A -> option bgpview_iter -> Prop) (E : option bgpview_iter -> Prop) :
  Q a (r_iter s) -> ipost (ret a s) Q E.
Proof. auto. Qed.

Lemma ipost_fail {A} (s : rstate)
  (Q : A -> option bgpview_iter -> Prop) (E : option bgpview_iter -> Prop) :
  E (r_iter s) -> ipost (@fail rstate A s) Q E.
Proof. auto. Qed.

Lemma ipost_for_loop {A} (bound : Z) (body : A -> M rstate (ctl A))
  (E : option bgpview_iter -> Prop) :
  (forall a s, E (r_iter s) -> ipost (body a s) (fun _ o => E o) E) ->
  forall a s, E (r_iter s) ->
    ipost (for_loop bound body a s) (fun _ o => E o) E.
Proof.
  intros Hbody a s HE. unfold ipost.
  apply (post_for_loop bound body (fun _ s => E (r_iter s))
           (fun s => E (r_iter s))); [|exact HE].
  intros a' s' HE'. apply Hbody, HE'.
Qed.

Lemma ipost_bind {A B} (m : M rstate A) (k : A -> M rstate B) (s : rstate)
  (R : A -> option bgpview_iter -> Prop)
  (Q : B -> option bgpview_iter -> Prop) (E : option bgpview_iter -> Prop) :
  ipost (m s) R E ->
  (forall a s', R a (r_iter s') -> ipost (k a s') Q E) ->
  ipost (bind m k s) Q E.
Proof.
  intros Hm Hk. unfold ipost. apply post_bind.
  eapply post_mono; [apply Hm| |auto].
  intros a s' HR. apply Hk, HR.
Qed.

Lemma ipost_bind_assert {B} (b : bool) (k : unit -> M rstate B) (s : rstate)
  (Q : B -> option bgpview_iter -> Prop) (E : option bgpview_iter -> Prop) :
  (b = true -> ipost (k tt s) Q E) ->
  ipost (bind (assert b) k s) Q E.
Proof.
  intros Hk. unfold ipost, bind, assert. destruct b; simpl; [|exact I].
  apply Hk. reflexivity.
Qed.

Create HintDb stable.
#[local] Hint Resolve stable_ret stable_fail stable_assert stable_wandio_read
  stable_wandio_peek stable_READ_VAL stable_iter_is_null stable_ask_filter
  stable_check_magic stable_read_ip stable_pathid_map_get
  stable_get_path_store : stable.

(** One step of a run, for goals of the form [ipost (m s) Q E] with the
    condition on the current iterator among the hypotheses. *)
Ltac stable_tac :=
  repeat first
    [ solve [auto with stable]
    | lazymatch goal with
      | |- stable (bind _ _) => apply stable_bind; [|intros ?]
      | |- stable (if ?b then _ else _) => destruct b
      | |- stable (match ?x with _ => _ end) => destruct x
      | |- stable undef => intros ?; exact I
      end ].

(** One step of a run, for goals of the form [ipost (m s) Q E] with the
    condition on the current iterator among the hypotheses. *)
Ltac istep H :=
  lazymatch goal with
  | |- ipost (bind (with_iter _) _ _) _ _ =>
      apply ipost_bind_with_iter; intros ? ? ? ?
  | |- ipost (bind (assert _) _ _) _ _ =>
      apply ipost_bind_assert; intros ?
  | |- ipost (bind (if ?b then with_iter _ else _) _ _) _ _ =>
      destruct b eqn:?
  | |- ipost (bind _ _ ?s) _ _ =>
      apply ipost_bind_stable;
      [ solve [stable_tac]
      | exact H
      | let a := fresh "a" in
        let s' := fresh "s" in
        let Hs := fresh "Hs" in
        intros a s' Hs; rewrite <- Hs in H; clear Hs; try clear s ]
  | |- ipost (ret _ _) _ _ => apply ipost_ret; try exact H
  | |- ipost (fail _) _ _ => apply ipost_fail; try exact H
  | |- ipost (undef _) _ _ => exact I
  | |- ipost ((if ?b then _ else _) _) _ _ => destruct b eqn:?
  end.

(** The iterator reached through a chain of view calls, for a goal
    [iter_holds P (r_iter s)] and the condition [H] on the iterator the
    chain starts from. *)
Ltac iclose H :=
  lazymatch goal with
  | Hs : r_iter ?s = Some ?x |- iter_holds _ (r_iter ?s) =>
      exists x; split; [exact Hs|]
  end;
  let it := fresh "it" in
  let Hit := fresh "Hit" in
  let HP := fresh "HP" in
  destruct H as (it & Hit & HP);
  repeat match goal with
  | Ha : r_iter ?s = Some ?x, Hb : r_iter ?s = Some ?y |- _ =>
      rewrite Ha in Hb; injection Hb as <-
  end.

Section ReaderInvariant.

Variable host : byte_order.
Variable P : bgpview -> Prop.

Hypothesis P_add_peer : forall it col ip asn,
  P (it_view it) ->
  fst (bgpview_iter_add_peer it col ip asn) <> 0 ->
  P (it_view (snd (bgpview_iter_activate_peer
                     (snd (bgpview_iter_add_peer it col ip asn))))).

Hypothesis P_insert_path : forall it data core,
  P (it_view it) -> P (it_view (snd (view_insert_path data core it))).

Hypothesis P_add_pfx_peer_failed : forall it q id pid,
  P (it_view it) ->
  fst (bgpview_iter_add_pfx_peer_by_id it q id pid) <> 0 ->
  P (it_view (snd (bgpview_iter_add_pfx_peer_by_id it q id pid))).

Hypothesis P_add_pfx_peer : forall it q id pid,
  P (it_view it) ->
  fst (bgpview_iter_add_pfx_peer_by_id it q id pid) = 0 ->
  P (it_view (snd (bgpview_iter_pfx_activate_peer
                     (snd (bgpview_iter_add_pfx_peer_by_id it q id pid))))).

Lemma read_peers_holds (peer_cb : option bgpview_io_filter_peer_cb_t)
  (s : rstate) :
  iter_holds P (r_iter s) ->
  ipost (read_peers host peer_cb s) (fun _ o => iter_holds P o) (iter_holds P).
Proof.
  intros H. unfold read_peers.
  eapply ipost_bind.
  - apply ipost_for_loop; [|exact H]. clear s H.
    intros [idmap peers_rx] s H. unfold read_peers_body.
    istep H. istep H; [istep H|].
    istep H. istep H. istep H. istep H; [istep H|].
    istep H. istep H. istep H. istep H; [istep H|].
    istep H. istep H; [istep H|].
    istep H. istep H. istep H. istep H. iclose H.
    apply P_add_peer; [assumption|].
    match goal with
    | Hne : negb (_ =? 0) = true |- _ =>
        apply negb_true_iff, Z.eqb_neq in Hne; exact Hne
    end.
  - intros [idmap peers_rx] s' H'. simpl in H'.
    istep H'. istep H'. istep H'.
Qed.

Lemma read_paths_holds (s : rstate) :
  iter_holds P (r_iter s) ->
  ipost (read_paths host s) (fun _ o => iter_holds P o) (iter_holds P).
Proof.
  intros H. unfold read_paths.
  eapply ipost_bind.
  - apply ipost_for_loop; [|exact H]. clear s H.
    intros [idmap paths_rx] s H. unfold read_paths_body.
    istep H. istep H; [istep H|].
    istep H. istep H. istep H. istep H. istep H. istep H; [istep H|].
    istep H. istep H; [istep H|].
    istep H. istep H. istep H; [|istep H].
    istep H. iclose H. apply P_insert_path. assumption.
  - intros [idmap paths_rx] s' H'. simpl in H'.
    istep H'. istep H'. istep H'.
Qed.

Lemma pfx_add_peer_holds (it : bgpview_iter) (id : Z) (pid : path_id) :
  P (it_view it) ->
  (fst (bgpview_iter_pfx_add_peer_by_id it id pid) <> 0 ->
   P (it_view (snd (bgpview_iter_pfx_add_peer_by_id it id pid)))) /\
  (fst (bgpview_iter_pfx_add_peer_by_id it id pid) = 0 ->
   P (it_view (snd (bgpview_iter_pfx_activate_peer
                      (snd (bgpview_iter_pfx_add_peer_by_id it id pid)))))).
Proof.
  intros HP. unfold bgpview_iter_pfx_add_peer_by_id.
  destruct (it_pfx it) as [q|]; simpl.
  - split; [apply P_add_pfx_peer_failed|apply P_add_pfx_peer]; exact HP.
  - split; [intros _; exact HP|discriminate].
Qed.

Lemma read_pfxs_holds (pfx_cb : option bgpview_io_filter_pfx_cb_t)
  (pfx_peer_cb : option bgpview_io_filter_pfx_peer_cb_t)
  (peerid_map : list Z) (pathid_map : path_idmap) (s : rstate) :
  iter_holds P (r_iter s) ->
  ipost (read_pfxs host pfx_cb pfx_peer_cb peerid_map pathid_map s)
    (fun _ o => iter_holds P o) (iter_holds P).
Proof.
  intros H. unfold read_pfxs.
  eapply ipost_bind.
  - apply ipost_for_loop; [|exact H]. clear s H.
    intros pfx_rx s H. unfold read_pfxs_body.
    istep H. istep H; [istep H|].
    istep H. istep H. istep H.
    eapply ipost_bind.
    + apply ipost_for_loop; [|exact H]. clear s H.
      intros [pfx_peers_added pfx_peer_rx] s H. unfold read_pfx_peers_body.
      istep H. istep H; [istep H|].
      istep H. istep H. istep H. istep H; [istep H|].
      istep H. istep H. istep H; [istep H|].
      istep H. istep H.
      * (* bgpview_iter_add_pfx_peer_by_id *)
        istep H. istep H.
        { istep H. iclose H. apply P_add_pfx_peer_failed; [assumption|].
          match goal with
          | Hne : negb (_ =? 0) = true |- _ =>
              apply negb_true_iff, Z.eqb_neq in Hne; exact Hne
          end. }
        istep H.
        lazymatch goal with
        | |- ipost (_ ?s1) _ _ => assert (HP : iter_holds P (r_iter s1))
        end.
        { iclose H. apply P_add_pfx_peer; [assumption|].
          match goal with
          | Hne : negb (_ =? 0) = false |- _ =>
              apply negb_false_iff, Z.eqb_eq in Hne; exact Hne
          end. }
        istep HP; istep HP.
      * (* bgpview_iter_pfx_add_peer_by_id *)
        istep H. istep H.
        { istep H. iclose H. apply pfx_add_peer_holds; [assumption|].
          match goal with
          | Hne : negb (_ =? 0) = true |- _ =>
              apply negb_true_iff, Z.eqb_neq in Hne; exact Hne
          end. }
        istep H.
        lazymatch goal with
        | |- ipost (_ ?s1) _ _ => assert (HP : iter_holds P (r_iter s1))
        end.
        { iclose H. apply pfx_add_peer_holds; [assumption|].
          match goal with
          | Hne : negb (_ =? 0) = false |- _ =>
              apply negb_false_iff, Z.eqb_eq in Hne; exact Hne
          end. }
        istep HP; istep HP.
    + intros [added pfx_peer_rx] s' H'. simpl in H'.
      istep H'. istep H'. istep H'.
  - intros pfx_rx s' H'. simpl in H'.
    istep H'. istep H'. istep H'.
Qed.

End ReaderInvariant.

(** ** What the view functions do to the view *)

Lemma sig_intern_store (store : list peer_sig) (s : peer_sig) :
  snd (sig_intern store s) = store \/ snd (sig_intern store s) = store ++ [s].
Proof.
  unfold sig_intern. destruct (index_of s store); [left; reflexivity|].
  destruct (_ <? _); [right|left]; reflexivity.
Qed.

Lemma sig_intern_prefix (store : list peer_sig) (s : peer_sig) :
  store `prefix_of` snd (sig_intern store s).
Proof.
  destruct (sig_intern_store store s) as [-> | ->];
    [reflexivity|apply prefix_app_r; reflexivity].
Qed.

Lemma insert_path_prefix (store : list store_path) (data : list byte)
  (core : bool) :
  store `prefix_of` snd (bgpstream_as_path_store_insert_path store data core).
Proof.
  unfold bgpstream_as_path_store_insert_path.
  destruct (index_of _ store); simpl;
    [reflexivity|apply prefix_app_r; reflexivity].
Qed.

(** [bgpview_iter_add_peer] followed by [bgpview_iter_activate_peer]. *)
Lemma add_activate_peer_view (it : bgpview_iter) (col : list byte)
  (ip : ip_addr) (asn : Z) :
  let s := {| collector_str := col; peer_ip_addr := ip;
              peer_asnumber := asn |} in
  let id := fst (sig_intern (sig_store (it_view it)) s) in
  fst (bgpview_iter_add_peer it col ip asn) = id /\
  (id <> 0 ->
   it_view (snd (bgpview_iter_activate_peer
                   (snd (bgpview_iter_add_peer it col ip asn))))
   = set_peers (set_sig_store (it_view it)
                  (snd (sig_intern (sig_store (it_view it)) s)))
       (<[id := true]> (peers (it_view it)))).
Proof.
  intros s id. subst id. unfold bgpview_iter_add_peer. fold s.
  destruct (sig_intern (sig_store (it_view it)) s) as [id store'] eqn:Hi.
  simpl. destruct (Z.eqb_spec id 0) as [->|Hne]; simpl.
  - split; [reflexivity|]. intros H. contradiction.
  - split; [reflexivity|]. intros _.
    unfold bgpview_iter_activate_peer. simpl.
    destruct (peers (it_view it) !! id) as [b|] eqn:Hp; simpl.
    + rewrite Hp. destruct b; simpl.
      * unfold set_peers, set_sig_store. simpl. f_equal.
        symmetry. apply insert_id, Hp.
      * reflexivity.
    + rewrite lookup_insert_eq. simpl.
      unfold set_peers, set_sig_store. simpl. f_equal.
      apply insert_insert_eq.
Qed.

Lemma view_insert_path_view (data : list byte) (core : Z)
  (it : bgpview_iter) :
  it_view (snd (view_insert_path data core it))
  = set_path_store (it_view it)
      (snd (bgpstream_as_path_store_insert_path (path_store (it_view it))
              data (negb (core =? 0)))).
Proof. reflexivity. Qed.

Lemma add_pfx_peer_failed_view (it : bgpview_iter) (q : pfx) (id : Z)
  (pid : path_id) :
  fst (bgpview_iter_add_pfx_peer_by_id it q id pid) <> 0 ->
  snd (bgpview_iter_add_pfx_peer_by_id it q id pid) = it.
Proof.
  unfold bgpview_iter_add_pfx_peer_by_id.
  destruct (peers (it_view it) !! id); [|reflexivity].
  destruct (pfx_valid q); [|reflexivity].
  simpl. intros H. contradiction.
Qed.

(** [bgpview_iter_add_pfx_peer_by_id] followed by
    [bgpview_iter_pfx_activate_peer]. *)
Lemma add_activate_pfx_peer_view (it : bgpview_iter) (q : pfx) (id : Z)
  (pid : path_id) :
  fst (bgpview_iter_add_pfx_peer_by_id it q id pid) = 0 ->
  is_Some (peers (it_view it) !! id) /\
  pfx_valid q = true /\
  fst (bgpview_iter_pfx_activate_peer
         (snd (bgpview_iter_add_pfx_peer_by_id it q id pid))) = 1 /\
  it_view (snd (bgpview_iter_pfx_activate_peer
                  (snd (bgpview_iter_add_pfx_peer_by_id it q id pid))))
  = set_peers
      (set_pfxs (it_view it)
         (<[q := <[id := {| pp_path_id := pid; pp_active := true |}]>
                   (default ∅ (pfxs (it_view it) !! q))]>
            (pfxs (it_view it))))
      (<[id := true]> (peers (it_view it))) /\
  it_pfx (snd (bgpview_iter_pfx_activate_peer
                 (snd (bgpview_iter_add_pfx_peer_by_id it q id pid))))
  = Some q.
Proof.
  unfold bgpview_iter_add_pfx_peer_by_id.
  destruct (peers (it_view it) !! id) as [b|] eqn:Hp; [|discriminate].
  destruct (pfx_valid q) eqn:Hq; [|discriminate].
  simpl. intros _. split; [eauto|]. split; [reflexivity|].
  unfold bgpview_iter_pfx_activate_peer. simpl.
  rewrite !lookup_insert_eq. simpl.
  split; [reflexivity|]. split; [|reflexivity].
  unfold set_peers, set_pfxs. simpl. f_equal.
  rewrite insert_insert_eq. f_equal. apply insert_insert_eq.
Qed.

(** ** Bytes and byte order *)

Lemma length_be_bytes (n : nat) (v : Z) : length (be_bytes n v) = n.
Proof. unfold be_bytes. rewrite length_rev. apply length_le_split. Qed.

Lemma length_host_bytes (h : byte_order) (n : nat) (v : Z) :
  length (host_bytes h n v) = n.
Proof. destruct h; simpl; [apply length_le_split|apply length_be_bytes]. Qed.

Lemma be_value_be_bytes (n : nat) (v : Z) :
  be_value (be_bytes n v) = v mod 2 ^ (Z.of_nat n * 8).
Proof. unfold be_value, be_bytes. rewrite rev_involutive. apply le_combine_split. Qed.

Lemma be_bytes_be_value (bs : list byte) (n : nat) :
  length bs = n -> be_bytes n (be_value bs) = bs.
Proof.
  intros <-. unfold be_value, be_bytes.
  rewrite <- (length_rev bs), split_le_combine. apply rev_involutive.
Qed.

Lemma host_value_host_bytes (h : byte_order) (n : nat) (v : Z) :
  host_value h (host_bytes h n v) = v mod 2 ^ (Z.of_nat n * 8).
Proof. destruct h; simpl; [apply le_combine_split|apply be_value_be_bytes]. Qed.

Lemma host_bytes_host_value (h : byte_order) (bs : list byte) (n : nat) :
  length bs = n -> host_bytes h n (host_value h bs) = bs.
Proof.
  destruct h; simpl; [apply split_le_combine'|apply be_bytes_be_value].
Qed.

Lemma be_value_bound (bs : list byte) :
  0 <= be_value bs < 2 ^ (8 * Z.of_nat (length bs)).
Proof.
  unfold be_value. pose proof (le_combine_bound (rev bs)) as H.
  rewrite length_rev in H. exact H.
Qed.

Lemma be_bytes_mod (n : nat) (v : Z) :
  be_bytes n (v mod 2 ^ (Z.of_nat n * 8)) = be_bytes n v.
Proof. unfold be_bytes. rewrite <- le_split_mod. reflexivity. Qed.

Lemma be_bytes_inj (n : nat) (v w : Z) :
  0 <= v < 2 ^ (Z.of_nat n * 8) -> 0 <= w < 2 ^ (Z.of_nat n * 8) ->
  be_bytes n v = be_bytes n w -> v = w.
Proof.
  intros Hv Hw H. apply (f_equal be_value) in H.
  rewrite !be_value_be_bytes, !Z.mod_small in H by assumption. exact H.
Qed.

Lemma host_bytes_1 (h : byte_order) (v : Z) : host_bytes h 1 v = u8 v.
Proof. destruct h; reflexivity. Qed.

(** What [WRITE_VAL] writes for a value that went through [htons] or
    [htonl]: the big-endian bytes, on either kind of machine. *)
Lemma host_bytes_htons (h : byte_order) (v : Z) :
  host_bytes h 2 (htons h v) = be_bytes 2 v.
Proof. apply host_bytes_host_value, length_be_bytes. Qed.

Lemma host_bytes_htonl (h : byte_order) (v : Z) :
  host_bytes h 4 (htonl h v) = be_bytes 4 v.
Proof. apply host_bytes_host_value, length_be_bytes. Qed.

(** What [ntohs], [ntohl] and [ntohll] make of a value read from the
    file: the big-endian value of the bytes read. *)
Lemma ntohs_host_value (h : byte_order) (bs : list byte) :
  length bs = 2%nat -> ntohs h (host_value h bs) = be_value bs.
Proof. intros H. unfold ntohs. rewrite host_bytes_host_value; auto. Qed.

Lemma ntohl_host_value (h : byte_order) (bs : list byte) :
  length bs = 4%nat -> ntohl h (host_value h bs) = be_value bs.
Proof. intros H. unfold ntohl. rewrite host_bytes_host_value; auto. Qed.

Lemma ntohll_host_value (h : byte_order) (bs : list byte) :
  length bs = 8%nat -> ntohll h (host_value h bs) = be_value bs.
Proof. intros H. unfold ntohll. rewrite host_bytes_host_value; auto. Qed.

Lemma be_value_app (hi lo : list byte) :
  be_value (hi ++ lo)
  = Z.lor (be_value lo) (Z.shiftl (be_value hi) (Z.of_nat (length lo) * 8)).
Proof.
  unfold be_value. rewrite rev_app_distr, le_combine_app, length_rev.
  reflexivity.
Qed.

Lemma be_value_hi (hi lo : list byte) :
  length lo = 4%nat ->
  Z.shiftr (be_value (hi ++ lo)) 32 = be_value hi.
Proof.
  intros Hlo. rewrite be_value_app, Hlo. change (Z.of_nat 4 * 8) with 32.
  rewrite Z.shiftr_lor, Z.shiftr_shiftl_l, Z.sub_diag, Z.shiftl_0_r by lia.
  pose proof (be_value_bound lo) as Hb. rewrite Hlo in Hb.
  rewrite Z.shiftr_div_pow2, Z.div_small by lia. reflexivity.
Qed.

Lemma be_value_lo (hi lo : list byte) :
  length lo = 4%nat ->
  Z.land (be_value (hi ++ lo)) 0xffffffff = be_value lo.
Proof.
  intros Hlo. rewrite be_value_app, Hlo. change (Z.of_nat 4 * 8) with 32.
  change 0xffffffff with (Z.ones 32).
  rewrite Z.land_lor_distr_l, !Z.land_ones by lia.
  pose proof (be_value_bound lo) as Hb. rewrite Hlo in Hb.
  rewrite Z.mod_small by lia.
  rewrite Z.shiftl_mul_pow2, Z_mod_mult by lia. apply Z.lor_0_r.
Qed.

Lemma magic_test_spec (magic : Z) (bs : list byte) :
  0 <= magic < 2 ^ 32 -> length bs = 8%nat ->
  magic_test magic bs = true <-> bs = magic_bytes magic.
Proof.
  intros Hm Hlen.
  rewrite <- (firstn_skipn 4 bs).
  assert (Hhi : length (firstn 4 bs) = 4%nat) by (rewrite length_firstn; lia).
  assert (Hlo : length (skipn 4 bs) = 4%nat) by (rewrite length_skipn; lia).
  unfold magic_test. rewrite be_value_hi, be_value_lo by assumption.
  pose proof (be_value_bound (firstn 4 bs)) as Hb1. rewrite Hhi in Hb1.
  rewrite (Z.mod_small (be_value (firstn 4 bs))) by lia.
  rewrite andb_true_iff, !Z.eqb_eq. unfold magic_bytes. split.
  - intros [H1 H2]. rewrite <- H1, <- H2.
    rewrite !be_bytes_be_value by assumption. reflexivity.
  - intros H. apply app_inj_1 in H as [H1 H2];
      [|rewrite length_be_bytes; assumption].
    rewrite H1, H2, !be_value_be_bytes.
    change (Z.of_nat 4 * 8) with 32. rewrite !Z.mod_small; [auto|lia|].
    unfold VIEW_MAGIC. lia.
Qed.

Lemma length_magic_bytes (magic : Z) : length (magic_bytes magic) = 8%nat.
Proof. unfold magic_bytes. rewrite length_app, !length_be_bytes. reflexivity. Qed.

(** [check_magic] consumes the eight bytes of the magic if they are next
    in the file and otherwise leaves the file as it is. *)
Lemma check_magic_run (host : byte_order) (magic : Z) (s : rstate) :
  0 <= magic < 2 ^ 32 ->
  check_magic host magic s
  = if bool_decide (firstn 8 (avail (infile s)) = magic_bytes magic)
    then Val 1 {| infile := {| avail := skipn 8 (avail (infile s));
                               stale := stale (infile s) |};
                  r_iter := r_iter s |}
    else Val 0 s.
Proof.
  intros Hm. unfold check_magic, bind, wandio_peek.
  destruct (Nat.eqb_spec (length (firstn 8 (avail (infile s)))) 8) as [Hlen|Hlen];
    cbn [negb].
  - rewrite ntohll_host_value by assumption.
    pose proof (magic_test_spec magic _ Hm Hlen) as Hspec.
    unfold magic_test in Hspec.
    destruct (bool_decide_reflect
                (firstn 8 (avail (infile s)) = magic_bytes magic)) as [e|n].
    + apply Hspec in e. apply andb_true_iff in e as [e1 e2].
      rewrite e1, e2. cbn [negb]. unfold wandio_read.
      rewrite Hlen. reflexivity.
    + destruct (_ =? VIEW_MAGIC) eqn:E1; cbn [negb]; [|reflexivity].
      destruct (_ =? magic) eqn:E2; cbn [negb]; [|reflexivity].
      exfalso. apply n, Hspec. reflexivity.
  - rewrite bool_decide_eq_false_2; [reflexivity|].
    intros e. apply Hlen. rewrite e. apply length_magic_bytes.
Qed.

Lemma magic_range :
  0 <= VIEW_START_MAGIC < 2 ^ 32 /\ 0 <= VIEW_END_MAGIC < 2 ^ 32 /\
  0 <= VIEW_PEER_END_MAGIC < 2 ^ 32 /\ 0 <= VIEW_PATH_END_MAGIC < 2 ^ 32 /\
  0 <= VIEW_PFX_END_MAGIC < 2 ^ 32.
Proof. repeat split; discriminate. Qed.

(** ** What a decode leaves in the caller's view *)

Lemma view_extends_refl (v : bgpview) : view_extends v v.
Proof. repeat split; eauto. Qed.

Lemma added_active_refl (v : bgpview) : added_active v v.
Proof. split; intros; eauto. Qed.

Lemma decoded_onto_set_time (v : bgpview) (t : Z) :
  decoded_onto v t (bgpview_set_time v t).
Proof.
  split; [reflexivity|].
  split; [apply (view_extends_refl v)|apply (added_active_refl v)].
Qed.

Lemma decoded_onto_add_peer (v0 : bgpview) (t : Z) (it : bgpview_iter)
  (col : list byte) (ip : ip_addr) (asn : Z) :
  decoded_onto v0 t (it_view it) ->
  fst (bgpview_iter_add_peer it col ip asn) <> 0 ->
  decoded_onto v0 t
    (it_view (snd (bgpview_iter_activate_peer
                     (snd (bgpview_iter_add_peer it col ip asn))))).
Proof.
  intros (Ht & (Hs & Hp & Hpe & Hpf) & (Ha1 & Ha2)) Hne.
  destruct (add_activate_peer_view it col ip asn) as [Hid Hview].
  rewrite Hid in Hne. rewrite (Hview Hne). clear Hview.
  split; [exact Ht|]. split; [split; [|split; [|split]]|split]; simpl.
  - etransitivity; [exact Hs|apply sig_intern_prefix].
  - exact Hp.
  - intros id Hin. apply Hpe in Hin.
    rewrite lookup_insert. case_decide; [eauto|exact Hin].
  - exact Hpf.
  - intros id b. rewrite lookup_insert. case_decide.
    + intros [= <-]. left. reflexivity.
    + apply Ha1.
  - exact Ha2.
Qed.

Lemma decoded_onto_insert_path (v0 : bgpview) (t : Z) (it : bgpview_iter)
  (data : list byte) (core : Z) :
  decoded_onto v0 t (it_view it) ->
  decoded_onto v0 t (it_view (snd (view_insert_path data core it))).
Proof.
  intros (Ht & (Hs & Hp & Hpe & Hpf) & Ha).
  rewrite view_insert_path_view.
  split; [exact Ht|]. split; [|exact Ha].
  split; [exact Hs|]. split; [|split; assumption].
  simpl. etransitivity; [exact Hp|apply insert_path_prefix].
Qed.

Lemma decoded_onto_add_pfx_peer_failed (v0 : bgpview) (t : Z)
  (it : bgpview_iter) (q : pfx) (id : Z) (pid : path_id) :
  decoded_onto v0 t (it_view it) ->
  fst (bgpview_iter_add_pfx_peer_by_id it q id pid) <> 0 ->
  decoded_onto v0 t (it_view (snd (bgpview_iter_add_pfx_peer_by_id it q id pid))).
Proof. intros H Hne. rewrite add_pfx_peer_failed_view by exact Hne. exact H. Qed.

Lemma decoded_onto_add_pfx_peer (v0 : bgpview) (t : Z) (it : bgpview_iter)
  (q : pfx) (id : Z) (pid : path_id) :
  decoded_onto v0 t (it_view it) ->
  fst (bgpview_iter_add_pfx_peer_by_id it q id pid) = 0 ->
  decoded_onto v0 t
    (it_view (snd (bgpview_iter_pfx_activate_peer
                     (snd (bgpview_iter_add_pfx_peer_by_id it q id pid))))).
Proof.
  intros (Ht & (Hs & Hp & Hpe & Hpf) & (Ha1 & Ha2)) Hok.
  destruct (add_activate_pfx_peer_view it q id pid Hok)
    as (_ & _ & _ & Hview & _).
  rewrite Hview. clear Hview.
  split; [exact Ht|]. split; [split; [|split; [|split]]|split]; simpl.
  - exact Hs.
  - exact Hp.
  - intros id' Hin. apply Hpe in Hin.
    rewrite lookup_insert. case_decide; [eauto|exact Hin].
  - intros q' pm0 id' Hq' Hin.
    destruct (Hpf q' pm0 id' Hq' Hin) as (pm & Hpm & Hin').
    rewrite lookup_insert. case_decide as Hq.
    + subst q'. eexists. split; [reflexivity|].
      rewrite Hpm. simpl. rewrite lookup_insert.
      case_decide; [eauto|exact Hin'].
    + eauto.
  - intros id' b. rewrite lookup_insert. case_decide.
    + intros [= <-]. left. reflexivity.
    + apply Ha1.
  - intros q' pm id' info. rewrite lookup_insert. case_decide as Hq.
    + subst q'. intros [= <-]. rewrite lookup_insert. case_decide.
      * intros [= <-]. left. reflexivity.
      * destruct (pfxs (it_view it) !! q) as [pm|] eqn:Hpm; simpl.
        -- apply (Ha2 q pm id' info Hpm).
        -- rewrite lookup_empty. discriminate.
    + apply Ha2.
Qed.

Lemma file_read_decoded_onto (host : byte_order)
  (peer_cb : option bgpview_io_filter_peer_cb_t)
  (pfx_cb : option bgpview_io_filter_pfx_cb_t)
  (pfx_peer_cb : option bgpview_io_filter_pfx_peer_cb_t) (s : rstate)
  (it0 : bgpview_iter) :
  r_iter s = Some it0 ->
  let started :=
    firstn 8 (avail (infile s)) = magic_bytes VIEW_START_MAGIC in
  let decoded := fun s' =>
    iter_holds (decoded_onto (it_view it0) (stream_time host (infile s)))
      (r_iter s') in
  post (bgpview_io_file_read host peer_cb pfx_cb pfx_peer_cb s)
    (fun r s' => (r = 0 /\ s' = s) \/ (r = 1 /\ started /\ decoded s'))
    (fun s' => (~ started /\ s' = s) \/ (started /\ decoded s')).
Proof.
  intros Hit0 started decoded. subst started decoded.
  unfold bgpview_io_file_read.
  unfold bind at 1, wandio_peek at 1.
  destruct (length (firstn 4 (avail (infile s))) =? 0)%nat;
    [left; split; reflexivity|].
  unfold bind at 1. rewrite check_magic_run by apply magic_range.
  destruct (bool_decide_reflect
              (firstn 8 (avail (infile s)) = magic_bytes VIEW_START_MAGIC))
    as [Hst|Hst]; [|left; split; [exact Hst|reflexivity]].
  change (1 =? 0) with false. cbv iota.
  unfold bind at 1, READ_VAL at 1. cbn [infile avail stale r_iter].
  fold (stream_time host (infile s)).
  unfold bind at 1, view_set_time at 1. cbn [infile avail stale r_iter].
  set (t := stream_time host (infile s)).
  set (P := decoded_onto (it_view it0) t).
  match goal with
  | |- post (?m ?s2) _ _ =>
      assert (Hgoal : ipost (m s2) (fun r o => r = 1 /\ iter_holds P o)
                        (iter_holds P))
  end.
  { eapply ipost_bind.
    { apply (read_peers_holds host P (decoded_onto_add_peer _ _)).
      cbn [r_iter]. rewrite Hit0. simpl. eexists. split; [reflexivity|].
      simpl. apply decoded_onto_set_time. }
    intros peerid_map s1 H1. cbv beta in H1.
    eapply ipost_bind;
      [apply (read_paths_holds host P (decoded_onto_insert_path _ _)), H1|].
    intros pathid_map s2 H2. cbv beta in H2.
    eapply ipost_bind;
      [apply (read_pfxs_holds host P (decoded_onto_add_pfx_peer_failed _ _)
                (decoded_onto_add_pfx_peer _ _)), H2|].
    intros r s3 H3. cbv beta in H3.
    istep H3. istep H3. split; [reflexivity|exact H3]. }
  eapply post_mono; [exact Hgoal| |]; cbv beta.
  - intros r s' [-> HP]. right. split; [reflexivity|]. split; [exact Hst|exact HP].
  - intros s' HP. right. split; [exact Hst|exact HP].
Qed.

(** C10. After a successful [bgpview_io_file_read], every peer and every
    pfx-peer of the caller's view is active, or is in the view exactly as
    it was before the call: whatever the decoder inserted has been
    activated. *)
Theorem read_activates_what_it_adds (host : byte_order)
  (bytes junk : list byte) (v v' : bgpview)
  (peer_cb : option bgpview_io_filter_peer_cb_t)
  (pfx_cb : option bgpview_io_filter_pfx_cb_t)
  (pfx_peer_cb : option bgpview_io_filter_pfx_peer_cb_t) (s : rstate) :
  decode host bytes junk (Some v) peer_cb pfx_cb pfx_peer_cb = Val 1 s ->
  view_of s = Some v' ->
  (forall id b, peers v' !! id = Some b ->
     b = true \/ peers v !! id = Some b) /\
  (forall q pm id info, pfxs v' !! q = Some pm -> pm !! id = Some info ->
     pp_active info = true \/
     exists pm0, pfxs v !! q = Some pm0 /\ pm0 !! id = Some info).
Proof.
  intros Hdec Hv. unfold decode in Hdec.
  pose proof (file_read_decoded_onto host peer_cb pfx_cb pfx_peer_cb
                {| infile := {| avail := bytes; stale := junk |};
                   r_iter := option_map bgpview_iter_create (Some v) |}
                (bgpview_iter_create v) eq_refl) as H.
  cbv zeta in H. rewrite Hdec in H. simpl in H.
  destruct H as [[H _]|(_ & _ & (it & Hit & H))]; [discriminate H|].
  unfold view_of in Hv. rewrite Hit in Hv. injection Hv as <-.
  destruct H as (_ & _ & Ha). exact Ha.
Qed.

Lemma read_activates_what_it_adds_witness :
  exists s v',
    decode LittleEndian (wire_view (host_bytes LittleEndian) view_one) []
      (Some view_inactive_peer) None None None = Val 1 s /\
    view_of s = Some v' /\
    (forall id b, peers v' !! id = Some b ->
       b = true \/ peers view_inactive_peer !! id = Some b) /\
    (forall q pm id info, pfxs v' !! q = Some pm -> pm !! id = Some info ->
       pp_active info = true \/
       exists pm0, pfxs view_inactive_peer !! q = Some pm0 /\
                   pm0 !! id = Some info).
Proof.
  assert (E : exists s v',
    decode LittleEndian (wire_view (host_bytes LittleEndian) view_one) []
      (Some view_inactive_peer) None None None = Val 1 s /\
    view_of s = Some v').
  { do 2 eexists. split; vm_compute; reflexivity. }
  destruct E as (s & v' & Hd & Hv). exists s, v'.
  split; [exact Hd|]. split; [exact Hv|].
  exact (read_activates_what_it_adds LittleEndian _ [] view_inactive_peer v'
           None None None s Hd Hv).
Defined.



(** ** The writer produces the wire format *)

Lemma bind_val {S A B} (m : M S A) (k : A -> M S B) (s s' : S) (a : A) :
  m s = Val a s' -> bind m k s = k a s'.
Proof. intros H. unfold bind. rewrite H. reflexivity. Qed.

Lemma WRITE_VAL_run (host : byte_order) (n : nat) (v : Z) (out : iow_t) :
  WRITE_VAL host n v out = Val tt (out ++ host_bytes host n v).
Proof. reflexivity. Qed.

Lemma WRITE_MAGIC_run (host : byte_order) (magic : Z) (out : iow_t) :
  WRITE_MAGIC host magic out = Val tt (out ++ magic_bytes magic).
Proof.
  unfold WRITE_MAGIC. erewrite bind_val by apply WRITE_VAL_run.
  rewrite WRITE_VAL_run, !host_bytes_htonl, <- app_assoc. reflexivity.
Qed.

Lemma write_ip_run (host : byte_order) (ip : ip_addr) (out : iow_t) :
  ip_known ip = true ->
  write_ip host ip out = Val 0 (out ++ wire_ip ip).
Proof.
  destruct ip as [a|a|]; [| |discriminate]; intros _; unfold write_ip;
    erewrite bind_val by apply WRITE_VAL_run;
    unfold bind, wandio_wwrite; rewrite length_be_bytes, host_bytes_1;
    cbn [Z.of_nat Pos.of_succ_nat Pos.succ Z.eqb Pos.eqb wire_ip];
    rewrite <- app_assoc; reflexivity.
Qed.

Lemma foreach_emit {A B} (l : list B) (body : B -> A -> M iow_t A)
  (g : B -> list byte) (cnt : nat -> A) :
  (forall x k out, x ∈ l ->
     body x (cnt k) out = Val (cnt (Datatypes.S k)) (out ++ g x)) ->
  forall k out,
    foreach l body (cnt k) out
    = Val (cnt (k + length l)%nat) (out ++ flat_map g l).
Proof.
  induction l as [|x l IH]; intros Hbody k out; simpl.
  - rewrite Nat.add_0_r, app_nil_r. reflexivity.
  - erewrite bind_val by (apply Hbody; left).
    rewrite IH by (intros; apply Hbody; right; assumption).
    rewrite <- app_assoc.
    replace (Datatypes.S k + length l)%nat
      with (k + Datatypes.S (length l))%nat by lia.
    reflexivity.
Qed.

Lemma firstn_c_string (bs : list byte) :
  firstn (length (c_string bs)) bs = c_string bs.
Proof.
  induction bs as [|b bs IH]; simpl; [reflexivity|].
  destruct (decide (b = zero_byte)); simpl; [reflexivity|].
  rewrite IH. reflexivity.
Qed.

Lemma length_c_string_le (bs : list byte) :
  (length (c_string bs) <= length bs)%nat.
Proof.
  induction bs as [|b bs IH]; simpl; [lia|].
  destruct (decide (b = zero_byte)); simpl; lia.
Qed.

Section WriterFacts.

Variable host : byte_order.

Lemma write_peers_run (it : bgpview_iter) (out : iow_t) :
  forallb (peer_writable (it_view it)) (active_peers (it_view it)) = true ->
  (Z.of_nat (length (active_peers (it_view it))) <=? UINT16_MAX) = true ->
  write_peers host it None out
  = Val 0 (out ++ wire_peer_section (it_view it)).
Proof.
  intros Hwf Hcnt. unfold write_peers.
  erewrite bind_val.
  2:{ refine (foreach_emit _ _ (wire_peer (it_view it)) Z.of_nat _ 0%nat _).
      intros id k out' Hin. cbn [option_map ask_filter].
      erewrite bind_val by reflexivity. cbn [negb].
      erewrite bind_val by apply WRITE_VAL_run.
      rewrite forallb_forall in Hwf.
      specialize (Hwf id (proj1 (list_elem_of_In _ _) Hin)).
      unfold peer_writable in Hwf. unfold wire_peer.
      unfold bgpview_iter_peer_get_sig, iter_seek_peer. cbn [it_peer it_view].
      destruct (sig_lookup (sig_store (it_view it)) id) as [ps|]; [|discriminate].
      apply andb_true_iff in Hwf as [Hlen Hip].
      rewrite Hlen. erewrite bind_val by reflexivity.
      erewrite bind_val by apply WRITE_VAL_run.
      unfold bind at 1, wandio_wwrite at 1.
      rewrite Nat2Z.id, firstn_c_string, Z.eqb_refl. cbn [negb].
      erewrite bind_val by (apply write_ip_run, Hip).
      cbn [Z.eqb negb].
      erewrite bind_val by apply WRITE_VAL_run.
      unfold ret, wire_peer_sig.
      rewrite host_bytes_htons, host_bytes_htonl, host_bytes_1.
      rewrite <- !app_assoc. f_equal. lia. }
  erewrite bind_val by apply WRITE_MAGIC_run.
  cbn [Nat.add]. rewrite Hcnt. erewrite bind_val by reflexivity.
  erewrite bind_val by apply WRITE_VAL_run.
  unfold ret, wire_peer_section. rewrite host_bytes_htons, <- !app_assoc.
  reflexivity.
Qed.

Lemma write_paths_run (it : bgpview_iter) (out : iow_t) :
  write_paths host it out
  = Val 0 (out ++ wire_path_section (host_bytes host) (it_view it)).
Proof.
  unfold write_paths.
  erewrite bind_val.
  2:{ refine (foreach_emit _ _ (wire_path (host_bytes host))
                (fun k => Z.of_nat k mod 2 ^ 32) _ 0%nat _).
      intros e k out' _.
      erewrite bind_val by apply WRITE_VAL_run.
      erewrite bind_val by apply WRITE_VAL_run.
      erewrite bind_val by apply WRITE_VAL_run.
      unfold bind, wandio_wwrite. rewrite Z.eqb_refl. cbn [negb]. unfold ret.
      rewrite host_bytes_1. unfold wire_path, bgpstream_as_path_store_path_get_idx.
      rewrite <- !app_assoc.
      replace ((Z.of_nat k mod 2 ^ 32 + 1) mod 2 ^ 32)
        with (Z.of_nat (Datatypes.S k) mod 2 ^ 32);
        [reflexivity|].
      rewrite Nat2Z.inj_succ, <- Z.add_1_r. symmetry. apply Zplus_mod_idemp_l. }
  erewrite bind_val by apply WRITE_MAGIC_run.
  cbn [Nat.add]. rewrite length_imap.
  assert (Hle : (Z.of_nat (length (path_store (it_view it))) mod 2 ^ 32
                 <=? UINT32_MAX) = true).
  { apply Z.leb_le. unfold UINT32_MAX.
    pose proof (Z.mod_pos_bound (Z.of_nat (length (path_store (it_view it))))
                  (2 ^ 32) ltac:(lia)). lia. }
  rewrite Hle. erewrite bind_val by reflexivity.
  erewrite bind_val by apply WRITE_VAL_run.
  unfold ret, wire_path_section. rewrite host_bytes_htonl.
  change (2 ^ 32) with (2 ^ (Z.of_nat 4 * 8)). rewrite be_bytes_mod.
  rewrite <- !app_assoc. reflexivity.
Qed.

Lemma write_pfx_peers_run (it : bgpview_iter) (pm : gmap Z pfx_peer_info)
  (out : iow_t) :
  forallb (pfx_peer_writable (it_view it)) (active_pfx_peers pm) = true ->
  write_pfx_peers host it pm None out
  = Val (Z.of_nat (length (active_pfx_peers pm)))
        (out ++ flat_map (wire_pfx_peer (host_bytes host)) (active_pfx_peers pm)).
Proof.
  intros Hwf. unfold write_pfx_peers.
  refine (foreach_emit _ _ (wire_pfx_peer (host_bytes host)) Z.of_nat _ 0%nat _).
  intros e k out' Hin. cbn [option_map ask_filter].
  erewrite bind_val by reflexivity. cbn [negb].
  rewrite forallb_forall in Hwf.
  specialize (Hwf e (proj1 (list_elem_of_In _ _) Hin)).
  unfold pfx_peer_writable in Hwf. apply andb_true_iff in Hwf as [Hid Hpath].
  rewrite Hid. erewrite bind_val by reflexivity.
  erewrite bind_val by apply WRITE_VAL_run.
  cbn [iter_seek_pfx_peer it_view].
  destruct (bgpstream_as_path_store_get_store_path _ _); [|discriminate].
  erewrite bind_val by apply WRITE_VAL_run.
  unfold ret, wire_pfx_peer. rewrite host_bytes_htons, <- !app_assoc.
  f_equal. lia.
Qed.

Lemma active_pfxs_nonempty (v : bgpview) (e : pfx * gmap Z pfx_peer_info) :
  e ∈ active_pfxs v -> active_pfx_peers (snd e) <> [].
Proof. unfold active_pfxs. rewrite list_elem_of_filter. tauto. Qed.

Lemma write_pfxs_run (it : bgpview_iter) (out : iow_t) :
  forallb (pfx_writable (it_view it)) (active_pfxs (it_view it)) = true ->
  write_pfxs host it None out
  = Val 0 (out ++ wire_pfx_section (host_bytes host) (it_view it)).
Proof.
  intros Hwf. unfold write_pfxs.
  erewrite bind_val.
  2:{ refine (foreach_emit _ _ (wire_pfx (host_bytes host)) Z.of_nat _ 0%nat _).
      intros e k out' Hin. cbn [option_map ask_filter].
      erewrite bind_val by reflexivity. cbn [negb].
      rewrite forallb_forall in Hwf.
      specialize (Hwf e (proj1 (list_elem_of_In _ _) Hin)).
      unfold pfx_writable in Hwf. apply andb_true_iff in Hwf as [Hip Hpp].
      erewrite bind_val by (apply write_ip_run, Hip).
      cbn [Z.eqb negb].
      erewrite bind_val by apply WRITE_VAL_run.
      erewrite bind_val by (apply write_pfx_peers_run; exact Hpp).
      pose proof (active_pfxs_nonempty _ _ Hin) as Hne.
      assert (Hpos : 0 < Z.of_nat (length (active_pfx_peers (snd e)))).
      { destruct (active_pfx_peers (snd e)); [contradiction|simpl; lia]. }
      rewrite (proj2 (Z.eqb_neq _ 0)) by lia.
      erewrite bind_val by apply WRITE_MAGIC_run.
      rewrite (proj2 (Z.gtb_gt _ 0)) by lia.
      erewrite bind_val by reflexivity.
      erewrite bind_val by apply WRITE_VAL_run.
      unfold ret, wire_pfx. rewrite host_bytes_htons, host_bytes_1.
      rewrite <- !app_assoc. f_equal. lia. }
  erewrite bind_val by apply WRITE_MAGIC_run.
  erewrite bind_val by apply WRITE_VAL_run.
  unfold ret, wire_pfx_section. cbn [Nat.add].
  rewrite host_bytes_htonl, <- !app_assoc. reflexivity.
Qed.

(** The writer on a writable view, without a filter: the result is 0 and
    the file holds the wire format, with the path index and path length
    fields in the byte order of the machine. *)
Lemma encode_run (v : bgpview) :
  writable v = true ->
  encode host v None = Val 0 (wire_view (host_bytes host) v).
Proof.
  intros Hwf. unfold writable in Hwf.
  apply andb_true_iff in Hwf as [Hwf Hpfx].
  apply andb_true_iff in Hwf as [Hpeers Hcnt].
  unfold encode, bgpview_io_file_write.
  erewrite bind_val by apply WRITE_MAGIC_run.
  erewrite bind_val by apply WRITE_VAL_run.
  erewrite bind_val by (apply write_peers_run; assumption).
  erewrite bind_val by apply write_paths_run.
  erewrite bind_val by (apply write_pfxs_run; assumption).
  erewrite bind_val by apply WRITE_MAGIC_run.
  unfold ret, wire_view, wire_view_body, bgpview_get_time.
  cbn [bgpview_iter_create it_view app].
  rewrite host_bytes_htonl, <- !app_assoc. reflexivity.
Qed.

End WriterFacts.

(** C5 (as amended). On a writable view and without a filter, the writer
    produces the frame layout of the specification in which every
    multi-byte integer is big-endian except three fields that are written
    in the byte order of the machine the writer runs on: the path index
    and the path length of a path record, and the path index of a pfx-peer
    record. *)
Theorem write_byte_order (host : byte_order) (v : bgpview) :
  writable v = true ->
  encode host v None = Val 0 (wire_view (host_bytes host) v) /\
  (host = BigEndian -> encode host v None = Val 0 (wire_view be_bytes v)).
Proof.
  intros Hwf. split; [apply encode_run, Hwf|].
  intros ->. rewrite encode_run by exact Hwf. reflexivity.
Qed.

Lemma write_byte_order_witness :
  writable view_one = true /\
  encode LittleEndian view_one None
    = Val 0 (wire_view (host_bytes LittleEndian) view_one) /\
  (LittleEndian = BigEndian ->
   encode LittleEndian view_one None = Val 0 (wire_view be_bytes view_one)).
Proof.
  assert (Hwf : writable view_one = true) by (vm_compute; reflexivity).
  split; [exact Hwf|]. exact (write_byte_order LittleEndian view_one Hwf).
Defined.

(** ** Loops with a unary bound *)

Lemma loop_nat_add {S A} (body : A -> M S (ctl A)) (n m : nat) :
  forall a s,
    loop_nat (n + m) body a s
    = bind (loop_nat n body a)
        (fun c => match c with
                  | Continue a' => loop_nat m body a'
                  | Break a' => ret (Break a')
                  end) s.
Proof.
  induction n as [|n IH]; intros a s; simpl; [reflexivity|].
  unfold bind. destruct (body a s) as [[a'|a'] s'| | |]; try reflexivity.
  rewrite IH. reflexivity.
Qed.

Lemma loop_nat_1 {S A} (body : A -> M S (ctl A)) (a : A) (s : S) :
  loop_nat 1 body a s = body a s.
Proof.
  simpl. unfold bind. destruct (body a s) as [[a'|a'] s'| | |]; reflexivity.
Qed.

Lemma loop_pos_nat {S A} (body : A -> M S (ctl A)) (p : positive) :
  forall a s, loop_pos p body a s = loop_nat (Pos.to_nat p) body a s.
Proof.
  induction p as [p IH|p IH|]; intros a s.
  - rewrite Pos2Nat.inj_xI.
    change (Datatypes.S (2 * Pos.to_nat p))
      with (1 + (Pos.to_nat p + (Pos.to_nat p + 0)))%nat.
    rewrite Nat.add_0_r, loop_nat_add. simpl loop_pos.
    unfold bind. rewrite loop_nat_1.
    destruct (body a s) as [[a'|a'] s'| | |]; try reflexivity.
    rewrite loop_nat_add. unfold bind. rewrite <- IH.
    destruct (loop_pos p body a' s') as [[a''|a''] s''| | |]; try reflexivity.
    apply IH.
  - rewrite Pos2Nat.inj_xO.
    change (2 * Pos.to_nat p)%nat with (Pos.to_nat p + (Pos.to_nat p + 0))%nat.
    rewrite Nat.add_0_r, loop_nat_add. simpl loop_pos.
    unfold bind. rewrite <- IH.
    destruct (loop_pos p body a s) as [[a'|a'] s'| | |]; try reflexivity.
    apply IH.
  - symmetry. apply loop_nat_1.
Qed.

Lemma for_loop_nat {S A} (bound : Z) (body : A -> M S (ctl A)) (a : A)
  (s : S) :
  0 < bound ->
  for_loop bound body a s
  = bind (loop_nat (Z.to_nat bound) body a) (fun c => ret (ctl_val c)) s.
Proof.
  intros Hb. destruct bound as [|p|p]; try lia.
  unfold for_loop, bind. rewrite loop_pos_nat. reflexivity.
Qed.

Lemma loop_nat_continue {S A} (body : A -> M S (ctl A)) (n : nat)
  (a a' : A) (s s' : S) :
  body a s = Val (Continue a') s' ->
  loop_nat (Datatypes.S n) body a s = loop_nat n body a' s'.
Proof. intros H. simpl. unfold bind. rewrite H. reflexivity. Qed.

Lemma loop_nat_break {S A} (body : A -> M S (ctl A)) (n : nat)
  (a a' : A) (s s' : S) :
  body a s = Val (Break a') s' ->
  loop_nat (Datatypes.S n) body a s = Val (Break a') s'.
Proof. intros H. simpl. unfold bind. rewrite H. reflexivity. Qed.

(** ** The reader on the bytes of a field *)

Lemma READ_VAL_run (host : byte_order) (n : nat) (bs rest junk : list byte)
  (o : option bgpview_iter) :
  length bs = n ->
  READ_VAL host n (rstate_at (bs ++ rest) junk o)
  = Val (host_value host bs) (rstate_at rest junk o).
Proof.
  intros Hlen. unfold READ_VAL, rstate_at, fill_stale. cbn [infile avail stale r_iter].
  rewrite take_app_length', drop_app_length' by (symmetry; exact Hlen).
  rewrite Hlen, Nat.sub_diag. cbn [firstn skipn]. rewrite app_nil_r.
  reflexivity.
Qed.

Lemma wandio_read_run (n : nat) (bs rest junk : list byte)
  (o : option bgpview_iter) :
  length bs = n ->
  wandio_read n (rstate_at (bs ++ rest) junk o)
  = Val bs (rstate_at rest junk o).
Proof.
  intros Hlen. unfold wandio_read, rstate_at. cbn [infile avail stale r_iter].
  rewrite take_app_length', drop_app_length' by (symmetry; exact Hlen).
  reflexivity.
Qed.

Lemma check_magic_hit (host : byte_order) (magic : Z)
  (rest junk : list byte) (o : option bgpview_iter) :
  0 <= magic < 2 ^ 32 ->
  check_magic host magic (rstate_at (magic_bytes magic ++ rest) junk o)
  = Val 1 (rstate_at rest junk o).
Proof.
  intros Hm. rewrite check_magic_run by exact Hm.
  unfold rstate_at. cbn [infile avail stale r_iter].
  rewrite take_app_length', drop_app_length'
    by (symmetry; apply length_magic_bytes).
  rewrite bool_decide_eq_true_2 by reflexivity. reflexivity.
Qed.

Lemma check_magic_miss (host : byte_order) (magic : Z) (i : nat)
  (b b' : byte) (bytes junk : list byte) (o : option bgpview_iter) :
  0 <= magic < 2 ^ 32 ->
  bytes !! i = Some b -> magic_bytes magic !! i = Some b' -> b <> b' ->
  check_magic host magic (rstate_at bytes junk o)
  = Val 0 (rstate_at bytes junk o).
Proof.
  intros Hm Hb Hb' Hne. rewrite check_magic_run by exact Hm.
  rewrite bool_decide_eq_false_2; [reflexivity|].
  unfold rstate_at. cbn [infile avail]. intros Heq.
  assert (Hi : (i < 8)%nat).
  { apply lookup_lt_Some in Hb'. rewrite length_magic_bytes in Hb'. exact Hb'. }
  rewrite <- Heq, lookup_take_lt, Hb in Hb' by exact Hi. congruence.
Qed.

Lemma host_value_u8 (host : byte_order) (v : Z) :
  0 <= v < 2 ^ 8 -> host_value host (u8 v) = v.
Proof.
  intros Hv. rewrite <- (host_bytes_1 host), host_value_host_bytes.
  apply Z.mod_small. exact Hv.
Qed.

Lemma with_iter_run {A} (f : bgpview_iter -> A * bgpview_iter)
  (bytes junk : list byte) (it : bgpview_iter) :
  with_iter f (rstate_at bytes junk (Some it))
  = Val (fst (f it)) (rstate_at bytes junk (Some (snd (f it)))).
Proof. reflexivity. Qed.

Lemma iter_is_null_run (bytes junk : list byte) (it : bgpview_iter) :
  iter_is_null (rstate_at bytes junk (Some it))
  = Val false (rstate_at bytes junk (Some it)).
Proof. reflexivity. Qed.

Lemma read_ip_run (host : byte_order) (ip : ip_addr)
  (rest junk : list byte) (o : option bgpview_iter) :
  ip_in_range ip = true ->
  read_ip host (rstate_at (wire_ip ip ++ rest) junk o)
  = Val ip (rstate_at rest junk o).
Proof.
  destruct ip as [a|a|]; [| |discriminate]; intros Hr;
    apply andb_true_iff in Hr as [H0 H1];
    apply Z.leb_le in H0; apply Z.ltb_lt in H1;
    unfold read_ip, wire_ip; rewrite <- app_assoc;
    (erewrite bind_val by (apply READ_VAL_run; reflexivity));
    (rewrite host_value_u8 by (split; [discriminate|reflexivity]));
    cbn [Z.eqb Pos.eqb];
    (erewrite bind_val by (apply wandio_read_run, length_be_bytes));
    rewrite length_be_bytes; cbn [Nat.eqb negb]; unfold ret;
    rewrite be_value_be_bytes, Z.mod_small by (split; assumption);
    reflexivity.
Qed.

(** ** The reader on a peer record *)

Lemma be_bytes_2_cases (v : Z) :
  exists hi lo, be_bytes 2 v = [hi; lo].
Proof.
  pose proof (length_be_bytes 2 v) as H.
  destruct (be_bytes 2 v) as [|hi [|lo [|x l]]]; try discriminate H.
  eauto.
Qed.

(** A record that begins with a peer ID other than 0x4247 is not taken
    for a magic number. *)
Lemma check_magic_peer_id (host : byte_order) (magic id : Z)
  (rest junk : list byte) (o : option bgpview_iter) :
  0 <= magic < 2 ^ 32 -> 0 <= id < 2 ^ 16 -> id <> 0x4247 ->
  check_magic host magic (rstate_at (be_bytes 2 id ++ rest) junk o)
  = Val 0 (rstate_at (be_bytes 2 id ++ rest) junk o).
Proof.
  intros Hm Hid Hne.
  destruct (be_bytes_2_cases id) as (hi & lo & Hb). rewrite Hb.
  destruct (decide (hi = Byte.x42)) as [Hhi|Hhi].
  - destruct (decide (lo = Byte.x47)) as [Hlo|Hlo].
    + exfalso. apply Hne. subst hi lo.
      apply (be_bytes_inj 2);
        [exact Hid|cbv; split; [discriminate|reflexivity]|].
      rewrite Hb. reflexivity.
    + apply (check_magic_miss host magic 1 lo Byte.x47);
        [exact Hm|reflexivity|reflexivity|exact Hlo].
  - apply (check_magic_miss host magic 0 hi Byte.x42);
      [exact Hm|reflexivity|reflexivity|exact Hhi].
Qed.

Lemma read_peers_body_record (host : byte_order) (id : Z) (ps : peer_sig)
  (idmap : list Z) (peers_rx : Z) (rest junk : list byte)
  (it : bgpview_iter) :
  0 <= id < 2 ^ 16 -> id <> 0x4247 -> sig_decodable ps = true ->
  let r := bgpview_iter_add_peer it (collector_str ps) (peer_ip_addr ps)
             (peer_asnumber ps) in
  fst r <> 0 ->
  read_peers_body host None (idmap, peers_rx)
    (rstate_at (wire_peer_sig id ps ++ rest) junk (Some it))
  = Val (Continue (<[Z.to_nat id := fst r]> (idmap_grow idmap id),
                   peers_rx + 1))
        (rstate_at rest junk
           (Some (snd (bgpview_iter_activate_peer (snd r))))).
Proof.
  intros Hid Hne Hps r Hr. subst r.
  unfold sig_decodable in Hps.
  apply andb_true_iff in Hps as [Hps Hasn1].
  apply andb_true_iff in Hps as [Hps Hasn0].
  apply andb_true_iff in Hps as [Hps Hip].
  apply andb_true_iff in Hps as [Hcol Hlen].
  apply bool_decide_eq_true in Hcol.
  apply Z.leb_le in Hlen, Hasn0. apply Z.ltb_lt in Hasn1.
  unfold UINT8_MAX in Hlen.
  unfold read_peers_body, wire_peer_sig. rewrite Hcol, <- !app_assoc.
  erewrite bind_val
    by (apply check_magic_peer_id; [apply magic_range|exact Hid|exact Hne]).
  cbn [Z.eqb negb].
  erewrite bind_val by (apply READ_VAL_run, length_be_bytes).
  rewrite ntohs_host_value, be_value_be_bytes, Z.mod_small
    by (try apply length_be_bytes; exact Hid).
  erewrite bind_val by (apply READ_VAL_run; reflexivity).
  rewrite host_value_u8 by lia.
  erewrite bind_val by (apply wandio_read_run; symmetry; apply Nat2Z.id).
  rewrite Z.eqb_refl. cbn [negb]. rewrite Hcol.
  erewrite bind_val by (apply read_ip_run, Hip).
  erewrite bind_val by (apply READ_VAL_run, length_be_bytes).
  rewrite ntohl_host_value, be_value_be_bytes, Z.mod_small
    by (try apply length_be_bytes; lia).
  erewrite bind_val by apply iter_is_null_run.
  cbn [ask_filter]. erewrite bind_val by reflexivity. cbn [negb].
  erewrite bind_val by apply with_iter_run.
  destruct ps as [col ip asn]. cbn [collector_str peer_ip_addr peer_asnumber] in *.
  rewrite (proj2 (Z.eqb_neq _ 0) Hr). cbn [negb assert].
  erewrite bind_val by reflexivity.
  erewrite bind_val by apply with_iter_run.
  reflexivity.
Qed.

(** ** The peer section read back *)

Lemma index_of_None {A} `{EqDecision A} (x : A) (l : list A) :
  x ∉ l -> index_of x l = None.
Proof.
  induction l as [|y l IH]; intros Hx; simpl; [reflexivity|].
  apply not_elem_of_cons in Hx as [Hne Hx].
  destruct (decide (x = y)); [contradiction|].
  rewrite IH by exact Hx. reflexivity.
Qed.

Lemma index_of_Some {A} `{EqDecision A} (x : A) (l : list A) (i : nat) :
  index_of x l = Some i -> l !! i = Some x.
Proof.
  revert i. induction l as [|y l IH]; intros i; simpl; [discriminate|].
  destruct (decide (x = y)) as [->|Hne].
  - intros [= <-]. reflexivity.
  - destruct (index_of x l) as [j|]; simpl; [|discriminate].
    intros [= <-]. simpl. apply IH. reflexivity.
Qed.

Lemma sig_intern_fresh (store : list peer_sig) (ps : peer_sig) :
  ps ∉ store -> Z.of_nat (length store) + 1 < UINT16_MAX ->
  sig_intern store ps = (Z.of_nat (length store) + 1, store ++ [ps]).
Proof.
  intros Hps Hlen. unfold sig_intern. rewrite index_of_None by exact Hps.
  rewrite (proj2 (Z.ltb_lt _ _) Hlen). reflexivity.
Qed.

Lemma sig_lookup_Some (store : list peer_sig) (id : Z) (ps : peer_sig) :
  sig_lookup store id = Some ps <->
  1 <= id /\ store !! Z.to_nat (id - 1) = Some ps.
Proof.
  unfold sig_lookup. destruct (Z.leb_spec id 0); split.
  - discriminate.
  - intros [H1 _]. lia.
  - intros Hl. split; [lia|exact Hl].
  - intros [_ Hl]. exact Hl.
Qed.

Lemma sig_lookup_range (store : list peer_sig) (id : Z) (ps : peer_sig) :
  sig_lookup store id = Some ps -> 1 <= id <= Z.of_nat (length store).
Proof.
  intros H. apply sig_lookup_Some in H as [H1 Hl].
  apply lookup_lt_Some in Hl. lia.
Qed.

Lemma sig_lookup_inj (store : list peer_sig) (a b : Z) (ps : peer_sig) :
  NoDup store ->
  sig_lookup store a = Some ps -> sig_lookup store b = Some ps -> a = b.
Proof.
  intros Hnd Ha Hb.
  apply sig_lookup_Some in Ha as [Ha1 Ha], Hb as [Hb1 Hb].
  pose proof (NoDup_lookup _ _ _ _ Hnd Ha Hb). lia.
Qed.

Lemma sig_lookup_app_l (store more : list peer_sig) (id : Z) (ps : peer_sig) :
  sig_lookup store id = Some ps -> sig_lookup (store ++ more) id = Some ps.
Proof.
  rewrite !sig_lookup_Some. intros [H1 Hl]. split; [exact H1|].
  apply lookup_app_l_Some, Hl.
Qed.

Lemma sig_lookup_last (store : list peer_sig) (ps : peer_sig) :
  sig_lookup (store ++ [ps]) (Z.of_nat (length store) + 1) = Some ps.
Proof.
  apply sig_lookup_Some. split; [lia|].
  replace (Z.to_nat (Z.of_nat (length store) + 1 - 1)) with (length store) by lia.
  apply list_lookup_middle. reflexivity.
Qed.

Lemma length_idmap_grow (idmap : list Z) (id : Z) :
  0 <= id -> (Z.to_nat id < length (idmap_grow idmap id))%nat.
Proof.
  intros Hid. unfold idmap_grow.
  destruct (Z.gtb_spec (id + 1) (Z.of_nat (length idmap))).
  - rewrite length_app, repeat_length. lia.
  - lia.
Qed.

Lemma idmap_grow_lookup (idmap : list Z) (id : Z) (i : nat) (l : Z) :
  idmap !! i = Some l -> idmap_grow idmap id !! i = Some l.
Proof.
  intros H. unfold idmap_grow. destruct (_ >? _); [|exact H].
  apply lookup_app_l_Some, H.
Qed.

Lemma rx_peers_inv_step (v : bgpview) (t : Z) (done : list Z) (id : Z)
  (ps : peer_sig) (it : bgpview_iter) (idmap : list Z) :
  NoDup (sig_store v) ->
  rx_peers_inv v t done (it_view it) idmap ->
  sig_lookup (sig_store v) id = Some ps ->
  id ∉ done ->
  Z.of_nat (length done) + 1 < UINT16_MAX ->
  let r := bgpview_iter_add_peer it (collector_str ps) (peer_ip_addr ps)
             (peer_asnumber ps) in
  fst r <> 0 /\
  rx_peers_inv v t (done ++ [id])
    (it_view (snd (bgpview_iter_activate_peer (snd r))))
    (<[Z.to_nat id := fst r]> (idmap_grow idmap id)).
Proof.
  intros Hnd (Ht & Hpa & Hpf & Hsig & Hpe & Hmap) Hps Hid Hcap r. subst r.
  destruct (add_activate_peer_view it (collector_str ps) (peer_ip_addr ps)
              (peer_asnumber ps)) as [Hfst Hview].
  cbv zeta in Hfst, Hview.
  pose proof (Forall2_length _ _ _ Hsig) as Hlen.
  assert (Hfresh : ps ∉ sig_store (it_view it)).
  { intros Hin. apply list_elem_of_lookup in Hin as [k Hk].
    destruct (Forall2_lookup_r _ _ _ _ _ Hsig Hk) as (id' & Hid' & Hl').
    assert (id' = id) by (eapply sig_lookup_inj; eassumption).
    subst id'. apply Hid. apply list_elem_of_lookup. eauto. }
  replace {| collector_str := collector_str ps;
             peer_ip_addr := peer_ip_addr ps;
             peer_asnumber := peer_asnumber ps |} with ps in Hfst, Hview
    by (destruct ps; reflexivity).
  rewrite sig_intern_fresh in Hfst, Hview by (try exact Hfresh; lia).
  cbn [fst snd] in Hfst, Hview.
  rewrite Hfst. split; [lia|].
  rewrite Hview by lia. clear Hview Hfst.
  pose proof (sig_lookup_range _ _ _ Hps) as Hrange.
  repeat split; cbn [view_time path_store pfxs sig_store peers set_peers
                       set_sig_store].
  - exact Ht.
  - exact Hpa.
  - exact Hpf.
  - apply Forall2_app; [exact Hsig|]. constructor; [exact Hps|constructor].
  - intros l. rewrite lookup_insert, Hpe, length_app. cbn [length].
    rewrite <- Hlen.
    case_decide as Hl.
    + subst l. rewrite bool_decide_eq_true_2 by lia. reflexivity.
    + destruct (bool_decide_reflect (1 <= l <= Z.of_nat (length done)));
        [rewrite bool_decide_eq_true_2 by lia
        |rewrite bool_decide_eq_false_2 by lia]; reflexivity.
  - intros k id' Hk. apply lookup_app_Some in Hk as [Hk|[Hge Hk]].
    + assert (Hne : id' <> id).
      { intros ->. apply Hid. apply list_elem_of_lookup. eauto. }
      destruct (Forall2_lookup_l _ _ _ _ _ Hsig Hk) as (ps' & _ & Hl').
      pose proof (sig_lookup_range _ _ _ Hl') as Hr'.
      rewrite list_lookup_insert_ne by lia.
      apply idmap_grow_lookup, Hmap, Hk.
    + destruct (k - length done)%nat as [|n] eqn:Hn; [|destruct n; discriminate].
      injection Hk as <-.
      rewrite list_lookup_insert_eq by (apply length_idmap_grow; lia).
      f_equal. lia.
Qed.

Lemma NoDup_active_peers (v : bgpview) : NoDup (active_peers v).
Proof.
  unfold active_peers.
  apply (sublist_NoDup _ (map fst (map_to_list (peers v))));
    [apply NoDup_fst_map_to_list|].
  apply fmap_sublist, sublist_filter.
Qed.

Lemma elem_of_active_peers (v : bgpview) (id : Z) :
  id ∈ active_peers v <-> peers v !! id = Some true.
Proof.
  unfold active_peers. rewrite list_elem_of_fmap. split.
  - intros ([id' b] & -> & Hin). apply list_elem_of_filter in Hin as [Hb Hin].
    simpl in Hb. subst b. apply elem_of_map_to_list in Hin. exact Hin.
  - intros Hl. exists (id, true). split; [reflexivity|].
    apply list_elem_of_filter. split; [reflexivity|].
    apply elem_of_map_to_list, Hl.
Qed.

Lemma NoDup_length_range (l : list Z) (n : Z) :
  0 <= n ->
  NoDup l -> (forall x, x ∈ l -> 1 <= x <= n) -> Z.of_nat (length l) <= n.
Proof.
  intros Hn Hnd Hr.
  assert (Hsub : l ⊆+ seqZ 1 n).
  { apply NoDup_submseteq; [exact Hnd|].
    intros x Hx. apply elem_of_seqZ. specialize (Hr x Hx). lia. }
  apply submseteq_length in Hsub. rewrite length_seqZ in Hsub. lia.
Qed.

Lemma read_peers_body_end (host : byte_order) (st : list Z * Z)
  (rest junk : list byte) (o : option bgpview_iter) :
  read_peers_body host None st
    (rstate_at (magic_bytes VIEW_PEER_END_MAGIC ++ rest) junk o)
  = Val (Break st) (rstate_at rest junk o).
Proof.
  destruct st as [idmap peers_rx]. unfold read_peers_body.
  erewrite bind_val by (apply check_magic_hit, magic_range).
  reflexivity.
Qed.

Section PeerSection.

Variable host : byte_order.
Variable v : bgpview.
Variable t : Z.
Hypothesis v_nodup : NoDup (sig_store v).
Hypothesis v_sigs : Z.of_nat (length (sig_store v)) < UINT16_MAX.

Lemma read_peers_loop_run (todo : list Z) :
  forall (done : list Z) (it : bgpview_iter) (idmap : list Z) (n : nat)
         (rest junk : list byte),
    Forall (fun id => peer_decodable v id = true) todo ->
    NoDup (done ++ todo) ->
    Forall (fun id => is_Some (sig_lookup (sig_store v) id)) done ->
    rx_peers_inv v t done (it_view it) idmap ->
    (length todo < n)%nat ->
    exists it' idmap',
      loop_nat n (read_peers_body host None)
        (idmap, Z.of_nat (length done))
        (rstate_at (flat_map (wire_peer v) todo
                    ++ magic_bytes VIEW_PEER_END_MAGIC ++ rest)
           junk (Some it))
      = Val (Break (idmap', Z.of_nat (length (done ++ todo))))
            (rstate_at rest junk (Some it')) /\
      rx_peers_inv v t (done ++ todo) (it_view it') idmap'.
Proof.
  induction todo as [|id todo IH];
    intros done it idmap n rest junk Hdec Hnd Hdone Hinv Hn.
  - destruct n as [|n]; [simpl in Hn; lia|].
    exists it, idmap. rewrite app_nil_r. split; [|exact Hinv].
    apply loop_nat_break. cbn [flat_map app]. apply read_peers_body_end.
  - destruct n as [|n]; [simpl in Hn; lia|].
    apply Forall_cons in Hdec as [Hid Hdec].
    unfold peer_decodable in Hid. apply andb_true_iff in Hid as [Hmagic Hps].
    destruct (sig_lookup (sig_store v) id) as [ps|] eqn:Hl; [|discriminate].
    apply negb_true_iff, Z.eqb_neq in Hmagic.
    pose proof (sig_lookup_range _ _ _ Hl) as Hrange.
    assert (Hnotin : id ∉ done).
    { apply NoDup_app in Hnd as (_ & Hdis & _). intros Hin.
      apply (Hdis id Hin). left. }
    assert (Hcnt : Z.of_nat (length (done ++ id :: todo))
                   <= Z.of_nat (length (sig_store v))).
    { apply NoDup_length_range; [lia|exact Hnd|].
      intros x Hx. apply elem_of_app in Hx as [Hx|Hx].
      - rewrite Forall_forall in Hdone. destruct (Hdone x Hx) as [ps' Hps'].
        apply (sig_lookup_range _ _ _ Hps').
      - apply elem_of_cons in Hx as [->|Hx]; [exact Hrange|].
        rewrite Forall_forall in Hdec. specialize (Hdec x Hx).
        unfold peer_decodable in Hdec. apply andb_true_iff in Hdec as [_ Hdec].
        destruct (sig_lookup (sig_store v) x) as [ps'|] eqn:Hps'; [|discriminate].
        apply (sig_lookup_range _ _ _ Hps'). }
    rewrite length_app in Hcnt. cbn [length] in Hcnt.
    destruct (rx_peers_inv_step v t done id ps it idmap v_nodup Hinv Hl Hnotin
                ltac:(lia)) as [Hr Hinv'].
    cbv zeta in Hr, Hinv'.
    destruct (IH (done ++ [id]) _ _ n rest junk Hdec
                ltac:(rewrite <- app_assoc; exact Hnd)
                ltac:(apply Forall_app; split; [exact Hdone|];
                      constructor; [eauto|constructor])
                Hinv' ltac:(simpl in Hn; lia))
      as (it' & idmap' & Hrun & Hinv'').
    exists it', idmap'. rewrite <- app_assoc in Hrun, Hinv''.
    split; [|exact Hinv''].
    erewrite loop_nat_continue.
    + rewrite length_app in Hrun. cbn [length] in Hrun.
      rewrite Nat2Z.inj_add in Hrun. exact Hrun.
    + cbn [flat_map]. unfold wire_peer at 1. rewrite Hl, <- app_assoc.
      apply read_peers_body_record; [unfold UINT16_MAX in v_sigs; lia
                                    |exact Hmagic|exact Hps|exact Hr].
Qed.

End PeerSection.

(** ** The path section read back *)

Lemma wire_paths_from_imap (ord : nat -> Z -> list byte)
  (l : list store_path) :
  forall k,
    flat_map (wire_path ord) (imap (fun i sp => (k + i, sp)%nat) l)
    = wire_paths_from ord k l.
Proof.
  induction l as [|sp l IH]; intros k; [reflexivity|].
  rewrite imap_cons. cbn [flat_map wire_paths_from].
  rewrite Nat.add_0_r. f_equal.
  rewrite <- IH. f_equal. apply imap_ext. intros i x _. simpl.
  f_equal. lia.
Qed.

Lemma get_store_path_Some (store : list store_path) (pid : path_id)
  (sp : store_path) :
  bgpstream_as_path_store_get_store_path store pid = Some sp <->
  0 <= store_index pid /\ store !! Z.to_nat (store_index pid) = Some sp /\
  sp_is_core sp = pid_is_core pid.
Proof.
  unfold bgpstream_as_path_store_get_store_path.
  destruct (Z.ltb_spec (store_index pid) 0).
  - split; [discriminate|]. intros [H0 _]. lia.
  - destruct (store !! Z.to_nat (store_index pid)) as [sp'|].
    + destruct (bool_decide_reflect (sp_is_core sp' = pid_is_core pid)).
      * split; [intros [= <-]; auto|]. intros (_ & [= <-] & _). reflexivity.
      * split; [discriminate|]. intros (_ & [= <-] & Hc). contradiction.
    + split; [discriminate|]. intros (_ & Hl & _). discriminate.
Qed.

Lemma get_store_path_app (store more : list store_path) (pid : path_id)
  (sp : store_path) :
  bgpstream_as_path_store_get_store_path store pid = Some sp ->
  bgpstream_as_path_store_get_store_path (store ++ more) pid = Some sp.
Proof.
  rewrite !get_store_path_Some. intros (H0 & Hl & Hc).
  split; [exact H0|]. split; [|exact Hc]. apply lookup_app_l_Some, Hl.
Qed.

Lemma insert_path_get (store : list store_path) (data : list byte)
  (core : bool) :
  bgpstream_as_path_store_get_store_path
    (snd (bgpstream_as_path_store_insert_path store data core))
    (fst (bgpstream_as_path_store_insert_path store data core))
  = Some {| sp_is_core := core; sp_data := data |}.
Proof.
  unfold bgpstream_as_path_store_insert_path.
  destruct (index_of _ store) as [i|] eqn:Hi; cbn [fst snd];
    apply get_store_path_Some; cbn [store_index pid_is_core sp_is_core];
    (split; [lia|]); (split; [|reflexivity]); rewrite Nat2Z.id.
  - apply index_of_Some, Hi.
  - apply list_lookup_middle. reflexivity.
Qed.

Lemma insert_path_keeps (store : list store_path) (data : list byte)
  (core : bool) (pid : path_id) (sp : store_path) :
  bgpstream_as_path_store_get_store_path store pid = Some sp ->
  bgpstream_as_path_store_get_store_path
    (snd (bgpstream_as_path_store_insert_path store data core)) pid
  = Some sp.
Proof.
  intros H. destruct (insert_path_prefix store data core) as [more ->].
  apply get_store_path_app, H.
Qed.

Lemma path_idmap_grow_bound (cnt idx : Z) :
  0 <= idx <= cnt -> idx + 1 <= path_idmap_grow cnt idx.
Proof.
  intros H. unfold path_idmap_grow.
  destruct (Z.gtb_spec (idx + 1) cnt); [|lia].
  destruct (Z.eqb_spec idx 0); lia.
Qed.

Lemma host_value_host_bytes_4 (host : byte_order) (v : Z) :
  0 <= v < 2 ^ 32 -> host_value host (host_bytes host 4 v) = v.
Proof. intros H. rewrite host_value_host_bytes. apply Z.mod_small, H. Qed.

Lemma host_value_host_bytes_2 (host : byte_order) (v : Z) :
  0 <= v < 2 ^ 16 -> host_value host (host_bytes host 2 v) = v.
Proof. intros H. rewrite host_value_host_bytes. apply Z.mod_small, H. Qed.

Lemma read_paths_body_record (host : byte_order) (k : nat) (sp : store_path)
  (m : path_idmap) (paths_rx : Z) (rest junk : list byte)
  (it : bgpview_iter) :
  Z.of_nat k < 2 ^ 30 -> Z.of_nat k <= pm_cnt m ->
  path_decodable sp = true ->
  let core := if sp_is_core sp then 1 else 0 in
  let r := view_insert_path (sp_data sp) core it in
  read_paths_body host (m, paths_rx)
    (rstate_at (wire_path (host_bytes host) (k, sp) ++ rest) junk (Some it))
  = Val (Continue ({| pm_cnt := path_idmap_grow (pm_cnt m) (Z.of_nat k);
                      pm_ids := <[Z.of_nat k := fst r]> (pm_ids m) |},
                   paths_rx + 1))
        (rstate_at rest junk (Some (snd r))).
Proof.
  intros Hk Hcnt Hsp core r. subst core r.
  unfold path_decodable in Hsp. apply Z.leb_le in Hsp.
  unfold BUFFER_LEN in Hsp.
  unfold read_paths_body, wire_path. cbn [fst snd]. rewrite <- !app_assoc.
  erewrite bind_val.
  2:{ apply (check_magic_miss host _ 4
               (byte.of_Z (if sp_is_core sp then 1 else 0)) Byte.x50);
        [apply magic_range| |reflexivity|destruct (sp_is_core sp); discriminate].
      rewrite lookup_app_r by (rewrite length_host_bytes; lia).
      rewrite length_host_bytes. reflexivity. }
  cbn [Z.eqb negb].
  erewrite bind_val by (apply READ_VAL_run, length_host_bytes).
  rewrite host_value_host_bytes_4 by lia.
  erewrite bind_val by (apply READ_VAL_run; reflexivity).
  rewrite host_value_u8 by (destruct (sp_is_core sp); lia).
  erewrite bind_val by (apply READ_VAL_run, length_host_bytes).
  rewrite host_value_host_bytes_2 by lia.
  rewrite (proj2 (Z.leb_le _ _)) by (unfold BUFFER_LEN; exact Hsp).
  erewrite bind_val by reflexivity.
  erewrite bind_val by (apply wandio_read_run; symmetry; apply Nat2Z.id).
  rewrite Z.eqb_refl. cbn [negb].
  erewrite bind_val by apply iter_is_null_run.
  rewrite (Z.mod_small (Z.of_nat k + 1)) by lia.
  assert (Hgrow : (if Z.of_nat k + 1 >? pm_cnt m
                   then (let cnt := if Z.of_nat k =? 0 then 1
                                    else to_int ((Z.of_nat k * 2) mod 2 ^ 32) in
                         if cnt <? 0 then @fail rstate Z
                         else if cnt =? 0 then undef
                         else ret cnt)
                   else ret (pm_cnt m))
                  = ret (path_idmap_grow (pm_cnt m) (Z.of_nat k))).
  { unfold path_idmap_grow. destruct (Z.of_nat k + 1 >? pm_cnt m); [|reflexivity].
    cbv zeta. destruct (Z.eqb_spec (Z.of_nat k) 0) as [e|n]; [reflexivity|].
    rewrite Z.mod_small by lia. unfold to_int.
    rewrite (proj2 (Z.ltb_lt (Z.of_nat k * 2) (2 ^ 31))) by lia.
    rewrite (proj2 (Z.ltb_ge (Z.of_nat k * 2) 0)) by lia.
    rewrite (proj2 (Z.eqb_neq (Z.of_nat k * 2) 0)) by lia. reflexivity. }
  cbv zeta in Hgrow. rewrite Hgrow. erewrite bind_val by reflexivity.
  erewrite bind_val by apply with_iter_run.
  pose proof (path_idmap_grow_bound (pm_cnt m) (Z.of_nat k) ltac:(lia)) as Hb.
  rewrite (proj2 (Z.ltb_lt _ _)) by lia.
  reflexivity.
Qed.

Lemma read_paths_body_end (host : byte_order) (st : path_idmap * Z)
  (rest junk : list byte) (o : option bgpview_iter) :
  read_paths_body host st
    (rstate_at (magic_bytes VIEW_PATH_END_MAGIC ++ rest) junk o)
  = Val (Break st) (rstate_at rest junk o).
Proof.
  destruct st as [idmap paths_rx]. unfold read_paths_body.
  erewrite bind_val by (apply check_magic_hit, magic_range).
  reflexivity.
Qed.

Lemma rx_paths_inv_step (w1 : bgpview) (done : list store_path)
  (sp : store_path) (it : bgpview_iter) (m : path_idmap) :
  rx_paths_inv w1 done (it_view it) m ->
  let r := view_insert_path (sp_data sp) (if sp_is_core sp then 1 else 0) it in
  rx_paths_inv w1 (done ++ [sp]) (it_view (snd r))
    {| pm_cnt := path_idmap_grow (pm_cnt m) (Z.of_nat (length done));
       pm_ids := <[Z.of_nat (length done) := fst r]> (pm_ids m) |}.
Proof.
  intros (Ht & Hs & Hpe & Hpf & Hcnt & Hmap) r. subst r.
  assert (Hcore : negb ((if sp_is_core sp then 1 else 0) =? 0) = sp_is_core sp)
    by (destruct (sp_is_core sp); reflexivity).
  rewrite view_insert_path_view. unfold view_insert_path. cbn [fst snd].
  rewrite Hcore.
  repeat split; cbn [view_time sig_store peers pfxs path_store set_path_store
                       pm_cnt pm_ids]; try assumption.
  - rewrite length_app. cbn [length].
    pose proof (path_idmap_grow_bound (pm_cnt m) (Z.of_nat (length done))
                  ltac:(lia)). lia.
  - intros i sp' Hi. apply lookup_app_Some in Hi as [Hi|[Hge Hi]].
    + destruct (Hmap i sp' Hi) as (pid & Hpid & Hget).
      exists pid. apply lookup_lt_Some in Hi as Hlt.
      rewrite lookup_insert_ne by lia. split; [exact Hpid|].
      apply insert_path_keeps, Hget.
    + destruct (i - length done)%nat as [|k] eqn:Hk; [|destruct k; discriminate].
      injection Hi as <-. replace i with (length done) by lia.
      eexists. rewrite lookup_insert_eq. split; [reflexivity|].
      rewrite insert_path_get. destruct sp; reflexivity.
Qed.

Lemma read_paths_loop_run (host : byte_order) (w1 : bgpview)
  (todo : list store_path) :
  forall (done : list store_path) (it : bgpview_iter) (m : path_idmap)
         (n : nat) (rest junk : list byte),
    Forall (fun sp => path_decodable sp = true) todo ->
    Z.of_nat (length (done ++ todo)) <= 2 ^ 30 ->
    rx_paths_inv w1 done (it_view it) m ->
    (length todo < n)%nat ->
    exists it' m',
      loop_nat n (read_paths_body host) (m, Z.of_nat (length done))
        (rstate_at (wire_paths_from (host_bytes host) (length done) todo
                    ++ magic_bytes VIEW_PATH_END_MAGIC ++ rest)
           junk (Some it))
      = Val (Break (m', Z.of_nat (length (done ++ todo))))
            (rstate_at rest junk (Some it')) /\
      rx_paths_inv w1 (done ++ todo) (it_view it') m'.
Proof.
  induction todo as [|sp todo IH];
    intros done it m n rest junk Hdec Hlen Hinv Hn.
  - destruct n as [|n]; [simpl in Hn; lia|].
    exists it, m. rewrite app_nil_r. split; [|exact Hinv].
    apply loop_nat_break. cbn [wire_paths_from app]. apply read_paths_body_end.
  - destruct n as [|n]; [simpl in Hn; lia|].
    apply Forall_cons in Hdec as [Hsp Hdec].
    rewrite length_app in Hlen. cbn [length] in Hlen.
    pose proof (rx_paths_inv_step w1 done sp it m Hinv) as Hinv'.
    cbv zeta in Hinv'.
    destruct (IH (done ++ [sp]) _ _ n rest junk Hdec
                ltac:(rewrite !length_app; cbn [length]; lia)
                Hinv' ltac:(simpl in Hn; lia))
      as (it' & m' & Hrun & Hinv'').
    exists it', m'. rewrite <- app_assoc in Hrun, Hinv''.
    split; [|exact Hinv''].
    erewrite loop_nat_continue.
    + rewrite length_app in Hrun. cbn [length] in Hrun.
      rewrite Nat2Z.inj_add, Nat.add_1_r in Hrun. exact Hrun.
    + cbn [wire_paths_from]. rewrite <- app_assoc.
      destruct Hinv as (_ & _ & _ & _ & Hcnt & _).
      apply read_paths_body_record; [lia|exact Hcnt|exact Hsp].
Qed.

(** ** The prefix section read back *)

Lemma pathid_map_get_run {S} (m : path_idmap) (idx : Z) (pid : path_id)
  (s : S) :
  idx < pm_cnt m -> pm_ids m !! idx = Some pid ->
  pathid_map_get m idx s = Val pid s.
Proof.
  intros Hlt Hl. unfold pathid_map_get.
  rewrite (proj2 (Z.ltb_lt _ _) Hlt), Hl. reflexivity.
Qed.

Lemma read_pfx_peers_body_end (host : byte_order) (lid : list Z)
  (pmap : path_idmap) (q : pfx) (skip : bool) (st : Z * Z)
  (rest junk : list byte) (o : option bgpview_iter) :
  read_pfx_peers_body host None lid pmap q skip st
    (rstate_at (magic_bytes VIEW_PEER_END_MAGIC ++ rest) junk o)
  = Val (Break st) (rstate_at rest junk o).
Proof.
  destruct st as [added rx]. unfold read_pfx_peers_body.
  erewrite bind_val by (apply check_magic_hit, magic_range).
  reflexivity.
Qed.

Lemma read_pfx_peers_body_record (host : byte_order) (lid : list Z)
  (pmap : path_idmap) (q : pfx) (id : Z) (info : pfx_peer_info)
  (l : Z) (pid' : path_id) (added rx : Z) (rest junk : list byte)
  (it : bgpview_iter) :
  0 <= id < 2 ^ 16 -> id <> 0x4247 ->
  0 <= store_index (pp_path_id info) < 2 ^ 32 ->
  lid !! Z.to_nat id = Some l ->
  store_index (pp_path_id info) < pm_cnt pmap ->
  pm_ids pmap !! store_index (pp_path_id info) = Some pid' ->
  0 <= added -> (added <> 0 -> it_pfx it = Some q) ->
  let r := bgpview_iter_add_pfx_peer_by_id it q l pid' in
  fst r = 0 ->
  read_pfx_peers_body host None lid pmap q false (added, rx)
    (rstate_at (wire_pfx_peer (host_bytes host) (id, info) ++ rest)
       junk (Some it))
  = Val (Continue (added + 1, rx + 1))
        (rstate_at rest junk
           (Some (snd (bgpview_iter_pfx_activate_peer (snd r))))).
Proof.
  intros Hid Hne Hidx Hl Hcnt Hpid Hadded Hcur r Hr. subst r.
  unfold read_pfx_peers_body, wire_pfx_peer. cbn [fst snd].
  rewrite <- !app_assoc.
  erewrite bind_val
    by (apply check_magic_peer_id; [apply magic_range|exact Hid|exact Hne]).
  cbn [Z.eqb negb].
  erewrite bind_val by (apply READ_VAL_run, length_be_bytes).
  rewrite ntohs_host_value, be_value_be_bytes, Z.mod_small
    by (try apply length_be_bytes; exact Hid).
  erewrite bind_val by (apply READ_VAL_run, length_host_bytes).
  rewrite host_value_host_bytes_4 by exact Hidx.
  erewrite bind_val by apply iter_is_null_run.
  cbn [orb].
  apply lookup_lt_Some in Hl as Hlt.
  rewrite (proj2 (Z.ltb_lt id (Z.of_nat (length lid)))) by lia.
  erewrite bind_val by reflexivity.
  erewrite bind_val by reflexivity. cbn [negb].
  erewrite bind_val by (apply pathid_map_get_run; eassumption).
  rewrite (nth_lookup_Some _ _ _ _ Hl).
  assert (Hadd : (if added =? 0
                  then with_iter (fun it0 =>
                         bgpview_iter_add_pfx_peer_by_id it0 q l pid')
                  else with_iter (fun it0 =>
                         bgpview_iter_pfx_add_peer_by_id it0 l pid'))
                   (rstate_at rest junk (Some it))
                 = Val (fst (bgpview_iter_add_pfx_peer_by_id it q l pid'))
                       (rstate_at rest junk
                          (Some (snd (bgpview_iter_add_pfx_peer_by_id it q l pid'))))).
  { destruct (Z.eqb_spec added 0) as [e|n]; [reflexivity|].
    rewrite with_iter_run. unfold bgpview_iter_pfx_add_peer_by_id.
    rewrite (Hcur n). reflexivity. }
  erewrite bind_val by exact Hadd.
  rewrite Hr. cbn [Z.eqb negb].
  erewrite bind_val by apply with_iter_run.
  destruct (add_activate_pfx_peer_view it q l pid' Hr) as (_ & _ & Hact & _).
  rewrite Hact. reflexivity.
Qed.

Lemma rx_pfx_peers_inv_step (w2 : bgpview) (lid : list Z)
  (pmap : path_idmap) (q : pfx) (done : list (Z * pfx_peer_info))
  (id : Z) (info : pfx_peer_info) (l : Z) (pid' : path_id)
  (it : bgpview_iter) :
  rx_pfx_peers_inv w2 lid pmap q done it ->
  pfx_valid q = true ->
  lid !! Z.to_nat id = Some l ->
  peers w2 !! l = Some true ->
  pm_ids pmap !! store_index (pp_path_id info) = Some pid' ->
  (forall id2 info2, (id2, info2) ∈ done -> lid !! Z.to_nat id2 <> Some l) ->
  let r := bgpview_iter_add_pfx_peer_by_id it q l pid' in
  fst r = 0 /\
  rx_pfx_peers_inv w2 lid pmap q (done ++ [(id, info)])
    (snd (bgpview_iter_pfx_activate_peer (snd r))).
Proof.
  intros (Ht & Hs & Hp & Hpe & Hother & Hcur & Hnone & Hrel)
    Hq Hl Hw Hpid Hfresh r.
  assert (Hr : fst r = 0).
  { subst r. unfold bgpview_iter_add_pfx_peer_by_id.
    rewrite Hpe, Hw, Hq. reflexivity. }
  split; [exact Hr|].
  destruct (add_activate_pfx_peer_view it q l pid' Hr)
    as (_ & _ & _ & Hview & Hpfx).
  fold r in Hview, Hpfx. unfold rx_pfx_peers_inv.
  rewrite Hview, Hpfx. cbn [set_peers set_pfxs view_time sig_store
                             path_store peers pfxs].
  split; [exact Ht|]. split; [exact Hs|]. split; [exact Hp|].
  split; [rewrite Hpe; apply insert_id, Hw|].
  split; [intros q' Hq'; rewrite lookup_insert_ne by congruence;
          apply Hother, Hq'|].
  split; [intros _; split; [reflexivity|];
          rewrite lookup_insert_eq; eauto|].
  split; [intros Hnil; destruct done; discriminate|].
  rewrite lookup_insert_eq. cbn [from_option Datatypes.id].
  intros l' info'. destruct (decide (l' = l)) as [->|Hne].
  - rewrite lookup_insert_eq. split.
    + intros [= <-]. exists id, info.
      split; [apply elem_of_app; right; apply list_elem_of_singleton;
              reflexivity|].
      split; [exact Hl|]. split; [exact Hpid|reflexivity].
    + intros (id0 & info0 & Hin & Hl0 & Hp0 & Ha0).
      apply elem_of_app in Hin as [Hin|Hin].
      * exfalso. exact (Hfresh id0 info0 Hin Hl0).
      * apply list_elem_of_singleton in Hin. injection Hin as -> ->.
        rewrite Hpid in Hp0. injection Hp0 as Hp0.
        destruct info' as [p a]. cbn in Hp0, Ha0. subst. reflexivity.
  - rewrite lookup_insert_ne by congruence. rewrite (Hrel l' info'). split.
    + intros (id0 & info0 & Hin & Hrest). exists id0, info0.
      split; [apply elem_of_app; left; exact Hin|exact Hrest].
    + intros (id0 & info0 & Hin & Hl0 & Hrest).
      apply elem_of_app in Hin as [Hin|Hin].
      * exists id0, info0. split; [exact Hin|]. split; [exact Hl0|exact Hrest].
      * apply list_elem_of_singleton in Hin. injection Hin as -> ->.
        congruence.
Qed.

Section PfxSection.

Variable host : byte_order.
Variables v w2 : bgpview.
Variable lid : list Z.
Variable pmap : path_idmap.
Hypothesis peers_ok : peer_map_ok v w2 lid.
Hypothesis paths_ok : path_map_ok v w2 pmap.
Hypothesis v_sigs : Z.of_nat (length (sig_store v)) < UINT16_MAX.
Hypothesis v_paths : Z.of_nat (length (path_store v)) <= 2 ^ 30.
Hypothesis v_peers :
  forall id, peers v !! id = Some true -> peer_decodable v id = true.

Lemma active_peer_id_range (id : Z) :
  peers v !! id = Some true -> 1 <= id < 2 ^ 16 - 1 /\ id <> 0x4247.
Proof.
  intros Hid. specialize (v_peers id Hid). unfold peer_decodable in v_peers.
  apply andb_true_iff in v_peers as [Hm Hps].
  apply negb_true_iff, Z.eqb_neq in Hm.
  destruct (sig_lookup (sig_store v) id) as [ps|] eqn:Hl; [|discriminate].
  apply sig_lookup_range in Hl. unfold UINT16_MAX in v_sigs.
  split; [lia|exact Hm].
Qed.

Lemma read_pfx_peers_loop_run (q : pfx) (todo : list (Z * pfx_peer_info)) :
  forall (done : list (Z * pfx_peer_info)) (it : bgpview_iter) (n : nat)
         (rest junk : list byte),
    pfx_valid q = true ->
    Forall (fun e => pfx_peer_decodable v e = true) todo ->
    Forall (fun e => peers v !! fst e = Some true) done ->
    NoDup (map fst (done ++ todo)) ->
    rx_pfx_peers_inv w2 lid pmap q done it ->
    (length todo < n)%nat ->
    exists it',
      loop_nat n (read_pfx_peers_body host None lid pmap q false)
        (Z.of_nat (length done), Z.of_nat (length done))
        (rstate_at (flat_map (wire_pfx_peer (host_bytes host)) todo
                    ++ magic_bytes VIEW_PEER_END_MAGIC ++ rest)
           junk (Some it))
      = Val (Break (Z.of_nat (length (done ++ todo)),
                    Z.of_nat (length (done ++ todo))))
            (rstate_at rest junk (Some it')) /\
      rx_pfx_peers_inv w2 lid pmap q (done ++ todo) it'.
Proof.
  induction todo as [|[id info] todo IH];
    intros done it n rest junk Hq Hdec Hdone Hnd Hinv Hn.
  - destruct n as [|n]; [simpl in Hn; lia|].
    exists it. rewrite app_nil_r. split; [|exact Hinv].
    apply loop_nat_break. cbn [flat_map app]. apply read_pfx_peers_body_end.
  - destruct n as [|n]; [simpl in Hn; lia|].
    apply Forall_cons in Hdec as [He Hdec].
    unfold pfx_peer_decodable, pfx_peer_writable in He. cbn [fst snd] in He.
    apply andb_true_iff in He as [He Hact].
    apply andb_true_iff in He as [_ Hsp].
    apply bool_decide_eq_true in Hact.
    destruct (bgpstream_as_path_store_get_store_path (path_store v)
                (pp_path_id info)) as [sp|] eqn:Hget; [|discriminate].
    destruct (paths_ok _ _ Hget) as (Hcnt & pid' & Hpid & _).
    apply get_store_path_Some in Hget as (Hidx0 & Hidx & _).
    apply lookup_lt_Some in Hidx.
    destruct peers_ok as (Hfwd & Hinj & _).
    destruct (Hfwd id Hact) as (_ & l & Hl & Hw & _).
    destruct (active_peer_id_range id Hact) as [Hrange Hmagic].
    assert (Hfresh : forall id2 info2, (id2, info2) ∈ done ->
                       lid !! Z.to_nat id2 <> Some l).
    { intros id2 info2 Hin Hl2.
      rewrite Forall_forall in Hdone. pose proof (Hdone _ Hin) as Hact2.
      cbn [fst] in Hact2.
      pose proof (Hinj id2 id l Hact2 Hact Hl2 Hl) as ->.
      rewrite map_app in Hnd. apply NoDup_app in Hnd as (_ & Hdis & _).
      apply (Hdis id).
      - apply list_elem_of_fmap. exists (id, info2). split; [reflexivity|exact Hin].
      - cbn [map fst]. left. }
    destruct (rx_pfx_peers_inv_step w2 lid pmap q done id info l pid' it
                Hinv Hq Hl Hw Hpid Hfresh) as [Hr Hinv'].
    cbv zeta in Hr, Hinv'.
    destruct (IH (done ++ [(id, info)]) _ n rest junk Hq Hdec
                ltac:(apply Forall_app; split; [exact Hdone|];
                      constructor; [exact Hact|constructor])
                ltac:(rewrite <- app_assoc; exact Hnd)
                Hinv' ltac:(simpl in Hn; lia))
      as (it' & Hrun & Hinv'').
    exists it'. rewrite <- app_assoc in Hrun, Hinv''.
    split; [|exact Hinv''].
    erewrite loop_nat_continue.
    + rewrite length_app in Hrun. cbn [length] in Hrun.
      rewrite Nat2Z.inj_add in Hrun. exact Hrun.
    + cbn [flat_map]. rewrite <- app_assoc.
      destruct Hinv as (_ & _ & _ & _ & _ & Hcur & _).
      apply read_pfx_peers_body_record with (l := l);
        [lia|exact Hmagic|lia|exact Hl|exact Hcnt|exact Hpid|lia| |exact Hr].
      intros Hne. apply Hcur. intros ->. cbn [length] in Hne. lia.
Qed.

End PfxSection.

(** The maps of the decoder serve any view with the same peers, signature
    store and path store. *)
Lemma peer_map_ok_ext (v w w' : bgpview) (lid : list Z) :
  peers w' = peers w -> sig_store w' = sig_store w ->
  peer_map_ok v w lid -> peer_map_ok v w' lid.
Proof. unfold peer_map_ok. intros -> ->. tauto. Qed.

Lemma path_map_ok_ext (v w w' : bgpview) (pmap : path_idmap) :
  path_store w' = path_store w ->
  path_map_ok v w pmap -> path_map_ok v w' pmap.
Proof. unfold path_map_ok. intros ->. tauto. Qed.

Lemma elem_of_active_pfx_peers (pm : gmap Z pfx_peer_info) (id : Z)
  (info : pfx_peer_info) :
  (id, info) ∈ active_pfx_peers pm <->
  pm !! id = Some info /\ pp_active info = true.
Proof.
  unfold active_pfx_peers. rewrite list_elem_of_filter, elem_of_map_to_list.
  cbn [snd]. tauto.
Qed.

Lemma NoDup_fst_active_pfx_peers (pm : gmap Z pfx_peer_info) :
  NoDup (map fst (active_pfx_peers pm)).
Proof.
  unfold active_pfx_peers.
  apply (sublist_NoDup _ (map fst (map_to_list pm)));
    [apply NoDup_fst_map_to_list|].
  apply fmap_sublist, sublist_filter.
Qed.

Lemma elem_of_active_pfxs (v : bgpview) (q : pfx)
  (pm : gmap Z pfx_peer_info) :
  (q, pm) ∈ active_pfxs v <->
  pfxs v !! q = Some pm /\ active_pfx_peers pm <> [].
Proof.
  unfold active_pfxs. rewrite list_elem_of_filter, elem_of_map_to_list.
  cbn [snd]. tauto.
Qed.

Lemma NoDup_fst_active_pfxs (v : bgpview) : NoDup (map fst (active_pfxs v)).
Proof.
  unfold active_pfxs.
  apply (sublist_NoDup _ (map fst (map_to_list (pfxs v))));
    [apply NoDup_fst_map_to_list|].
  apply fmap_sublist, sublist_filter.
Qed.

Lemma check_magic_ip (host : byte_order) (ip : ip_addr)
  (rest junk : list byte) (o : option bgpview_iter) :
  ip_in_range ip = true ->
  check_magic host VIEW_PFX_END_MAGIC (rstate_at (wire_ip ip ++ rest) junk o)
  = Val 0 (rstate_at (wire_ip ip ++ rest) junk o).
Proof.
  destruct ip as [a|a|]; [| |discriminate]; intros _.
  - apply check_magic_miss with (i := 0%nat) (b := byte.of_Z 4) (b' := Byte.x42);
      [apply magic_range|reflexivity|vm_compute; reflexivity
      |vm_compute; discriminate].
  - apply check_magic_miss with (i := 0%nat) (b := byte.of_Z 16) (b' := Byte.x42);
      [apply magic_range|reflexivity|vm_compute; reflexivity
      |vm_compute; discriminate].
Qed.

Lemma rx_pfx_peers_inv_start (w : bgpview) (lid : list Z)
  (pmap : path_idmap) (q : pfx) (it : bgpview_iter) :
  it_view it = w -> pfxs w !! q = None ->
  rx_pfx_peers_inv w lid pmap q [] it.
Proof.
  intros <- Hq. unfold rx_pfx_peers_inv.
  do 4 (split; [reflexivity|]).
  split; [intros q' _; reflexivity|].
  split; [intros H; contradiction|].
  split; [intros _; exact Hq|].
  rewrite Hq. cbn [from_option]. intros l' info'.
  rewrite lookup_empty. split; [discriminate|].
  intros (id & info & Hin & _). apply elem_of_nil in Hin. contradiction.
Qed.

Lemma rx_pfxs_inv_step (w2 : bgpview) (lid : list Z) (pmap : path_idmap)
  (done : list (pfx * gmap Z pfx_peer_info)) (q : pfx)
  (pm : gmap Z pfx_peer_info) (w : bgpview) (it' : bgpview_iter) :
  rx_pfxs_inv w2 lid pmap done w ->
  q ∉ map fst done -> active_pfx_peers pm <> [] ->
  rx_pfx_peers_inv w lid pmap q (active_pfx_peers pm) it' ->
  rx_pfxs_inv w2 lid pmap (done ++ [(q, pm)]) (it_view it').
Proof.
  intros (Ht & Hs & Hp & Hpe & Hnone & Hsome) Hq Hne
    (Ht' & Hs' & Hp' & Hpe' & Hother & Hcur & _ & Hrel).
  unfold rx_pfxs_inv.
  split; [congruence|]. split; [congruence|]. split; [congruence|].
  split; [congruence|].
  destruct (Hcur Hne) as [_ [pm' Hpm']].
  split.
  - intros q' Hq'. rewrite map_app in Hq'. cbn [map fst] in Hq'.
    rewrite Hother.
    + apply Hnone. intros Hin. apply Hq', elem_of_app. left. exact Hin.
    + intros ->. apply Hq', elem_of_app. right. left.
  - intros q' pm'' Hin. apply elem_of_app in Hin as [Hin|Hin].
    + rewrite Hother; [apply Hsome, Hin|].
      intros ->. apply Hq, list_elem_of_fmap.
      exists (q, pm''). split; [reflexivity|exact Hin].
    + apply list_elem_of_singleton in Hin. injection Hin as -> ->.
      exists pm'. split; [exact Hpm'|].
      rewrite Hpm' in Hrel. exact Hrel.
Qed.

Lemma forallb_Forall {A} (f : A -> bool) (l : list A) :
  forallb f l = true <-> Forall (fun x => f x = true) l.
Proof.
  induction l as [|x l IH]; simpl; [split; constructor|].
  rewrite andb_true_iff, Forall_cons, IH. tauto.
Qed.

Lemma for_loop_break {S A} (bound : Z) (body : A -> M S (ctl A))
  (a a' : A) (s s' : S) :
  0 < bound ->
  loop_nat (Z.to_nat bound) body a s = Val (Break a') s' ->
  for_loop bound body a s = Val a' s'.
Proof.
  intros Hb H. rewrite for_loop_nat by exact Hb.
  unfold bind. rewrite H. reflexivity.
Qed.

Lemma read_pfxs_body_end (host : byte_order) (lid : list Z)
  (pmap : path_idmap) (rx : Z) (rest junk : list byte)
  (o : option bgpview_iter) :
  read_pfxs_body host None None lid pmap rx
    (rstate_at (magic_bytes VIEW_PFX_END_MAGIC ++ rest) junk o)
  = Val (Break rx) (rstate_at rest junk o).
Proof.
  unfold read_pfxs_body.
  erewrite bind_val by (apply check_magic_hit, magic_range).
  reflexivity.
Qed.

Section PfxsSection.

Variable host : byte_order.
Variables v w2 : bgpview.
Variable lid : list Z.
Variable pmap : path_idmap.
Hypothesis peers_ok : peer_map_ok v w2 lid.
Hypothesis paths_ok : path_map_ok v w2 pmap.
Hypothesis v_sigs : Z.of_nat (length (sig_store v)) < UINT16_MAX.
Hypothesis v_paths : Z.of_nat (length (path_store v)) <= 2 ^ 30.
Hypothesis v_peers :
  forall id, peers v !! id = Some true -> peer_decodable v id = true.

Lemma read_pfxs_body_record (q : pfx) (pm : gmap Z pfx_peer_info)
  (done : list (pfx * gmap Z pfx_peer_info)) (it : bgpview_iter) (rx : Z)
  (rest junk : list byte) :
  rx_pfxs_inv w2 lid pmap done (it_view it) ->
  q ∉ map fst done ->
  active_pfx_peers pm <> [] ->
  pfx_decodable v (q, pm) = true ->
  exists it',
    read_pfxs_body host None None lid pmap rx
      (rstate_at (wire_pfx (host_bytes host) (q, pm) ++ rest) junk (Some it))
    = Val (Continue (rx + 1)) (rstate_at rest junk (Some it')) /\
    rx_pfxs_inv w2 lid pmap (done ++ [(q, pm)]) (it_view it').
Proof.
  intros Hinv Hq Hne Hdec.
  unfold pfx_decodable in Hdec. cbn [fst snd] in Hdec.
  apply andb_true_iff in Hdec as [Hdec Hpps].
  apply andb_true_iff in Hdec as [Hvalid Hip].
  apply forallb_Forall in Hpps.
  assert (Hmask : 0 <= mask_len q < 2 ^ 8).
  { unfold pfx_valid in Hvalid.
    destruct (address q); [| |discriminate];
      apply andb_true_iff in Hvalid as [H0 H1];
      apply Z.leb_le in H0, H1; lia. }
  assert (Hact : Forall (fun e => peers v !! fst e = Some true)
                   (active_pfx_peers pm)).
  { eapply Forall_impl; [exact Hpps|]. intros e He.
    unfold pfx_peer_decodable in He.
    apply andb_true_iff in He as [_ He].
    apply bool_decide_eq_true in He. exact He. }
  assert (Hlen : (length (active_pfx_peers pm) < Z.to_nat UINT16_MAX)%nat).
  { pose proof (NoDup_length_range (map fst (active_pfx_peers pm))
                  (2 ^ 16 - 2) ltac:(lia)
                  (NoDup_fst_active_pfx_peers pm)) as Hl.
    rewrite length_map in Hl. unfold UINT16_MAX.
    enough (Z.of_nat (length (active_pfx_peers pm)) <= 2 ^ 16 - 2) by lia.
    apply Hl. intros x Hx.
    apply list_elem_of_fmap in Hx as (e & -> & He).
    rewrite Forall_forall in Hact.
    pose proof (active_peer_id_range v v_sigs v_peers _ (Hact e He)). lia. }
  destruct Hinv as (Ht & Hs & Hp & Hpe & Hnone & Hsome).
  destruct (read_pfx_peers_loop_run host v (it_view it) lid pmap
              (peer_map_ok_ext v w2 _ lid Hpe Hs peers_ok)
              (path_map_ok_ext v w2 _ pmap Hp paths_ok)
              v_sigs v_paths v_peers q (active_pfx_peers pm) [] it
              (Z.to_nat UINT16_MAX)
              (be_bytes 2 (Z.of_nat (length (active_pfx_peers pm))) ++ rest)
              junk Hvalid Hpps (Forall_nil_2 _)
              (NoDup_fst_active_pfx_peers pm)
              (rx_pfx_peers_inv_start _ lid pmap q it eq_refl (Hnone q Hq))
              Hlen) as (it' & Hrun & Hinv').
  cbn [app length] in Hrun, Hinv'.
  exists it'. split.
  - unfold read_pfxs_body, wire_pfx. cbn [fst snd]. rewrite <- !app_assoc.
    erewrite bind_val by (apply check_magic_ip, Hip).
    cbn [Z.eqb negb].
    erewrite bind_val by (apply read_ip_run, Hip).
    erewrite bind_val by (apply READ_VAL_run; reflexivity).
    rewrite host_value_u8 by exact Hmask.
    replace {| address := address q; mask_len := mask_len q |} with q
      by (destruct q; reflexivity).
    cbn [ask_filter]. erewrite bind_val by reflexivity. cbn [negb].
    erewrite bind_val
      by (apply for_loop_break; [reflexivity|exact Hrun]).
    cbv beta iota.
    erewrite bind_val by (apply READ_VAL_run, length_be_bytes).
    rewrite ntohs_host_value, be_value_be_bytes, Z.mod_small
      by (try apply length_be_bytes; unfold UINT16_MAX in Hlen;
          change (Z.of_nat 2 * 8) with 16; lia).
    rewrite Z.eqb_refl. reflexivity.
  - apply (rx_pfxs_inv_step w2 lid pmap done q pm (it_view it) it');
      [repeat split; assumption|exact Hq|exact Hne|exact Hinv'].
Qed.

Lemma read_pfxs_loop_run (todo : list (pfx * gmap Z pfx_peer_info)) :
  forall (done : list (pfx * gmap Z pfx_peer_info)) (it : bgpview_iter)
         (n : nat) (rest junk : list byte),
    Forall (fun e => pfx_decodable v e = true) todo ->
    Forall (fun e => active_pfx_peers (snd e) <> []) todo ->
    NoDup (map fst (done ++ todo)) ->
    rx_pfxs_inv w2 lid pmap done (it_view it) ->
    (length todo < n)%nat ->
    exists it',
      loop_nat n (read_pfxs_body host None None lid pmap)
        (Z.of_nat (length done))
        (rstate_at (flat_map (wire_pfx (host_bytes host)) todo
                    ++ magic_bytes VIEW_PFX_END_MAGIC ++ rest)
           junk (Some it))
      = Val (Break (Z.of_nat (length (done ++ todo))))
            (rstate_at rest junk (Some it')) /\
      rx_pfxs_inv w2 lid pmap (done ++ todo) (it_view it').
Proof.
  induction todo as [|[q pm] todo IH];
    intros done it n rest junk Hdec Hne Hnd Hinv Hn.
  - destruct n as [|n]; [simpl in Hn; lia|].
    exists it. rewrite app_nil_r. split; [|exact Hinv].
    apply loop_nat_break. cbn [flat_map app]. apply read_pfxs_body_end.
  - destruct n as [|n]; [simpl in Hn; lia|].
    apply Forall_cons in Hdec as [Hq Hdec].
    apply Forall_cons in Hne as [Hpm Hne]. cbn [snd] in Hpm.
    assert (Hfresh : q ∉ map fst done).
    { rewrite map_app in Hnd. apply NoDup_app in Hnd as (_ & Hdis & _).
      intros Hin. apply (Hdis q Hin). cbn [map fst]. left. }
    destruct (read_pfxs_body_record q pm done it (Z.of_nat (length done))
                (flat_map (wire_pfx (host_bytes host)) todo
                 ++ magic_bytes VIEW_PFX_END_MAGIC ++ rest) junk
                Hinv Hfresh Hpm Hq) as (it1 & Hbody & Hinv1).
    destruct (IH (done ++ [(q, pm)]) it1 n rest junk Hdec Hne
                ltac:(rewrite <- app_assoc; exact Hnd)
                Hinv1 ltac:(simpl in Hn; lia))
      as (it' & Hrun & Hinv').
    exists it'. rewrite <- app_assoc in Hrun, Hinv'.
    split; [|exact Hinv'].
    erewrite loop_nat_continue.
    + rewrite length_app in Hrun. cbn [length] in Hrun.
      rewrite Nat2Z.inj_add in Hrun. exact Hrun.
    + cbn [flat_map]. rewrite <- app_assoc. exact Hbody.
Qed.

Lemma read_pfxs_loop_records (todo : list (pfx * gmap Z pfx_peer_info)) :
  forall (done : list (pfx * gmap Z pfx_peer_info)) (it : bgpview_iter)
         (n : nat) (rest junk : list byte),
    Forall (fun e => pfx_decodable v e = true) todo ->
    Forall (fun e => active_pfx_peers (snd e) <> []) todo ->
    NoDup (map fst (done ++ todo)) ->
    rx_pfxs_inv w2 lid pmap done (it_view it) ->
    exists it',
      loop_nat (length todo + n) (read_pfxs_body host None None lid pmap)
        (Z.of_nat (length done))
        (rstate_at (flat_map (wire_pfx (host_bytes host)) todo ++ rest)
           junk (Some it))
      = loop_nat n (read_pfxs_body host None None lid pmap)
          (Z.of_nat (length (done ++ todo)))
          (rstate_at rest junk (Some it')) /\
      rx_pfxs_inv w2 lid pmap (done ++ todo) (it_view it').
Proof.
  induction todo as [|[q pm] todo IH];
    intros done it n rest junk Hdec Hne Hnd Hinv.
  - exists it. rewrite app_nil_r. split; [reflexivity|exact Hinv].
  - apply Forall_cons in Hdec as [Hq Hdec].
    apply Forall_cons in Hne as [Hpm Hne]. cbn [snd] in Hpm.
    assert (Hfresh : q ∉ map fst done).
    { rewrite map_app in Hnd. apply NoDup_app in Hnd as (_ & Hdis & _).
      intros Hin. apply (Hdis q Hin). cbn [map fst]. left. }
    destruct (read_pfxs_body_record q pm done it (Z.of_nat (length done))
                (flat_map (wire_pfx (host_bytes host)) todo ++ rest) junk
                Hinv Hfresh Hpm Hq) as (it1 & Hbody & Hinv1).
    destruct (IH (done ++ [(q, pm)]) it1 n rest junk Hdec Hne
                ltac:(rewrite <- app_assoc; exact Hnd) Hinv1)
      as (it' & Hrun & Hinv').
    exists it'. rewrite <- app_assoc in Hrun, Hinv'.
    split; [|exact Hinv'].
    cbn [length Nat.add]. erewrite loop_nat_continue.
    + rewrite length_app in Hrun. cbn [length] in Hrun.
      rewrite Nat2Z.inj_add in Hrun. exact Hrun.
    + cbn [flat_map]. rewrite <- app_assoc. exact Hbody.
Qed.

End PfxsSection.

(** ** The three sections read back, one after the other *)

Lemma read_peers_run (host : byte_order) (v : bgpview) (t : Z)
  (it : bgpview_iter) (rest junk : list byte) :
  NoDup (sig_store v) ->
  Z.of_nat (length (sig_store v)) < UINT16_MAX ->
  Forall (fun id => peer_decodable v id = true) (active_peers v) ->
  rx_peers_inv v t [] (it_view it) [] ->
  exists it' lid,
    read_peers host None
      (rstate_at (wire_peer_section v ++ rest) junk (Some it))
    = Val lid (rstate_at rest junk (Some it')) /\
    rx_peers_inv v t (active_peers v) (it_view it') lid.
Proof.
  intros Hnd Hsigs Hdec Hinv.
  assert (Hlen : Z.of_nat (length (active_peers v))
                 <= Z.of_nat (length (sig_store v))).
  { apply NoDup_length_range; [lia|apply NoDup_active_peers|].
    intros x Hx. rewrite Forall_forall in Hdec. specialize (Hdec x Hx).
    unfold peer_decodable in Hdec. apply andb_true_iff in Hdec as [_ Hdec].
    destruct (sig_lookup (sig_store v) x) as [ps|] eqn:Hps; [|discriminate].
    apply (sig_lookup_range _ _ _ Hps). }
  destruct (read_peers_loop_run host v t Hnd Hsigs (active_peers v) [] it []
              (Z.to_nat UINT16_MAX)
              (be_bytes 2 (Z.of_nat (length (active_peers v))) ++ rest) junk
              Hdec (NoDup_active_peers v) (Forall_nil_2 _) Hinv
              ltac:(unfold UINT16_MAX in *; lia))
    as (it' & lid & Hrun & Hinv').
  cbn [app length] in Hrun, Hinv'.
  exists it', lid. split; [|exact Hinv'].
  unfold read_peers, wire_peer_section. rewrite <- !app_assoc.
  erewrite bind_val by (apply for_loop_break; [reflexivity|exact Hrun]).
  cbv beta iota.
  erewrite bind_val by (apply READ_VAL_run, length_be_bytes).
  rewrite ntohs_host_value, be_value_be_bytes, Z.mod_small
    by (try apply length_be_bytes; unfold UINT16_MAX in Hsigs;
        change (Z.of_nat 2 * 8) with 16; lia).
  rewrite Z.eqb_refl. reflexivity.
Qed.

Lemma read_paths_run (host : byte_order) (v w1 : bgpview)
  (it : bgpview_iter) (rest junk : list byte) :
  Forall (fun sp => path_decodable sp = true) (path_store v) ->
  Z.of_nat (length (path_store v)) <= 2 ^ 30 ->
  rx_paths_inv w1 [] (it_view it) {| pm_cnt := 0; pm_ids := ∅ |} ->
  exists it' m,
    read_paths host
      (rstate_at (wire_path_section (host_bytes host) v ++ rest) junk
         (Some it))
    = Val m (rstate_at rest junk (Some it')) /\
    rx_paths_inv w1 (path_store v) (it_view it') m.
Proof.
  intros Hdec Hlen Hinv.
  destruct (read_paths_loop_run host w1 (path_store v) [] it _
              (Z.to_nat UINT32_MAX)
              (be_bytes 4 (Z.of_nat (length (path_store v))) ++ rest) junk
              Hdec Hlen Hinv ltac:(unfold UINT32_MAX; lia))
    as (it' & m & Hrun & Hinv').
  cbn [app length] in Hrun, Hinv'.
  exists it', m. split; [|exact Hinv'].
  unfold read_paths, wire_path_section.
  pose proof (wire_paths_from_imap (host_bytes host) (path_store v) 0)
    as Himap.
  cbn [Nat.add] in Himap. rewrite Himap, <- !app_assoc.
  erewrite bind_val by (apply for_loop_break; [reflexivity|exact Hrun]).
  cbv beta iota.
  erewrite bind_val by (apply READ_VAL_run, length_be_bytes).
  rewrite ntohl_host_value, be_value_be_bytes, Z.mod_small
    by (try apply length_be_bytes; change (Z.of_nat 4 * 8) with 32; lia).
  rewrite Z.eqb_refl. reflexivity.
Qed.

Lemma read_pfxs_run (host : byte_order) (v w2 : bgpview) (lid : list Z)
  (pmap : path_idmap) (it : bgpview_iter) (rest junk : list byte) :
  peer_map_ok v w2 lid -> path_map_ok v w2 pmap ->
  Z.of_nat (length (sig_store v)) < UINT16_MAX ->
  Z.of_nat (length (path_store v)) <= 2 ^ 30 ->
  (forall id, peers v !! id = Some true -> peer_decodable v id = true) ->
  Forall (fun e => pfx_decodable v e = true) (active_pfxs v) ->
  Z.of_nat (length (active_pfxs v)) < UINT32_MAX ->
  rx_pfxs_inv w2 lid pmap [] (it_view it) ->
  exists it',
    read_pfxs host None None lid pmap
      (rstate_at (wire_pfx_section (host_bytes host) v ++ rest) junk
         (Some it))
    = Val 0 (rstate_at rest junk (Some it')) /\
    rx_pfxs_inv w2 lid pmap (active_pfxs v) (it_view it').
Proof.
  intros Hpeers Hpaths Hsigs Hplen Hact Hdec Hlen Hinv.
  destruct (read_pfxs_loop_run host v w2 lid pmap Hpeers Hpaths Hsigs Hplen
              Hact (active_pfxs v) [] it (Z.to_nat UINT32_MAX)
              (be_bytes 4 (Z.of_nat (length (active_pfxs v))) ++ rest) junk
              Hdec
              ltac:(apply Forall_forall; intros e He;
                    exact (active_pfxs_nonempty v e He))
              (NoDup_fst_active_pfxs v) Hinv ltac:(lia))
    as (it' & Hrun & Hinv').
  cbn [app length] in Hrun, Hinv'.
  exists it'. split; [|exact Hinv'].
  unfold read_pfxs, wire_pfx_section. rewrite <- !app_assoc.
  erewrite bind_val by (apply for_loop_break; [reflexivity|exact Hrun]).
  erewrite bind_val by (apply READ_VAL_run, length_be_bytes).
  rewrite ntohl_host_value, be_value_be_bytes, Z.mod_small
    by (try apply length_be_bytes; unfold UINT32_MAX in Hlen;
        change (Z.of_nat 4 * 8) with 32; lia).
  rewrite Z.eqb_refl. reflexivity.
Qed.

Lemma loop_nat_fail {S A} (body : A -> M S (ctl A)) (n : nat) (a : A)
  (s s' : S) :
  body a s = Err s' -> loop_nat (Datatypes.S n) body a s = Err s'.
Proof. intros H. simpl. unfold bind. rewrite H. reflexivity. Qed.

(** A prefix record with the address length 7 makes [read_ip] fail. *)
Lemma read_pfxs_body_bad (host : byte_order) (lid : list Z)
  (pmap : path_idmap) (rx : Z) (rest junk : list byte)
  (o : option bgpview_iter) :
  read_pfxs_body host None None lid pmap rx
    (rstate_at (Byte.x07 :: rest) junk o)
  = Err (rstate_at rest junk o).
Proof.
  unfold read_pfxs_body.
  erewrite bind_val
    by (apply (check_magic_miss host _ 0 Byte.x07 Byte.x42);
        [apply magic_range|reflexivity|reflexivity|discriminate]).
  cbn [Z.eqb negb]. unfold bind at 1, read_ip at 1.
  erewrite bind_val
    by (apply (READ_VAL_run host 1 [Byte.x07] rest); reflexivity).
  change (host_value host [Byte.x07]) with (host_value host (u8 7)).
  rewrite host_value_u8 by lia. reflexivity.
Qed.

Lemma read_pfxs_bad_run (host : byte_order) (v w2 : bgpview) (lid : list Z)
  (pmap : path_idmap) (it : bgpview_iter) (rest junk : list byte) :
  peer_map_ok v w2 lid -> path_map_ok v w2 pmap ->
  Z.of_nat (length (sig_store v)) < UINT16_MAX ->
  Z.of_nat (length (path_store v)) <= 2 ^ 30 ->
  (forall id, peers v !! id = Some true -> peer_decodable v id = true) ->
  Forall (fun e => pfx_decodable v e = true) (active_pfxs v) ->
  Z.of_nat (length (active_pfxs v)) < UINT32_MAX ->
  rx_pfxs_inv w2 lid pmap [] (it_view it) ->
  exists it',
    read_pfxs host None None lid pmap
      (rstate_at (flat_map (wire_pfx (host_bytes host)) (active_pfxs v)
                  ++ Byte.x07 :: rest) junk (Some it))
    = Err (rstate_at rest junk (Some it')) /\
    rx_pfxs_inv w2 lid pmap (active_pfxs v) (it_view it').
Proof.
  intros Hpeers Hpaths Hsigs Hplen Hact Hdec Hlen Hinv.
  remember (Z.to_nat UINT32_MAX - length (active_pfxs v) - 1)%nat as n
    eqn:Hn.
  assert (Hbound : Z.to_nat UINT32_MAX
                   = (length (active_pfxs v) + Datatypes.S n)%nat)
    by (unfold UINT32_MAX in *; lia).
  destruct (read_pfxs_loop_records host v w2 lid pmap Hpeers Hpaths Hsigs
              Hplen Hact (active_pfxs v) [] it (Datatypes.S n)
              (Byte.x07 :: rest) junk Hdec
              ltac:(apply Forall_forall; intros e He;
                    exact (active_pfxs_nonempty v e He))
              (NoDup_fst_active_pfxs v) Hinv)
    as (it' & Hrun & Hinv').
  cbn [app length] in Hrun, Hinv'.
  exists it'. split; [|exact Hinv'].
  unfold read_pfxs. unfold bind at 1.
  rewrite for_loop_nat by (unfold UINT32_MAX; lia).
  rewrite Hbound.
  change (Z.of_nat 0) with 0 in Hrun.
  unfold bind at 1. rewrite Hrun.
  rewrite (loop_nat_fail _ n _ _ _ (read_pfxs_body_bad host lid pmap _ rest
                                      junk (Some it'))).
  reflexivity.
Qed.

(** ** What the decoder has built *)

Lemma rx_peers_inv_map_ok (v : bgpview) (t : Z) (w : bgpview)
  (lid : list Z) :
  rx_peers_inv v t (active_peers v) w lid -> peer_map_ok v w lid.
Proof.
  intros (Ht & Hp & Hx & Hsig & Hpeers & Hmap).
  pose proof (NoDup_active_peers v) as Hnd.
  split; [|split].
  - intros id Hid. apply elem_of_active_peers in Hid.
    apply list_elem_of_lookup in Hid as [k Hk].
    destruct (Forall2_lookup_l _ _ _ _ _ Hsig Hk) as (ps & Hps & Hv).
    split; [apply sig_lookup_range in Hv; lia|].
    exists (Z.of_nat k + 1). split; [apply Hmap, Hk|]. split.
    + rewrite Hpeers, bool_decide_eq_true_2; [reflexivity|].
      apply lookup_lt_Some in Hk. lia.
    + rewrite Hv. apply sig_lookup_Some. split; [lia|].
      replace (Z.to_nat (Z.of_nat k + 1 - 1)) with k by lia. exact Hps.
  - intros id1 id2 l H1 H2 Hl1 Hl2.
    apply elem_of_active_peers, list_elem_of_lookup in H1 as [k1 Hk1].
    apply elem_of_active_peers, list_elem_of_lookup in H2 as [k2 Hk2].
    rewrite (Hmap _ _ Hk1) in Hl1. rewrite (Hmap _ _ Hk2) in Hl2.
    assert (k1 = k2) as -> by (injection Hl1; injection Hl2; lia).
    congruence.
  - intros l b Hl. rewrite Hpeers in Hl.
    destruct (bool_decide_reflect (1 <= l <= Z.of_nat (length (active_peers v))))
      as [Hr|Hr]; [|discriminate].
    injection Hl as <-. split; [reflexivity|].
    destruct (lookup_lt_is_Some_2 (active_peers v) (Z.to_nat (l - 1))
                ltac:(lia)) as [id Hk].
    exists id. split.
    + apply elem_of_active_peers, list_elem_of_lookup. eauto.
    + rewrite (Hmap _ _ Hk). f_equal. lia.
Qed.

Lemma rx_paths_inv_map_ok (v w1 w : bgpview) (m : path_idmap) :
  rx_paths_inv w1 (path_store v) w m -> path_map_ok v w m.
Proof.
  intros (_ & _ & _ & _ & Hcnt & Hmap) pid sp Hget.
  apply get_store_path_Some in Hget as (H0 & Hl & Hc).
  pose proof (lookup_lt_Some _ _ _ Hl) as Hlt.
  split; [lia|].
  destruct (Hmap _ _ Hl) as (pid' & Hpid' & Hget').
  exists pid'. rewrite Z2Nat.id in Hpid' by exact H0.
  split; [exact Hpid'|exact Hget'].
Qed.

Lemma active_pfx_peers_nonempty (pm : gmap Z pfx_peer_info) :
  active_pfx_peers pm <> [] <->
  exists id info, pm !! id = Some info /\ pp_active info = true.
Proof.
  split.
  - intros H. destruct (active_pfx_peers pm) as [|[id info] l] eqn:E;
      [contradiction|].
    exists id, info. apply elem_of_active_pfx_peers. rewrite E. left.
  - intros (id & info & H) E. apply elem_of_active_pfx_peers in H.
    rewrite E in H. apply elem_of_nil in H. exact H.
Qed.

(** The pfx-peers of the active part of a view are the active pfx-peers
    of its active prefixes. *)
Lemma active_part_pfx_peer (v : bgpview) (q : pfx) (id : Z)
  (info : pfx_peer_info) :
  (exists pm, pfxs (active_part v) !! q = Some pm /\ pm !! id = Some info) <->
  (exists pm0, (q, pm0) ∈ active_pfxs v /\ (id, info) ∈ active_pfx_peers pm0).
Proof.
  unfold active_part. cbn [pfxs]. split.
  - intros (pm & Hpm & Hid).
    apply map_lookup_filter_Some in Hpm as [Hpm Hne].
    apply lookup_fmap_Some in Hpm as (pm0 & <- & Hpm0).
    apply map_lookup_filter_Some in Hid as [Hid Ha]. cbn [snd] in Ha.
    exists pm0. split.
    + apply elem_of_active_pfxs. split; [exact Hpm0|].
      apply active_pfx_peers_nonempty. eauto.
    + apply elem_of_active_pfx_peers. auto.
  - intros (pm0 & Hq & He).
    apply elem_of_active_pfxs in Hq as [Hq _].
    apply elem_of_active_pfx_peers in He as [Hid Ha].
    assert (Hf : filter (fun e : Z * pfx_peer_info => pp_active (snd e) = true)
                   pm0 !! id = Some info).
    { apply map_lookup_filter_Some. split; [exact Hid|exact Ha]. }
    eexists. split; [|exact Hf].
    apply map_lookup_filter_Some. split.
    + apply lookup_fmap_Some. exists pm0. split; [reflexivity|exact Hq].
    + cbn [snd]. apply active_pfx_peers_nonempty. eauto.
Qed.

Lemma active_part_has_pfx (v : bgpview) (q : pfx) :
  has_pfx (active_part v) q <-> q ∈ map fst (active_pfxs v).
Proof.
  unfold has_pfx. split.
  - intros [pm Hpm].
    assert (Hne : active_pfx_peers pm <> []).
    { unfold active_part in Hpm. cbn [pfxs] in Hpm.
      apply map_lookup_filter_Some in Hpm as [_ Hne]. exact Hne. }
    apply active_pfx_peers_nonempty in Hne as (id & info & Hid & _).
    destruct (proj1 (active_part_pfx_peer v q id info)) as (pm0 & Hq & _);
      [eauto|].
    apply list_elem_of_fmap. exists (q, pm0). split; [reflexivity|exact Hq].
  - intros Hq. apply list_elem_of_fmap in Hq as ([q' pm0] & -> & Hq).
    cbn [fst].
    pose proof (active_pfxs_nonempty v _ Hq) as Hne. cbn [snd] in Hne.
    destruct (active_pfx_peers pm0) as [|[id info] l] eqn:E; [contradiction|].
    destruct (proj2 (active_part_pfx_peer v q' id info)) as (pm & Hpm & _);
      [|eauto].
    exists pm0. split; [exact Hq|]. rewrite E. left.
Qed.

Lemma rx_pfxs_has_pfx (w2 : bgpview) (lid : list Z) (pmap : path_idmap)
  (done : list (pfx * gmap Z pfx_peer_info)) (w : bgpview) (q : pfx) :
  rx_pfxs_inv w2 lid pmap done w ->
  has_pfx w q <-> q ∈ map fst done.
Proof.
  intros (_ & _ & _ & _ & Hnone & Hsome). unfold has_pfx. split.
  - intros [pm Hpm]. destruct (decide (q ∈ map fst done)) as [Hin|Hin];
      [exact Hin|].
    rewrite (Hnone q Hin) in Hpm. discriminate.
  - intros Hin. apply list_elem_of_fmap in Hin as ([q' pm0] & -> & Hin).
    destruct (Hsome _ _ Hin) as (pm' & Hpm' & _). eauto.
Qed.

Lemma rx_pfxs_pfx_peer (w2 : bgpview) (lid : list Z) (pmap : path_idmap)
  (done : list (pfx * gmap Z pfx_peer_info)) (w : bgpview) (q : pfx)
  (l : Z) (info' : pfx_peer_info) :
  rx_pfxs_inv w2 lid pmap done w ->
  (exists pm', pfxs w !! q = Some pm' /\ pm' !! l = Some info') <->
  (exists pm0 id info,
     (q, pm0) ∈ done /\ (id, info) ∈ active_pfx_peers pm0 /\
     lid !! Z.to_nat id = Some l /\
     pm_ids pmap !! store_index (pp_path_id info) = Some (pp_path_id info') /\
     pp_active info' = true).
Proof.
  intros Hinv. pose proof Hinv as (_ & _ & _ & _ & Hnone & Hsome). split.
  - intros (pm' & Hpm' & Hl).
    assert (Hin : q ∈ map fst done).
    { apply (rx_pfxs_has_pfx _ _ _ _ _ _ Hinv). exists pm'. exact Hpm'. }
    apply list_elem_of_fmap in Hin as ([q' pm0] & -> & Hin). cbn [fst] in Hpm'.
    destruct (Hsome _ _ Hin) as (pm'' & Hpm'' & Hrel).
    rewrite Hpm' in Hpm''. injection Hpm'' as <-.
    apply Hrel in Hl as (id & info & He & Hrest).
    exists pm0, id, info. split; [exact Hin|]. split; [exact He|exact Hrest].
  - intros (pm0 & id & info & Hin & He & Hrest).
    destruct (Hsome _ _ Hin) as (pm' & Hpm' & Hrel).
    exists pm'. split; [exact Hpm'|]. apply Hrel. exists id, info.
    split; [exact He|exact Hrest].
Qed.

Lemma pfx_peer_decodable_facts (v : bgpview) (q : pfx)
  (pm : gmap Z pfx_peer_info) (id : Z) (info : pfx_peer_info) :
  Forall (fun e => pfx_decodable v e = true) (active_pfxs v) ->
  (q, pm) ∈ active_pfxs v -> (id, info) ∈ active_pfx_peers pm ->
  peers v !! id = Some true /\
  exists sp, bgpstream_as_path_store_get_store_path (path_store v)
               (pp_path_id info) = Some sp.
Proof.
  intros Hdec Hq He. rewrite Forall_forall in Hdec.
  specialize (Hdec _ Hq). unfold pfx_decodable in Hdec. cbn [fst snd] in Hdec.
  apply andb_true_iff in Hdec as [_ Hpps].
  apply forallb_Forall in Hpps. rewrite Forall_forall in Hpps.
  specialize (Hpps _ He).
  unfold pfx_peer_decodable, pfx_peer_writable in Hpps. cbn [fst snd] in Hpps.
  apply andb_true_iff in Hpps as [Hpps Hact].
  apply andb_true_iff in Hpps as [_ Hsp].
  apply bool_decide_eq_true in Hact. split; [exact Hact|].
  destruct (bgpstream_as_path_store_get_store_path _ _) as [sp|];
    [eauto|discriminate].
Qed.

(** The view the decoder has built from the records of [v] is equivalent
    to the active part of [v], and all of it is active. *)
Lemma decoded_view_equiv (v w w2 : bgpview) (lid : list Z)
  (pmap : path_idmap) :
  peer_map_ok v w lid -> path_map_ok v w pmap ->
  rx_pfxs_inv w2 lid pmap (active_pfxs v) w ->
  view_time w = view_time v ->
  Forall (fun e => pfx_decodable v e = true) (active_pfxs v) ->
  view_equiv (active_part v) w /\ all_active w.
Proof.
  intros Hpeers Hpaths Hinv Ht Hdec.
  pose proof Hpeers as (Hfwd & Hinj & Hback).
  split; [split; [|split; [|split]]|split].
  - symmetry. exact Ht.
  - intros s. unfold has_peer, active_part. cbn [peers sig_store]. split.
    + intros (id & b & Hid & Hs).
      apply map_lookup_filter_Some in Hid as [Hid Hb]. cbn [snd] in Hb.
      subst b. destruct (Hfwd id Hid) as (_ & l & _ & Hl & Hsig).
      exists l, true. split; [exact Hl|]. rewrite Hsig. exact Hs.
    + intros (l & b & Hl & Hs).
      destruct (Hback l b Hl) as (-> & id & Hid & Hlid).
      destruct (Hfwd id Hid) as (_ & l' & Hlid' & _ & Hsig).
      rewrite Hlid in Hlid'. injection Hlid' as <-.
      exists id, true. split; [|rewrite <- Hsig; exact Hs].
      apply map_lookup_filter_Some. split; [exact Hid|reflexivity].
  - intros q. rewrite active_part_has_pfx.
    rewrite (rx_pfxs_has_pfx _ _ _ _ _ q Hinv). reflexivity.
  - intros q s sp. unfold has_pfx_peer. split.
    + intros (pm & id & info & Hpm & Hid & Hs & Hp).
      cbn [active_part sig_store path_store] in Hs, Hp.
      destruct (proj1 (active_part_pfx_peer v q id info))
        as (pm0 & Hq & He); [eauto|].
      destruct (pfx_peer_decodable_facts v q pm0 id info Hdec Hq He)
        as [Hact _].
      destruct (Hfwd id Hact) as (_ & l & Hlid & _ & Hsig).
      destruct (Hpaths _ _ Hp) as (_ & pid' & Hpid' & Hget').
      destruct (proj2 (rx_pfxs_pfx_peer w2 lid pmap (active_pfxs v) w q l
                         {| pp_path_id := pid'; pp_active := true |} Hinv))
        as (pm' & Hpm' & Hl').
      { exists pm0, id, info. split; [exact Hq|]. split; [exact He|].
        split; [exact Hlid|]. split; [exact Hpid'|reflexivity]. }
      exists pm', l, {| pp_path_id := pid'; pp_active := true |}.
      split; [exact Hpm'|]. split; [exact Hl'|].
      split; [rewrite Hsig; exact Hs|exact Hget'].
    + intros (pm' & l & info' & Hpm' & Hl' & Hs & Hp).
      destruct (proj1 (rx_pfxs_pfx_peer w2 lid pmap (active_pfxs v) w q l
                         info' Hinv))
        as (pm0 & id & info & Hq & He & Hlid & Hpid & _); [eauto|].
      destruct (pfx_peer_decodable_facts v q pm0 id info Hdec Hq He)
        as [Hact [sp0 Hsp0]].
      destruct (Hfwd id Hact) as (_ & l0 & Hlid0 & _ & Hsig).
      rewrite Hlid in Hlid0. injection Hlid0 as <-.
      destruct (Hpaths _ _ Hsp0) as (_ & pid' & Hpid' & Hget').
      rewrite Hpid in Hpid'. injection Hpid' as <-.
      rewrite Hp in Hget'. injection Hget' as <-.
      destruct (proj2 (active_part_pfx_peer v q id info))
        as (pm & Hpm & Hid); [eauto|].
      exists pm, id, info. split; [exact Hpm|]. split; [exact Hid|].
      cbn [active_part sig_store path_store].
      split; [rewrite <- Hsig; exact Hs|exact Hsp0].
  - intros l b Hl. destruct (Hback l b Hl) as [-> _]. reflexivity.
  - intros q pm' l info' Hpm' Hl'.
    destruct (proj1 (rx_pfxs_pfx_peer w2 lid pmap (active_pfxs v) w q l
                       info' Hinv))
      as (_ & _ & _ & _ & _ & _ & _ & Ha); [eauto|exact Ha].
Qed.

(** ** The round trip *)

Lemma view_set_time_run (t : Z) (bytes junk : list byte)
  (it : bgpview_iter) :
  view_set_time t (rstate_at bytes junk (Some it))
  = Val tt (rstate_at bytes junk
              (Some (iter_set_view it (bgpview_set_time (it_view it) t)))).
Proof. reflexivity. Qed.

Lemma peek_magic_not_eof (magic : Z) (rest : list byte) :
  (length (firstn 4 (magic_bytes magic ++ rest)) =? 0)%nat = false.
Proof.
  rewrite length_take, length_app, length_magic_bytes. reflexivity.
Qed.

Lemma rx_peers_inv_start (v : bgpview) (t : Z) :
  rx_peers_inv v t [] (bgpview_set_time bgpview_create t) [].
Proof.
  unfold rx_peers_inv. cbn [bgpview_set_time bgpview_create view_time
                            path_store pfxs sig_store peers length].
  do 3 (split; [reflexivity|]). split; [constructor|]. split.
  - intros l. rewrite lookup_empty, bool_decide_eq_false_2; [reflexivity|].
    cbn [Z.of_nat]. lia.
  - intros k id Hk. rewrite lookup_nil in Hk. discriminate.
Qed.

Lemma rx_paths_inv_start (w1 : bgpview) :
  rx_paths_inv w1 [] w1 {| pm_cnt := 0; pm_ids := ∅ |}.
Proof.
  unfold rx_paths_inv. do 4 (split; [reflexivity|]).
  split; [reflexivity|]. intros i sp Hi. rewrite lookup_nil in Hi.
  discriminate.
Qed.

Lemma rx_pfxs_inv_start (w2 : bgpview) (lid : list Z) (pmap : path_idmap) :
  pfxs w2 = ∅ -> rx_pfxs_inv w2 lid pmap [] w2.
Proof.
  intros He. unfold rx_pfxs_inv. do 4 (split; [reflexivity|]). split.
  - intros q _. rewrite He. apply lookup_empty.
  - intros q pm Hin. apply elem_of_nil in Hin. contradiction.
Qed.

(** The reader on the stream written for a decodable view, into an empty
    view. *)
Lemma file_read_wire_view (host : byte_order) (v : bgpview)
  (rest junk : list byte) :
  decodable v = true ->
  exists it,
    bgpview_io_file_read host None None None
      (rstate_at (wire_view (host_bytes host) v ++ rest) junk
         (Some (bgpview_iter_create bgpview_create)))
    = Val 1 (rstate_at rest junk (Some it)) /\
    view_equiv (active_part v) (it_view it) /\ all_active (it_view it).
Proof.
  intros Hdec. unfold decodable in Hdec.
  repeat match type of Hdec with
         | _ && _ = true =>
             let H := fresh "Hd" in apply andb_true_iff in Hdec as [Hdec H]
         end.
  rename Hdec into Hwr, Hd7 into Hnd, Hd6 into Hsigs, Hd5 into Hpeers,
    Hd4 into Hplen, Hd3 into Hpaths, Hd2 into Ht0, Hd1 into Ht1,
    Hd0 into Hxlen, Hd into Hpfxs.
  apply bool_decide_eq_true in Hnd.
  apply Z.ltb_lt in Hsigs, Ht1, Hxlen. apply Z.leb_le in Hplen, Ht0.
  apply forallb_Forall in Hpeers, Hpaths, Hpfxs.
  set (it1 := iter_set_view (bgpview_iter_create bgpview_create)
                (bgpview_set_time bgpview_create (view_time v))).
  destruct (read_peers_run host v (view_time v) it1
              (wire_path_section (host_bytes host) v
               ++ wire_pfx_section (host_bytes host) v
               ++ magic_bytes VIEW_END_MAGIC ++ rest) junk
              Hnd Hsigs Hpeers (rx_peers_inv_start v (view_time v)))
    as (it2 & lid & Hrun1 & Hinv1).
  destruct (read_paths_run host v (it_view it2) it2
              (wire_pfx_section (host_bytes host) v
               ++ magic_bytes VIEW_END_MAGIC ++ rest) junk
              Hpaths Hplen (rx_paths_inv_start _))
    as (it3 & pmap & Hrun2 & Hinv2).
  pose proof (rx_peers_inv_map_ok _ _ _ _ Hinv1) as Hpm1.
  pose proof (rx_paths_inv_map_ok _ _ _ _ Hinv2) as Hpa2.
  pose proof Hinv1 as (Htime1 & _ & Hempty1 & _).
  pose proof Hinv2 as (Htime2 & Hsig2 & Hpe2 & Hpfx2 & _).
  pose proof (peer_map_ok_ext v _ (it_view it3) lid Hpe2 Hsig2 Hpm1) as Hpm2.
  assert (Hact : forall id, peers v !! id = Some true ->
                   peer_decodable v id = true).
  { intros id Hid. rewrite Forall_forall in Hpeers.
    apply Hpeers, elem_of_active_peers, Hid. }
  destruct (read_pfxs_run host v (it_view it3) lid pmap it3
              (magic_bytes VIEW_END_MAGIC ++ rest) junk
              Hpm2 Hpa2 Hsigs Hplen Hact Hpfxs Hxlen
              (rx_pfxs_inv_start _ lid pmap
                 ltac:(rewrite Hpfx2; exact Hempty1)))
    as (it4 & Hrun3 & Hinv3).
  exists it4. split.
  - unfold bgpview_io_file_read, wire_view, wire_view_body.
    rewrite <- !app_assoc.
    unfold bind at 1, wandio_peek at 1. cbn [rstate_at infile avail].
    rewrite peek_magic_not_eof.
    fold (rstate_at (magic_bytes VIEW_START_MAGIC ++ be_bytes 4 (view_time v)
                     ++ wire_peer_section v
                     ++ wire_path_section (host_bytes host) v
                     ++ wire_pfx_section (host_bytes host) v
                     ++ magic_bytes VIEW_END_MAGIC ++ rest) junk
            (Some (bgpview_iter_create bgpview_create))).
    erewrite bind_val by (apply check_magic_hit, magic_range).
    change (1 =? 0) with false. cbv iota.
    erewrite bind_val by (apply READ_VAL_run, length_be_bytes).
    rewrite ntohl_host_value, be_value_be_bytes, Z.mod_small
      by (try apply length_be_bytes; change (Z.of_nat 4 * 8) with 32; lia).
    erewrite bind_val by apply view_set_time_run.
    fold it1.
    erewrite bind_val by exact Hrun1.
    erewrite bind_val by exact Hrun2.
    erewrite bind_val by exact Hrun3.
    erewrite bind_val by (apply check_magic_hit, magic_range).
    reflexivity.
  - pose proof Hinv3 as (Htime3 & Hsig3 & Hpa3 & Hpe3 & _).
    apply (decoded_view_equiv v (it_view it4) (it_view it3) lid pmap).
    + exact (peer_map_ok_ext v _ _ lid Hpe3 Hsig3 Hpm2).
    + exact (path_map_ok_ext v _ _ pmap Hpa3 Hpa2).
    + exact Hinv3.
    + congruence.
    + exact Hpfxs.
Qed.

Lemma file_read_bad_pfx (host : byte_order) (v : bgpview)
  (rest junk : list byte) :
  decodable v = true ->
  exists it,
    bgpview_io_file_read host None None None
      (rstate_at (wire_view_bad_pfx (host_bytes host) v ++ rest) junk
         (Some (bgpview_iter_create bgpview_create)))
    = Err (rstate_at rest junk (Some it)) /\
    view_equiv (active_part v) (it_view it).
Proof.
  intros Hdec. unfold decodable in Hdec.
  repeat match type of Hdec with
         | _ && _ = true =>
             let H := fresh "Hd" in apply andb_true_iff in Hdec as [Hdec H]
         end.
  rename Hdec into Hwr, Hd7 into Hnd, Hd6 into Hsigs, Hd5 into Hpeers,
    Hd4 into Hplen, Hd3 into Hpaths, Hd2 into Ht0, Hd1 into Ht1,
    Hd0 into Hxlen, Hd into Hpfxs.
  apply bool_decide_eq_true in Hnd.
  apply Z.ltb_lt in Hsigs, Ht1, Hxlen. apply Z.leb_le in Hplen, Ht0.
  apply forallb_Forall in Hpeers, Hpaths, Hpfxs.
  set (it1 := iter_set_view (bgpview_iter_create bgpview_create)
                (bgpview_set_time bgpview_create (view_time v))).
  destruct (read_peers_run host v (view_time v) it1
              (wire_path_section (host_bytes host) v
               ++ flat_map (wire_pfx (host_bytes host)) (active_pfxs v)
               ++ Byte.x07 :: rest) junk
              Hnd Hsigs Hpeers (rx_peers_inv_start v (view_time v)))
    as (it2 & lid & Hrun1 & Hinv1).
  destruct (read_paths_run host v (it_view it2) it2
              (flat_map (wire_pfx (host_bytes host)) (active_pfxs v)
               ++ Byte.x07 :: rest) junk
              Hpaths Hplen (rx_paths_inv_start _))
    as (it3 & pmap & Hrun2 & Hinv2).
  pose proof (rx_peers_inv_map_ok _ _ _ _ Hinv1) as Hpm1.
  pose proof (rx_paths_inv_map_ok _ _ _ _ Hinv2) as Hpa2.
  pose proof Hinv1 as (Htime1 & _ & Hempty1 & _).
  pose proof Hinv2 as (Htime2 & Hsig2 & Hpe2 & Hpfx2 & _).
  pose proof (peer_map_ok_ext v _ (it_view it3) lid Hpe2 Hsig2 Hpm1) as Hpm2.
  assert (Hact : forall id, peers v !! id = Some true ->
                   peer_decodable v id = true).
  { intros id Hid. rewrite Forall_forall in Hpeers.
    apply Hpeers, elem_of_active_peers, Hid. }
  destruct (read_pfxs_bad_run host v (it_view it3) lid pmap it3 rest junk
              Hpm2 Hpa2 Hsigs Hplen Hact Hpfxs Hxlen
              (rx_pfxs_inv_start _ lid pmap
                 ltac:(rewrite Hpfx2; exact Hempty1)))
    as (it4 & Hrun3 & Hinv3).
  exists it4. split.
  - unfold bgpview_io_file_read, wire_view_bad_pfx.
    rewrite <- !app_assoc. cbn [app].
    unfold bind at 1, wandio_peek at 1. cbn [rstate_at infile avail].
    rewrite peek_magic_not_eof.
    fold (rstate_at (magic_bytes VIEW_START_MAGIC ++ be_bytes 4 (view_time v)
                     ++ wire_peer_section v
                     ++ wire_path_section (host_bytes host) v
                     ++ flat_map (wire_pfx (host_bytes host)) (active_pfxs v)
                     ++ Byte.x07 :: rest) junk
            (Some (bgpview_iter_create bgpview_create))).
    erewrite bind_val by (apply check_magic_hit, magic_range).
    change (1 =? 0) with false. cbv iota.
    erewrite bind_val by (apply READ_VAL_run, length_be_bytes).
    rewrite ntohl_host_value, be_value_be_bytes, Z.mod_small
      by (try apply length_be_bytes; change (Z.of_nat 4 * 8) with 32; lia).
    erewrite bind_val by apply view_set_time_run.
    fold it1.
    erewrite bind_val by exact Hrun1.
    erewrite bind_val by exact Hrun2.
    unfold bind at 1. rewrite Hrun3. reflexivity.
  - pose proof Hinv3 as (Htime3 & Hsig3 & Hpa3 & Hpe3 & _).
    apply (decoded_view_equiv v (it_view it4) (it_view it3) lid pmap).
    + exact (peer_map_ok_ext v _ _ lid Hpe3 Hsig3 Hpm2).
    + exact (path_map_ok_ext v _ _ pmap Hpa3 Hpa2).
    + exact Hinv3.
    + congruence.
    + exact Hpfxs.
Qed.

Lemma decodable_writable (v : bgpview) :
  decodable v = true -> writable v = true.
Proof.
  unfold decodable. intros H.
  repeat match type of H with
         | _ && _ = true => apply andb_true_iff in H as [H _]
         end.
  exact H.
Qed.

(** ** A read that fails

    The general facts follow from the invariant of the reader, the
    example of a failure late in the frame from the round trip. *)

(** C2 (as amended). When [bgpview_io_file_read] fails because the
    view-start magic is missing, the caller's view is unchanged. When it
    fails later, the view's time has already been set from the stream, and
    nothing the view held before the call is removed: every peer
    signature, path, peer and pfx-peer it held is still there. The view is
    not rolled back either: when the frame of a decodable view [v] runs,
    after its last prefix record, into a prefix record with the address
    length 7, the read into an empty view fails, and the caller's view then
    holds the time, the active peers, the prefixes and the active pfx-peers
    (with their paths) of [v]. *)
Theorem read_failure_leaves_view (host : byte_order) :
  (forall (bytes junk : list byte) (v : bgpview)
          (peer_cb : option bgpview_io_filter_peer_cb_t)
          (pfx_cb : option bgpview_io_filter_pfx_cb_t)
          (pfx_peer_cb : option bgpview_io_filter_pfx_peer_cb_t)
          (s : rstate),
     decode host bytes junk (Some v) peer_cb pfx_cb pfx_peer_cb = Err s ->
     exists v',
       view_of s = Some v' /\
       ((firstn 8 bytes <> magic_bytes VIEW_START_MAGIC /\ v' = v) \/
        (firstn 8 bytes = magic_bytes VIEW_START_MAGIC /\
         view_time v' = stream_time host {| avail := bytes; stale := junk |}
         /\ view_extends v v'))) /\
  (forall (v : bgpview) (rest junk : list byte),
     decodable v = true ->
     exists s v',
       decode host (wire_view_bad_pfx (host_bytes host) v ++ rest) junk
         (Some bgpview_create) None None None = Err s /\
       view_of s = Some v' /\ view_equiv (active_part v) v').
Proof.
  split.
  - intros bytes junk v peer_cb pfx_cb pfx_peer_cb s Hdec.
    unfold decode in Hdec.
    pose proof (file_read_decoded_onto host peer_cb pfx_cb pfx_peer_cb
                  {| infile := {| avail := bytes; stale := junk |};
                     r_iter := option_map bgpview_iter_create (Some v) |}
                  (bgpview_iter_create v) eq_refl) as H.
    cbv zeta in H. rewrite Hdec in H. simpl in H.
    destruct H as [[Hst ->]|(Hst & it & Hit & Ht & He & _)].
    + exists v. split; [reflexivity|]. left. split; [exact Hst|reflexivity].
    + exists (it_view it). unfold view_of. rewrite Hit.
      split; [reflexivity|]. right.
      split; [exact Hst|]. split; [exact Ht|exact He].
  - intros v rest junk Hdec.
    destruct (file_read_bad_pfx host v rest junk Hdec) as (it & Hrun & Heq).
    exists (rstate_at rest junk (Some it)), (it_view it).
    split; [exact Hrun|]. split; [reflexivity|exact Heq].
Qed.

Lemma read_failure_leaves_view_witness :
  (exists s,
     decode LittleEndian stream_bad_peer_ip [] (Some bgpview_create)
       None None None = Err s /\
     exists v',
       view_of s = Some v' /\
       ((firstn 8 stream_bad_peer_ip <> magic_bytes VIEW_START_MAGIC /\
         v' = bgpview_create) \/
        (firstn 8 stream_bad_peer_ip = magic_bytes VIEW_START_MAGIC /\
         view_time v'
         = stream_time LittleEndian
             {| avail := stream_bad_peer_ip; stale := [] |} /\
         view_extends bgpview_create v'))) /\
  (decodable view_one = true /\
   exists s v',
     decode LittleEndian
       (wire_view_bad_pfx (host_bytes LittleEndian) view_one ++ []) []
       (Some bgpview_create) None None None = Err s /\
     view_of s = Some v' /\ view_equiv (active_part view_one) v').
Proof.
  assert (E : exists s,
    decode LittleEndian stream_bad_peer_ip [] (Some bgpview_create)
      None None None = Err s).
  { eexists. vm_compute. reflexivity. }
  assert (Hdec : decodable view_one = true) by (vm_compute; reflexivity).
  split.
  - destruct E as (s & Hd). exists s. split; [exact Hd|].
    exact (proj1 (read_failure_leaves_view LittleEndian)
             stream_bad_peer_ip [] bgpview_create None None None s Hd).
  - split; [exact Hdec|].
    exact (proj2 (read_failure_leaves_view LittleEndian) view_one [] []
             Hdec).
Defined.

(** ** The round trip, as a whole *)

(** C1 (as amended). For every decodable view [v] (a writable view whose
    signature store holds no signature twice and fewer than 65535 of them,
    with no active peer under the ID 0x4247, fields that fit their width,
    at most 2^30 paths of at most 1024 bytes, fewer than 2^32 - 1 active
    prefixes, and whose active pfx-peers belong to active peers), on a
    machine of either byte order: [bgpview_io_file_write] without a filter
    callback returns 0, and [bgpview_io_file_read] without filter callbacks
    on the bytes written, into a fresh view, returns 1 with a view that is
    equivalent to the active part of [v]: the same time, the active peers
    of [v] by signature, the prefixes of [v] that have an active pfx-peer,
    and the active pfx-peers of [v] by prefix, peer signature and stored
    path, whatever the peer IDs and path IDs are. Everything in the view
    read is active; the inactive peers and pfx-peers of [v] are not in
    it. *)
Theorem roundtrip_active_part (host : byte_order) (v : bgpview)
  (junk : list byte) :
  decodable v = true ->
  exists bytes s v',
    encode host v None = Val 0 bytes /\
    decode host bytes junk (Some bgpview_create) None None None = Val 1 s /\
    view_of s = Some v' /\
    view_equiv (active_part v) v' /\ all_active v'.
Proof.
  intros Hdec.
  destruct (file_read_wire_view host v [] junk Hdec) as (it & Hrun & Heq & Hact).
  rewrite app_nil_r in Hrun.
  exists (wire_view (host_bytes host) v), (rstate_at [] junk (Some it)),
    (it_view it).
  split; [apply encode_run, decodable_writable, Hdec|].
  split; [exact Hrun|]. split; [reflexivity|]. split; [exact Heq|exact Hact].
Qed.

Lemma roundtrip_active_part_witness :
  decodable view_one = true /\
  exists bytes s v',
    encode LittleEndian view_one None = Val 0 bytes /\
    decode LittleEndian bytes [] (Some bgpview_create) None None None
    = Val 1 s /\
    view_of s = Some v' /\
    view_equiv (active_part view_one) v' /\ all_active v'.
Proof.
  split; [vm_compute; reflexivity|].
  apply (roundtrip_active_part LittleEndian view_one []).
  vm_compute. reflexivity.
Defined.

(* ===================================================================== *)
(** * Part III: further properties of the code *)
(* ===================================================================== *)

(** ** The primitives of the file format ([bgpview_io_file.c]) *)

(** X1. [check_magic] never fails: either the next eight bytes of the file
    are the generic magic followed by [magic], it returns 1 and has consumed
    exactly those eight bytes, or it returns 0 and leaves the file and the
    iterator untouched; this includes a file with fewer than eight bytes
    left. *)
Theorem check_magic_consumes_iff (host : byte_order) (magic : Z)
  (s : rstate) :
  0 <= magic < 2 ^ 32 ->
  (exists rest,
     avail (infile s) = magic_bytes magic ++ rest /\
     check_magic host magic s
     = Val 1 {| infile := {| avail := rest; stale := stale (infile s) |};
                r_iter := r_iter s |}) \/
  (firstn 8 (avail (infile s)) <> magic_bytes magic /\
   check_magic host magic s = Val 0 s).
Proof.
  intros Hm. rewrite check_magic_run by exact Hm.
  destruct (bool_decide_reflect
              (firstn 8 (avail (infile s)) = magic_bytes magic)) as [e|n].
  - left. exists (skipn 8 (avail (infile s))). split; [|reflexivity].
    rewrite <- e. symmetry. apply take_drop.
  - right. split; [exact n|reflexivity].
Qed.

Lemma check_magic_consumes_iff_witness :
  0 <= VIEW_PEER_END_MAGIC < 2 ^ 32 /\
  ((exists rest,
      avail (infile (rstate_at [Byte.x42; Byte.x47] [] None))
      = magic_bytes VIEW_PEER_END_MAGIC ++ rest /\
      check_magic LittleEndian VIEW_PEER_END_MAGIC
        (rstate_at [Byte.x42; Byte.x47] [] None)
      = Val 1 {| infile := {| avail := rest; stale := [] |};
                 r_iter := None |}) \/
   (firstn 8 (avail (infile (rstate_at [Byte.x42; Byte.x47] [] None)))
    <> magic_bytes VIEW_PEER_END_MAGIC /\
    check_magic LittleEndian VIEW_PEER_END_MAGIC
      (rstate_at [Byte.x42; Byte.x47] [] None)
    = Val 0 (rstate_at [Byte.x42; Byte.x47] [] None))).
Proof.
  assert (Hm : 0 <= VIEW_PEER_END_MAGIC < 2 ^ 32) by apply magic_range.
  split; [exact Hm|].
  exact (check_magic_consumes_iff LittleEndian VIEW_PEER_END_MAGIC
           (rstate_at [Byte.x42; Byte.x47] [] None) Hm).
Defined.

Lemma ip_in_range_known (ip : ip_addr) :
  ip_in_range ip = true -> ip_known ip = true.
Proof. destruct ip; [reflexivity|reflexivity|discriminate]. Qed.

(** X2. An IPv4 or IPv6 address whose value fits its width is written by
    [write_ip] as a length byte (4 or 16) and the address bytes, and
    [read_ip] reads the same address back from these bytes, consuming
    exactly them, on a machine of either byte order. *)
Theorem write_ip_read_ip_roundtrip (host : byte_order) (ip : ip_addr)
  (out : iow_t) (rest junk : list byte) (o : option bgpview_iter) :
  ip_in_range ip = true ->
  exists bs,
    write_ip host ip out = Val 0 (out ++ bs) /\
    read_ip host (rstate_at (bs ++ rest) junk o)
    = Val ip (rstate_at rest junk o).
Proof.
  intros Hip. exists (wire_ip ip). split.
  - apply write_ip_run, ip_in_range_known, Hip.
  - apply read_ip_run, Hip.
Qed.

Lemma write_ip_read_ip_roundtrip_witness :
  ip_in_range (IPv6 1) = true /\
  exists bs,
    write_ip BigEndian (IPv6 1) [] = Val 0 ([] ++ bs) /\
    read_ip BigEndian (rstate_at (bs ++ []) [] None)
    = Val (IPv6 1) (rstate_at [] [] None).
Proof.
  split; [reflexivity|].
  apply (write_ip_read_ip_roundtrip BigEndian (IPv6 1) [] [] [] None).
  reflexivity.
Defined.

Lemma host_value_byte (host : byte_order) (b : byte) :
  host_value host [b] = byte.unsigned b.
Proof.
  rewrite <- (byte.of_Z_unsigned b) at 1.
  apply (host_value_u8 host (byte.unsigned b)).
  pose proof (byte.unsigned_range b). lia.
Qed.

(** X3. [read_ip] succeeds only on a complete address record: when it
    returns an address, the file held a length byte 4 followed by four
    address bytes, or a length byte 16 followed by sixteen, the address is
    the big-endian value of these bytes, and exactly the record has been
    consumed. On a file that ends before or inside the record it fails,
    whatever the uninitialised length variable holds. *)
Theorem read_ip_success_inv (host : byte_order) (s s' : rstate)
  (ip : ip_addr) :
  read_ip host s = Val ip s' ->
  exists b bs,
    avail (infile s) = b :: bs ++ avail (infile s') /\
    r_iter s' = r_iter s /\
    ((byte.unsigned b = 4 /\ length bs = 4%nat /\ ip = IPv4 (be_value bs)) \/
     (byte.unsigned b = 16 /\ length bs = 16%nat /\ ip = IPv6 (be_value bs))).
Proof.
  destruct s as [[av st] it].
  unfold read_ip, bind, READ_VAL, wandio_read, fail, ret, fill_stale.
  cbn [infile avail stale r_iter].
  destruct av as [|b l].
  - cbn [firstn skipn length infile avail stale r_iter].
    destruct (_ =? 4); [cbn [firstn skipn length Nat.eqb negb]; discriminate|].
    destruct (_ =? 16); [cbn [firstn skipn length Nat.eqb negb]; discriminate
                        |discriminate].
  - cbn [firstn skipn length Nat.sub app infile avail stale r_iter].
    rewrite host_value_byte.
    destruct (Z.eqb_spec (byte.unsigned b) 4) as [H4|H4].
    + cbn [firstn skipn length Nat.sub infile avail stale r_iter].
      rewrite !drop_0.
      destruct (Nat.eqb_spec (length (firstn 4 l)) 4) as [Hl|Hl];
        cbn [negb]; [|discriminate].
      intros [= <- <-]. cbn [infile avail r_iter].
      exists b, (firstn 4 l). rewrite take_drop.
      split; [reflexivity|]. split; [reflexivity|]. left. auto.
    + destruct (Z.eqb_spec (byte.unsigned b) 16) as [H16|H16];
        [|discriminate].
      cbn [firstn skipn length Nat.sub infile avail stale r_iter].
      rewrite !drop_0.
      destruct (Nat.eqb_spec (length (firstn 16 l)) 16) as [Hl|Hl];
        cbn [negb]; [|discriminate].
      intros [= <- <-]. cbn [infile avail r_iter].
      exists b, (firstn 16 l). rewrite take_drop.
      split; [reflexivity|]. split; [reflexivity|]. right. auto.
Qed.

Lemma read_ip_success_inv_witness :
  read_ip LittleEndian (rstate_at (wire_ip (IPv4 1)) [] None)
  = Val (IPv4 1) (rstate_at [] [] None) /\
  exists b bs,
    avail (infile (rstate_at (wire_ip (IPv4 1)) [] None))
    = b :: bs ++ avail (infile (rstate_at [] [] None)) /\
    r_iter (rstate_at [] [] None)
    = r_iter (rstate_at (wire_ip (IPv4 1)) [] None) /\
    ((byte.unsigned b = 4 /\ length bs = 4%nat /\ IPv4 1 = IPv4 (be_value bs)) \/
     (byte.unsigned b = 16 /\ length bs = 16%nat /\ IPv4 1 = IPv6 (be_value bs))).
Proof.
  assert (H : read_ip LittleEndian (rstate_at (wire_ip (IPv4 1)) [] None)
              = Val (IPv4 1) (rstate_at [] [] None))
    by (vm_compute; reflexivity).
  split; [exact H|].
  exact (read_ip_success_inv LittleEndian _ _ _ H).
Defined.

(** ** The reader's results *)

Lemma bind_Val_inv {S A B} (m : M S A) (k : A -> M S B) (s s' : S) (b : B) :
  bind m k s = Val b s' ->
  exists a s1, m s = Val a s1 /\ k a s1 = Val b s'.
Proof.
  unfold bind. destruct (m s) as [a s1| | |]; try discriminate.
  intros H. eauto.
Qed.

(** X4. [bgpview_io_file_read] returns 0 exactly at the end of the file:
    on an empty file it returns 0 and touches neither the file nor the
    view, for any view and callbacks; and on a file that holds at least
    one byte every result it returns is 1, and the file then started with
    the view-start magic (a file of one to seven bytes is an error, not an
    end of file). *)
Theorem file_read_returns (host : byte_order) (bytes junk : list byte)
  (view : option bgpview)
  (peer_cb : option bgpview_io_filter_peer_cb_t)
  (pfx_cb : option bgpview_io_filter_pfx_cb_t)
  (pfx_peer_cb : option bgpview_io_filter_pfx_peer_cb_t) :
  (bytes = [] ->
   decode host bytes junk view peer_cb pfx_cb pfx_peer_cb
   = Val 0 (rstate_at [] junk (option_map bgpview_iter_create view))) /\
  (forall r s',
     bytes <> [] ->
     decode host bytes junk view peer_cb pfx_cb pfx_peer_cb = Val r s' ->
     r = 1 /\ firstn 8 bytes = magic_bytes VIEW_START_MAGIC).
Proof.
  split.
  - intros ->. reflexivity.
  - intros r s' Hne. unfold decode, bgpview_io_file_read.
    unfold bind at 1, wandio_peek at 1. cbn [infile avail].
    destruct bytes as [|b bytes]; [contradiction|].
    cbn [firstn length Nat.eqb].
    unfold bind at 1. rewrite check_magic_run by apply magic_range.
    cbn [infile avail].
    destruct (bool_decide_reflect
                (firstn 8 (b :: bytes) = magic_bytes VIEW_START_MAGIC))
      as [Hst|Hst]; [|discriminate].
    change (1 =? 0) with false. cbv iota. intros H.
    split; [|exact Hst].
    apply bind_Val_inv in H as (u32 & s1 & _ & H).
    apply bind_Val_inv in H as (? & s2 & _ & H).
    apply bind_Val_inv in H as (lid & s3 & _ & H).
    apply bind_Val_inv in H as (pmap & s4 & _ & H).
    apply bind_Val_inv in H as (? & s5 & _ & H).
    apply bind_Val_inv in H as (? & s6 & _ & H).
    injection H as <- _. reflexivity.
Qed.

(** ** Several views in one file *)

(** The writer appends the frame of the view to whatever the file holds. *)
Lemma file_write_run (host : byte_order) (v : bgpview) (out : iow_t) :
  writable v = true ->
  bgpview_io_file_write host (Some v) None out
  = Val 0 (out ++ wire_view (host_bytes host) v).
Proof.
  intros Hwf. unfold writable in Hwf.
  apply andb_true_iff in Hwf as [Hwf Hpfx].
  apply andb_true_iff in Hwf as [Hpeers Hcnt].
  unfold bgpview_io_file_write.
  erewrite bind_val by apply WRITE_MAGIC_run.
  erewrite bind_val by apply WRITE_VAL_run.
  erewrite bind_val by (apply write_peers_run; assumption).
  erewrite bind_val by apply write_paths_run.
  erewrite bind_val by (apply write_pfxs_run; assumption).
  erewrite bind_val by apply WRITE_MAGIC_run.
  unfold ret, wire_view, wire_view_body, bgpview_get_time.
  cbn [bgpview_iter_create it_view].
  rewrite host_bytes_htonl, <- !app_assoc. reflexivity.
Qed.

(** X5. Views written one after the other into the same file are read
    back one after the other: for two decodable views, the second write
    leaves the frame of the first in place and appends its own; the first
    read consumes exactly the first frame and yields the active part of the
    first view, the second read yields the active part of the second view
    and leaves the file empty, and a third read reports the end of the
    file. Each read is into a fresh view. *)
Theorem two_views_back_to_back (host : byte_order) (v1 v2 : bgpview)
  (junk : list byte) :
  decodable v1 = true -> decodable v2 = true ->
  let fresh := Some (bgpview_iter_create bgpview_create) in
  exists b1 b2 it1 it2,
    bgpview_io_file_write host (Some v1) None [] = Val 0 b1 /\
    bgpview_io_file_write host (Some v2) None b1 = Val 0 (b1 ++ b2) /\
    bgpview_io_file_read host None None None (rstate_at (b1 ++ b2) junk fresh)
    = Val 1 (rstate_at b2 junk (Some it1)) /\
    view_equiv (active_part v1) (it_view it1) /\
    bgpview_io_file_read host None None None (rstate_at b2 junk fresh)
    = Val 1 (rstate_at [] junk (Some it2)) /\
    view_equiv (active_part v2) (it_view it2) /\
    bgpview_io_file_read host None None None (rstate_at [] junk fresh)
    = Val 0 (rstate_at [] junk fresh).
Proof.
  intros Hd1 Hd2 fresh.
  destruct (file_read_wire_view host v1 (wire_view (host_bytes host) v2) junk
              Hd1) as (it1 & Hr1 & He1 & _).
  destruct (file_read_wire_view host v2 [] junk Hd2) as (it2 & Hr2 & He2 & _).
  rewrite app_nil_r in Hr2.
  exists (wire_view (host_bytes host) v1), (wire_view (host_bytes host) v2),
    it1, it2.
  split; [apply (file_write_run host v1 []), decodable_writable, Hd1|].
  split; [apply file_write_run, decodable_writable, Hd2|].
  split; [exact Hr1|]. split; [exact He1|].
  split; [exact Hr2|]. split; [exact He2|]. reflexivity.
Qed.

Lemma two_views_back_to_back_witness :
  decodable view_one = true /\ decodable view_inactive_peer = true /\
  exists b1 b2 it1 it2,
    bgpview_io_file_write BigEndian (Some view_one) None [] = Val 0 b1 /\
    bgpview_io_file_write BigEndian (Some view_inactive_peer) None b1
    = Val 0 (b1 ++ b2) /\
    bgpview_io_file_read BigEndian None None None
      (rstate_at (b1 ++ b2) [] (Some (bgpview_iter_create bgpview_create)))
    = Val 1 (rstate_at b2 [] (Some it1)) /\
    view_equiv (active_part view_one) (it_view it1) /\
    bgpview_io_file_read BigEndian None None None
      (rstate_at b2 [] (Some (bgpview_iter_create bgpview_create)))
    = Val 1 (rstate_at [] [] (Some it2)) /\
    view_equiv (active_part view_inactive_peer) (it_view it2) /\
    bgpview_io_file_read BigEndian None None None
      (rstate_at [] [] (Some (bgpview_iter_create bgpview_create)))
    = Val 0 (rstate_at [] [] (Some (bgpview_iter_create bgpview_create))).
Proof.
  assert (H1 : decodable view_one = true) by (vm_compute; reflexivity).
  assert (H2 : decodable view_inactive_peer = true)
    by (vm_compute; reflexivity).
  split; [exact H1|]. split; [exact H2|].
  exact (two_views_back_to_back BigEndian view_one view_inactive_peer []
           H1 H2).
Defined.

(** ** Reading without a view *)

Lemma iter_is_null_run_null (bytes junk : list byte) :
  iter_is_null (rstate_at bytes junk None)
  = Val true (rstate_at bytes junk None).
Proof. reflexivity. Qed.

Lemma read_peers_body_record_null (host : byte_order)
  (peer_cb : option bgpview_io_filter_peer_cb_t) (id : Z) (ps : peer_sig)
  (idmap : list Z) (peers_rx : Z) (rest junk : list byte) :
  0 <= id < 2 ^ 16 -> id <> 0x4247 -> sig_decodable ps = true ->
  read_peers_body host peer_cb (idmap, peers_rx)
    (rstate_at (wire_peer_sig id ps ++ rest) junk None)
  = Val (Continue (idmap, peers_rx + 1)) (rstate_at rest junk None).
Proof.
  intros Hid Hne Hps.
  unfold sig_decodable in Hps.
  apply andb_true_iff in Hps as [Hps Hasn1].
  apply andb_true_iff in Hps as [Hps Hasn0].
  apply andb_true_iff in Hps as [Hps Hip].
  apply andb_true_iff in Hps as [Hcol Hlen].
  apply bool_decide_eq_true in Hcol.
  apply Z.leb_le in Hlen, Hasn0. apply Z.ltb_lt in Hasn1.
  unfold UINT8_MAX in Hlen.
  unfold read_peers_body, wire_peer_sig. rewrite Hcol, <- !app_assoc.
  erewrite bind_val
    by (apply check_magic_peer_id; [apply magic_range|exact Hid|exact Hne]).
  cbn [Z.eqb negb].
  erewrite bind_val by (apply READ_VAL_run, length_be_bytes).
  erewrite bind_val by (apply READ_VAL_run; reflexivity).
  rewrite host_value_u8 by lia.
  erewrite bind_val by (apply wandio_read_run; symmetry; apply Nat2Z.id).
  rewrite Z.eqb_refl. cbn [negb].
  erewrite bind_val by (apply read_ip_run, Hip).
  erewrite bind_val by (apply READ_VAL_run, length_be_bytes).
  erewrite bind_val by apply iter_is_null_run_null.
  reflexivity.
Qed.

Lemma read_peers_loop_run_null (host : byte_order) (v : bgpview)
  (peer_cb : option bgpview_io_filter_peer_cb_t) (todo : list Z) :
  forall (idmap : list Z) (rx : Z) (n : nat) (rest junk : list byte),
    Z.of_nat (length (sig_store v)) < UINT16_MAX ->
    Forall (fun id => peer_decodable v id = true) todo ->
    (length todo < n)%nat ->
    loop_nat n (read_peers_body host peer_cb) (idmap, rx)
      (rstate_at (flat_map (wire_peer v) todo
                  ++ magic_bytes VIEW_PEER_END_MAGIC ++ rest) junk None)
    = Val (Break (idmap, rx + Z.of_nat (length todo)))
          (rstate_at rest junk None).
Proof.
  induction todo as [|id todo IH]; intros idmap rx n rest junk Hsigs Hdec Hn.
  - destruct n as [|n]; [simpl in Hn; lia|].
    cbn [length Z.of_nat]. rewrite Z.add_0_r.
    apply loop_nat_break. cbn [flat_map app].
    unfold read_peers_body.
    erewrite bind_val by (apply check_magic_hit, magic_range).
    reflexivity.
  - destruct n as [|n]; [simpl in Hn; lia|].
    apply Forall_cons in Hdec as [Hid Hdec].
    unfold peer_decodable in Hid. apply andb_true_iff in Hid as [Hmagic Hps].
    destruct (sig_lookup (sig_store v) id) as [ps|] eqn:Hl; [|discriminate].
    apply negb_true_iff, Z.eqb_neq in Hmagic.
    pose proof (sig_lookup_range _ _ _ Hl) as Hrange.
    erewrite loop_nat_continue.
    + rewrite (IH idmap (rx + 1) n rest junk Hsigs Hdec)
        by (simpl in Hn; lia).
      do 2 f_equal. f_equal. cbn [length]. lia.
    + cbn [flat_map]. unfold wire_peer at 1. rewrite Hl, <- app_assoc.
      apply read_peers_body_record_null;
        [unfold UINT16_MAX in Hsigs; lia|exact Hmagic|exact Hps].
Qed.

Lemma read_paths_body_record_null (host : byte_order) (k : nat)
  (sp : store_path) (m : path_idmap) (paths_rx : Z)
  (rest junk : list byte) :
  Z.of_nat k < 2 ^ 32 -> path_decodable sp = true ->
  read_paths_body host (m, paths_rx)
    (rstate_at (wire_path (host_bytes host) (k, sp) ++ rest) junk None)
  = Val (Continue (m, paths_rx + 1)) (rstate_at rest junk None).
Proof.
  intros Hk Hsp.
  unfold path_decodable in Hsp. apply Z.leb_le in Hsp.
  unfold BUFFER_LEN in Hsp.
  unfold read_paths_body, wire_path. cbn [fst snd]. rewrite <- !app_assoc.
  erewrite bind_val.
  2:{ apply (check_magic_miss host _ 4
               (byte.of_Z (if sp_is_core sp then 1 else 0)) Byte.x50);
        [apply magic_range| |reflexivity|destruct (sp_is_core sp); discriminate].
      rewrite lookup_app_r by (rewrite length_host_bytes; lia).
      rewrite length_host_bytes. reflexivity. }
  cbn [Z.eqb negb].
  erewrite bind_val by (apply READ_VAL_run, length_host_bytes).
  erewrite bind_val by (apply READ_VAL_run; reflexivity).
  erewrite bind_val by (apply READ_VAL_run, length_host_bytes).
  rewrite host_value_host_bytes_2 by lia.
  rewrite (proj2 (Z.leb_le _ _)) by (unfold BUFFER_LEN; exact Hsp).
  erewrite bind_val by reflexivity.
  erewrite bind_val by (apply wandio_read_run; symmetry; apply Nat2Z.id).
  rewrite Z.eqb_refl. cbn [negb].
  erewrite bind_val by apply iter_is_null_run_null.
  reflexivity.
Qed.

Lemma read_paths_loop_run_null (host : byte_order)
  (todo : list store_path) :
  forall (k : nat) (m : path_idmap) (rx : Z) (n : nat)
         (rest junk : list byte),
    Z.of_nat (k + length todo) <= 2 ^ 30 ->
    Forall (fun sp => path_decodable sp = true) todo ->
    (length todo < n)%nat ->
    loop_nat n (read_paths_body host) (m, rx)
      (rstate_at (wire_paths_from (host_bytes host) k todo
                  ++ magic_bytes VIEW_PATH_END_MAGIC ++ rest) junk None)
    = Val (Break (m, rx + Z.of_nat (length todo))) (rstate_at rest junk None).
Proof.
  induction todo as [|sp todo IH]; intros k m rx n rest junk Hlen Hdec Hn.
  - destruct n as [|n]; [simpl in Hn; lia|].
    cbn [length Z.of_nat]. rewrite Z.add_0_r.
    apply loop_nat_break. cbn [wire_paths_from app].
    apply read_paths_body_end.
  - destruct n as [|n]; [simpl in Hn; lia|].
    apply Forall_cons in Hdec as [Hsp Hdec]. cbn [length] in Hlen.
    erewrite loop_nat_continue.
    + rewrite (IH (Datatypes.S k) m (rx + 1) n rest junk)
        by (try assumption; simpl in Hn; lia).
      do 2 f_equal. f_equal. cbn [length]. lia.
    + cbn [wire_paths_from]. rewrite <- app_assoc.
      apply read_paths_body_record_null; [lia|exact Hsp].
Qed.

Lemma read_pfx_peers_body_record_null (host : byte_order)
  (pfx_peer_cb : option bgpview_io_filter_pfx_peer_cb_t) (lid : list Z)
  (pmap : path_idmap) (q : pfx) (skip : bool) (id : Z)
  (info : pfx_peer_info) (added rx : Z) (rest junk : list byte) :
  0 <= id < 2 ^ 16 -> id <> 0x4247 ->
  read_pfx_peers_body host pfx_peer_cb lid pmap q skip (added, rx)
    (rstate_at (wire_pfx_peer (host_bytes host) (id, info) ++ rest)
       junk None)
  = Val (Continue (added, rx + 1)) (rstate_at rest junk None).
Proof.
  intros Hid Hne.
  unfold read_pfx_peers_body, wire_pfx_peer. cbn [fst snd].
  rewrite <- !app_assoc.
  erewrite bind_val
    by (apply check_magic_peer_id; [apply magic_range|exact Hid|exact Hne]).
  cbn [Z.eqb negb].
  erewrite bind_val by (apply READ_VAL_run, length_be_bytes).
  erewrite bind_val by (apply READ_VAL_run, length_host_bytes).
  erewrite bind_val by apply iter_is_null_run_null.
  reflexivity.
Qed.

Section NullView.

Variable host : byte_order.
Variable v : bgpview.
Hypothesis v_sigs : Z.of_nat (length (sig_store v)) < UINT16_MAX.
Hypothesis v_peers :
  forall id, peers v !! id = Some true -> peer_decodable v id = true.

Lemma read_pfx_peers_loop_run_null (lid : list Z) (pmap : path_idmap)
  (q : pfx) (todo : list (Z * pfx_peer_info)) :
  forall (added rx : Z) (n : nat) (rest junk : list byte),
    Forall (fun e => peers v !! fst e = Some true) todo ->
    (length todo < n)%nat ->
    loop_nat n (read_pfx_peers_body host None lid pmap q false) (added, rx)
      (rstate_at (flat_map (wire_pfx_peer (host_bytes host)) todo
                  ++ magic_bytes VIEW_PEER_END_MAGIC ++ rest) junk None)
    = Val (Break (added, rx + Z.of_nat (length todo)))
          (rstate_at rest junk None).
Proof.
  induction todo as [|[id info] todo IH]; intros added rx n rest junk Hact Hn.
  - destruct n as [|n]; [simpl in Hn; lia|].
    cbn [length Z.of_nat]. rewrite Z.add_0_r.
    apply loop_nat_break. cbn [flat_map app].
    apply read_pfx_peers_body_end.
  - destruct n as [|n]; [simpl in Hn; lia|].
    apply Forall_cons in Hact as [Hid Hact]. cbn [fst] in Hid.
    destruct (active_peer_id_range v v_sigs v_peers id Hid) as [Hr Hm].
    erewrite loop_nat_continue.
    + rewrite (IH added (rx + 1) n rest junk Hact) by (simpl in Hn; lia).
      do 2 f_equal. f_equal. cbn [length]. lia.
    + cbn [flat_map]. rewrite <- app_assoc.
      apply read_pfx_peers_body_record_null; [lia|exact Hm].
Qed.

Lemma read_pfxs_loop_run_null (lid : list Z) (pmap : path_idmap)
  (todo : list (pfx * gmap Z pfx_peer_info)) :
  forall (rx : Z) (n : nat) (rest junk : list byte),
    Forall (fun e => pfx_decodable v e = true) todo ->
    (length todo < n)%nat ->
    loop_nat n (read_pfxs_body host None None lid pmap) rx
      (rstate_at (flat_map (wire_pfx (host_bytes host)) todo
                  ++ magic_bytes VIEW_PFX_END_MAGIC ++ rest) junk None)
    = Val (Break (rx + Z.of_nat (length todo))) (rstate_at rest junk None).
Proof.
  induction todo as [|[q pm] todo IH]; intros rx n rest junk Hdec Hn.
  - destruct n as [|n]; [simpl in Hn; lia|].
    cbn [length Z.of_nat]. rewrite Z.add_0_r.
    apply loop_nat_break. cbn [flat_map app]. apply read_pfxs_body_end.
  - destruct n as [|n]; [simpl in Hn; lia|].
    apply Forall_cons in Hdec as [Hq Hdec].
    unfold pfx_decodable in Hq. cbn [fst snd] in Hq.
    apply andb_true_iff in Hq as [Hq Hpps].
    apply andb_true_iff in Hq as [Hvalid Hip].
    apply forallb_Forall in Hpps.
    assert (Hmask : 0 <= mask_len q < 2 ^ 8).
    { unfold pfx_valid in Hvalid.
      destruct (address q); [| |discriminate];
        apply andb_true_iff in Hvalid as [H0 H1];
        apply Z.leb_le in H0, H1; lia. }
    assert (Hact : Forall (fun e => peers v !! fst e = Some true)
                     (active_pfx_peers pm)).
    { eapply Forall_impl; [exact Hpps|]. intros e He.
      unfold pfx_peer_decodable in He.
      apply andb_true_iff in He as [_ He].
      apply bool_decide_eq_true in He. exact He. }
    assert (Hlen : (length (active_pfx_peers pm) < Z.to_nat UINT16_MAX)%nat).
    { pose proof (NoDup_length_range (map fst (active_pfx_peers pm))
                    (2 ^ 16 - 2) ltac:(lia)
                    (NoDup_fst_active_pfx_peers pm)) as Hl.
      rewrite length_map in Hl. unfold UINT16_MAX.
      enough (Z.of_nat (length (active_pfx_peers pm)) <= 2 ^ 16 - 2) by lia.
      apply Hl. intros x Hx.
      apply list_elem_of_fmap in Hx as (e & -> & He).
      rewrite Forall_forall in Hact.
      pose proof (active_peer_id_range v v_sigs v_peers _ (Hact e He)). lia. }
    erewrite loop_nat_continue.
    + rewrite (IH (rx + 1) n rest junk Hdec) by (simpl in Hn; lia).
      do 2 f_equal. cbn [length]. lia.
    + cbn [flat_map]. unfold wire_pfx at 1. cbn [fst snd].
      rewrite <- !app_assoc. unfold read_pfxs_body.
      erewrite bind_val by (apply check_magic_ip, Hip).
      cbn [Z.eqb negb].
      erewrite bind_val by (apply read_ip_run, Hip).
      erewrite bind_val by (apply READ_VAL_run; reflexivity).
      cbn [ask_filter]. erewrite bind_val by reflexivity. cbn [negb].
      erewrite bind_val
        by (apply for_loop_break; [reflexivity|];
            apply read_pfx_peers_loop_run_null; [exact Hact|exact Hlen]).
      cbv beta iota.
      erewrite bind_val by (apply READ_VAL_run, length_be_bytes).
      rewrite ntohs_host_value, be_value_be_bytes, Z.mod_small
        by (try apply length_be_bytes; unfold UINT16_MAX in Hlen;
            change (Z.of_nat 2 * 8) with 16; lia).
      rewrite Z.add_0_l, Z.eqb_refl. reflexivity.
Qed.

End NullView.

Lemma view_set_time_run_null (t : Z) (bytes junk : list byte) :
  view_set_time t (rstate_at bytes junk None)
  = Val tt (rstate_at bytes junk None).
Proof. reflexivity. Qed.

Lemma read_peers_run_null (host : byte_order) (v : bgpview)
  (rest junk : list byte) :
  Z.of_nat (length (sig_store v)) < UINT16_MAX ->
  Forall (fun id => peer_decodable v id = true) (active_peers v) ->
  read_peers host None (rstate_at (wire_peer_section v ++ rest) junk None)
  = Val [] (rstate_at rest junk None).
Proof.
  intros Hsigs Hpeers.
  assert (Hpcnt : Z.of_nat (length (active_peers v))
                  <= Z.of_nat (length (sig_store v))).
  { apply NoDup_length_range; [lia|apply NoDup_active_peers|].
    intros x Hx. rewrite Forall_forall in Hpeers. specialize (Hpeers x Hx).
    unfold peer_decodable in Hpeers.
    apply andb_true_iff in Hpeers as [_ Hpeers].
    destruct (sig_lookup (sig_store v) x) as [ps|] eqn:Hps; [|discriminate].
    apply (sig_lookup_range _ _ _ Hps). }
  unfold read_peers, wire_peer_section. rewrite <- !app_assoc.
  erewrite bind_val
    by (apply for_loop_break; [reflexivity|];
        apply (read_peers_loop_run_null host v);
          [exact Hsigs|exact Hpeers|unfold UINT16_MAX in *; lia]).
  cbv beta iota.
  erewrite bind_val by (apply READ_VAL_run, length_be_bytes).
  rewrite ntohs_host_value, be_value_be_bytes, Z.mod_small
    by (try apply length_be_bytes; unfold UINT16_MAX in Hsigs;
        change (Z.of_nat 2 * 8) with 16; lia).
  rewrite Z.add_0_l, Z.eqb_refl. reflexivity.
Qed.

Lemma read_paths_run_null (host : byte_order) (v : bgpview)
  (rest junk : list byte) :
  Z.of_nat (length (path_store v)) <= 2 ^ 30 ->
  Forall (fun sp => path_decodable sp = true) (path_store v) ->
  read_paths host
    (rstate_at (wire_path_section (host_bytes host) v ++ rest) junk None)
  = Val {| pm_cnt := 0; pm_ids := ∅ |} (rstate_at rest junk None).
Proof.
  intros Hplen Hpaths.
  unfold read_paths, wire_path_section.
  pose proof (wire_paths_from_imap (host_bytes host) (path_store v) 0)
    as Himap.
  cbn [Nat.add] in Himap. rewrite Himap, <- !app_assoc.
  erewrite bind_val
    by (apply for_loop_break; [reflexivity|];
        apply read_paths_loop_run_null;
          [cbn [Nat.add]; exact Hplen|exact Hpaths|unfold UINT32_MAX; lia]).
  cbv beta iota.
  erewrite bind_val by (apply READ_VAL_run, length_be_bytes).
  rewrite ntohl_host_value, be_value_be_bytes, Z.mod_small
    by (try apply length_be_bytes; change (Z.of_nat 4 * 8) with 32; lia).
  rewrite Z.add_0_l, Z.eqb_refl. reflexivity.
Qed.

Lemma read_pfxs_run_null (host : byte_order) (v : bgpview) (lid : list Z)
  (pmap : path_idmap) (rest junk : list byte) :
  Z.of_nat (length (sig_store v)) < UINT16_MAX ->
  (forall id, peers v !! id = Some true -> peer_decodable v id = true) ->
  Forall (fun e => pfx_decodable v e = true) (active_pfxs v) ->
  Z.of_nat (length (active_pfxs v)) < UINT32_MAX ->
  read_pfxs host None None lid pmap
    (rstate_at (wire_pfx_section (host_bytes host) v ++ rest) junk None)
  = Val 0 (rstate_at rest junk None).
Proof.
  intros Hsigs Hact Hpfxs Hxlen.
  unfold read_pfxs, wire_pfx_section. rewrite <- !app_assoc.
  erewrite bind_val
    by (apply for_loop_break; [reflexivity|];
        apply (read_pfxs_loop_run_null host v Hsigs Hact);
          [exact Hpfxs|lia]).
  erewrite bind_val by (apply READ_VAL_run, length_be_bytes).
  rewrite ntohl_host_value, be_value_be_bytes, Z.mod_small
    by (try apply length_be_bytes; unfold UINT32_MAX in Hxlen;
        change (Z.of_nat 4 * 8) with 32; lia).
  rewrite Z.add_0_l, Z.eqb_refl. reflexivity.
Qed.

(** X6. Called without a view ([view == NULL]), [bgpview_io_file_read]
    skips over one view: on the frame written for a decodable view,
    followed by any other bytes, it returns 1 having consumed exactly the
    frame, and all its cross-checks of the record counts pass. *)
Theorem file_read_null_view_skips (host : byte_order) (v : bgpview)
  (rest junk : list byte) :
  decodable v = true ->
  decode host (wire_view (host_bytes host) v ++ rest) junk None
    None None None
  = Val 1 (rstate_at rest junk None).
Proof.
  intros Hdec. unfold decodable in Hdec.
  repeat match type of Hdec with
         | _ && _ = true =>
             let H := fresh "Hd" in apply andb_true_iff in Hdec as [Hdec H]
         end.
  rename Hdec into Hwr, Hd7 into Hnd, Hd6 into Hsigs, Hd5 into Hpeers,
    Hd4 into Hplen, Hd3 into Hpaths, Hd2 into Ht0, Hd1 into Ht1,
    Hd0 into Hxlen, Hd into Hpfxs.
  apply Z.ltb_lt in Hsigs, Ht1, Hxlen. apply Z.leb_le in Hplen, Ht0.
  apply forallb_Forall in Hpeers, Hpaths, Hpfxs.
  assert (Hact : forall id, peers v !! id = Some true ->
                   peer_decodable v id = true).
  { intros id Hid. rewrite Forall_forall in Hpeers.
    apply Hpeers, elem_of_active_peers, Hid. }
  unfold decode, bgpview_io_file_read, wire_view, wire_view_body.
  cbn [option_map]. rewrite <- !app_assoc.
  unfold bind at 1, wandio_peek at 1. cbn [infile avail].
  rewrite peek_magic_not_eof.
  fold (rstate_at (magic_bytes VIEW_START_MAGIC ++ be_bytes 4 (view_time v)
                   ++ wire_peer_section v
                   ++ wire_path_section (host_bytes host) v
                   ++ wire_pfx_section (host_bytes host) v
                   ++ magic_bytes VIEW_END_MAGIC ++ rest) junk None).
  erewrite bind_val by (apply check_magic_hit, magic_range).
  change (1 =? 0) with false. cbv iota.
  erewrite bind_val by (apply READ_VAL_run, length_be_bytes).
  erewrite bind_val by apply view_set_time_run_null.
  erewrite bind_val by (apply read_peers_run_null; assumption).
  erewrite bind_val by (apply read_paths_run_null; assumption).
  erewrite bind_val by (apply (read_pfxs_run_null host v); assumption).
  erewrite bind_val by (apply check_magic_hit, magic_range).
  reflexivity.
Qed.

Lemma file_read_null_view_skips_witness :
  decodable view_one = true /\
  decode LittleEndian
    (wire_view (host_bytes LittleEndian) view_one ++ [Byte.x00]) [] None
    None None None
  = Val 1 (rstate_at [Byte.x00] [] None).
Proof.
  assert (H : decodable view_one = true) by (vm_compute; reflexivity).
  split; [exact H|].
  exact (file_read_null_view_skips LittleEndian view_one [Byte.x00] [] H).
Defined.

(** ** The writer with a filter callback *)

Lemma foreach_emit_filter {A B} (l : list B) (body : B -> A -> M iow_t A)
  (g : B -> list byte) (keep : B -> bool) (cnt : nat -> A) :
  (forall x k out, x ∈ l -> keep x = true ->
     body x (cnt k) out = Val (cnt (Datatypes.S k)) (out ++ g x)) ->
  (forall x k out, x ∈ l -> keep x = false ->
     body x (cnt k) out = Val (cnt k) out) ->
  forall k out,
    foreach l body (cnt k) out
    = Val (cnt (k + length (List.filter keep l))%nat)
          (out ++ flat_map g (List.filter keep l)).
Proof.
  induction l as [|x l IH]; intros Hkeep Hskip k out; simpl.
  - rewrite Nat.add_0_r, app_nil_r. reflexivity.
  - assert (Hkeep' : forall y k out, y ∈ l -> keep y = true ->
              body y (cnt k) out = Val (cnt (Datatypes.S k)) (out ++ g y))
      by (intros; apply Hkeep; [right|]; assumption).
    assert (Hskip' : forall y k out, y ∈ l -> keep y = false ->
              body y (cnt k) out = Val (cnt k) out)
      by (intros; apply Hskip; [right|]; assumption).
    specialize (IH Hkeep' Hskip').
    destruct (keep x) eqn:Hx.
    + erewrite bind_val by (apply Hkeep; [left|exact Hx]).
      rewrite IH. cbn [length flat_map]. rewrite <- app_assoc.
      replace (Datatypes.S k + length (List.filter keep l))%nat
        with (k + Datatypes.S (length (List.filter keep l)))%nat by lia.
      reflexivity.
    + erewrite bind_val by (apply Hskip; [left|exact Hx]).
      apply IH.
Qed.

Lemma write_peer_record_run (host : byte_order) (it : bgpview_iter)
  (id : Z) (k : Z) (out : iow_t) :
  peer_writable (it_view it) id = true ->
  (WRITE_VAL host 2 (htons host id) ;;;
   match bgpview_iter_peer_get_sig (iter_seek_peer it id) with
   | None => abort
   | Some ps =>
       let siglen := Z.of_nat (length (c_string (collector_str ps))) in
       assert (siglen <=? UINT8_MAX) ;;;
       WRITE_VAL host 1 siglen ;;;
       n <- wandio_wwrite (firstn (Z.to_nat siglen) (collector_str ps)) ;;
       if negb (n =? siglen) then fail
       else
         r <- write_ip host (peer_ip_addr ps) ;;
         if negb (r =? 0) then fail
         else
           WRITE_VAL host 4 (htonl host (peer_asnumber ps)) ;;;
           ret k
   end) out
  = Val k (out ++ wire_peer (it_view it) id).
Proof.
  intros Hwf.
  erewrite bind_val by apply WRITE_VAL_run.
  unfold peer_writable in Hwf. unfold wire_peer.
  unfold bgpview_iter_peer_get_sig, iter_seek_peer. cbn [it_peer it_view].
  destruct (sig_lookup (sig_store (it_view it)) id) as [ps|]; [|discriminate].
  apply andb_true_iff in Hwf as [Hlen Hip].
  cbv zeta. rewrite Hlen. erewrite bind_val by reflexivity.
  erewrite bind_val by apply WRITE_VAL_run.
  unfold bind at 1, wandio_wwrite at 1.
  rewrite Nat2Z.id, firstn_c_string, Z.eqb_refl. cbn [negb].
  erewrite bind_val by (apply write_ip_run, Hip).
  cbn [Z.eqb negb].
  erewrite bind_val by apply WRITE_VAL_run.
  unfold ret, wire_peer_sig.
  rewrite host_bytes_htons, host_bytes_htonl, host_bytes_1.
  rewrite <- !app_assoc. reflexivity.
Qed.

(** X7. With a filter callback that reports no error, [write_peers]
    writes the records of exactly the active peers the callback accepts (a
    non-zero answer to [BGPVIEW_IO_FILTER_PEER]), in iteration order, then
    the end-of-peers magic and a count equal to the number of records
    written: a rejected peer leaves no byte in the section. *)
Theorem write_peers_filtered (host : byte_order) (it : bgpview_iter)
  (f : bgpview_io_filter_cb_t) (out : iow_t) :
  let v := it_view it in
  let answer := fun id => f (iter_seek_peer it id) BGPVIEW_IO_FILTER_PEER in
  let wanted := fun id => negb (answer id =? 0) in
  forallb (fun id => 0 <=? answer id) (active_peers v) = true ->
  forallb (peer_writable v) (List.filter wanted (active_peers v)) = true ->
  Z.of_nat (length (active_peers v)) <= UINT16_MAX ->
  write_peers host it (Some f) out
  = Val 0 (out ++ flat_map (wire_peer v) (List.filter wanted (active_peers v))
               ++ magic_bytes VIEW_PEER_END_MAGIC
               ++ be_bytes 2 (Z.of_nat (length (List.filter wanted
                                                   (active_peers v))))).
Proof.
  intros v answer wanted Hok Hwf Hcnt. unfold write_peers.
  rewrite forallb_forall in Hok, Hwf.
  erewrite bind_val.
  2:{ refine (foreach_emit_filter _ _ (wire_peer v) wanted Z.of_nat _ _
                0%nat _).
      - intros id k out' Hin Hw. cbn [option_map ask_filter].
        apply list_elem_of_In in Hin.
        pose proof (Hok id Hin) as H0. apply Z.leb_le in H0.
        fold (answer id). rewrite (proj2 (Z.ltb_ge _ _)) by exact H0.
        erewrite bind_val by reflexivity.
        fold (wanted id). rewrite Hw. cbn [negb].
        replace (Z.of_nat (Datatypes.S k)) with (Z.of_nat k + 1) by lia.
        apply (write_peer_record_run host it id (Z.of_nat k + 1) out').
        apply Hwf, filter_In. split; assumption.
      - intros id k out' Hin Hw. cbn [option_map ask_filter].
        apply list_elem_of_In in Hin.
        pose proof (Hok id Hin) as H0. apply Z.leb_le in H0.
        fold (answer id). rewrite (proj2 (Z.ltb_ge _ _)) by exact H0.
        erewrite bind_val by reflexivity.
        fold (wanted id). rewrite Hw. reflexivity. }
  erewrite bind_val by apply WRITE_MAGIC_run.
  cbn [Nat.add]. fold v.
  assert (Hle : Z.of_nat (length (List.filter wanted (active_peers v)))
                <= UINT16_MAX).
  { pose proof (filter_length_le wanted (active_peers v)). lia. }
  rewrite (proj2 (Z.leb_le _ _) Hle). erewrite bind_val by reflexivity.
  erewrite bind_val by apply WRITE_VAL_run.
  unfold ret. rewrite host_bytes_htons, <- !app_assoc.
  reflexivity.
Qed.

Lemma write_peers_filtered_witness :
  let it := bgpview_iter_create view_inactive_peer in
  let f : bgpview_io_filter_cb_t := fun _ _ => 0 in
  forallb (fun id => 0 <=? f (iter_seek_peer it id) BGPVIEW_IO_FILTER_PEER)
    (active_peers (it_view it)) = true /\
  forallb (peer_writable (it_view it))
    (List.filter
       (fun id => negb (f (iter_seek_peer it id) BGPVIEW_IO_FILTER_PEER =? 0))
       (active_peers (it_view it))) = true /\
  Z.of_nat (length (active_peers (it_view it))) <= UINT16_MAX /\
  write_peers LittleEndian it (Some f) []
  = Val 0 ([] ++ flat_map (wire_peer (it_view it))
                   (List.filter
                      (fun id => negb (f (iter_seek_peer it id)
                                         BGPVIEW_IO_FILTER_PEER =? 0))
                      (active_peers (it_view it)))
              ++ magic_bytes VIEW_PEER_END_MAGIC
              ++ be_bytes 2
                   (Z.of_nat
                      (length
                         (List.filter
                            (fun id => negb (f (iter_seek_peer it id)
                                               BGPVIEW_IO_FILTER_PEER =? 0))
                            (active_peers (it_view it)))))).
Proof.
  intros it f.
  assert (H1 : forallb
                 (fun id => 0 <=? f (iter_seek_peer it id) BGPVIEW_IO_FILTER_PEER)
                 (active_peers (it_view it)) = true)
    by (vm_compute; reflexivity).
  assert (H2 : forallb (peer_writable (it_view it))
                 (List.filter
                    (fun id => negb (f (iter_seek_peer it id)
                                       BGPVIEW_IO_FILTER_PEER =? 0))
                    (active_peers (it_view it))) = true)
    by (vm_compute; reflexivity).
  assert (H3 : Z.of_nat (length (active_peers (it_view it))) <= UINT16_MAX)
    by (vm_compute; discriminate).
  split; [exact H1|]. split; [exact H2|]. split; [exact H3|].
  exact (write_peers_filtered LittleEndian it f [] H1 H2 H3).
Defined.

Lemma foreach_err {S A B} (l : list B) (body : B -> A -> M S A)
  (bad : B -> bool) :
  (forall x a s, x ∈ l -> bad x = true -> exists s', body x a s = Err s') ->
  (forall x a s, x ∈ l -> bad x = false ->
     exists a' s', body x a s = Val a' s') ->
  existsb bad l = true ->
  forall a s, exists s', foreach l body a s = Err s'.
Proof.
  induction l as [|x l IH]; intros Hbad Hgood Hex a s; [discriminate|].
  cbn [existsb] in Hex. cbn [foreach]. unfold bind.
  destruct (bad x) eqn:Hx.
  - destruct (Hbad x a s ltac:(left) Hx) as [s' ->]. eauto.
  - destruct (Hgood x a s ltac:(left) Hx) as (a' & s' & ->).
    apply IH; [| |exact Hex]; intros; [apply Hbad|apply Hgood];
      try right; assumption.
Qed.

(** X8. An error reported by the filter callback stops the writer: on a
    view whose active peers can all be written, if the callback answers a
    negative value for some active peer, [bgpview_io_file_write] returns -1
    (the file is left with the part of the frame written so far). *)
Theorem file_write_filter_error (host : byte_order) (v : bgpview)
  (f : bgpview_io_filter_cb_t) (out : iow_t) :
  let it := bgpview_iter_create v in
  let answer := fun id => f (iter_seek_peer it id) BGPVIEW_IO_FILTER_PEER in
  forallb (peer_writable v) (active_peers v) = true ->
  existsb (fun id => answer id <? 0) (active_peers v) = true ->
  exists out', bgpview_io_file_write host (Some v) (Some f) out = Err out'.
Proof.
  intros it answer Hwf Hex. unfold bgpview_io_file_write.
  erewrite bind_val by apply WRITE_MAGIC_run.
  erewrite bind_val by apply WRITE_VAL_run.
  fold it. rewrite forallb_forall in Hwf.
  set (out0 := (out ++ magic_bytes VIEW_START_MAGIC) ++ _).
  enough (H : exists out', write_peers host it (Some f) out0 = Err out').
  { destruct H as [out' H]. exists out'. unfold bind at 1. rewrite H.
    reflexivity. }
  unfold write_peers.
  match goal with
  | |- exists o, bind (foreach ?l ?body ?a0) ?k out0 = Err o =>
      assert (H : exists out', foreach l body a0 out0 = Err out');
        [apply (foreach_err l body (fun id => answer id <? 0))
        |destruct H as [out' H]; exists out'; unfold bind at 1; rewrite H;
         reflexivity]
  end.
  - intros id k o _ Hbad. cbn [option_map ask_filter].
    fold (answer id). rewrite Hbad. unfold bind, fail. eauto.
  - intros id k o Hin Hgood. cbn [option_map ask_filter].
    fold (answer id). rewrite Hgood.
    erewrite bind_val by reflexivity.
    destruct (negb (negb (answer id =? 0))); [unfold ret; eauto|].
    do 2 eexists.
    apply (write_peer_record_run host it id (k + 1) o).
    apply Hwf, list_elem_of_In, Hin.
  - exact Hex.
Qed.

Lemma file_write_filter_error_witness :
  forallb (peer_writable view_one) (active_peers view_one) = true /\
  existsb
    (fun id => (fun _ _ => -1)
                 (iter_seek_peer (bgpview_iter_create view_one) id)
                 BGPVIEW_IO_FILTER_PEER <? 0)
    (active_peers view_one) = true /\
  exists out',
    bgpview_io_file_write BigEndian (Some view_one) (Some (fun _ _ => -1)) []
    = Err out'.
Proof.
  assert (H1 : forallb (peer_writable view_one) (active_peers view_one) = true)
    by (vm_compute; reflexivity).
  assert (H2 : existsb
                 (fun id => (fun (_ : bgpview_iter)
                               (_ : bgpview_io_filter_type_t) => -1)
                              (iter_seek_peer (bgpview_iter_create view_one) id)
                              BGPVIEW_IO_FILTER_PEER <? 0)
                 (active_peers view_one) = true)
    by (vm_compute; reflexivity).
  split; [exact H1|]. split; [exact H2|].
  exact (file_write_filter_error BigEndian view_one (fun _ _ => -1) [] H1 H2).
Defined.

(** ** The view-sender over a stream of views ([bvc_viewsender.c]) *)

Lemma process_views_frames (send_view : bgpview -> option bgpview -> Z)
  (views : list bgpview) :
  (forall v p, send_view v p = 0) ->
  forall st r,
    kafka_client st = true -> 0 < sync_interval st <= INT_MAX ->
    Forall (fun v => 0 <= view_time v < 2 ^ 32) views ->
    exists st',
      foreach views (fun v _ => bvc_viewsender_process_view send_view v) r st
      = Val (if views is [] then r else 0) st' /\
      sent st' = sent st
                 ++ frames_from (sync_interval st) (parent_view st) views /\
      kafka_client st' = true /\ sync_interval st' = sync_interval st.
Proof.
  intros Hsend. induction views as [|v vs IH]; intros st r Hk Hi Ht.
  - exists st. cbn [foreach frames_from]. rewrite app_nil_r. auto.
  - apply Forall_cons in Ht as [Hv Ht].
    assert (Hne : (sync_interval st mod 2 ^ 32 =? 0) = false).
    { apply Z.eqb_neq. unfold INT_MAX in Hi. rewrite Z.mod_small; lia. }
    assert (Hstep : exists st1,
      bvc_viewsender_process_view send_view v st = Val 0 st1 /\
      sent st1 ++ frames_from (sync_interval st1) (parent_view st1) vs
      = sent st ++ frames_from (sync_interval st) (parent_view st) (v :: vs) /\
      kafka_client st1 = true /\ sync_interval st1 = sync_interval st).
    { unfold bvc_viewsender_process_view. rewrite Hk, Hne.
      unfold bgpview_get_time. rewrite sync_time_aligned by assumption.
      cbn [frames_from].
      destruct (view_time v mod sync_interval st =? 0) eqn:Hal.
      - rewrite orb_true_r. cbn [negb]. rewrite Hsend. cbn [Z.eqb negb].
        eexists. split; [reflexivity|].
        cbn [vs_log sent sync_interval parent_view kafka_client].
        rewrite <- app_assoc. auto.
      - rewrite orb_false_r. cbn [negb].
        destruct (parent_view st) as [p|] eqn:Hp; cbn [is_NULL].
        + rewrite Hsend. cbn [Z.eqb negb].
          eexists. split; [reflexivity|].
          cbn [vs_log sent sync_interval parent_view kafka_client].
          rewrite <- app_assoc. auto.
        + exists st. rewrite Hp. auto. }
    destruct Hstep as (st1 & Hrun & Hsent & Hk1 & Hi1).
    destruct (IH st1 0 Hk1 ltac:(rewrite Hi1; exact Hi) Ht)
      as (st' & Hrun' & Hsent' & Hk' & Hi').
    exists st'. cbn [foreach]. erewrite bind_val by exact Hrun.
    split.
    + rewrite Hrun'. destruct vs; reflexivity.
    + split; [rewrite Hsent', Hsent; reflexivity|].
      split; [exact Hk'|congruence].
Qed.

Lemma frames_from_parent_views (i : Z) (views : list bgpview) :
  forall p, map frame_view (frames_from i (Some p) views) = views.
Proof.
  induction views as [|v vs IH]; intros p; [reflexivity|].
  cbn [frames_from]. destruct (view_time v mod i =? 0);
    cbn [map frame_view]; rewrite IH; reflexivity.
Qed.

Lemma frames_from_start (i : Z) (views : list bgpview) :
  exists skipped published,
    views = skipped ++ published /\
    Forall (fun v => view_time v mod i <> 0) skipped /\
    map frame_view (frames_from i None views) = published /\
    (forall v, head published = Some v -> view_time v mod i = 0).
Proof.
  induction views as [|v vs IH].
  - exists [], []. repeat split; [constructor|discriminate].
  - cbn [frames_from]. destruct (Z.eqb_spec (view_time v mod i) 0) as [e|n].
    + exists [], (v :: vs). split; [reflexivity|]. split; [constructor|].
      split; [cbn [map frame_view]; rewrite frames_from_parent_views;
              reflexivity|].
      intros v' [= <-]. exact e.
    + destruct IH as (sk & pub & -> & Hsk & Hmap & Hhead).
      exists (v :: sk), pub. split; [reflexivity|].
      split; [constructor; assumption|]. split; assumption.
Qed.

Lemma frames_from_chain (i : Z) (views : list bgpview) :
  forall parent k f,
    frames_from i parent views !! k = Some f ->
    match f with
    | KafkaFrame v None => view_time v mod i = 0
    | KafkaFrame v (Some p) =>
        view_time v mod i <> 0 /\
        match k with
        | O => parent = Some p
        | Datatypes.S k' =>
            exists f', frames_from i parent views !! k' = Some f' /\
                       frame_view f' = p
        end
    | ZmqFrame _ => False
    end.
Proof.
  induction views as [|v vs IH]; intros parent k f Hk; [discriminate|].
  cbn [frames_from] in *.
  destruct (Z.eqb_spec (view_time v mod i) 0) as [e|n].
  - destruct k as [|k]; cbn in Hk.
    + injection Hk as <-. exact e.
    + specialize (IH (Some v) k f Hk). destruct f as [v' [p|]|]; try exact IH.
      destruct IH as [Hn IH]. split; [exact Hn|].
      destruct k as [|k].
      * injection IH as <-. eexists. split; reflexivity.
      * cbn. exact IH.
  - destruct parent as [p0|].
    + destruct k as [|k]; cbn in Hk.
      * injection Hk as <-. split; [exact n|reflexivity].
      * specialize (IH (Some v) k f Hk).
        destruct f as [v' [p|]|]; try exact IH.
        destruct IH as [Hn IH]. split; [exact Hn|].
        destruct k as [|k].
        -- injection IH as <-. eexists. split; reflexivity.
        -- cbn. exact IH.
    + exact (IH None k f Hk).
Qed.

(** X9. A Kafka view-sender that starts without a parent view, with a
    positive sync interval and an IO module whose sends succeed, processes
    any sequence of views with result 0, and of the frames it sends: the
    views up to the first one aligned to the sync interval are not
    published and every view from that one on is published, in order; a
    sync frame carries a view aligned to the interval and a diff frame a
    view that is not; and the parent of every diff frame is the view of the
    frame sent just before it (so a diff frame is never the first). *)
Theorem viewsender_publishes_from_first_sync
  (send_view : bgpview -> option bgpview -> Z)
  (st : bvc_viewsender_state) (views : list bgpview) :
  (forall v p, send_view v p = 0) ->
  kafka_client st = true -> 0 < sync_interval st <= INT_MAX ->
  parent_view st = None ->
  Forall (fun v => 0 <= view_time v < 2 ^ 32) views ->
  let i := sync_interval st in
  exists st' frames skipped published,
    foreach views (fun v _ => bvc_viewsender_process_view send_view v) 0 st
    = Val 0 st' /\
    sent st' = sent st ++ frames /\
    views = skipped ++ published /\
    Forall (fun v => view_time v mod i <> 0) skipped /\
    (forall v, head published = Some v -> view_time v mod i = 0) /\
    map frame_view frames = published /\
    (forall k v, frames !! k = Some (KafkaFrame v None) ->
       view_time v mod i = 0) /\
    (forall k v p, frames !! k = Some (KafkaFrame v (Some p)) ->
       view_time v mod i <> 0 /\
       exists k' f', k = Datatypes.S k' /\ frames !! k' = Some f' /\
                     frame_view f' = p) /\
    (forall k v, frames !! k <> Some (ZmqFrame v)).
Proof.
  intros Hsend Hk Hi Hp Ht i.
  destruct (process_views_frames send_view views Hsend st 0 Hk Hi Ht)
    as (st' & Hrun & Hsent & _ & _).
  rewrite Hp in Hsent. fold i in Hsent.
  destruct (frames_from_start i views) as (sk & pub & Hv & Hsk & Hmap & Hhead).
  exists st', (frames_from i None views), sk, pub.
  split; [rewrite Hrun; destruct views; reflexivity|].
  split; [exact Hsent|]. split; [exact Hv|]. split; [exact Hsk|].
  split; [exact Hhead|]. split; [exact Hmap|].
  split; [|split].
  - intros k v Hf. exact (frames_from_chain i views None k _ Hf).
  - intros k v p Hf.
    destruct (frames_from_chain i views None k _ Hf) as [Hn Hc].
    split; [exact Hn|]. destruct k as [|k']; [discriminate|].
    destruct Hc as (f' & Hf' & Hfv). eauto.
  - intros k v Hf. exact (frames_from_chain i views None k _ Hf).
Qed.

Lemma viewsender_publishes_from_first_sync_witness :
  let send_view : bgpview -> option bgpview -> Z := fun _ _ => 0 in
  let st := bvc_viewsender_init_state true false in
  let views := [view_inactive_peer; view_one] in
  (forall v p, send_view v p = 0) /\
  kafka_client st = true /\ 0 < sync_interval st <= INT_MAX /\
  parent_view st = None /\
  Forall (fun v => 0 <= view_time v < 2 ^ 32) views /\
  exists st' frames skipped published,
    foreach views (fun v _ => bvc_viewsender_process_view send_view v) 0 st
    = Val 0 st' /\
    sent st' = sent st ++ frames /\
    views = skipped ++ published /\
    Forall (fun v => view_time v mod sync_interval st <> 0) skipped /\
    (forall v, head published = Some v ->
       view_time v mod sync_interval st = 0) /\
    map frame_view frames = published /\
    (forall k v, frames !! k = Some (KafkaFrame v None) ->
       view_time v mod sync_interval st = 0) /\
    (forall k v p, frames !! k = Some (KafkaFrame v (Some p)) ->
       view_time v mod sync_interval st <> 0 /\
       exists k' f', k = Datatypes.S k' /\ frames !! k' = Some f' /\
                     frame_view f' = p) /\
    (forall k v, frames !! k <> Some (ZmqFrame v)).
Proof.
  intros send_view st views.
  assert (H1 : forall v p, send_view v p = 0) by reflexivity.
  assert (H2 : kafka_client st = true) by reflexivity.
  assert (H3 : 0 < sync_interval st <= INT_MAX) by (vm_compute; split; [reflexivity|discriminate]).
  assert (H4 : parent_view st = None) by reflexivity.
  assert (H5 : Forall (fun v => 0 <= view_time v < 2 ^ 32) views)
    by (repeat constructor; simpl; lia).
  split; [exact H1|]. split; [exact H2|]. split; [exact H3|].
  split; [exact H4|]. split; [exact H5|].
  exact (viewsender_publishes_from_first_sync send_view st views
           H1 H2 H3 H4 H5).
Defined.

(** ** The archiver's file names ([bvc_archiver.c]) *)

Lemma stradd_firstn (str : list byte) (lim : nat) :
  forall buf,
    stradd str buf lim = buf ++ firstn (lim - length buf) str.
Proof.
  induction str as [|c str IH]; intros buf; cbn [stradd].
  - rewrite firstn_nil, app_nil_r. reflexivity.
  - destruct (Nat.ltb_spec (length buf) lim) as [Hlt|Hge].
    + rewrite IH, length_app. cbn [length].
      replace (lim - length buf)%nat
        with (Datatypes.S (lim - (length buf + 1)))%nat by lia.
      rewrite <- app_assoc. reflexivity.
    + replace (lim - length buf)%nat with 0%nat by lia.
      rewrite app_nil_r. reflexivity.
Qed.

Lemma firstn_app_full {A} (n : nat) (l m : list A) :
  length l = n -> firstn n (l ++ m) = l.
Proof. intros <-. apply take_app_length. Qed.

Lemma generate_file_name_loop_expand (time : Z) (tmpl : list byte) :
  forall buf,
    (length buf <= 1024)%nat ->
    generate_file_name_loop time tmpl buf
    = firstn 1024 (buf ++ expand_template time tmpl).
Proof.
  induction tmpl as [tmpl IH] using (induction_ltof1 _ (@length byte)).
  unfold ltof in IH. intros buf Hlen.
  destruct tmpl as [|c rest].
  { cbn [generate_file_name_loop expand_template].
    rewrite app_nil_r, firstn_all2 by exact Hlen. reflexivity. }
  assert (Hput : forall tl,
            (length tl < length (c :: rest))%nat ->
            (if (length buf =? 1024)%nat then buf
             else generate_file_name_loop time tl (buf ++ [c]))
            = firstn 1024 (buf ++ c :: expand_template time tl)).
  { intros tl Htl. destruct (Nat.eqb_spec (length buf) 1024) as [e|n].
    - symmetry. apply firstn_app_full, e.
    - rewrite IH by (try exact Htl; rewrite length_app; cbn [length]; lia).
      rewrite <- app_assoc. reflexivity. }
  - cbn [generate_file_name_loop expand_template].
    destruct rest as [|c' rest'].
    + destruct (decide (c = char_percent)); apply Hput; cbn [length]; lia.
    + destruct (decide (c = char_percent)) as [ec|nc].
      * destruct (decide (c' = char_s)) as [es|ns].
        -- rewrite decide_True by (split; assumption).
           rewrite stradd_firstn.
           rewrite IH.
           ++ destruct (Nat.le_gt_cases (length (snprintf_u32 time))
                          (1024 - length buf)) as [Hfit|Hcut].
              ** rewrite (firstn_all2 (snprintf_u32 time)) by exact Hfit.
                 rewrite <- app_assoc. reflexivity.
              ** rewrite (firstn_app_full 1024
                            (buf ++ firstn (1024 - length buf)
                                      (snprintf_u32 time)))
                   by (rewrite length_app, firstn_length_le by lia; lia).
                 transitivity
                   (firstn 1024
                      ((buf ++ firstn (1024 - length buf) (snprintf_u32 time))
                       ++ (skipn (1024 - length buf) (snprintf_u32 time)
                           ++ expand_template time rest'))).
                 --- rewrite firstn_app_full; [reflexivity|].
                     rewrite length_app, firstn_length_le by lia. lia.
                 --- f_equal. rewrite <- !app_assoc. f_equal.
                     rewrite app_assoc, firstn_skipn. reflexivity.
           ++ cbn [length]. lia.
           ++ rewrite length_app, length_take. lia.
        -- rewrite decide_False by (intros [_ ?]; contradiction).
           apply Hput. cbn [length]. lia.
      * rewrite decide_False by (intros [? _]; contradiction).
        apply Hput. cbn [length]. lia.
Qed.

Lemma expand_template_plain (time : Z) (l : list byte) :
  char_percent ∉ l -> expand_template time l = l.
Proof.
  induction l as [|c rest IH]; intros Hl; [reflexivity|].
  apply not_elem_of_cons in Hl as [Hc Hl]. cbn [expand_template].
  destruct rest as [|c' rest']; [reflexivity|].
  rewrite decide_False by (intros [? _]; congruence).
  rewrite IH by exact Hl. reflexivity.
Qed.

Lemma expand_template_one (time : Z) (a b : list byte) :
  char_percent ∉ a -> char_percent ∉ b ->
  expand_template time (a ++ [char_percent; char_s] ++ b)
  = a ++ snprintf_u32 time ++ b.
Proof.
  intros Ha Hb. induction a as [|c a IH].
  - cbn [app expand_template].
    rewrite decide_True by (split; reflexivity).
    rewrite expand_template_plain by exact Hb. reflexivity.
  - apply not_elem_of_cons in Ha as [Hc Ha].
    cbn [app expand_template].
    destruct (a ++ char_percent :: char_s :: b) as [|c' rest'] eqn:E.
    + destruct a; discriminate.
    + rewrite decide_False by (intros [? _]; congruence).
      rewrite <- E. cbn [app] in IH. rewrite (IH Ha). reflexivity.
Qed.

(** X10. [generate_file_name] hands to [strftime] the template with every
    ["%s"] replaced by the decimal digits of the time and everything else
    left as it is, provided the expanded template has fewer than 1024
    characters; with 1024 or more, the terminator is written one past the
    end of the 1024-byte buffer. In particular a template with one ["%s"]
    and no other ['%'] expands to its two parts around the digits. *)
Theorem generate_file_name_expands (strftime : list byte -> Z -> list byte)
  (template : list byte) (time : Z) :
  generate_file_name strftime template time
  = (if (length (expand_template time template) <? 1024)%nat
     then Some (strftime (expand_template time template) time)
     else None) /\
  (forall a b,
     char_percent ∉ a -> char_percent ∉ b ->
     template = a ++ [char_percent; char_s] ++ b ->
     expand_template time template = a ++ snprintf_u32 time ++ b).
Proof.
  split.
  - unfold generate_file_name.
    rewrite generate_file_name_loop_expand by (cbn [length]; lia).
    cbn [app].
    destruct (Nat.ltb_spec (length (expand_template time template)) 1024)
      as [Hlt|Hge].
    + rewrite firstn_all2 by lia.
      rewrite (proj2 (Nat.eqb_neq _ _)) by lia. reflexivity.
    + rewrite (proj2 (Nat.eqb_eq _ _)); [reflexivity|].
      apply firstn_length_le, Hge.
  - intros a b Ha Hb ->. apply expand_template_one; assumption.
Qed.

Lemma decimal_digits_sample :
  snprintf_u32 1475280000
  = [Byte.x31; Byte.x34; Byte.x37; Byte.x35; Byte.x32; Byte.x38; Byte.x30;
     Byte.x30; Byte.x30; Byte.x30]
  /\ snprintf_u32 0 = [Byte.x30]
  /\ length (snprintf_u32 UINT32_MAX) = 10%nat.
Proof. repeat split; vm_compute; reflexivity. Qed.

(** ** The archiver's output files *)

Section ArchiverFacts.

Variable host : byte_order.
Variable strftime : list byte -> Z -> list byte.
Variable wandio_wcreate_ok : list byte -> bool.
Variable bgpview_io_file_print : bgpview -> list byte.

Let process_view :=
  bvc_archiver_process_view host strftime wandio_wcreate_ok
    bgpview_io_file_print.

Lemma on_outfile_write_run (st : bvc_archiver_state) (f : iow_file)
  (v : bgpview) :
  outfile st = Some f -> writable v = true ->
  on_outfile (bgpview_io_file_write host (Some v) None) st
  = Val 0 (set_outfile st
             (Some {| iow_name := iow_name f;
                      iow_bytes := iow_bytes f
                                   ++ wire_view (host_bytes host) v |})).
Proof.
  intros Hf Hv. unfold on_outfile. rewrite Hf.
  rewrite file_write_run by exact Hv. reflexivity.
Qed.

Lemma process_view_append (st : bvc_archiver_state) (f : iow_file)
  (v : bgpview) :
  outfile st = Some f -> output_format st = BINARY ->
  SHOULD_ROTATE st (view_time v) = false -> writable v = true ->
  process_view v st
  = Val 0 (set_outfile st
             (Some {| iow_name := iow_name f;
                      iow_bytes := iow_bytes f
                                   ++ wire_view (host_bytes host) v |})).
Proof.
  intros Hf Hfmt Hrot Hv.
  unfold process_view, bvc_archiver_process_view.
  unfold bind at 1, get at 1.
  unfold bgpview_get_time. rewrite Hf, Hrot, Hfmt. cbn [is_NULL orb].
  erewrite bind_val by reflexivity.
  erewrite bind_val by (apply on_outfile_write_run; eassumption).
  reflexivity.
Qed.

(** X11. While no view is due for a rotation ([SHOULD_ROTATE] is false,
    which it always is without a rotation interval), the archiver in
    binary mode appends the frame of every view it processes to the output
    file that is open: after any sequence of writable views the file holds
    what it held before followed by the frames of the views in order, no
    file has been closed, and nothing else of the state has changed. *)
Theorem archiver_appends_within_period (views : list bgpview) :
  forall (st : bvc_archiver_state) (f : iow_file),
    outfile st = Some f -> output_format st = BINARY ->
    Forall (fun v => writable v = true /\
                     SHOULD_ROTATE st (view_time v) = false) views ->
    foreach views (fun v _ => process_view v) 0 st
    = Val 0 (set_outfile st
               (Some {| iow_name := iow_name f;
                        iow_bytes :=
                          iow_bytes f
                          ++ concat (map (wire_view (host_bytes host))
                                       views) |})) /\
    (rotation_interval st = 0 -> forall t, SHOULD_ROTATE st t = false).
Proof.
  induction views as [|v vs IH]; intros st f Hf Hfmt Hall.
  - split; [|intros H0 t; unfold SHOULD_ROTATE; rewrite H0; reflexivity].
    cbn [foreach map concat]. rewrite app_nil_r. unfold ret. f_equal.
    destruct st, f. cbn in Hf. subst. reflexivity.
  - split; [|intros H0 t; unfold SHOULD_ROTATE; rewrite H0; reflexivity].
    apply Forall_cons in Hall as [[Hv Hrot] Hall].
    cbn [foreach]. erewrite bind_val
      by (apply process_view_append; eassumption).
    destruct (IH (set_outfile st
                    (Some {| iow_name := iow_name f;
                             iow_bytes := iow_bytes f
                                          ++ wire_view (host_bytes host) v |}))
                {| iow_name := iow_name f;
                   iow_bytes := iow_bytes f
                                ++ wire_view (host_bytes host) v |}
                eq_refl Hfmt Hall) as [Hrun _].
    rewrite Hrun. cbn [map concat iow_name iow_bytes].
    rewrite <- app_assoc. reflexivity.
Qed.

End ArchiverFacts.

Section ArchiverRotation.

Variable host : byte_order.
Variable strftime : list byte -> Z -> list byte.
Variable wandio_wcreate_ok : list byte -> bool.
Variable bgpview_io_file_print : bgpview -> list byte.

Lemma aligned_file_time (t ri : Z) :
  0 <= t < 2 ^ 32 -> 0 < ri ->
  (t / ri * ri) mod 2 ^ 32 = t / ri * ri /\
  (t / ri * ri) mod ri = 0 /\
  t / ri * ri <= t < t / ri * ri + ri.
Proof.
  intros Ht Hri.
  pose proof (Z.mul_div_le t ri Hri) as Hle.
  pose proof (Z.div_pos t ri ltac:(lia) Hri) as Hq.
  pose proof (Z.mod_pos_bound t ri Hri) as Hm.
  pose proof (Z.div_mod t ri ltac:(lia)) as Hdm.
  split; [apply Z.mod_small; nia|].
  split; [apply Z.mod_mul; lia|]. lia.
Qed.

(** X12. The first view an archiver with a rotation interval and
    alignment processes opens the file named for the start of the view's
    rotation period: the time handed to [generate_file_name] is the view
    time rounded down to a multiple of the interval, the next rotation is
    due one interval later (modulo 2^32), the view time lies in between,
    and in binary mode the new file holds exactly the frame of the view. *)
Theorem archiver_opens_aligned_file (st : bvc_archiver_state) (v : bgpview)
  (pattern name : list byte) :
  let ri := rotation_interval st in
  let t := view_time v in
  let file_time := t / ri * ri in
  outfile st = None -> output_format st = BINARY ->
  0 < ri < 2 ^ 32 -> rotate_noalign st = 0 ->
  0 <= t < 2 ^ 32 -> writable v = true ->
  outfile_pattern st = Some pattern ->
  generate_file_name strftime pattern file_time = Some name ->
  wandio_wcreate_ok name = true ->
  exists st',
    bvc_archiver_process_view host strftime wandio_wcreate_ok
      bgpview_io_file_print v st = Val 0 st' /\
    outfile st' = Some {| iow_name := name;
                          iow_bytes := wire_view (host_bytes host) v |} /\
    outfile_name st' = Some name /\
    next_rotate_time st' = (file_time + ri) mod 2 ^ 32 /\
    file_time mod ri = 0 /\ file_time <= t < file_time + ri /\
    closed st' = closed st /\ rotation_interval st' = ri.
Proof.
  intros ri t file_time Hout Hfmt Hri Hal Ht Hv Hpat Hname Hok.
  destruct (aligned_file_time t ri Ht ltac:(lia)) as (Hmod & Hmul & Hrange).
  unfold file_time in *.
  eexists. split.
  - unfold bvc_archiver_process_view.
    unfold bind at 1, get at 1.
    unfold bgpview_get_time. fold t. rewrite Hout, Hfmt, Hpat, Hal.
    fold ri. cbn [is_NULL orb negb Z.eqb].
    rewrite (proj2 (Z.gtb_gt ri 0)) by lia.
    rewrite Hmod.
    unfold bind, get, put, ret. cbn [Z.eqb negb].
    rewrite Hname, Hok.
    erewrite (on_outfile_write_run host _ _ v)
      by (first [exact Hv|reflexivity]).
    cbn [Z.eqb negb]. reflexivity.
  - cbn [outfile outfile_name next_rotate_time closed rotation_interval
         set_outfile set_outfile_name set_next_rotate_time iow_name
         iow_bytes app].
    fold ri. auto 10.
Qed.

Lemma complete_file_run (st : bvc_archiver_state) (f : iow_file)
  (old latest : list byte) :
  outfile st = Some f -> outfile_name st = Some old ->
  latest_filename st = Some latest ->
  complete_file wandio_wcreate_ok st
  = if wandio_wcreate_ok latest
    then Val 0 (set_outfile_name
                  (wandio_wdestroy
                     (set_outfile (wandio_wdestroy st f) None)
                     {| iow_name := latest;
                        iow_bytes := old ++ [char_newline] |})
                  None)
    else Val (-1) (set_outfile (wandio_wdestroy st f) None).
Proof.
  intros Hout Hold Hlat. unfold complete_file. rewrite Hout.
  cbn [latest_filename set_outfile wandio_wdestroy outfile_name].
  rewrite Hlat, Hold. destruct (wandio_wcreate_ok latest); reflexivity.
Qed.

(** X13. A view that is due for a rotation closes the output file first:
    with a latest-file name configured, the archiver closes the current
    file, writes its name and a newline to the latest file and closes
    that, and then opens the file of the new rotation period, which
    receives the frame of the view. When the latest file cannot be
    created, the consumer fails: the old file has been closed and the view
    is written nowhere. *)
Theorem archiver_rotates (st : bvc_archiver_state) (v : bgpview)
  (f : iow_file) (old pattern name latest : list byte) :
  let ri := rotation_interval st in
  let t := view_time v in
  let file_time := t / ri * ri in
  outfile st = Some f -> outfile_name st = Some old ->
  latest_filename st = Some latest -> output_format st = BINARY ->
  0 < ri < 2 ^ 32 -> rotate_noalign st = 0 ->
  0 <= t < 2 ^ 32 -> next_rotate_time st <= t -> writable v = true ->
  outfile_pattern st = Some pattern ->
  generate_file_name strftime pattern file_time = Some name ->
  wandio_wcreate_ok name = true ->
  let run := bvc_archiver_process_view host strftime wandio_wcreate_ok
               bgpview_io_file_print v st in
  (wandio_wcreate_ok latest = true ->
   exists st',
     run = Val 0 st' /\
     closed st' = closed st
                  ++ [f; {| iow_name := latest;
                            iow_bytes := old ++ [char_newline] |}] /\
     outfile st' = Some {| iow_name := name;
                           iow_bytes := wire_view (host_bytes host) v |} /\
     outfile_name st' = Some name /\
     next_rotate_time st' = (file_time + ri) mod 2 ^ 32) /\
  (wandio_wcreate_ok latest = false ->
   exists st',
     run = Err st' /\ closed st' = closed st ++ [f] /\ outfile st' = None).
Proof.
  intros ri t file_time Hout Hold Hlat Hfmt Hri Hal Ht Hdue Hv Hpat Hname
    Hok run.
  destruct (aligned_file_time t ri Ht ltac:(lia)) as (Hmod & _ & _).
  unfold file_time in *.
  assert (Hrot : SHOULD_ROTATE st t = true).
  { unfold SHOULD_ROTATE. fold ri.
    rewrite (proj2 (Z.gtb_gt ri 0)) by lia.
    apply Z.geb_le. exact Hdue. }
  assert (Hrun : run
    = ((file_time0 <-
          (r <- complete_file wandio_wcreate_ok ;;
           if negb (r =? 0) then fail
           else
             state1 <- get ;;
             put (set_next_rotate_time state1
                    ((t / ri * ri + ri) mod 2 ^ 32)) ;;;
             ret (t / ri * ri)) ;;
        match generate_file_name strftime pattern file_time0 with
        | Some name0 =>
            state2 <- get ;;
            put (set_outfile_name state2 (Some name0)) ;;;
            state3 <- get ;;
            if wandio_wcreate_ok name0
            then put (set_outfile state3
                        (Some {| iow_name := name0; iow_bytes := [] |}))
            else put (set_outfile state3 None) ;;; fail
        | None => undef
        end) ;;;
       r <- on_outfile (bgpview_io_file_write host (Some v) None) ;;
       if negb (r =? 0) then fail else ret 0) st).
  { subst run. unfold bvc_archiver_process_view.
    unfold bind at 1, get at 1.
    unfold bgpview_get_time. fold t.
    rewrite Hout, Hrot, Hfmt, Hpat, Hal. fold ri.
    cbn [is_NULL orb negb Z.eqb].
    rewrite (proj2 (Z.gtb_gt ri 0)) by lia.
    rewrite Hmod. reflexivity. }
  split; intros Hl.
  - eexists. split.
    + rewrite Hrun.
      unfold bind at 1. unfold bind at 1. unfold bind at 1.
      rewrite (complete_file_run st f old latest Hout Hold Hlat), Hl.
      unfold bind, get, put, ret. cbn [Z.eqb negb].
      rewrite Hname, Hok.
      erewrite (on_outfile_write_run host _ _ v)
        by (first [exact Hv|reflexivity]).
      cbn [Z.eqb negb]. reflexivity.
    + cbn [outfile outfile_name next_rotate_time closed rotation_interval
           set_outfile set_outfile_name set_next_rotate_time wandio_wdestroy
           iow_name iow_bytes app].
      rewrite <- app_assoc. auto.
  - eexists. split.
    + rewrite Hrun.
      unfold bind at 1. unfold bind at 1. unfold bind at 1.
      rewrite (complete_file_run st f old latest Hout Hold Hlat), Hl.
      unfold fail. cbn [Z.eqb negb Z.opp Pos.eqb]. reflexivity.
    + cbn [outfile closed set_outfile wandio_wdestroy]. auto.
Qed.

End ArchiverRotation.

Lemma archiver_appends_within_period_witness :
  let st := set_next_rotate_time archiver_hourly_open 7200 in
  let f := {| iow_name := name_v_0; iow_bytes := [] |} in
  outfile st = Some f /\ output_format st = BINARY /\
  Forall (fun v => writable v = true /\
                   SHOULD_ROTATE st (view_time v) = false)
    [view_one; view_inactive_peer] /\
  foreach [view_one; view_inactive_peer]
    (fun v _ => bvc_archiver_process_view LittleEndian strftime_plain
                  wcreate_always print_nothing v) 0 st
  = Val 0 (set_outfile st
             (Some {| iow_name := iow_name f;
                      iow_bytes :=
                        iow_bytes f
                        ++ concat (map (wire_view (host_bytes LittleEndian))
                                     [view_one; view_inactive_peer]) |})) /\
  (rotation_interval st = 0 -> forall t, SHOULD_ROTATE st t = false).
Proof.
  intros st f.
  assert (H1 : outfile st = Some f) by reflexivity.
  assert (H2 : output_format st = BINARY) by reflexivity.
  assert (H3 : Forall (fun v => writable v = true /\
                                SHOULD_ROTATE st (view_time v) = false)
                 [view_one; view_inactive_peer])
    by (repeat constructor; vm_compute; reflexivity).
  split; [exact H1|]. split; [exact H2|]. split; [exact H3|].
  exact (archiver_appends_within_period LittleEndian strftime_plain
           wcreate_always print_nothing [view_one; view_inactive_peer]
           st f H1 H2 H3).
Defined.

Lemma archiver_opens_aligned_file_witness :
  let st := archiver_hourly in
  let v := bgpview_set_time view_one 5000 in
  outfile st = None /\ output_format st = BINARY /\
  0 < rotation_interval st < 2 ^ 32 /\ rotate_noalign st = 0 /\
  0 <= view_time v < 2 ^ 32 /\ writable v = true /\
  outfile_pattern st = Some pattern_v /\
  generate_file_name strftime_plain pattern_v
    (view_time v / rotation_interval st * rotation_interval st)
  = Some name_v_3600 /\
  wcreate_always name_v_3600 = true /\
  exists st',
    bvc_archiver_process_view BigEndian strftime_plain wcreate_always
      print_nothing v st = Val 0 st' /\
    outfile st' = Some {| iow_name := name_v_3600;
                          iow_bytes := wire_view (host_bytes BigEndian) v |} /\
    outfile_name st' = Some name_v_3600 /\
    next_rotate_time st'
    = (view_time v / rotation_interval st * rotation_interval st
       + rotation_interval st) mod 2 ^ 32 /\
    (view_time v / rotation_interval st * rotation_interval st)
      mod rotation_interval st = 0 /\
    view_time v / rotation_interval st * rotation_interval st
      <= view_time v
      < view_time v / rotation_interval st * rotation_interval st
        + rotation_interval st /\
    closed st' = closed st /\ rotation_interval st' = rotation_interval st.
Proof.
  intros st v.
  assert (H1 : outfile st = None) by reflexivity.
  assert (H2 : output_format st = BINARY) by reflexivity.
  assert (H3 : 0 < rotation_interval st < 2 ^ 32)
    by (vm_compute; split; reflexivity).
  assert (H4 : rotate_noalign st = 0) by reflexivity.
  assert (H5 : 0 <= view_time v < 2 ^ 32)
    by (vm_compute; split; [discriminate|reflexivity]).
  assert (H6 : writable v = true) by (vm_compute; reflexivity).
  assert (H7 : outfile_pattern st = Some pattern_v) by reflexivity.
  assert (H8 : generate_file_name strftime_plain pattern_v
                 (view_time v / rotation_interval st * rotation_interval st)
               = Some name_v_3600) by (vm_compute; reflexivity).
  assert (H9 : wcreate_always name_v_3600 = true) by reflexivity.
  repeat (split; [assumption|]).
  exact (archiver_opens_aligned_file BigEndian strftime_plain wcreate_always
           print_nothing st v pattern_v name_v_3600
           H1 H2 H3 H4 H5 H6 H7 H8 H9).
Defined.

Lemma archiver_rotates_witness :
  let st := archiver_hourly_open in
  let v := view_one in
  let f := {| iow_name := name_v_0; iow_bytes := [] |} in
  outfile st = Some f /\ outfile_name st = Some name_v_0 /\
  latest_filename st = Some name_latest /\ output_format st = BINARY /\
  0 < rotation_interval st < 2 ^ 32 /\ rotate_noalign st = 0 /\
  0 <= view_time v < 2 ^ 32 /\ next_rotate_time st <= view_time v /\
  writable v = true /\ outfile_pattern st = Some pattern_v /\
  generate_file_name strftime_plain pattern_v
    (view_time v / rotation_interval st * rotation_interval st)
  = Some name_v_3600 /\
  wcreate_always name_v_3600 = true /\
  (wcreate_always name_latest = true ->
   exists st',
     bvc_archiver_process_view LittleEndian strftime_plain wcreate_always
       print_nothing v st = Val 0 st' /\
     closed st' = closed st
                  ++ [f; {| iow_name := name_latest;
                            iow_bytes := name_v_0 ++ [char_newline] |}] /\
     outfile st' = Some {| iow_name := name_v_3600;
                           iow_bytes := wire_view (host_bytes LittleEndian) v |} /\
     outfile_name st' = Some name_v_3600 /\
     next_rotate_time st'
     = (view_time v / rotation_interval st * rotation_interval st
        + rotation_interval st) mod 2 ^ 32) /\
  (wcreate_always name_latest = false ->
   exists st',
     bvc_archiver_process_view LittleEndian strftime_plain wcreate_always
       print_nothing v st = Err st' /\
     closed st' = closed st ++ [f] /\ outfile st' = None).
Proof.
  intros st v f.
  assert (H1 : outfile st = Some f) by reflexivity.
  assert (H2 : outfile_name st = Some name_v_0) by reflexivity.
  assert (H3 : latest_filename st = Some name_latest) by reflexivity.
  assert (H4 : output_format st = BINARY) by reflexivity.
  assert (H5 : 0 < rotation_interval st < 2 ^ 32)
    by (vm_compute; split; reflexivity).
  assert (H6 : rotate_noalign st = 0) by reflexivity.
  assert (H7 : 0 <= view_time v < 2 ^ 32)
    by (vm_compute; split; [discriminate|reflexivity]).
  assert (H8 : next_rotate_time st <= view_time v)
    by (vm_compute; discriminate).
  assert (H9 : writable v = true) by (vm_compute; reflexivity).
  assert (H10 : outfile_pattern st = Some pattern_v) by reflexivity.
  assert (H11 : generate_file_name strftime_plain pattern_v
                  (view_time v / rotation_interval st * rotation_interval st)
                = Some name_v_3600) by (vm_compute; reflexivity).
  assert (H12 : wcreate_always name_v_3600 = true) by reflexivity.
  repeat (split; [assumption|]).
  exact (archiver_rotates LittleEndian strftime_plain wcreate_always
           print_nothing st v f name_v_0 pattern_v name_v_3600 name_latest
           H1 H2 H3 H4 H5 H6 H7 H8 H9 H10 H11 H12).
Defined.

(** ** Start-up of the Kafka client ([bgpview_io_kafka.c]) *)

Lemma attempts_log_sleeps (k : nat) :
  forall wait,
    omap sleep_of (attempts_log k wait) = backoff_waits (k - 1) wait /\
    length (filter (fun e => is_connect e = true) (attempts_log k wait)) = k.
Proof.
  induction k as [|k IH]; intros wait; [split; reflexivity|].
  destruct k as [|k]; [split; reflexivity|].
  change (attempts_log (Datatypes.S (Datatypes.S k)) wait)
    with (EvConnect :: EvSleep wait
          :: attempts_log (Datatypes.S k)
               (if wait * 2 >? 180 then 180 else wait * 2)).
  destruct (IH (if wait * 2 >? 180 then 180 else wait * 2)) as [Hs Hc].
  split.
  - change (omap sleep_of (EvConnect :: EvSleep wait :: ?l))
      with (wait :: omap sleep_of l).
    rewrite Hs. cbn [Nat.sub]. rewrite Nat.sub_0_r. reflexivity.
  - rewrite filter_cons_True by reflexivity.
    rewrite filter_cons_False by (cbn; discriminate).
    cbn [length]. rewrite Hc. reflexivity.
Qed.

Lemma backoff_waits_bounds (n : nat) :
  forall wait, 10 <= wait <= 180 ->
    Forall (fun s => 10 <= s <= 180) (backoff_waits n wait).
Proof.
  induction n as [|n IH]; intros wait Hw; [constructor|].
  cbn [backoff_waits]. constructor; [exact Hw|].
  apply IH. destruct (Z.gtb_spec (wait * 2) 180); lia.
Qed.

Section KafkaTopicFacts.

Variable IDENTITY_MAX_LEN : Z.
Variable bgpview_io_kafka_consumer_topic_connect
  : kafka_client_t -> bgpview_io_kafka_topic_id_t -> list byte ->
    Z * kafka_client_t.
Variable bgpview_io_kafka_producer_topic_connect
  : kafka_client_t -> bgpview_io_kafka_topic_id_t -> list byte ->
    Z * kafka_client_t.

Abbreviation topic_connect_loop :=
  (kafka_topic_connect_loop IDENTITY_MAX_LEN
     bgpview_io_kafka_consumer_topic_connect
     bgpview_io_kafka_producer_topic_connect).
Abbreviation single_topic_connect :=
  (bgpview_io_kafka_single_topic_connect IDENTITY_MAX_LEN
     bgpview_io_kafka_consumer_topic_connect
     bgpview_io_kafka_producer_topic_connect).

Lemma single_topic_connect_quiet (ident : option (list byte))
  (id : bgpview_io_kafka_topic_id_t) (w : kafka_run) :
  let Q := fun w' =>
    exists l, kr_log w' = kr_log w ++ l /\ Forall quiet_event l in
  post (single_topic_connect ident id w) (fun _ => Q) Q.
Proof.
  intros Q; subst Q.
  assert (Hnil : exists l, kr_log w = kr_log w ++ l /\ Forall quiet_event l)
    by (exists []; rewrite app_nil_r; split; [reflexivity|constructor]).
  assert (Hone : forall n, exists l,
             kr_log w ++ [EvTopicConnect n] = kr_log w ++ l /\
             Forall quiet_event l).
  { intros n. exists [EvTopicConnect n]. split; [reflexivity|].
    repeat constructor. }
  unfold bgpview_io_kafka_single_topic_connect.
  unfold bind at 1, get at 1.
  destruct (namespace (kr_client w)) as [ns|]; [|exact I].
  apply post_bind.
  match goal with
  | |- post (?m w) _ _ =>
      assert (Hm : m w = Abort \/ exists full, m w = Val full w)
  end.
  { destruct (_ || _); [right; eexists; reflexivity|].
    destruct (bool_decide _).
    - destruct (channel (kr_client w)); [right; eexists; reflexivity|now left].
    - destruct ident; [right; eexists; reflexivity|now left]. }
  destruct Hm as [->|[full ->]]; [exact I|]. cbn [post].
  unfold bind at 1, kafka_set_client at 1; cbn [kr_log kr_client].
  destruct (_ >=? _); [exact Hnil|].
  destruct (rkt _); cbn [negb]; [exact Hnil|].
  unfold bind at 1, get at 1; cbn [kr_log kr_client set_topic mode].
  destruct (mode (kr_client w)); try exact I;
    unfold bind, kafka_log, kafka_set_client, ret; cbn [kr_log kr_client];
    destruct (negb _); cbn [post kr_log]; apply Hone.
Qed.

Lemma topic_connect_loop_quiet (ids : list bgpview_io_kafka_topic_id_t) :
  forall w,
    let Q := fun w' =>
      exists l, kr_log w' = kr_log w ++ l /\ Forall quiet_event l in
    post (topic_connect_loop ids w) (fun _ => Q) Q.
Proof.
  induction ids as [|id ids IH]; intros w Q; subst Q.
  - cbn. exists []. rewrite app_nil_r. split; [reflexivity|constructor].
  - cbn [kafka_topic_connect_loop]. unfold bind at 1, get at 1.
    destruct (topic_skipped _ _); [apply IH|].
    unfold bind at 1, assert at 1.
    destruct (negb (is_NULL _)); [|exact I].
    apply post_bind.
    eapply post_mono; [apply single_topic_connect_quiet| |]; cbv beta.
    + intros r w1 (l1 & Hl1 & Hq1).
      destruct (negb (r =? 0)); [cbn; eauto|].
      eapply post_mono; [apply IH| |]; cbv beta zeta.
      * intros _ w2 (l2 & Hl2 & Hq2). exists (l1 ++ l2).
        rewrite Hl2, Hl1, <- app_assoc. split; [reflexivity|].
        apply Forall_app; split; assumption.
      * intros w2 (l2 & Hl2 & Hq2). exists (l1 ++ l2).
        rewrite Hl2, Hl1, <- app_assoc. split; [reflexivity|].
        apply Forall_app; split; assumption.
    + intros w1 H; exact H.
Qed.

Lemma single_topic_connect_run (w : kafka_run)
  (id : bgpview_io_kafka_topic_id_t) (ns : list byte)
  (ident : option (list byte)) :
  namespace (kr_client w) = Some ns ->
  mode (kr_client w) <> BGPVIEW_IO_KAFKA_MODE_AUTO_CONSUMER ->
  rkt (topics (kr_client w) id) = false ->
  (ident = None ->
   id <> BGPVIEW_IO_KAFKA_TOPIC_ID_PFXS /\
   id <> BGPVIEW_IO_KAFKA_TOPIC_ID_PEERS) ->
  Z.of_nat (length (topic_full_name ns ident (channel (kr_client w)) id))
  < IDENTITY_MAX_LEN ->
  sets_handle
    (topic_connect_of (mode (kr_client w))
       bgpview_io_kafka_consumer_topic_connect
       bgpview_io_kafka_producer_topic_connect) ->
  exists c',
    single_topic_connect ident id w =
      Val 0 {| kr_client := c';
               kr_log := kr_log w ++
                 [EvTopicConnect
                    (topic_full_name ns ident (channel (kr_client w)) id)] |}
    /\
    mode c' = mode (kr_client w) /\
    namespace c' = namespace (kr_client w) /\
    identity c' = identity (kr_client w) /\
    channel c' = channel (kr_client w) /\
    forall id',
      topics c' id' =
      if decide (id' = id)
      then {| topic_name := topic_full_name ns ident
                              (channel (kr_client w)) id;
              rkt := true |}
      else topics (kr_client w) id'.
Proof.
  intros Hns Hmode Hrkt Hid Hfit Hf.
  eexists. split.
  - unfold bgpview_io_kafka_single_topic_connect.
    unfold bind at 1, get at 1. rewrite Hns. cbv beta iota.
    match goal with
    | |- bind ?m _ w = _ =>
        assert (Hfull : m w =
                  Val (topic_full_name ns ident (channel (kr_client w)) id)
                    w)
    end.
    { destruct ident as [idt|];
        [|destruct (Hid eq_refl) as [Hn1 Hn2]];
        destruct id; try contradiction;
        cbn [bool_decide decide_rel orb andb];
        destruct (channel (kr_client w)); reflexivity. }
    erewrite bind_val by exact Hfull. cbv zeta.
    rewrite firstn_all2 by lia.
    unfold bind at 1, kafka_set_client at 1; cbn [kr_log kr_client].
    rewrite Z.geb_leb, (proj2 (Z.leb_gt _ _)) by exact Hfit.
    rewrite Hrkt. cbn [negb].
    unfold bind at 1, get at 1; cbn [kr_log kr_client set_topic mode].
    destruct (mode (kr_client w)) eqn:Hm; [| |contradiction|];
      cbn [topic_connect_of] in Hf; rewrite Hf;
      unfold bind, kafka_log, kafka_set_client, ret;
      cbn [kr_log kr_client fst snd Z.eqb negb]; reflexivity.
  - cbn [set_topic mode namespace identity channel topics topic_name].
    do 4 (split; [reflexivity|]).
    intros id'. destruct (decide (id' = id)) as [->|Hne]; [|reflexivity].
    rewrite decide_True by reflexivity. reflexivity.
Qed.

Lemma topic_connect_loop_run (ns : list byte)
  (ids : list bgpview_io_kafka_topic_id_t) :
  forall w,
    namespace (kr_client w) = Some ns ->
    mode (kr_client w) <> BGPVIEW_IO_KAFKA_MODE_AUTO_CONSUMER ->
    (forall id,
       id ∈ ids -> topic_skipped (mode (kr_client w)) id = false ->
       rkt (topics (kr_client w) id) = false /\
       (identity (kr_client w) = None ->
        id <> BGPVIEW_IO_KAFKA_TOPIC_ID_PFXS /\
        id <> BGPVIEW_IO_KAFKA_TOPIC_ID_PEERS) /\
       Z.of_nat
         (length (topic_full_name ns (identity (kr_client w))
                    (channel (kr_client w)) id))
       < IDENTITY_MAX_LEN) ->
    sets_handle
      (topic_connect_of (mode (kr_client w))
         bgpview_io_kafka_consumer_topic_connect
         bgpview_io_kafka_producer_topic_connect) ->
    NoDup ids ->
    exists w',
      topic_connect_loop ids w = Val 0 w' /\
      kr_log w' =
        kr_log w ++
        map (fun id =>
               EvTopicConnect
                 (topic_full_name ns (identity (kr_client w))
                    (channel (kr_client w)) id))
          (List.filter
             (fun id => negb (topic_skipped (mode (kr_client w)) id)) ids) /\
      mode (kr_client w') = mode (kr_client w) /\
      forall id,
        topics (kr_client w') id =
        if bool_decide (id ∈ ids)
           && negb (topic_skipped (mode (kr_client w)) id)
        then {| topic_name := topic_full_name ns (identity (kr_client w))
                                (channel (kr_client w)) id;
                rkt := true |}
        else topics (kr_client w) id.
Proof.
  induction ids as [|id ids IH]; intros w Hns Hmode Hok Hf Hnd.
  - exists w. cbn. rewrite app_nil_r. auto.
  - apply NoDup_cons in Hnd as [Hni Hnd].
    cbn [kafka_topic_connect_loop]. unfold bind at 1, get at 1.
    cbn [List.filter].
    destruct (topic_skipped (mode (kr_client w)) id) eqn:Hsk; cbn [negb].
    + destruct (IH w Hns Hmode) as (w' & Hrun & Hlog & Hmd & Htop);
        [intros id0 Hin; apply Hok; right; exact Hin|exact Hf|exact Hnd|].
      exists w'. split; [exact Hrun|]. split; [exact Hlog|].
      split; [exact Hmd|].
      intros id0. rewrite Htop.
      destruct (decide (id0 = id)) as [->|Hne].
      * rewrite Hsk, !andb_false_r. reflexivity.
      * rewrite (bool_decide_ext (id0 ∈ id :: ids) (id0 ∈ ids));
          [reflexivity|].
        rewrite elem_of_cons. tauto.
    + destruct (Hok id ltac:(left) Hsk) as (Hrkt & Hid & Hfit).
      unfold bind at 1, assert at 1. rewrite Hns. cbn [is_NULL negb].
      change (ret () w) with (Val () w). cbv iota.
      destruct (single_topic_connect_run w id ns (identity (kr_client w))
                  Hns Hmode Hrkt Hid Hfit Hf)
        as (c' & Hrun & Hm' & Hn' & Hi' & Hc' & Htop').
      erewrite bind_val by exact Hrun. cbn [Z.eqb negb].
      match goal with
      | |- exists w', kafka_topic_connect_loop _ _ _ _ ?w1 = _ /\ _ =>
          destruct (IH w1) as (w' & Hrun' & Hlog' & Hmd' & Htop'')
      end; cbn [kr_client kr_log].
      * rewrite Hn'. exact Hns.
      * rewrite Hm'. exact Hmode.
      * intros id0 Hin Hsk0. rewrite Hm' in Hsk0.
        rewrite Hi', Hc', Htop'.
        destruct (decide (id0 = id)) as [->|Hne]; [contradiction|].
        apply Hok; [right; exact Hin|exact Hsk0].
      * rewrite Hm'. exact Hf.
      * exact Hnd.
      * exists w'. split; [exact Hrun'|].
        cbn [kr_client kr_log] in Hlog', Hmd', Htop''.
        rewrite Hm', Hi', Hc' in Hlog', Htop''. rewrite Hm' in Hmd'.
        split; [|split; [exact Hmd'|]].
        -- rewrite Hlog'. cbn [map]. rewrite <- app_assoc. reflexivity.
        -- intros id0. rewrite Htop'', Htop'.
           destruct (decide (id0 = id)) as [->|Hne].
           ++ rewrite Hsk. rewrite bool_decide_eq_false_2 by exact Hni.
              rewrite bool_decide_eq_true_2 by left. reflexivity.
           ++ rewrite (bool_decide_ext (id0 ∈ id :: ids) (id0 ∈ ids));
                [reflexivity|].
              rewrite elem_of_cons. tauto.
Qed.

Lemma single_topic_connect_set (w : kafka_run)
  (id : bgpview_io_kafka_topic_id_t) (ns : list byte)
  (ident : option (list byte)) :
  namespace (kr_client w) = Some ns ->
  rkt (topics (kr_client w) id) = true ->
  (ident = None ->
   id <> BGPVIEW_IO_KAFKA_TOPIC_ID_PFXS /\
   id <> BGPVIEW_IO_KAFKA_TOPIC_ID_PEERS) ->
  Z.of_nat (length (topic_full_name ns ident (channel (kr_client w)) id))
  < IDENTITY_MAX_LEN ->
  exists c',
    single_topic_connect ident id w
    = Val 0 {| kr_client := c'; kr_log := kr_log w |} /\
    mode c' = mode (kr_client w) /\
    namespace c' = namespace (kr_client w) /\
    identity c' = identity (kr_client w) /\
    channel c' = channel (kr_client w) /\
    forall id',
      topics c' id' =
      if decide (id' = id)
      then {| topic_name := topic_full_name ns ident
                              (channel (kr_client w)) id;
              rkt := true |}
      else topics (kr_client w) id'.
Proof.
  intros Hns Hrkt Hid Hfit.
  eexists. split.
  - unfold bgpview_io_kafka_single_topic_connect.
    unfold bind at 1, get at 1. rewrite Hns. cbv beta iota.
    match goal with
    | |- bind ?m _ w = _ =>
        assert (Hfull : m w =
                  Val (topic_full_name ns ident (channel (kr_client w)) id)
                    w)
    end.
    { destruct ident as [idt|];
        [|destruct (Hid eq_refl) as [Hn1 Hn2]];
        destruct id; try contradiction;
        cbn [bool_decide decide_rel orb andb];
        destruct (channel (kr_client w)); reflexivity. }
    erewrite bind_val by exact Hfull. cbv zeta.
    rewrite firstn_all2 by lia.
    unfold bind at 1, kafka_set_client at 1; cbn [kr_log kr_client].
    rewrite Z.geb_leb, (proj2 (Z.leb_gt _ _)) by exact Hfit.
    rewrite Hrkt. cbn [negb]. reflexivity.
  - cbn [set_topic mode namespace identity channel topics topic_name].
    do 4 (split; [reflexivity|]).
    intros id'. destruct (decide (id' = id)) as [->|Hne]; reflexivity.
Qed.

Lemma topic_connect_loop_run_any (ns : list byte)
  (ids : list bgpview_io_kafka_topic_id_t) :
  forall w,
    namespace (kr_client w) = Some ns ->
    mode (kr_client w) <> BGPVIEW_IO_KAFKA_MODE_AUTO_CONSUMER ->
    (forall id,
       id ∈ ids -> topic_skipped (mode (kr_client w)) id = false ->
       (identity (kr_client w) = None ->
        id <> BGPVIEW_IO_KAFKA_TOPIC_ID_PFXS /\
        id <> BGPVIEW_IO_KAFKA_TOPIC_ID_PEERS) /\
       Z.of_nat
         (length (topic_full_name ns (identity (kr_client w))
                    (channel (kr_client w)) id))
       < IDENTITY_MAX_LEN) ->
    sets_handle
      (topic_connect_of (mode (kr_client w))
         bgpview_io_kafka_consumer_topic_connect
         bgpview_io_kafka_producer_topic_connect) ->
    NoDup ids ->
    exists w',
      topic_connect_loop ids w = Val 0 w' /\
      kr_log w' =
        kr_log w ++
        map (fun id =>
               EvTopicConnect
                 (topic_full_name ns (identity (kr_client w))
                    (channel (kr_client w)) id))
          (List.filter
             (fun id => negb (topic_skipped (mode (kr_client w)) id)
                        && negb (rkt (topics (kr_client w) id))) ids) /\
      forall id,
        topics (kr_client w') id =
        if bool_decide (id ∈ ids)
           && negb (topic_skipped (mode (kr_client w)) id)
        then {| topic_name := topic_full_name ns (identity (kr_client w))
                                (channel (kr_client w)) id;
                rkt := true |}
        else topics (kr_client w) id.
Proof.
  induction ids as [|id ids IH]; intros w Hns Hmode Hok Hf Hnd.
  - exists w. cbn. rewrite app_nil_r. auto.
  - apply NoDup_cons in Hnd as [Hni Hnd].
    cbn [kafka_topic_connect_loop]. unfold bind at 1, get at 1.
    cbn [List.filter].
    destruct (topic_skipped (mode (kr_client w)) id) eqn:Hsk;
      cbn [negb andb].
    + destruct (IH w Hns Hmode) as (w' & Hrun & Hlog & Htop);
        [intros id0 Hin; apply Hok; right; exact Hin|exact Hf|exact Hnd|].
      exists w'. split; [exact Hrun|]. split; [exact Hlog|].
      intros id0. rewrite Htop.
      destruct (decide (id0 = id)) as [->|Hne].
      * rewrite Hsk, !andb_false_r. reflexivity.
      * rewrite (bool_decide_ext (id0 ∈ id :: ids) (id0 ∈ ids));
          [reflexivity|].
        rewrite elem_of_cons. tauto.
    + destruct (Hok id ltac:(left) Hsk) as (Hid & Hfit).
      unfold bind at 1, assert at 1. rewrite Hns. cbn [is_NULL negb].
      change (ret () w) with (Val () w). cbv iota.
      assert (Hone : exists c',
                single_topic_connect (identity (kr_client w)) id w
                = Val 0 {| kr_client := c';
                           kr_log := kr_log w ++
                             (if rkt (topics (kr_client w) id) then []
                              else [EvTopicConnect
                                      (topic_full_name ns
                                         (identity (kr_client w))
                                         (channel (kr_client w)) id)]) |} /\
                mode c' = mode (kr_client w) /\
                namespace c' = namespace (kr_client w) /\
                identity c' = identity (kr_client w) /\
                channel c' = channel (kr_client w) /\
                forall id',
                  topics c' id' =
                  if decide (id' = id)
                  then {| topic_name := topic_full_name ns
                                          (identity (kr_client w))
                                          (channel (kr_client w)) id;
                          rkt := true |}
                  else topics (kr_client w) id').
      { destruct (rkt (topics (kr_client w) id)) eqn:Hrkt.
        - destruct (single_topic_connect_set w id ns
                      (identity (kr_client w)) Hns Hrkt Hid Hfit)
            as (c' & Hrun & Hrest).
          exists c'. rewrite app_nil_r. split; [|exact Hrest].
          rewrite Hrun. destruct w; reflexivity.
        - exact (single_topic_connect_run w id ns (identity (kr_client w))
                   Hns Hmode Hrkt Hid Hfit Hf). }
      destruct Hone as (c' & Hrun & Hm' & Hn' & Hi' & Hc' & Htop').
      erewrite bind_val by exact Hrun. cbn [Z.eqb negb].
      match goal with
      | |- exists w', kafka_topic_connect_loop _ _ _ _ ?w1 = _ /\ _ =>
          destruct (IH w1) as (w' & Hrun' & Hlog' & Htop'')
      end; cbn [kr_client kr_log].
      * rewrite Hn'. exact Hns.
      * rewrite Hm'. exact Hmode.
      * intros id0 Hin Hsk0. rewrite Hm' in Hsk0.
        rewrite Hi', Hc'.
        apply Hok; [right; exact Hin|exact Hsk0].
      * rewrite Hm'. exact Hf.
      * exact Hnd.
      * exists w'. split; [exact Hrun'|].
        cbn [kr_client kr_log] in Hlog', Htop''.
        rewrite Hm', Hi', Hc' in Hlog', Htop''.
        assert (Hfilter :
          List.filter
            (fun id0 => negb (topic_skipped (mode (kr_client w)) id0)
                        && negb (rkt (topics c' id0))) ids
          = List.filter
              (fun id0 => negb (topic_skipped (mode (kr_client w)) id0)
                          && negb (rkt (topics (kr_client w) id0))) ids).
        { apply List.filter_ext_in. intros id0 Hin.
          apply list_elem_of_In in Hin. rewrite Htop'.
          destruct (decide (id0 = id)) as [->|Hne]; [contradiction|].
          reflexivity. }
        rewrite Hfilter in Hlog'. split.
        -- rewrite Hlog'.
           destruct (rkt (topics (kr_client w) id)); cbn [negb map];
             rewrite <- app_assoc; reflexivity.
        -- intros id0. rewrite Htop'', Htop'.
           destruct (decide (id0 = id)) as [->|Hne].
           ++ rewrite Hsk. rewrite bool_decide_eq_false_2 by exact Hni.
              rewrite bool_decide_eq_true_2 by left. reflexivity.
           ++ rewrite (bool_decide_ext (id0 ∈ id :: ids) (id0 ∈ ids));
                [reflexivity|].
              rewrite elem_of_cons. tauto.
Qed.

(** X14. On a client with a namespace (and an identity, unless it is a
    global consumer), whose topic names are shorter than
    [IDENTITY_MAX_LEN] and whose topic connect function succeeds and sets
    the handle it is given, [kafka_topic_connect] returns 0 and connects,
    in this order, those topics of the client's mode that have no handle
    yet (all of them on a fresh client, none when it is called again):
    [namespace.identity.pfxs], [namespace.identity.peers],
    [namespace.meta] and [namespace.members] for a producer; the first
    three for a direct consumer; [namespace.globalmeta], with [.channel]
    appended when a channel is set, for a global consumer. Afterwards every
    topic of the mode carries this name and a handle, and the other topics
    of the client are as they were. *)
Theorem kafka_topic_connect_names (w : kafka_run) (ns idt : list byte) :
  let c := kr_client w in
  let name := fun id =>
    match id with
    | BGPVIEW_IO_KAFKA_TOPIC_ID_PFXS | BGPVIEW_IO_KAFKA_TOPIC_ID_PEERS =>
        dotted [ns; idt; names id]
    | BGPVIEW_IO_KAFKA_TOPIC_ID_META | BGPVIEW_IO_KAFKA_TOPIC_ID_MEMBERS =>
        dotted [ns; names id]
    | BGPVIEW_IO_KAFKA_TOPIC_ID_GLOBALMETA =>
        match channel c with
        | None => dotted [ns; names id]
        | Some ch => dotted [ns; names id; ch]
        end
    end in
  let wanted :=
    match mode c with
    | BGPVIEW_IO_KAFKA_MODE_PRODUCER =>
        [BGPVIEW_IO_KAFKA_TOPIC_ID_PFXS; BGPVIEW_IO_KAFKA_TOPIC_ID_PEERS;
         BGPVIEW_IO_KAFKA_TOPIC_ID_META; BGPVIEW_IO_KAFKA_TOPIC_ID_MEMBERS]
    | BGPVIEW_IO_KAFKA_MODE_DIRECT_CONSUMER =>
        [BGPVIEW_IO_KAFKA_TOPIC_ID_PFXS; BGPVIEW_IO_KAFKA_TOPIC_ID_PEERS;
         BGPVIEW_IO_KAFKA_TOPIC_ID_META]
    | _ => [BGPVIEW_IO_KAFKA_TOPIC_ID_GLOBALMETA]
    end in
  namespace c = Some ns ->
  mode c <> BGPVIEW_IO_KAFKA_MODE_AUTO_CONSUMER ->
  (mode c <> BGPVIEW_IO_KAFKA_MODE_GLOBAL_CONSUMER ->
   identity c = Some idt) ->
  (forall id, id ∈ wanted ->
     Z.of_nat (length (name id)) < IDENTITY_MAX_LEN) ->
  sets_handle
    (topic_connect_of (mode c)
       bgpview_io_kafka_consumer_topic_connect
       bgpview_io_kafka_producer_topic_connect) ->
  exists w',
    kafka_topic_connect IDENTITY_MAX_LEN
      bgpview_io_kafka_consumer_topic_connect
      bgpview_io_kafka_producer_topic_connect w = Val 0 w' /\
    kr_log w' =
      kr_log w ++
      map (fun id => EvTopicConnect (name id))
        (List.filter (fun id => negb (rkt (topics c id))) wanted) /\
    (forall id, id ∈ wanted ->
       topics (kr_client w') id
       = {| topic_name := name id; rkt := true |}) /\
    (forall id, id ∉ wanted -> topics (kr_client w') id = topics c id).
Proof.
  intros c name wanted Hns Hmode Hidt Hfit Hf.
  assert (Hwanted : forall id,
            id ∈ wanted <-> topic_skipped (mode c) id = false).
  { intros id. subst wanted.
    destruct (mode c) eqn:Hm; [| |contradiction|]; destruct id;
      rewrite ?elem_of_cons, elem_of_nil; cbn; split;
      first [reflexivity | discriminate | tauto
            | intros H; repeat (destruct H as [H|H]; try discriminate H);
              contradiction
            | intros H; exfalso; tauto]. }
  assert (Hname : forall id,
            id ∈ wanted ->
            topic_full_name ns (identity c) (channel c) id = name id).
  { intros id Hin. subst name wanted.
    destruct (decide (mode c = BGPVIEW_IO_KAFKA_MODE_GLOBAL_CONSUMER))
      as [Hg|Hg].
    - rewrite Hg in Hin. apply list_elem_of_singleton in Hin as ->.
      reflexivity.
    - rewrite (Hidt Hg). destruct id; reflexivity. }
  destruct (topic_connect_loop_run_any ns topic_ids w Hns Hmode)
    as (w' & Hrun & Hlog & Htop).
  { intros id _ Hsk. apply Hwanted in Hsk as Hin. split.
    - intros Hnone.
      destruct (decide (mode c = BGPVIEW_IO_KAFKA_MODE_GLOBAL_CONSUMER))
        as [Hg|Hg].
      + subst wanted. rewrite Hg in Hin.
        apply list_elem_of_singleton in Hin as ->. split; discriminate.
      + fold c in Hnone. rewrite (Hidt Hg) in Hnone. discriminate.
    - fold c. rewrite (Hname id Hin). apply Hfit, Hin. }
  { exact Hf. }
  { apply (bool_decide_unpack _). vm_compute. exact I. }
  fold c in Hlog, Htop.
  exists w'. split; [exact Hrun|]. split; [|split].
  - rewrite Hlog. f_equal.
    assert (Hids : List.filter
                     (fun id => negb (topic_skipped (mode c) id)
                                && negb (rkt (topics c id))) topic_ids
                   = List.filter (fun id => negb (rkt (topics c id)))
                       wanted).
    { subst wanted. unfold topic_ids.
      destruct (mode c) eqn:Hm; [| |contradiction|];
        cbn [List.filter topic_skipped bool_decide decide_rel orb andb
               negb];
        repeat match goal with
               | |- context [rkt (topics c ?i)] =>
                   destruct (rkt (topics c i))
               end; reflexivity. }
    rewrite Hids. apply map_ext_in. intros id Hin.
    apply List.filter_In in Hin as [Hin _].
    apply list_elem_of_In in Hin. rewrite (Hname id Hin). reflexivity.
  - intros id Hin. rewrite Htop.
    rewrite bool_decide_eq_true_2
      by (unfold topic_ids; destruct id; rewrite !elem_of_cons; tauto).
    rewrite (proj1 (Hwanted id) Hin). cbn [andb negb].
    rewrite (Hname id Hin). reflexivity.
  - intros id Hout. rewrite Htop.
    destruct (topic_skipped (mode c) id) eqn:Hsk.
    + rewrite andb_false_r. reflexivity.
    + apply Hwanted in Hsk. contradiction.
Qed.

End KafkaTopicFacts.

Section KafkaStartFacts.

Variable IDENTITY_MAX_LEN : Z.
Variable BGPVIEW_IO_KAFKA_CONNECT_MAX_RETRIES : Z.
Variable bgpview_io_kafka_consumer_connect
  : kafka_client_t -> Z * kafka_client_t.
Variable bgpview_io_kafka_producer_connect
  : kafka_client_t -> Z * kafka_client_t.
Variable bgpview_io_kafka_consumer_topic_connect
  : kafka_client_t -> bgpview_io_kafka_topic_id_t -> list byte ->
    Z * kafka_client_t.
Variable bgpview_io_kafka_producer_topic_connect
  : kafka_client_t -> bgpview_io_kafka_topic_id_t -> list byte ->
    Z * kafka_client_t.
Variable gettimeofday : Z.

Abbreviation start_loop :=
  (kafka_start_loop bgpview_io_kafka_consumer_connect
     bgpview_io_kafka_producer_connect).

Lemma start_loop_log (n : nat) :
  forall wait w,
    let Q := fun w' =>
      exists k, (k <= n)%nat /\
        kr_log w' = kr_log w ++ attempts_log k wait /\
        (connected (kr_client w) = 0 -> (0 < n)%nat -> (1 <= k)%nat) /\
        (connected (kr_client w) <> 0 \/ n = 0%nat -> k = 0%nat) in
    post (start_loop n wait w) (fun _ => Q) Q.
Proof.
  induction n as [|n IH]; intros wait w Q; subst Q.
  - cbn. exists 0%nat. cbn [attempts_log]. rewrite app_nil_r.
    repeat split; [lia|lia].
  - cbn [kafka_start_loop]. unfold bind at 1, get at 1.
    destruct (Z.eqb_spec (connected (kr_client w)) 0) as [Hc|Hc]; cbn [negb].
    2:{ cbn. exists 0%nat. cbn [attempts_log]. rewrite app_nil_r.
        repeat split; [lia|contradiction]. }
    unfold bind at 1, kafka_connect at 1. unfold bind at 1, get at 1.
    destruct (mode (kr_client w)) eqn:Hm; try exact I;
      unfold bind at 1, kafka_log at 1;
      unfold bind at 1, kafka_set_client at 1; unfold ret at 1;
      cbn [kr_client kr_log].
    all: match goal with
         | |- context [fst ?r =? 0] =>
             destruct (Z.eqb_spec (fst r) 0) as [Hr|Hr]; cbn [negb]
         end.
    all: try (cbn; exists 1%nat; cbn [attempts_log];
              repeat split; [lia|lia|intros [H|H]; [contradiction|lia]]).
    all: unfold bind at 1, get at 1; cbn [kr_client kr_log].
    all: match goal with
         | |- context [connected ?c =? 0] =>
             destruct (Z.eqb_spec (connected c) 0) as [Hc1|Hc1]
         end.
    all: destruct (Z.gtb_spec (Z.of_nat n) 0) as [Hn|Hn]; cbn [andb].
    all: try (unfold bind at 1, kafka_log at 1; cbn [kr_client kr_log]).
    all: match goal with
         | |- post (kafka_start_loop _ _ ?n ?wt ?w1) _ _ =>
             specialize (IH wt w1); cbv zeta in IH;
             destruct (kafka_start_loop _ _ n wt w1) as [[] w'|w'| |];
             try exact I; cbn [post] in IH |- *;
             cbn [kr_client kr_log] in IH;
             destruct IH as (k & Hk & Hlog & Hge & Hz)
         end.
    (* after a sleep: at least one more attempt follows *)
    all: try (specialize (Hge Hc1 ltac:(lia));
              exists (Datatypes.S k); destruct k as [|k]; [lia|];
              cbn [attempts_log]; rewrite Hlog, <- !app_assoc;
              repeat split; [lia|lia|intros [H|H]; [contradiction|lia]]).
    (* no sleep: the loop is left *)
    all: assert (k = 0%nat) as -> by (apply Hz; first [left; assumption|right; lia]);
         exists 1%nat; cbn [attempts_log] in *;
         rewrite Hlog, app_nil_r;
         repeat split; [lia|lia|intros [H|H]; [contradiction|lia]].
Qed.

(** X15. The start-up tries to connect at most
    [BGPVIEW_IO_KAFKA_CONNECT_MAX_RETRIES] times, whatever the connect
    functions do: when it returns, what it did is [k] attempts with a sleep
    between each two, waiting 10 seconds the first time and twice as long
    each time after, never more than 180, followed only by the work on the
    topics. *)
Theorem kafka_start_backoff (w w' : kafka_run) :
  (exists r,
     bgpview_io_kafka_start IDENTITY_MAX_LEN
       BGPVIEW_IO_KAFKA_CONNECT_MAX_RETRIES
       bgpview_io_kafka_consumer_connect bgpview_io_kafka_producer_connect
       bgpview_io_kafka_consumer_topic_connect
       bgpview_io_kafka_producer_topic_connect gettimeofday w = Val r w') \/
  bgpview_io_kafka_start IDENTITY_MAX_LEN
    BGPVIEW_IO_KAFKA_CONNECT_MAX_RETRIES
    bgpview_io_kafka_consumer_connect bgpview_io_kafka_producer_connect
    bgpview_io_kafka_consumer_topic_connect
    bgpview_io_kafka_producer_topic_connect gettimeofday w = Err w' ->
  exists k rest,
    (k <= Z.to_nat BGPVIEW_IO_KAFKA_CONNECT_MAX_RETRIES)%nat /\
    kr_log w' = kr_log w ++ attempts_log k 10 ++ rest /\
    Forall quiet_event rest /\
    length (filter (fun e => is_connect e = true) (attempts_log k 10)) = k /\
    omap sleep_of (attempts_log k 10) = backoff_waits (k - 1) 10 /\
    Forall (fun s => 10 <= s <= 180) (backoff_waits (k - 1) 10).
Proof.
  intros Hrun.
  assert (Hpost : post
            (bgpview_io_kafka_start IDENTITY_MAX_LEN
               BGPVIEW_IO_KAFKA_CONNECT_MAX_RETRIES
               bgpview_io_kafka_consumer_connect
               bgpview_io_kafka_producer_connect
               bgpview_io_kafka_consumer_topic_connect
               bgpview_io_kafka_producer_topic_connect gettimeofday w)
            (fun _ w' => exists k rest,
               (k <= Z.to_nat BGPVIEW_IO_KAFKA_CONNECT_MAX_RETRIES)%nat /\
               kr_log w' = kr_log w ++ attempts_log k 10 ++ rest /\
               Forall quiet_event rest)
            (fun w' => exists k rest,
               (k <= Z.to_nat BGPVIEW_IO_KAFKA_CONNECT_MAX_RETRIES)%nat /\
               kr_log w' = kr_log w ++ attempts_log k 10 ++ rest /\
               Forall quiet_event rest)).
  { unfold bgpview_io_kafka_start. cbv zeta. apply post_bind.
    eapply post_mono; [apply start_loop_log| |]; cbv beta zeta.
    2:{ intros w1 (k & Hk & Hlog & _). exists k, [].
        rewrite app_nil_r. repeat split; [exact Hk|exact Hlog|constructor]. }
    intros _ w1 (k & Hk & Hlog & _).
    unfold bind at 1, get at 1.
    destruct (connected (kr_client w1) =? 0).
    { cbn. exists k, []. rewrite app_nil_r.
      repeat split; [exact Hk|exact Hlog|constructor]. }
    apply post_bind. unfold kafka_topic_connect.
    eapply post_mono; [apply topic_connect_loop_quiet| |]; cbv beta zeta.
    2:{ intros w2 (l & Hl & Hq). exists k, l. rewrite Hl, Hlog, <- app_assoc.
        repeat split; assumption. }
    intros r w2 (l & Hl & Hq).
    destruct (negb (r =? 0)).
    { cbn. exists k, l. rewrite Hl, Hlog, <- app_assoc.
      repeat split; assumption. }
    unfold bind at 1, get at 1.
    destruct (bool_decide _);
      unfold bind, kafka_log, ret; cbn [post kr_log].
    - exists k, (l ++ [EvMembersUpdate gettimeofday]).
      rewrite Hl, Hlog, <- !app_assoc. repeat split; [exact Hk|].
      apply Forall_app; split; [exact Hq|repeat constructor].
    - exists k, l. rewrite Hl, Hlog, <- app_assoc.
      repeat split; assumption. }
  assert (Hw' : exists k rest,
             (k <= Z.to_nat BGPVIEW_IO_KAFKA_CONNECT_MAX_RETRIES)%nat /\
             kr_log w' = kr_log w ++ attempts_log k 10 ++ rest /\
             Forall quiet_event rest).
  { destruct Hrun as [[r Hrun]|Hrun]; rewrite Hrun in Hpost; exact Hpost. }
  destruct Hw' as (k & rest & Hk & Hlog & Hq).
  exists k, rest. destruct (attempts_log_sleeps k 10) as [Hs Hc].
  repeat split; try assumption.
  apply backoff_waits_bounds. lia.
Qed.

Lemma start_loop_never_connects (n : nat) :
  forall wait w,
    mode (kr_client w) <> BGPVIEW_IO_KAFKA_MODE_AUTO_CONSUMER ->
    connected (kr_client w) = 0 ->
    never_connects
      (connect_of (mode (kr_client w)) bgpview_io_kafka_consumer_connect
         bgpview_io_kafka_producer_connect) ->
    exists w',
      start_loop n wait w = Val tt w' /\
      kr_log w' = kr_log w ++ attempts_log n wait /\
      connected (kr_client w') = 0.
Proof.
  induction n as [|n IH]; intros wait w Hmode Hc Hf.
  - exists w. cbn. rewrite app_nil_r. auto.
  - cbn [kafka_start_loop]. unfold bind at 1, get at 1.
    rewrite Hc. cbn [Z.eqb negb].
    unfold bind at 1, kafka_connect at 1. unfold bind at 1, get at 1.
    destruct (Hf (kr_client w)) as (Hr & Hc1 & Hm1).
    destruct (mode (kr_client w)) eqn:Hm; [| |contradiction|];
      cbn [connect_of] in Hr, Hc1, Hm1, Hf;
      unfold bind at 1, kafka_log at 1;
      unfold bind at 1, kafka_set_client at 1; unfold ret at 1;
      cbn [kr_client kr_log];
      rewrite Hr; cbn [Z.eqb negb];
      unfold bind at 1, get at 1; cbn [kr_client kr_log];
      rewrite Hc1; cbn [Z.eqb andb].
    all: destruct n as [|n];
      [ eexists; split; [reflexivity|]; cbn [kr_log kr_client attempts_log];
        split; [reflexivity|exact Hc1]
      | change (Z.of_nat (Datatypes.S n) >? 0) with true; cbv iota;
        unfold bind at 1, kafka_log at 1; cbn [kr_client kr_log] ].
    all: match goal with
         | |- exists w', kafka_start_loop _ _ ?m ?wt ?w1 = _ /\ _ =>
             destruct (IH wt w1) as (w' & Hrun & Hlog & Hc');
             [ cbn [kr_client]; rewrite Hm1; discriminate
             | exact Hc1
             | cbn [kr_client]; rewrite Hm1; exact Hf
             | exists w'; split; [exact Hrun|]; split; [|exact Hc'];
               rewrite Hlog; cbn [kr_log]; rewrite <- !app_assoc;
               reflexivity ]
         end.
Qed.

(** X16. When the connect function of the client's mode keeps succeeding
    without the connection coming up, the start-up makes exactly
    [BGPVIEW_IO_KAFKA_CONNECT_MAX_RETRIES] attempts, sleeps between each
    two of them for the doubled waits, and then gives up with an error
    without touching a topic. *)
Theorem kafka_start_gives_up (w : kafka_run) :
  mode (kr_client w) <> BGPVIEW_IO_KAFKA_MODE_AUTO_CONSUMER ->
  connected (kr_client w) = 0 ->
  never_connects
    (connect_of (mode (kr_client w)) bgpview_io_kafka_consumer_connect
       bgpview_io_kafka_producer_connect) ->
  exists w',
    bgpview_io_kafka_start IDENTITY_MAX_LEN
      BGPVIEW_IO_KAFKA_CONNECT_MAX_RETRIES
      bgpview_io_kafka_consumer_connect bgpview_io_kafka_producer_connect
      bgpview_io_kafka_consumer_topic_connect
      bgpview_io_kafka_producer_topic_connect gettimeofday w = Err w' /\
    kr_log w' =
      kr_log w ++
      attempts_log (Z.to_nat BGPVIEW_IO_KAFKA_CONNECT_MAX_RETRIES) 10 /\
    omap sleep_of
      (attempts_log (Z.to_nat BGPVIEW_IO_KAFKA_CONNECT_MAX_RETRIES) 10) =
      backoff_waits (Z.to_nat BGPVIEW_IO_KAFKA_CONNECT_MAX_RETRIES - 1) 10.
Proof.
  intros Hmode Hc Hf.
  destruct (start_loop_never_connects
              (Z.to_nat BGPVIEW_IO_KAFKA_CONNECT_MAX_RETRIES) 10 w
              Hmode Hc Hf) as (w' & Hrun & Hlog & Hc').
  exists w'. split; [|split; [exact Hlog|apply attempts_log_sleeps]].
  unfold bgpview_io_kafka_start. cbv zeta.
  erewrite bind_val by exact Hrun.
  unfold bind, get. rewrite Hc'. reflexivity.
Qed.

Lemma start_loop_connected (n : nat) (wait : Z) (w : kafka_run) :
  connected (kr_client w) <> 0 -> start_loop n wait w = Val tt w.
Proof.
  intros Hc. destruct n as [|n]; [reflexivity|].
  cbn [kafka_start_loop]. unfold bind, get.
  rewrite (proj2 (Z.eqb_neq _ _) Hc). reflexivity.
Qed.

(** X17. When the first connection attempt brings the connection up, the
    start-up makes that one attempt and does not sleep; it then connects
    the topics of the client's mode, in the order of their IDs, and a
    producer, and only a producer, sends a members update after that. *)
Theorem kafka_start_connects (w : kafka_run) (ns : list byte) :
  connected (kr_client w) = 0 ->
  0 < BGPVIEW_IO_KAFKA_CONNECT_MAX_RETRIES ->
  namespace (kr_client w) = Some ns ->
  mode (kr_client w) <> BGPVIEW_IO_KAFKA_MODE_AUTO_CONSUMER ->
  (forall id,
     topic_skipped (mode (kr_client w)) id = false ->
     rkt (topics (kr_client w) id) = false /\
     (identity (kr_client w) = None ->
      id <> BGPVIEW_IO_KAFKA_TOPIC_ID_PFXS /\
      id <> BGPVIEW_IO_KAFKA_TOPIC_ID_PEERS) /\
     Z.of_nat
       (length (topic_full_name ns (identity (kr_client w))
                  (channel (kr_client w)) id))
     < IDENTITY_MAX_LEN) ->
  connects_at_once
    (connect_of (mode (kr_client w)) bgpview_io_kafka_consumer_connect
       bgpview_io_kafka_producer_connect) ->
  sets_handle
    (topic_connect_of (mode (kr_client w))
       bgpview_io_kafka_consumer_topic_connect
       bgpview_io_kafka_producer_topic_connect) ->
  exists w',
    bgpview_io_kafka_start IDENTITY_MAX_LEN
      BGPVIEW_IO_KAFKA_CONNECT_MAX_RETRIES
      bgpview_io_kafka_consumer_connect bgpview_io_kafka_producer_connect
      bgpview_io_kafka_consumer_topic_connect
      bgpview_io_kafka_producer_topic_connect gettimeofday w = Val 0 w' /\
    kr_log w' =
      kr_log w ++ [EvConnect] ++
      map (fun id =>
             EvTopicConnect
               (topic_full_name ns (identity (kr_client w))
                  (channel (kr_client w)) id))
        (List.filter
           (fun id => negb (topic_skipped (mode (kr_client w)) id))
           topic_ids) ++
      (if bool_decide (mode (kr_client w) = BGPVIEW_IO_KAFKA_MODE_PRODUCER)
       then [EvMembersUpdate gettimeofday] else []).
Proof.
  intros Hc Hmax Hns Hmode Hok Hcon Hf.
  destruct (Hcon (kr_client w)) as (Hr & Hc1 & Hm1 & Hn1 & Hi1 & Hch1 & Ht1).
  set (c1 := snd (connect_of (mode (kr_client w))
                    bgpview_io_kafka_consumer_connect
                    bgpview_io_kafka_producer_connect (kr_client w))) in *.
  set (w1 := {| kr_client := c1; kr_log := kr_log w ++ [EvConnect] |}).
  assert (Hloop : start_loop
                    (Z.to_nat BGPVIEW_IO_KAFKA_CONNECT_MAX_RETRIES) 10 w
                  = Val tt w1).
  { destruct (Z.to_nat BGPVIEW_IO_KAFKA_CONNECT_MAX_RETRIES) as [|n] eqn:Hn;
      [lia|].
    cbn [kafka_start_loop]. unfold bind at 1, get at 1.
    rewrite Hc. cbn [Z.eqb negb].
    unfold bind at 1, kafka_connect at 1. unfold bind at 1, get at 1.
    subst w1 c1.
    destruct (mode (kr_client w)) eqn:Hm; [| |contradiction|];
      cbn [connect_of] in Hr, Hc1 |- *;
      unfold bind at 1, kafka_log at 1;
      unfold bind at 1, kafka_set_client at 1; unfold ret at 1;
      cbn [kr_client kr_log];
      rewrite Hr; cbn [Z.eqb negb];
      unfold bind at 1, get at 1; cbn [kr_client kr_log];
      rewrite (proj2 (Z.eqb_neq _ _) Hc1); cbn [andb];
      apply start_loop_connected; exact Hc1. }
  unfold bgpview_io_kafka_start. cbv zeta.
  erewrite bind_val by exact Hloop.
  unfold bind at 1, get at 1. cbn [kr_client w1].
  rewrite (proj2 (Z.eqb_neq _ _) Hc1).
  destruct (topic_connect_loop_run IDENTITY_MAX_LEN
              bgpview_io_kafka_consumer_topic_connect
              bgpview_io_kafka_producer_topic_connect ns topic_ids w1)
    as (w2 & Hrun & Hlog & Hmd & _); cbn [kr_client kr_log w1].
  - rewrite Hn1. exact Hns.
  - rewrite Hm1. exact Hmode.
  - intros id _ Hsk. rewrite Hm1 in Hsk. rewrite Ht1, Hi1, Hch1.
    apply Hok. exact Hsk.
  - rewrite Hm1. exact Hf.
  - apply (bool_decide_unpack _). vm_compute. exact I.
  - unfold kafka_topic_connect. erewrite bind_val by exact Hrun.
    cbn [Z.eqb negb]. unfold bind at 1, get at 1.
    cbn [kr_client kr_log w1] in Hlog, Hmd.
    rewrite Hmd, Hm1. rewrite Hm1, Hi1, Hch1 in Hlog.
    destruct (bool_decide _);
      unfold bind, kafka_log, ret; eexists; (split; [reflexivity|]);
      cbn [kr_log]; rewrite Hlog, <- ?app_assoc, ?app_nil_r; reflexivity.
Qed.

End KafkaStartFacts.

Lemma kafka_start_backoff_witness :
  bgpview_io_kafka_start 1024 5 connect_stays_down connect_stays_down
    topic_connect_sets_handle topic_connect_sets_handle 0
    {| kr_client := kafka_producer_fresh; kr_log := [] |}
  = Err {| kr_client := kafka_producer_fresh; kr_log := attempts_log 5 10 |}
  /\
  exists k rest,
    (k <= Z.to_nat 5)%nat /\
    attempts_log 5 10 = [] ++ attempts_log k 10 ++ rest /\
    Forall quiet_event rest /\
    length (filter (fun e => is_connect e = true) (attempts_log k 10)) = k /\
    omap sleep_of (attempts_log k 10) = backoff_waits (k - 1) 10 /\
    Forall (fun s => 10 <= s <= 180) (backoff_waits (k - 1) 10).
Proof.
  assert (Hi : bgpview_io_kafka_start 1024 5 connect_stays_down
                 connect_stays_down topic_connect_sets_handle
                 topic_connect_sets_handle 0
                 {| kr_client := kafka_producer_fresh; kr_log := [] |}
               = Err {| kr_client := kafka_producer_fresh;
                        kr_log := attempts_log 5 10 |})
    by (vm_compute; reflexivity).
  split; [exact Hi|].
  exact (kafka_start_backoff 1024 5 connect_stays_down connect_stays_down
           topic_connect_sets_handle topic_connect_sets_handle 0
           {| kr_client := kafka_producer_fresh; kr_log := [] |}
           {| kr_client := kafka_producer_fresh;
              kr_log := attempts_log 5 10 |}
           (or_intror Hi)).
Defined.

Lemma kafka_start_gives_up_witness :
  mode kafka_producer_fresh <> BGPVIEW_IO_KAFKA_MODE_AUTO_CONSUMER /\
  connected kafka_producer_fresh = 0 /\
  never_connects
    (connect_of (mode kafka_producer_fresh) connect_stays_down
       connect_stays_down) /\
  exists w',
    bgpview_io_kafka_start 1024 5 connect_stays_down connect_stays_down
      topic_connect_sets_handle topic_connect_sets_handle 0
      {| kr_client := kafka_producer_fresh; kr_log := [] |} = Err w' /\
    kr_log w' = [] ++ attempts_log (Z.to_nat 5) 10 /\
    omap sleep_of (attempts_log (Z.to_nat 5) 10) =
      backoff_waits (Z.to_nat 5 - 1) 10.
Proof.
  assert (Hm : mode kafka_producer_fresh
               <> BGPVIEW_IO_KAFKA_MODE_AUTO_CONSUMER)
    by (vm_compute; discriminate).
  assert (Hc : connected kafka_producer_fresh = 0) by reflexivity.
  assert (Hf : never_connects
                 (connect_of (mode kafka_producer_fresh) connect_stays_down
                    connect_stays_down))
    by (intros c; repeat split; reflexivity).
  split; [exact Hm|]. split; [exact Hc|]. split; [exact Hf|].
  exact (kafka_start_gives_up 1024 5 connect_stays_down connect_stays_down
           topic_connect_sets_handle topic_connect_sets_handle 0
           {| kr_client := kafka_producer_fresh; kr_log := [] |}
           Hm Hc Hf).
Defined.

Lemma kafka_topic_connect_names_witness :
  exists w',
    kafka_topic_connect 1024 topic_connect_sets_handle
      topic_connect_sets_handle
      {| kr_client := kafka_producer_pfxs_connected; kr_log := [] |}
    = Val 0 w' /\
    kr_log w' =
      [] ++
      map EvTopicConnect
        [dotted [[char_b; char_g; char_p]; [char_a];
                 names BGPVIEW_IO_KAFKA_TOPIC_ID_PEERS];
         dotted [[char_b; char_g; char_p];
                 names BGPVIEW_IO_KAFKA_TOPIC_ID_META];
         dotted [[char_b; char_g; char_p];
                 names BGPVIEW_IO_KAFKA_TOPIC_ID_MEMBERS]].
Proof.
  assert (Hns : namespace kafka_producer_pfxs_connected
                = Some [char_b; char_g; char_p]) by reflexivity.
  assert (Hm : mode kafka_producer_pfxs_connected
               <> BGPVIEW_IO_KAFKA_MODE_AUTO_CONSUMER)
    by (vm_compute; discriminate).
  assert (Hidt : mode kafka_producer_pfxs_connected
                 <> BGPVIEW_IO_KAFKA_MODE_GLOBAL_CONSUMER ->
                 identity kafka_producer_pfxs_connected = Some [char_a])
    by (intros _; reflexivity).
  assert (Hfit : forall id,
            id ∈ [BGPVIEW_IO_KAFKA_TOPIC_ID_PFXS;
                  BGPVIEW_IO_KAFKA_TOPIC_ID_PEERS;
                  BGPVIEW_IO_KAFKA_TOPIC_ID_META;
                  BGPVIEW_IO_KAFKA_TOPIC_ID_MEMBERS] ->
            Z.of_nat
              (length
                 match id with
                 | BGPVIEW_IO_KAFKA_TOPIC_ID_PFXS
                 | BGPVIEW_IO_KAFKA_TOPIC_ID_PEERS =>
                     dotted [[char_b; char_g; char_p]; [char_a]; names id]
                 | BGPVIEW_IO_KAFKA_TOPIC_ID_META
                 | BGPVIEW_IO_KAFKA_TOPIC_ID_MEMBERS =>
                     dotted [[char_b; char_g; char_p]; names id]
                 | BGPVIEW_IO_KAFKA_TOPIC_ID_GLOBALMETA =>
                     match channel kafka_producer_pfxs_connected with
                     | None => dotted [[char_b; char_g; char_p]; names id]
                     | Some ch =>
                         dotted [[char_b; char_g; char_p]; names id; ch]
                     end
                 end) < 1024)
    by (intros id _; destruct id; vm_compute; reflexivity).
  assert (Hf : sets_handle
                 (topic_connect_of (mode kafka_producer_pfxs_connected)
                    topic_connect_sets_handle topic_connect_sets_handle))
    by (intros c id name; reflexivity).
  destruct (kafka_topic_connect_names 1024 topic_connect_sets_handle
              topic_connect_sets_handle
              {| kr_client := kafka_producer_pfxs_connected; kr_log := [] |}
              [char_b; char_g; char_p] [char_a] Hns Hm Hidt Hfit Hf)
    as (w' & Hrun & Hlog & _).
  exists w'. split; [exact Hrun|exact Hlog].
Defined.

Lemma kafka_start_connects_witness :
  exists w',
    bgpview_io_kafka_start 1024 5 connect_comes_up connect_comes_up
      topic_connect_sets_handle topic_connect_sets_handle 1500000000
      {| kr_client := kafka_producer_fresh; kr_log := [] |} = Val 0 w' /\
    kr_log w' =
      [] ++ [EvConnect] ++
      map (fun id =>
             EvTopicConnect
               (topic_full_name [char_b; char_g; char_p] (Some [char_a])
                  None id))
        (List.filter
           (fun id =>
              negb (topic_skipped BGPVIEW_IO_KAFKA_MODE_PRODUCER id))
           topic_ids) ++
      (if bool_decide (BGPVIEW_IO_KAFKA_MODE_PRODUCER
                       = BGPVIEW_IO_KAFKA_MODE_PRODUCER)
       then [EvMembersUpdate 1500000000] else []).
Proof.
  assert (Hc : connected kafka_producer_fresh = 0) by reflexivity.
  assert (Hmax : 0 < 5) by lia.
  assert (Hns : namespace kafka_producer_fresh
                = Some [char_b; char_g; char_p]) by reflexivity.
  assert (Hm : mode kafka_producer_fresh
               <> BGPVIEW_IO_KAFKA_MODE_AUTO_CONSUMER)
    by (vm_compute; discriminate).
  assert (Hok : forall id,
            topic_skipped (mode kafka_producer_fresh) id = false ->
            rkt (topics kafka_producer_fresh id) = false /\
            (identity kafka_producer_fresh = None ->
             id <> BGPVIEW_IO_KAFKA_TOPIC_ID_PFXS /\
             id <> BGPVIEW_IO_KAFKA_TOPIC_ID_PEERS) /\
            Z.of_nat
              (length (topic_full_name [char_b; char_g; char_p]
                         (identity kafka_producer_fresh)
                         (channel kafka_producer_fresh) id)) < 1024)
    by (intros id _; split; [reflexivity|];
        split; [intros H; discriminate H
               |destruct id; vm_compute; reflexivity]).
  assert (Hcon : connects_at_once
                   (connect_of (mode kafka_producer_fresh) connect_comes_up
                      connect_comes_up))
    by (intros c; repeat split; discriminate).
  assert (Hf : sets_handle
                 (topic_connect_of (mode kafka_producer_fresh)
                    topic_connect_sets_handle topic_connect_sets_handle))
    by (intros c id name; reflexivity).
  exact (kafka_start_connects 1024 5 connect_comes_up connect_comes_up
           topic_connect_sets_handle topic_connect_sets_handle 1500000000
           {| kr_client := kafka_producer_fresh; kr_log := [] |}
           [char_b; char_g; char_p] Hc Hmax Hns Hm Hok Hcon Hf).
Defined.
